(* ===== verification/_CoqProject ===== *)
-Q . S2P
Prelude.v
Config.v
PyVal.v
Protocol.v
Blocks.v
BlocksFacts.v
BlocksSpec.v
Stripes.v
BenchBlocks.v
Replay.v
Channel.v
ChannelFacts.v
ChannelSpec.v
Handshake.v
RateLimit.v
Mux.v
Connection.v
BenchMux.v
Trust.v
TlsMode.v
Peers.v
Meeting.v
StoreInterface.v
Replication.v
ReplicationFacts.v
ReplicationSpec.v
ReplicationBounds.v
Interleave.v
ReplicationFrame.v
Overlap.v
OverlapFacts.v
OverlapInv.v
OverlapSpec.v
OverlapLive.v
RpcAuth.v
Utf8.v
Json.v
JsonSpec.v
TrustDisk.v
RpcClient.v
Cli.v
RpcServer.v
RpcSpec.v
RpcClientSpec.v
RpcDispatch.v
RpcDispatchSpec.v
NodeStore.v
RpcAnswers.v
CliSpec.v
Cluster.v
ClusterSpec.v
ClusterLife.v
Daemon.v
DaemonSpec.v
Discovery.v
Demo.v
DemoSpec.v
DemoMain.v
DemoMainSpec.v
JsonUse.v
DemoRound.v
BenchRpc.v
