(* ===== verification/Prelude.v ===== *)
(** * memnode: a verified model of the distributed RAM pool

    memnode (src/memnode) is a Python/asyncio daemon that pools the memory of
    several machines.  Each node keeps blocks of bytes in a striped in-memory
    store with a quota; nodes find each other, run an authenticated handshake,
    and exchange blocks over encrypted, multiplexed channels; local programs
    use a node through an authenticated RPC server.  This library models the
    program's own logic as executable Rocq functions, one file per component,
    and proves what makes each component correct.

    ** The parts and their files

    - [Prelude]: Python exceptions ([exn], [result]), the state monad with
      exceptions ([M]) and its run lemmas, the predicate [preserves], ordered
      dictionaries ([dget], [dset], [ddel]), sums over maps, division of data
      into pieces, tactics ([zcase], [mrun], [pres]) and the hint database.
    - [Config] (config.py): the limits, with the relations relied upon.
    - [PyVal]: the dynamic values that JSON and msgpack carry, with Python's
      truth, equality, comparison, [.get] and indexing; hexadecimal text.
    - [Protocol] (protocol.py): big-endian integers, streams, frames, messages.
    - [Blocks] (blocks.py): [BlockManager] with its stripes, key stripes,
      quota counter, random eviction and every public method; [BlocksFacts]
      has the invariant and the effect of each method, [BlocksSpec] the
      abstract store, the refinement and the claims, [Stripes] the
      equivalence with a store without stripes.
    - [Replay], [Channel] (security.py): the anti-replay window and
      [SecureChannel] with key schedule, rekeying, [send] and [recv];
      [ChannelFacts] and [ChannelSpec] the proofs.
    - [Handshake] (security.py): [perform_handshake].
    - [RateLimit] (ratelimit.py): [HandshakeGuard].
    - [Mux] (mux.py): [ChannelMux] as steps of senders, writer and reader;
      [Connection] the multiplexer over the [SecureChannel] it is built on.
    - [Trust] (peers.py): [TrustStore] over the JSON document in its file;
      [TrustDisk] the same store down to the text of the file and of the side
      file that replaces it, what survives a restart or a crash, and that the
      two agree.
    - [TlsMode] (tlsmode.py and the settings built in main.py).
    - [Peers] (peers.py): [PeerManager]: admission, consent, registry,
      placement; [Meeting] [handle_incoming] and [connect_to] whole, over the
      handshake they run.
    - [StoreInterface]: the type class [BlockStore] through which other
      components use the block store, its laws [BlockStoreLaws], and the
      instance that the block manager provides.
    - [Replication] (replication.py): [ReplicationCoordinator] over any
      [BlockStore]; [ReplicationFacts], [ReplicationSpec] (transfers end to
      end), [ReplicationBounds] (the reassembly invariant), [Interleave]
      (transfers whose messages arrive mixed) and [ReplicationFrame] (what
      handling a message of one request leaves alone) the proofs.
    - [Overlap] (replication.py, every request of any number of nodes at once):
      worlds of nodes and messages in flight and their steps; [OverlapFacts]
      the phases a request goes through, [OverlapInv] the invariant of every
      reachable world, [OverlapSpec] the claims and an executable scheduler,
      [OverlapLive] the worlds in which nothing is cut off or stalls and
      callers return once answered, and that every request is answered there.
    - [RpcAuth] (rpcauth.py), [RpcServer] (rpc.py: frames, authentication,
      codec negotiation, request loop, [start]) with [RpcSpec]; [RpcDispatch]
      (rpc.py: [_dispatch] and its operations over a [Node], with the
      operations that wait for other nodes as the interface [Remote]) with
      [RpcDispatchSpec], [NodeStore] (a node over a block manager) and
      [RpcAnswers] (the type of every answer, the equivalence of the two
      codecs).
    - [Cluster] (replication.py: [store_remote], [load_remote],
      [load_remote_by_key_anywhere], [free_remote] from their cut parts): the
      instance of [Remote] whose world is a network of such nodes;
      [ClusterSpec] the overflow of a store, end to end, [ClusterLife] the
      life of a block on a chosen peer.
    - [Utf8]: Python's decoder with [errors="replace"].
    - [Json]: [json.dumps] and [json.loads] of the standard library, the codec
      of the control plane ([json_codec]) and the text of the trust file and
      of the command line's output; it models the language's library, so that
      what the program's own code does with it can be stated; [JsonSpec] the
      round trip and totality, [JsonUse] the sizes of requests and answers
      against the limits.
    - [RpcClient] (cli.py: token lookup, frames, authentication, [_call]) with
      [RpcClientSpec], where client and server run against each other; [Cli]
      (cli.py: [_run] with every command, [main]) with [CliSpec].
    - [Daemon] (main.py: [run], options, event loop) with [DaemonSpec];
      [Discovery] (discovery.py), its claims in the same file.
    - [Demo] (demo/demo_client.py: the call and the commands) with [DemoSpec];
      [DemoMain] (its [main], the watch loop, the sizes it prints) with
      [DemoMainSpec]; [DemoRound] the whole program against a node's RPC
      server, over the socket.
    - [BenchBlocks], [BenchMux], [BenchRpc] (bench/): the workloads of the
      benchmarks and the counts they report.

    ** How the code is modelled

    A method is a function of the object's state, in the monad [M S A], which
    maps a state to the state after and a result or an exception; an exception
    keeps the changes made before it.  Loops that are not structural carry
    fuel: [recv] one turn per buffered byte and one for the end of the stream
    ([recv_fuel_enough]), the RPC request loop one turn more than there are
    unread bytes ([client_session_ends]), [pieces] one per byte of the data,
    the demo client's receive loop one turn per segment and one for the end
    of the stream ([recv_exact_is_readexactly]: the loop never stops for want
    of fuel), its upload loop one per byte and one; the eviction loop is
    structural in the list of stripes; the JSON parser has one unit per byte,
    for nesting and for the items of a container ([loads_returns]).

    Concurrency.  The daemon is one event loop; tasks interleave only where an
    [await] suspends.  Taking an asyncio lock that is free does not suspend,
    and no lock of the block store, the registry or the guard is held across
    a suspension, so these methods run as single steps.  Where code does wait
    (for a reply, a handshake, a free slot, a write), the method is cut
    there: a first part up to the wait and a second part that takes what the
    wait gave, a timeout included ([store_remote_begin]/[store_remote_end],
    [incoming_begin]/[incoming_finish], [send]/[resume]/[writer_turn]/
    [writer_sent]).  [Mux.step], [ReplicationBounds.rstep], [Overlap.wstep] and
    its part [OverlapLive.calm_step] (with the results callers returned beside
    the world) are the step relations whose runs the invariants quantify over.
    The handlers of [Replication] take [send_to] as immediate; a send queue that is full would
    suspend them between two chunks, which changes only how the messages of
    different transfers are mixed: [Interleave] is about any such mixture, and
    [Connection] about any interleaving of the tasks of one connection.
    [Cluster] runs a request in the schedule in which nothing else happens
    between the two nodes; [Overlap] has every schedule, with loss, timeouts,
    stalled transfers and peers that come and go, and takes only the chunks of
    one payload to be queued together.

    Numbers are Python's unbounded integers ([Z]); sequence numbers are eight
    bytes and lengths four, with the failures of [struct.pack] written out.
    Times are integers in microseconds.  Strings are their UTF-8 bytes.
    Exceptions raised by the language or a library carry no text, and the text
    of an exception is its message (Python quotes that of a [KeyError]).  Dictionary
    keys that come from a message are compared as whole values; a list or a
    dictionary cannot be a key and raises.

    Parameters.  HKDF, ChaCha20-Poly1305 ([crypto]), SHA-256, Ed25519, X25519
    ([asym]), HMAC and msgpack ([codec]) are arguments, with their documented
    laws as type classes ([CryptoLaws], [AsymLaws], [CodecLaws]) where a theorem
    needs them; toy instances show that the laws can hold.  The RPC theorems
    hold for any JSON codec; [json_codec] is the one Python has, and
    [json_codec_laws] discharges its law, with the text of floats as its
    parameter.
    Random draws and clock readings are arguments.

    ** What is proved

    - Block store: refinement of an abstract quota-bounded map in every
      reachable state; the byte counter is exact and within the quota; stored
      blocks come back; pinned blocks are never evicted; freeing and
      re-binding release exactly the right bytes; when eviction gives up;
      neither the number of stripes nor the key hash can be observed.
    - Channel: whatever is sent arrives in order across rekeys; nonces are
      used once; every delivered message is authentic and fresh; the replay
      bitmap is exact; a receive does bounded work.
    - Handshake: two honest ends agree; success implies the peer signed
      exactly the exchanged hellos; reflection is refused.
    - Connection: the other end's handler gets, in order and once each, the
      messages whose bytes arrived, of every stream the first ones queued; the
      read loop ends.
    - Nodes that meet: [connect_to] and [handle_incoming] complete together
      and leave each node known at the other; whatever connects, only an
      admitted, pinned, authenticated and accepted peer is registered.
    - Guard, multiplexer, registry, trust store, TLS: rate and concurrency
      limits; order, fairness and backpressure; registration needs consent;
      handshake slots balance, and the guard's counters are the admissions that
      have not left; trust refines its abstract meaning, and its file survives
      restarts and crashes; pins are enforced.
    - Replication: a block stored on or loaded from a peer, whole or in
      chunks, is the one asked for, with the peer's own outcome returned;
      reassembly is bounded whatever peers send; stores that arrive mixed are
      served as if one after the other.
    - RPC: no effect without authentication; a session's answers in order;
      bounded reads; termination; data stored over RPC comes back; every
      answer has the protocol's type; the dispatcher treats the client's
      binary requests as their JSON originals.
    - Nodes together: a store that overflows goes to a peer with the largest
      advertised quota, over the peer protocol, and is found there by a later
      load if nobody else holds the key; a
      block on a chosen peer is stored, loaded, freed and gone.  Requests that
      overlap: an answer tells what happened to its own request at the peer, a
      store is done at most once and not at all when refused, and a delivery
      runs one whole operation of its request or leaves the blocks alone; and
      every request gets its answer, and its caller returns it, when nothing is
      cut off or stalls.
    - Client and daemon: one call through both ends; a wrong token; the token
      a client finds is the daemon's; what the command line prints and
      returns; a daemon opens nothing that is not guarded (the control port by
      authentication or the loopback test, the Unix socket by its mode), whatever
      its options and whatever fails; discovery does not dial its own service.
    - Demo: the receive loop is [readexactly]; an upload sends the file, every
      piece within the limit of a request; a clean-up frees every chunk; on a
      node with room, its RPC authentication off, the two together leave the node
      as it was, byte for byte over the socket; a daemon that
      is not there gives exit code 1.
    - Benchmarks: a control message waits for one chunk; the codec benchmark's
      assertions hold and its byte counts are right; the block workloads leave
      what they should; what is reported as operations.
    - JSON: how large a block can be stored and loaded in JSON.
    - Where the code does not do what it says, a theorem states what it does
      ([eviction_gives_up_early], [stale_loop_drops_new_registration],
      [short_push_is_stored], [blocked_senders_stuck],
      [bytes_name_blocks_saving], [non_dict_request_drops_client],
      [overflow_shadowed_by_old_block], [tokenless_client_gets_challenge],
      [oversized_answer_unreadable], [failed_upload_leaves_orphans] and
      others).

    ** Not modelled

    Sockets, TLS and file-system failures (a crash in the middle of saving the
    trust file apart); the moment between the creation of the Unix socket and its
    [chmod]; argparse, logging and the progress
    bar; the zeroconf and qrcode packages (their answers are arguments); the
    interpreter's recursion limit; of the benchmarks the clocks, the statistics
    of the samples, the printing and the mains that repeat the runs.  Of
    overlapping requests: a sender held up between two chunks of one payload
    while its peer connects anew. *)
From stdpp Require Export base tactics list gmap strings pretty sorting.
From Stdlib Require Export ZArith Lia.
From Stdlib Require Import Strings.Byte.
From stdpp Require Import options.

(** ** Notation scope of the development *)

Declare Scope memnode_scope.
Delimit Scope memnode_scope with mem.
#[global] Open Scope Z_scope.
#[global] Open Scope memnode_scope.

(** ** Bytes

    Python [bytes] are lists of [Byte.byte]; [len] is Python's [len] on them
    (and on any other sequence), as an integer. *)

Abbreviation byte := Init.Byte.byte.
Abbreviation bytes := (list Init.Byte.byte).

Definition len {A} (l : list A) : Z := Z.of_nat (length l).

#[global] Instance byte_eq_decision : EqDecision byte.
Proof. intros x y. destruct (Byte.byte_eq_dec x y); [by left | by right]. Defined.

(** The byte with the low eight bits of [z], and back. *)
Definition byte_of_Z (z : Z) : byte :=
  match Byte.of_N (Z.to_N (z mod 256)) with
  | Some b => b
  | None => Byte.x00
  end.

Definition Z_of_byte (b : byte) : Z := Z.of_N (Byte.to_N b).

Lemma Z_of_byte_range b : 0 <= Z_of_byte b < 256.
Proof. unfold Z_of_byte. pose proof (Byte.to_N_bounded b). lia. Qed.

Lemma Z_of_byte_of_Z z : Z_of_byte (byte_of_Z z) = z mod 256.
Proof.
  unfold Z_of_byte, byte_of_Z.
  pose proof (Z.mod_pos_bound z 256 ltac:(lia)).
  destruct (Byte.of_N (Z.to_N (z mod 256))) as [b|] eqn:Hb.
  - apply Byte.to_of_N in Hb. rewrite Hb. lia.
  - apply Byte.of_N_None_iff in Hb. lia.
Qed.

Lemma byte_of_Z_of_byte b : byte_of_Z (Z_of_byte b) = b.
Proof.
  unfold byte_of_Z. rewrite Z.mod_small by apply Z_of_byte_range.
  unfold Z_of_byte. by rewrite N2Z.id, Byte.of_to_N.
Qed.

(** ** Exceptions and results

    The exception classes the program raises or catches.  The message of an
    exception raised by the program's own [raise] statements is modelled; the
    text of an exception raised inside CPython or a library is not (it is only
    logged or echoed in an error reply), so those carry the empty message. *)

Inductive exn_class :=
  | BlockTooLarge | OutOfMemory | FrameTooLarge | ConnectionClosed
  | HandshakeFailed | ReplayDetected | HandshakeRejected | TlsPinMismatch
  | TlsConfigError | RemoteOperationFailed | ValueError | KeyError | TypeError
  | AttributeError | IndexError | StructError | IncompleteReadError
  | TimeoutError | PermissionError | ConnectionError | ConnectionRefusedError
  | RuntimeError | OSError | ZeroDivisionError | AssertionError.

#[global] Instance exn_class_eq_decision : EqDecision exn_class.
Proof. solve_decision. Defined.

Record exn := Exn { exn_cls : exn_class; exn_msg : string }.

#[global] Instance exn_eq_decision : EqDecision exn.
Proof. solve_decision. Defined.

(** An exception raised inside the language or a library. *)
Definition lib_exn (c : exn_class) : exn := Exn c "".

Inductive result (A : Type) :=
  | Ok (a : A)
  | Err (e : exn).
Arguments Ok {A} a.
Arguments Err {A} e.

#[global] Instance result_eq_decision `{EqDecision A} : EqDecision (result A).
Proof. solve_decision. Defined.

Definition result_bind {A B} (r : result A) (f : A -> result B) : result B :=
  match r with
  | Ok a => f a
  | Err e => Err e
  end.

Notation "'let?' x ':=' r 'in' k" := (result_bind r (fun x => k))
  (at level 10, x pattern, r at level 100, k at level 200)
  : memnode_scope.

(** ** A state monad with Python exceptions

    A computation maps the state before to the state after and a result: an
    exception does not undo the state changes made before it was raised. *)

Definition M (S A : Type) : Type := S -> S * result A.

Section monad.
Context {S : Type}.

Definition mret {A} (a : A) : M S A := fun s => (s, Ok a).
Definition mraise {A} (e : exn) : M S A := fun s => (s, Err e).
Definition mlift {A} (r : result A) : M S A := fun s => (s, r).
Definition mget : M S S := fun s => (s, Ok s).
Definition mput (s' : S) : M S unit := fun _ => (s', Ok tt).
Definition mmodify (f : S -> S) : M S unit := fun s => (f s, Ok tt).
Definition mbind_m {A B} (m : M S A) (f : A -> M S B) : M S B := fun s =>
  match m s with
  | (s', Ok a) => f a s'
  | (s', Err e) => (s', Err e)
  end.
(** [try: m except: h]: the handler sees the state as the exception left it;
    [h] answers [None] for an exception the clause does not catch. *)
Definition mtry {A} (m : M S A) (h : exn -> option (M S A)) : M S A := fun s =>
  match m s with
  | (s', Ok a) => (s', Ok a)
  | (s', Err e) =>
      match h e with
      | Some m' => m' s'
      | None => (s', Err e)
      end
  end.
(** [try: m finally: f] for a finalizer that cannot fail. *)
Definition mfinally {A} (m : M S A) (f : S -> S) : M S A := fun s =>
  let '(s', r) := m s in (f s', r).
(** The final state and the outcome of a run. *)
Definition state_after {A} (m : M S A) (s : S) : S := fst (m s).
Definition outcome {A} (m : M S A) (s : S) : result A := snd (m s).
End monad.

Notation "x <- m ;; k" := (mbind_m m (fun x => k))
  (at level 100, m at next level, right associativity) : memnode_scope.
Notation "m ;;; k" := (mbind_m m (fun _ => k))
  (at level 100, right associativity) : memnode_scope.


Section run_lemmas.
Context {S A B : Type} (m : M S A) (f : A -> M S B).

(** Running a sequence from the outcome of its first part. *)
Lemma bind_ok s s' a : m s = (s', Ok a) -> mbind_m m f s = f a s'.
Proof. unfold mbind_m. by intros ->. Qed.

Lemma bind_err s s' e : m s = (s', Err e) -> mbind_m m f s = (s', Err e).
Proof. unfold mbind_m. by intros ->. Qed.

Lemma bind_ok_inv s s' b :
  mbind_m m f s = (s', Ok b) -> exists s1 a, m s = (s1, Ok a) /\ f a s1 = (s', Ok b).
Proof. unfold mbind_m. destruct (m s) as [s1 [a|e]]; intros; naive_solver. Qed.
End run_lemmas.

Lemma lift_inv {S A} (r : result A) (s s' : S) a : mlift r s = (s', Ok a) -> s' = s /\ r = Ok a.
Proof. unfold mlift. by intros [= -> ->]. Qed.

(** Running the primitives. *)
Section run_prims.
Context {S A B : Type} (f : A -> M S B) (g : S -> M S B) (h : unit -> M S B).

Lemma bind_ret a s : mbind_m (mret a) f s = f a s.
Proof. done. Qed.

Lemma bind_lift_ok a s : mbind_m (mlift (Ok a)) f s = f a s.
Proof. done. Qed.

Lemma bind_lift_err e s : mbind_m (mlift (Err e)) f s = (s, Err e).
Proof. done. Qed.

Lemma bind_get s : mbind_m mget g s = g s s.
Proof. done. Qed.

Lemma bind_modify u s : mbind_m (mmodify u) h s = h tt (u s).
Proof. done. Qed.

Lemma bind_raise e s : mbind_m (mraise e) f s = (s, Err e).
Proof. done. Qed.
End run_prims.

Section bind_assoc.
Context {S A B D : Type} (m : M S A) (f : A -> M S B) (g : B -> M S D).

Lemma bind_assoc s : mbind_m (mbind_m m f) g s = mbind_m m (fun a => mbind_m (f a) g) s.
Proof. unfold mbind_m. by destruct (m s) as [s' [a|e]]. Qed.
End bind_assoc.

(** Run the primitives at the head of a sequence. *)
Ltac mrun :=
  repeat first [ rewrite bind_ret | rewrite bind_lift_ok | rewrite bind_lift_err
               | rewrite bind_get | rewrite bind_modify | rewrite bind_raise ].
Ltac mrun_in H :=
  repeat first [ rewrite bind_ret in H | rewrite bind_lift_ok in H | rewrite bind_lift_err in H
               | rewrite bind_get in H | rewrite bind_modify in H | rewrite bind_raise in H ].

(** A predicate kept by a computation whatever its outcome, and the ways the
    combinators keep it. *)

Definition preserves {S A} (I : S -> Prop) (m : M S A) : Prop :=
  forall s, I s -> I (state_after m s).

Section preserves.
Context {S : Type} (I : S -> Prop).

Lemma preserves_ret {A} (a : A) : preserves I (mret a).
Proof. by intros s Hs. Qed.

Lemma preserves_raise {A} e : preserves I (mraise (A:=A) e).
Proof. by intros s Hs. Qed.

Lemma preserves_bind {A B} (m : M S A) (f : A -> M S B) :
  preserves I m -> (forall a, preserves I (f a)) -> preserves I (mbind_m m f).
Proof.
  intros Hm Hf s Hs. specialize (Hm s Hs). revert Hm.
  unfold state_after, mbind_m. destruct (m s) as [s' [a|e]]; simpl; [|done].
  intros Hs'. apply (Hf a s' Hs').
Qed.

Lemma preserves_modify f : (forall s, I s -> I (f s)) -> preserves I (mmodify f).
Proof. intros Hf s Hs. by apply Hf. Qed.

Lemma preserves_lift {A} (r : result A) : preserves I (mlift r).
Proof. by intros s Hs. Qed.

(** What follows a read of the state may depend on that state. *)
Lemma preserves_get {A} (f : S -> M S A) :
  (forall s, I s -> I (state_after (f s) s)) -> preserves I (mbind_m mget f).
Proof. intros Hf s Hs. by apply Hf. Qed.

Lemma preserves_try {A} (m : M S A) h :
  preserves I m -> (forall e m', h e = Some m' -> preserves I m') -> preserves I (mtry m h).
Proof.
  intros Hm Hh s Hs. specialize (Hm s Hs). revert Hm. unfold state_after, mtry.
  destruct (m s) as [s' [a|e]]; simpl; [done|]. intros Hs'.
  destruct (h e) as [m'|] eqn:He; [|done]. by apply (Hh e m' He).
Qed.
End preserves.

(** Reduce [preserves] of a composed computation to its parts. *)
Ltac pres :=
  repeat first
    [ progress intros
    | match goal with
      | |- preserves _ (mbind_m mget _) => fail 1
      | |- preserves _ (mret _) => apply preserves_ret
      | |- preserves _ (mraise _) => apply preserves_raise
      | |- preserves _ (mlift _) => apply preserves_lift
      | |- preserves _ (mbind_m _ _) => apply preserves_bind
      | |- preserves _ (mtry _ _) => apply preserves_try
      | |- preserves _ (if ?b then _ else _) => destruct b
      end ].

(** A predicate that every value a computation returns satisfies. *)

Definition returns {S A} (P : A -> Prop) (m : M S A) : Prop :=
  forall s s' a, m s = (s', Ok a) -> P a.

Section returns.
Context {S : Type}.

Lemma returns_ret {A} (P : A -> Prop) (a : A) : P a -> returns (S := S) P (mret a).
Proof. intros Ha s s' a' [= _ <-]. done. Qed.

Lemma returns_raise {A} (P : A -> Prop) e : returns (S := S) P (mraise e).
Proof. by intros s s' a [=]. Qed.

Lemma returns_bind {A B} (P : B -> Prop) (m : M S A) (f : A -> M S B) :
  (forall a, returns P (f a)) -> returns P (mbind_m m f).
Proof. intros Hf s s' b (s1 & a & _ & H)%bind_ok_inv. by apply (Hf a s1 s'). Qed.

Lemma returns_try {A} (P : A -> Prop) (m : M S A) h :
  returns P m -> (forall e m', h e = Some m' -> returns P m') -> returns P (mtry m h).
Proof.
  intros Hm Hh s s' a. unfold mtry. destruct (m s) as [s1 [x|e]] eqn:Em.
  - intros [= <- <-]. by apply (Hm s s1).
  - destruct (h e) as [m'|] eqn:He; [|done]. by apply (Hh e).
Qed.
End returns.

(** The two together: what follows may rely on what was returned. *)
Lemma preserves_bind_returns {S A B} (I : S -> Prop) (R : A -> Prop) (m : M S A) (f : A -> M S B) :
  preserves I m -> returns R m -> (forall a, R a -> preserves I (f a)) -> preserves I (mbind_m m f).
Proof.
  intros Hm HR Hf s Hs. specialize (Hm s Hs). revert Hm. unfold state_after, mbind_m.
  destruct (m s) as [s' [a|e]] eqn:E; simpl; [|done]. intros Hs'. by apply (Hf a (HR s s' a E)).
Qed.

(** Reduce [returns] of a composed computation to the values it ends in. *)
Ltac rets :=
  repeat first
    [ progress intros
    | match goal with
      | |- returns _ (mret _) => apply returns_ret
      | |- returns _ (mraise _) => apply returns_raise
      | |- returns _ (mbind_m _ _) => apply returns_bind
      | |- returns _ (mtry _ _) => apply returns_try
      | |- returns _ (match ?x with _ => _ end) => destruct x
      | H : context [decide ?P] |- _ => destruct (decide P)
      | H : Some _ = Some _ |- _ => injection H as <-
      end
    | done ].

(** ** Automation *)

Create HintDb memnode.
Create Rewrite HintDb memnode.

(** Case analysis on an integer comparison that blocks the goal. *)
Ltac zcase :=
  match goal with
  | |- context [Z.leb ?a ?b] => destruct (Z.leb_spec a b)
  | |- context [Z.ltb ?a ?b] => destruct (Z.ltb_spec a b)
  | |- context [Z.geb ?a ?b] => rewrite (Z.geb_leb a b); destruct (Z.leb_spec b a)
  | |- context [Z.gtb ?a ?b] => rewrite (Z.gtb_ltb a b); destruct (Z.ltb_spec b a)
  | |- context [Z.eqb ?a ?b] => destruct (Z.eqb_spec a b)
  end.

(** The same for a comparison inside a hypothesis. *)
Ltac zcase_in H :=
  match type of H with
  | context [Z.leb ?a ?b] => destruct (Z.leb_spec a b)
  | context [Z.ltb ?a ?b] => destruct (Z.ltb_spec a b)
  | context [Z.geb ?a ?b] => rewrite (Z.geb_leb a b) in H; destruct (Z.leb_spec b a)
  | context [Z.gtb ?a ?b] => rewrite (Z.gtb_ltb a b) in H; destruct (Z.ltb_spec b a)
  | context [Z.eqb ?a ?b] => destruct (Z.eqb_spec a b)
  end.

(** Clear, simplify and use every equation in the context. *)
Ltac crush := repeat (simplify_eq/= || destruct_and? || split_and?); try done; try lia.

(** ** Lengths *)

Lemma len_nonneg {A} (l : list A) : 0 <= len l.
Proof. unfold len. lia. Qed.

Lemma len_nil {A} : len (@nil A) = 0.
Proof. done. Qed.

Lemma len_cons {A} (x : A) l : len (x :: l) = 1 + len l.
Proof. unfold len. simpl. lia. Qed.

Lemma len_app {A} (l1 l2 : list A) : len (l1 ++ l2) = len l1 + len l2.
Proof. unfold len. rewrite length_app. lia. Qed.

Lemma len_snoc {A} (l : list A) x : len (l ++ [x]) = len l + 1.
Proof. rewrite len_app. done. Qed.

#[export] Hint Rewrite @len_nil @len_cons @len_app : memnode.
#[export] Hint Resolve len_nonneg : memnode.

(** ** Integer sums over lists and finite maps *)

Definition zsum (l : list Z) : Z := foldr Z.add 0 l.

Lemma zsum_cons x l : zsum (x :: l) = x + zsum l.
Proof. done. Qed.

Lemma zsum_app l1 l2 : zsum (l1 ++ l2) = zsum l1 + zsum l2.
Proof. induction l1 as [|x l1 IH]; simpl; [done|]. unfold zsum in *. simpl. lia. Qed.

Lemma zsum_insert (l : list Z) i x y :
  l !! i = Some x -> zsum (<[i:=y]> l) = zsum l - x + y.
Proof.
  revert i. induction l as [|z l IH]; intros [|i] H; simplify_eq/=.
  - lia.
  - rewrite (IH i H). lia.
Qed.

Lemma zsum_nonneg l : Forall (fun z => 0 <= z) l -> 0 <= zsum l.
Proof. induction 1; simpl; lia. Qed.

Lemma zsum_elem_le l x : Forall (fun z => 0 <= z) l -> x ∈ l -> x <= zsum l.
Proof.
  induction 1 as [|y l Hy Hl IH]; intros Hx; [by apply not_elem_of_nil in Hx|].
  apply elem_of_cons in Hx as [->|Hx]; simpl.
  - pose proof (zsum_nonneg l Hl). lia.
  - specialize (IH Hx). lia.
Qed.

Lemma zsum_replicate0 n : zsum (replicate n 0) = 0.
Proof. induction n; simpl; lia. Qed.

#[global] Instance zsum_perm : Proper (Permutation ==> eq) zsum.
Proof. intros l1 l2 H. induction H; simpl in *; lia. Qed.

Section msum.
Context {K A : Type} `{Countable K}.

(** The sum of [f] over the values of a finite map. *)
Definition msum (f : A -> Z) (m : gmap K A) : Z :=
  map_fold (fun _ a acc => f a + acc) 0 m.

Lemma msum_empty f : msum f ∅ = 0.
Proof. apply map_fold_empty. Qed.

Lemma msum_insert f m k a :
  m !! k = None -> msum f (<[k:=a]> m) = f a + msum f m.
Proof. intros Hk. unfold msum. rewrite map_fold_insert_L; [done| |done]. intros; lia. Qed.

Lemma msum_delete f m k a :
  m !! k = Some a -> msum f (delete k m) = msum f m - f a.
Proof.
  intros Hk. rewrite <-(insert_delete_id m k a Hk) at 2.
  rewrite msum_insert by apply lookup_delete_eq. lia.
Qed.

Lemma msum_update f m k a b :
  m !! k = Some a -> msum f (<[k:=b]> m) = msum f m - f a + f b.
Proof.
  intros Hk. rewrite <-insert_delete_eq, msum_insert by apply lookup_delete_eq.
  rewrite (msum_delete f m k a Hk). lia.
Qed.

Lemma msum_union f m1 m2 :
  m1 ##ₘ m2 -> msum f (m1 ∪ m2) = msum f m1 + msum f m2.
Proof.
  induction m1 as [|k a m Hk IH] using map_ind; intros Hd.
  - rewrite (left_id_L ∅ (∪)), msum_empty. lia.
  - apply map_disjoint_insert_l in Hd as [Hk2 Hd].
    rewrite <-insert_union_l, !msum_insert, IH; [lia|done|done|].
    by apply lookup_union_None.
Qed.

Lemma msum_nonneg f m : (forall k a, m !! k = Some a -> 0 <= f a) -> 0 <= msum f m.
Proof.
  induction m as [|k a m Hk IH] using map_ind; intros Hf.
  - by rewrite msum_empty.
  - rewrite msum_insert by done.
    assert (0 <= f a) by (apply (Hf k); apply lookup_insert_eq).
    assert (0 <= msum f m); [|lia].
    apply IH. intros k' a' Hk'. apply (Hf k').
    rewrite lookup_insert_ne; [done|]. intros ->. congruence.
Qed.

Lemma msum_elem_le f m k a :
  (forall k a, m !! k = Some a -> 0 <= f a) -> m !! k = Some a -> f a <= msum f m.
Proof.
  intros Hf Hk. pose proof (msum_delete f m k a Hk).
  assert (0 <= msum f (delete k m)); [|lia].
  apply msum_nonneg. intros k' a' Hk'. apply lookup_delete_Some in Hk' as [_ Hk'].
  by apply (Hf k').
Qed.
End msum.

(** ** Python dictionaries with their iteration order

    A [dict] whose iteration order the program observes is an association list:
    assigning to a present key keeps its position, a new key goes last. *)

Section odict.
Context {K V : Type} `{EqDecision K}.

Fixpoint dget (k : K) (d : list (K * V)) : option V :=
  match d with
  | [] => None
  | (k', v) :: d => if decide (k = k') then Some v else dget k d
  end.

Fixpoint dset (k : K) (v : V) (d : list (K * V)) : list (K * V) :=
  match d with
  | [] => [(k, v)]
  | (k', v') :: d => if decide (k = k') then (k', v) :: d else (k', v') :: dset k v d
  end.

Fixpoint ddel (k : K) (d : list (K * V)) : list (K * V) :=
  match d with
  | [] => []
  | (k', v') :: d => if decide (k = k') then ddel k d else (k', v') :: ddel k d
  end.

Definition dmem (k : K) (d : list (K * V)) : bool :=
  match dget k d with Some _ => true | None => false end.

Lemma dget_dset k k' v d :
  dget k' (dset k v d) = if decide (k' = k) then Some v else dget k' d.
Proof. induction d as [|[k0 v0] d IH]; simpl; repeat case_decide; simplify_eq/=;
  repeat case_decide; simplify_eq/=; congruence. Qed.

Lemma dget_dset_eq k v d : dget k (dset k v d) = Some v.
Proof. rewrite dget_dset. by case_decide. Qed.

Lemma dget_dset_ne k k' v d : k <> k' -> dget k' (dset k v d) = dget k' d.
Proof. intros. rewrite dget_dset. case_decide; congruence. Qed.

Lemma dget_ddel k k' d :
  dget k' (ddel k d) = if decide (k' = k) then None else dget k' d.
Proof. induction d as [|[k0 v0] d IH]; simpl; repeat case_decide; simplify_eq/=;
  repeat case_decide; simplify_eq/=; congruence. Qed.

Lemma dget_ddel_eq k d : dget k (ddel k d) = None.
Proof. rewrite dget_ddel. by case_decide. Qed.

Lemma dget_ddel_ne k k' d : k <> k' -> dget k' (ddel k d) = dget k' d.
Proof. intros. rewrite dget_ddel. case_decide; congruence. Qed.

Lemma dget_Some_elem k v d : dget k d = Some v -> (k, v) ∈ d.
Proof.
  induction d as [|[k0 v0] d IH]; simpl; [done|]. case_decide; intros; simplify_eq.
  - by left.
  - right. by apply IH.
Qed.

Lemma dget_None_not_in k d : dget k d = None <-> k ∉ d.*1.
Proof.
  induction d as [|[k0 v0] d IH]; simpl; [set_solver|].
  rewrite not_elem_of_cons. case_decide; simplify_eq; naive_solver.
Qed.

Lemma dset_keys_elem k v d k' : k' ∈ (dset k v d).*1 <-> k' = k \/ k' ∈ d.*1.
Proof.
  induction d as [|[k0 v0] d IH]; simpl; [set_solver|].
  case_decide; simplify_eq/=; set_solver.
Qed.

Lemma ddel_keys_elem k d k' : k' ∈ (ddel k d).*1 <-> k' <> k /\ k' ∈ d.*1.
Proof.
  induction d as [|[k0 v0] d IH]; simpl; [set_solver|].
  case_decide; simplify_eq/=; set_solver.
Qed.

(** The keys of a dictionary are distinct, and stay so. *)
Definition dict_ok (d : list (K * V)) : Prop := NoDup d.*1.

Lemma dict_ok_nil : dict_ok [].
Proof. constructor. Qed.

Lemma dict_ok_dset k v d : dict_ok d -> dict_ok (dset k v d).
Proof.
  unfold dict_ok. induction d as [|[k0 v0] d IH]; simpl; intros Hd.
  - apply NoDup_singleton.
  - apply NoDup_cons in Hd as [H1 H2]. case_decide; simplify_eq/=.
    + by apply NoDup_cons.
    + apply NoDup_cons. split; [|by apply IH]. rewrite dset_keys_elem. naive_solver.
Qed.

Lemma dict_ok_ddel k d : dict_ok d -> dict_ok (ddel k d).
Proof.
  unfold dict_ok. induction d as [|[k0 v0] d IH]; simpl; intros Hd; [constructor|].
  apply NoDup_cons in Hd as [H1 H2]. case_decide; simplify_eq/=; [by apply IH|].
  apply NoDup_cons. split; [|by apply IH]. rewrite ddel_keys_elem. naive_solver.
Qed.

Lemma elem_dget k v d : dict_ok d -> (k, v) ∈ d -> dget k d = Some v.
Proof.
  unfold dict_ok. induction d as [|[k0 v0] d IH]; simpl; intros Hd Hin;
    [by apply not_elem_of_nil in Hin|].
  apply NoDup_cons in Hd as [H1 H2]. apply elem_of_cons in Hin as [Heq|Hin].
  - simplify_eq. by case_decide.
  - case_decide as Hk; [|by apply IH]. subst. destruct H1.
    apply list_elem_of_fmap. by exists (k0, v).
Qed.

Lemma dset_length_new k v d : dget k d = None -> length (dset k v d) = S (length d).
Proof.
  induction d as [|[k0 v0] d IH]; simpl; [done|]. case_decide; [done|].
  intros Hk. simpl. by rewrite IH.
Qed.

Lemma dset_length_old k v d : is_Some (dget k d) -> length (dset k v d) = length d.
Proof.
  induction d as [|[k0 v0] d IH]; simpl; [by intros []|]. case_decide; [done|].
  intros Hk. simpl. by rewrite IH.
Qed.

Lemma dset_dset k v v' d : dset k v (dset k v' d) = dset k v d.
Proof.
  induction d as [|[k0 v0] d IH]; simpl; [by rewrite decide_True|].
  case_decide; simpl; [by rewrite decide_True|]. by rewrite decide_False, IH.
Qed.

Lemma ddel_dset k v d : ddel k (dset k v d) = ddel k d.
Proof.
  induction d as [|[k0 v0] d IH]; simpl; [by rewrite decide_True|].
  case_decide; simpl; [by rewrite decide_True|]. by rewrite decide_False, IH.
Qed.

Lemma ddel_id k d : dget k d = None -> ddel k d = d.
Proof.
  induction d as [|[k0 v0] d IH]; simpl; [done|]. case_decide; [done|]. intros. by rewrite IH.
Qed.

Lemma Forall_dset (P : K * V -> Prop) k v d :
  Forall P d -> (forall k', P (k', v)) -> Forall P (dset k v d).
Proof.
  intros Hd Hv. induction Hd as [|[k' v'] d Hk Hd IH]; simpl; [by repeat constructor|].
  case_decide; by constructor.
Qed.

Lemma Forall_ddel (P : K * V -> Prop) k d : Forall P d -> Forall P (ddel k d).
Proof. induction 1 as [|[k' v'] d Hk Hd IH]; simpl; [done|]. case_decide; by try constructor. Qed.

Lemma Forall_dget (P : K * V -> Prop) k v d : Forall P d -> dget k d = Some v -> P (k, v).
Proof. intros HF Hg%dget_Some_elem. by eapply Forall_forall in HF. Qed.

Lemma ddel_length k d : (length (ddel k d) <= length d)%nat.
Proof. induction d as [|[k0 v0] d IH]; simpl; [done|]. case_decide; simpl; lia. Qed.
End odict.

#[export] Hint Resolve dict_ok_nil dict_ok_dset dict_ok_ddel : memnode.
#[export] Hint Rewrite @dget_dset_eq @dget_ddel_eq : memnode.

(** ** Division into pieces

    [data[0:n], data[n:2n], ...]: the slices a loop over
    [range(0, len(data), n)] takes; [fuel] bounds the number of pieces. *)

Fixpoint pieces_fuel {A} (fuel : nat) (n : nat) (l : list A) : list (list A) :=
  match fuel with
  | O => []
  | S fuel =>
      match l with
      | [] => []
      | _ => take n l :: pieces_fuel fuel n (drop n l)
      end
  end.

Definition pieces {A} (n : nat) (l : list A) : list (list A) :=
  pieces_fuel (length l) n l.

Lemma pieces_fuel_concat {A} fuel n (l : list A) :
  (0 < n)%nat -> (length l <= fuel)%nat -> concat (pieces_fuel fuel n l) = l.
Proof.
  intros Hn. revert l. induction fuel as [|fuel IH]; intros l Hl.
  - by destruct l; simpl in *; [|lia].
  - destruct l as [|x l]; [done|]. cbn [pieces_fuel]. cbn [concat].
    rewrite IH; [by rewrite take_drop|]. rewrite length_drop. simpl in *. lia.
Qed.

(** More fuel changes nothing. *)
Lemma pieces_fuel_eq {A} fuel n : (0 < n)%nat -> forall fuel' (l : list A),
  (length l <= fuel)%nat -> (length l <= fuel')%nat -> pieces_fuel fuel n l = pieces_fuel fuel' n l.
Proof.
  intros Hn. induction fuel as [|fuel IH]; intros fuel' l Hl Hl'.
  - destruct l; [by destruct fuel'|simpl in *; lia].
  - destruct l as [|x l]; [by destruct fuel'|]. destruct fuel' as [|fuel']; [simpl in *; lia|].
    cbn [pieces_fuel]. f_equal. apply IH; rewrite length_drop; simpl in *; lia.
Qed.

Lemma pieces_fuel_more {A} fuel n (l : list A) :
  (0 < n)%nat -> (length l <= fuel)%nat -> pieces_fuel fuel n l = pieces n l.
Proof. intros. by apply pieces_fuel_eq. Qed.

Lemma pieces_concat {A} n (l : list A) : (0 < n)%nat -> concat (pieces n l) = l.
Proof. intros. by apply pieces_fuel_concat. Qed.

Lemma pieces_fuel_bound {A} fuel n (l : list A) :
  Forall (fun p => (0 < length p <= n)%nat \/ n = O) (pieces_fuel fuel n l).
Proof.
  revert l. induction fuel as [|fuel IH]; intros l; simpl; [constructor|].
  destruct l as [|x l]; constructor; [|apply IH].
  destruct n; [by right|left]. rewrite length_take. simpl. lia.
Qed.
