(* ===== verification/Config.v ===== *)
(** * Configuration constants

    The limits of [memnode/config.py] the modelled components use, with the
    relations between them that the components rely on.  Times are integers in
    microseconds, so that the fractional-second constants are exact. *)
From S2P Require Import Prelude.

Definition MAX_FRAME_SIZE : Z := 16 * 1024 * 1024.
Definition MAX_BLOCK_SIZE : Z := 64 * 1024 * 1024.
Definition MAX_RPC_MESSAGE_SIZE : Z := 8 * 1024 * 1024.
Definition DEFAULT_RAM_QUOTA_BYTES : Z := 512 * 1024 * 1024.
Definition PROTOCOL_VERSION : Z := 1.
Definition REPLAY_WINDOW_SIZE : Z := 1024.
Definition REKEY_INTERVAL_MESSAGES : Z := 100000.
Definition REKEY_INTERVAL_SECONDS : Z := 900 * 1000000.
Definition MAX_REKEY_EPOCH_SKIP : Z := 64.
Definition HANDSHAKE_TIMEOUT_SECONDS : Z := 10 * 1000000.
Definition HANDSHAKE_RATE_WINDOW_SECONDS : Z := 60 * 1000000.
Definition HANDSHAKE_MAX_PER_IP_PER_WINDOW : Z := 20.
Definition HANDSHAKE_MAX_INFLIGHT_PER_IP : Z := 4.
Definition HANDSHAKE_MAX_INFLIGHT_TOTAL : Z := 128.
Definition HANDSHAKE_GUARD_MAX_TRACKED_IPS : Z := 8192.
Definition PEER_TCP_PORT : Z := 8080.
Definition RPC_TCP_PORT : Z := 7070.
Definition RPC_UNIX_SOCKET : string := "/tmp/memcloud.sock".
Definition MDNS_SERVICE_TYPE : string := "_memcloud._tcp.local.".
Definition RPC_BIND_HOST : string := "127.0.0.1".
Definition RPC_REQUIRE_AUTH : bool := true.
Definition RPC_AUTH_UNIX_SOCKET_EXEMPT : bool := true.
Definition RPC_AUTH_TIMEOUT_SECONDS : Z := 5 * 1000000.
Definition RPC_TOKEN_FILENAME : string := "rpc_token".
Definition RPC_AUTH_VERSION : Z := 1.
Definition TLS_ENABLED : bool := false.
Definition TLS_REQUIRE_CLIENT_CERT : bool := true.
Definition SAS_DIGITS : Z := 6.
Definition REQUIRE_SAS_VERIFICATION : bool := false.
Definition TRUST_STORE_VERSION : Z := 2.
Definition BLOCK_STRIPE_COUNT : Z := 16.
Definition PEER_CHUNK_SIZE : Z := 256 * 1024.
Definition PEER_CHUNK_THRESHOLD : Z := 512 * 1024.
Definition MAX_INBOUND_STREAMS : Z := 64.
Definition INBOUND_STREAM_TIMEOUT : Z := 120 * 1000000.
Definition MUX_MAX_QUEUED_MESSAGES : Z := 512.
Definition CONTROL_STREAM_ID : Z := 0.
Definition RPC_MSGPACK_MAGIC : bytes := [Byte.x4d; Byte.x4e; Byte.x42; Byte.x31].
Definition RPC_MAGIC_LEN : Z := 4.
Definition USE_UVLOOP : bool := true.

(** No frame of the peer protocol or of the RPC protocol can have the codec
    preamble as its length prefix: read as a length, the preamble exceeds both
    size limits. *)
Lemma magic_exceeds_limits :
  fold_left (fun acc b => acc * 256 + Z_of_byte b) RPC_MSGPACK_MAGIC 0
    > MAX_RPC_MESSAGE_SIZE.
Proof. vm_compute. done. Qed.
