(* ===== verification/PyVal.v ===== *)
(** * Python values

    The dynamically typed values that cross the wire (msgpack and JSON
    documents), the tests the program makes on them ([isinstance], [.get],
    truthiness) and the hexadecimal codec of [bytes].

    [str] is modelled by [string], its UTF-8 bytes. *)
From S2P Require Import Prelude.
From Stdlib Require Import Ascii.

Inductive pyval :=
  | VNone
  | VBool (b : bool)
  | VInt (z : Z)
  | VFloat (m e : Z)                      (* the finite float m * 2^e *)
  | VStr (s : string)
  | VBytes (b : bytes)
  | VList (l : list pyval)
  | VDict (d : list (string * pyval)).

Abbreviation pydict := (list (string * pyval)).

(** Induction over a value and every value inside it. *)
Section pyval_ind.
Context (P : pyval -> Prop).
Hypotheses (Hnone : P VNone) (Hbool : forall b, P (VBool b))
  (Hint : forall z, P (VInt z)) (Hfloat : forall m e, P (VFloat m e))
  (Hstr : forall s, P (VStr s)) (Hbytes : forall b, P (VBytes b))
  (Hlist : forall l, Forall P l -> P (VList l))
  (Hdict : forall d, Forall (fun kv => P kv.2) d -> P (VDict d)).

Fixpoint pyval_rect' (v : pyval) : P v :=
  match v with
  | VNone => Hnone
  | VBool b => Hbool b
  | VInt z => Hint z
  | VFloat m e => Hfloat m e
  | VStr s => Hstr s
  | VBytes b => Hbytes b
  | VList l => Hlist l ((fix go l : Forall P l :=
      match l with
      | [] => List.Forall_nil _
      | x :: l => List.Forall_cons _ _ _ (pyval_rect' x) (go l)
      end) l)
  | VDict d => Hdict d ((fix go d : Forall (fun kv => P kv.2) d :=
      match d with
      | [] => List.Forall_nil _
      | kv :: d => List.Forall_cons _ _ _ (pyval_rect' kv.2) (go d)
      end) d)
  end.
End pyval_ind.

(** Equality of values is decidable. *)
Fixpoint pyval_eqb (x y : pyval) {struct x} : bool :=
  match x, y with
  | VNone, VNone => true
  | VBool a, VBool b => Bool.eqb a b
  | VInt a, VInt b => a =? b
  | VFloat m e, VFloat m' e' => (m =? m') && (e =? e')
  | VStr a, VStr b => bool_decide (a = b)
  | VBytes a, VBytes b => bool_decide (a = b)
  | VList l, VList l' =>
      (fix go l l' :=
         match l, l' with
         | [], [] => true
         | a :: l, b :: l' => pyval_eqb a b && go l l'
         | _, _ => false
         end) l l'
  | VDict d, VDict d' =>
      (fix go d d' :=
         match d, d' with
         | [], [] => true
         | (k, a) :: d, (k', b) :: d' => bool_decide (k = k') && pyval_eqb a b && go d d'
         | _, _ => false
         end) d d'
  | _, _ => false
  end.

Lemma pyval_eqb_eq x y : pyval_eqb x y = true <-> x = y.
Proof.
  revert y. induction x as [| | | | | |l IH|d IH] using pyval_rect'; intros y; destruct y as [| | | | | |l'|d']; cbn;
    try done.
  - rewrite Bool.eqb_true_iff. naive_solver.
  - rewrite Z.eqb_eq. naive_solver.
  - rewrite andb_true_iff, !Z.eqb_eq. naive_solver.
  - rewrite bool_decide_eq_true. naive_solver.
  - rewrite bool_decide_eq_true. naive_solver.
  - assert (forall l', (fix go l l' := match l, l' with
              | [], [] => true
              | a :: l, b :: l' => pyval_eqb a b && go l l'
              | _, _ => false end) l l' = true <-> l = l') as Hgo; [|rewrite Hgo; naive_solver].
    clear l'. induction IH as [|a l Ha Hl IH']; intros [|b l']; try done.
    rewrite andb_true_iff, Ha, IH'. naive_solver.
  - assert (forall d', (fix go d d' := match d, d' with
              | [], [] => true
              | (k, a) :: d, (k', b) :: d' => bool_decide (k = k') && pyval_eqb a b && go d d'
              | _, _ => false end) d d' = true <-> d = d') as Hgo; [|rewrite Hgo; naive_solver].
    clear d'. induction IH as [|[k a] d Ha Hd IH']; intros [|[k' b] d']; try done.
    rewrite !andb_true_iff, bool_decide_eq_true, Ha, IH'. naive_solver.
Qed.

#[global] Instance pyval_eq_dec : EqDecision pyval.
Proof.
  intros x y. destruct (pyval_eqb x y) eqn:E.
  - left. by apply pyval_eqb_eq.
  - right. intros Heq. apply pyval_eqb_eq in Heq. congruence.
Defined.

(** ** Dynamic tests *)

(** [bool(v)] *)
Definition truthy (v : pyval) : bool :=
  match v with
  | VNone => false
  | VBool b => b
  | VInt z => negb (z =? 0)
  | VFloat m _ => negb (m =? 0)
  | VStr s => negb (String.eqb s "")
  | VBytes b => negb (len b =? 0)
  | VList l => negb (len l =? 0)
  | VDict d => negb (len d =? 0)
  end.

(** The value as an integer, when [isinstance(v, int)] ([bool] is a subclass of
    [int] in Python). *)
Definition as_int (v : pyval) : option Z :=
  match v with
  | VInt z => Some z
  | VBool b => Some (Z.b2z b)
  | _ => None
  end.

(** [v == n] for an integer [n]: integers, booleans and floats compare by value. *)
Definition eq_int (v : pyval) (n : Z) : bool :=
  match v with
  | VInt z => z =? n
  | VBool b => Z.b2z b =? n
  | VFloat m e => if 0 <=? e then m * 2 ^ e =? n else m =? n * 2 ^ (- e)
  | _ => false
  end.

(** The number [m * 2^e] a value stands for, when it is one. *)
Definition as_num (v : pyval) : option (Z * Z) :=
  match v with
  | VInt z => Some (z, 0)
  | VBool b => Some (Z.b2z b, 0)
  | VFloat m e => Some (m, e)
  | _ => None
  end.

Definition num_compare (x y : Z * Z) : comparison :=
  let e := Z.min x.2 y.2 in
  Z.compare (x.1 * 2 ^ (x.2 - e)) (y.1 * 2 ^ (y.2 - e)).

(** [x == y]: numbers by value, dictionaries without regard to order. *)
Fixpoint py_eq (x y : pyval) {struct x} : bool :=
  match as_num x, as_num y with
  | Some a, Some b => match num_compare a b with Eq => true | _ => false end
  | None, None =>
      match x, y with
      | VNone, VNone => true
      | VStr a, VStr b => bool_decide (a = b)
      | VBytes a, VBytes b => bool_decide (a = b)
      | VList l, VList l' =>
          (fix go l l' :=
             match l, l' with
             | [], [] => true
             | a :: l, b :: l' => py_eq a b && go l l'
             | _, _ => false
             end) l l'
      | VDict d, VDict d' =>
          (len d =? len d') &&
          (fix go d :=
             match d with
             | [] => true
             | (k, a) :: d =>
                 match dget k d' with Some b => py_eq a b | None => false end && go d
             end) d
      | _, _ => false
      end
  | _, _ => false
  end.

(** [v >= n] for an integer [n]: only numbers are ordered against one. *)
Definition ge_int (v : pyval) (n : Z) : result bool :=
  match as_num v with
  | Some a => Ok (match num_compare a (n, 0) with Lt => false | _ => true end)
  | None => Err (lib_exn TypeError)
  end.

(** [v] when [isinstance(v, (bytes, bytearray))] and [len(v) == n]. *)
Definition as_bytes_of (n : Z) (v : pyval) : option bytes :=
  match v with
  | VBytes b => if len b =? n then Some b else None
  | _ => None
  end.

(** [d.get(k)] on a value that should be a dictionary: any other value has no
    such method. [None] in Python's sense is both an absent key and a key bound
    to [None]. *)
Definition vget (k : string) (v : pyval) : result pyval :=
  match v with
  | VDict d => Ok (default VNone (dget k d))
  | _ => Err (lib_exn AttributeError)
  end.

(** [d.get(k, dflt)] *)
Definition vget_default (k : string) (dflt : pyval) (v : pyval) : result pyval :=
  match v with
  | VDict d => Ok (default dflt (dget k d))
  | _ => Err (lib_exn AttributeError)
  end.

(** [d[k]] *)
Definition vindex (k : string) (v : pyval) : result pyval :=
  match v with
  | VDict d => match dget k d with Some x => Ok x | None => Err (lib_exn KeyError) end
  | _ => Err (lib_exn TypeError)
  end.

(** [k in d] *)
Definition vmem (k : string) (v : pyval) : result bool :=
  match v with
  | VDict d => Ok (dmem k d)
  | _ => Err (lib_exn TypeError)
  end.

(** [v is None] *)
Definition is_none (v : pyval) : bool :=
  match v with VNone => true | _ => false end.

(** ** Hexadecimal text: [bytes.hex] and [bytes.fromhex] *)

Definition hex_digit (z : Z) : ascii :=
  Ascii.ascii_of_N (Z.to_N (if z <? 10 then z + 48 else z + 87)).

Definition digit_value (c : ascii) : option Z :=
  let n := Z.of_N (Ascii.N_of_ascii c) in
  if (48 <=? n) && (n <=? 57) then Some (n - 48)
  else if (97 <=? n) && (n <=? 102) then Some (n - 87)
  else if (65 <=? n) && (n <=? 70) then Some (n - 55)
  else None.

Definition is_space (c : ascii) : bool :=
  let n := Z.of_N (Ascii.N_of_ascii c) in
  (n =? 32) || ((9 <=? n) && (n <=? 13)).

Fixpoint bytes_hex (b : bytes) : string :=
  match b with
  | [] => String.EmptyString
  | x :: b =>
      String.String (hex_digit (Z_of_byte x / 16))
        (String.String (hex_digit (Z_of_byte x mod 16)) (bytes_hex b))
  end.

(** [bytes.fromhex]: pairs of digits, with white space allowed between pairs. *)
Fixpoint bytes_fromhex (s : string) : result bytes :=
  match s with
  | String.EmptyString => Ok []
  | String.String c s' =>
      if is_space c then bytes_fromhex s'
      else
        match s' with
        | String.EmptyString => Err (lib_exn ValueError)
        | String.String c' s'' =>
            match digit_value c, digit_value c' with
            | Some h, Some l =>
                match bytes_fromhex s'' with
                | Ok rest => Ok (byte_of_Z (h * 16 + l) :: rest)
                | Err e => Err e
                end
            | _, _ => Err (lib_exn ValueError)
            end
        end
  end.

(** A test that the sixteen values of a digit pass. *)
Lemma sixteen (P : Z -> bool) d :
  0 <= d < 16 -> forallb P [0;1;2;3;4;5;6;7;8;9;10;11;12;13;14;15] = true -> P d = true.
Proof. intros Hd HP. rewrite forallb_forall in HP. apply HP. simpl. lia. Qed.

Lemma hex_digit_value z :
  0 <= z < 16 -> digit_value (hex_digit z) = Some z /\ is_space (hex_digit z) = false.
Proof.
  intros Hz. split.
  - pose proof (sixteen (fun z => bool_decide (digit_value (hex_digit z) = Some z)) z Hz eq_refl) as H.
    by apply bool_decide_eq_true in H.
  - apply negb_true_iff, (sixteen (fun z => negb (is_space (hex_digit z)))); [lia|]. by vm_compute.
Qed.

Lemma fromhex_hex b : bytes_fromhex (bytes_hex b) = Ok b.
Proof.
  induction b as [|x b IH]; [done|]. simpl.
  pose proof (Z_of_byte_range x).
  destruct (hex_digit_value (Z_of_byte x / 16)) as [H1 H2].
  { split; [apply Z.div_pos; lia | apply Z.div_lt_upper_bound; lia]. }
  destruct (hex_digit_value (Z_of_byte x mod 16)) as [H3 _].
  { apply Z.mod_pos_bound. lia. }
  rewrite H2, H1, H3, IH. f_equal. f_equal.
  rewrite Z.mul_comm, <-Z_div_mod_eq_full. apply byte_of_Z_of_byte.
Qed.

Lemma bytes_hex_length b : String.length (bytes_hex b) = (2 * length b)%nat.
Proof. induction b; simpl; lia. Qed.
