(* ===== verification/Protocol.v ===== *)
(** * Wire framing and peer-protocol messages ([memnode/protocol.py])

    The big-endian integers of [struct], the asyncio stream reader and writer
    as far as the program uses them, the length-prefixed frames, and the
    message type with its msgpack encoding.  msgpack itself is a parameter (a
    [codec] and the round-trip law its documentation gives). *)
From S2P Require Import Prelude Config PyVal.

(** ** Big-endian integers: [struct.pack(">I", n)], [struct.pack(">Q", n)] *)

Fixpoint be_bytes (n : nat) (z : Z) : bytes :=
  match n with
  | O => []
  | S n => byte_of_Z (z / 256 ^ Z.of_nat n) :: be_bytes n z
  end.

Definition unpack_be (b : bytes) : Z :=
  fold_left (fun acc x => acc * 256 + Z_of_byte x) b 0.

(** [pack] refuses a value that does not fit the field. *)
Definition pack_be (n : nat) (z : Z) : result bytes :=
  if (0 <=? z) && (z <? 256 ^ Z.of_nat n) then Ok (be_bytes n z)
  else Err (lib_exn StructError).

Lemma length_be_bytes n z : length (be_bytes n z) = n.
Proof. induction n; simpl; congruence. Qed.

Lemma fold_be_bytes n z acc :
  0 <= z ->
  fold_left (fun acc x => acc * 256 + Z_of_byte x) (be_bytes n z) acc
    = acc * 256 ^ Z.of_nat n + z mod 256 ^ Z.of_nat n.
Proof.
  intros Hz. revert acc. induction n as [|n IH]; intros acc.
  - simpl. rewrite Z.mod_1_r. lia.
  - cbn [be_bytes fold_left]. rewrite IH, Z_of_byte_of_Z.
    rewrite Nat2Z.inj_succ, Z.pow_succ_r by lia.
    assert (0 < 256 ^ Z.of_nat n) by (apply Z.pow_pos_nonneg; lia).
    rewrite (Z.mul_comm 256 (256 ^ Z.of_nat n)).
    rewrite Z.rem_mul_r by lia. lia.
Qed.

Lemma unpack_be_bytes n z :
  0 <= z < 256 ^ Z.of_nat n -> unpack_be (be_bytes n z) = z.
Proof.
  intros Hz. unfold unpack_be. rewrite fold_be_bytes by lia.
  rewrite Z.mod_small by done. lia.
Qed.

Lemma fold_unpack_nonneg b acc :
  0 <= acc -> 0 <= fold_left (fun acc x => acc * 256 + Z_of_byte x) b acc.
Proof.
  revert acc. induction b as [|x b IH]; intros acc Hacc; simpl; [done|].
  apply IH. pose proof (Z_of_byte_range x). lia.
Qed.

Lemma unpack_be_nonneg b : 0 <= unpack_be b.
Proof. by apply fold_unpack_nonneg. Qed.

Lemma be_bytes_inj n z z' :
  0 <= z < 256 ^ Z.of_nat n -> 0 <= z' < 256 ^ Z.of_nat n ->
  be_bytes n z = be_bytes n z' -> z = z'.
Proof.
  intros Hz Hz' Heq. apply (f_equal unpack_be) in Heq.
  by rewrite !unpack_be_bytes in Heq.
Qed.

Lemma byte_of_Z_shift k z : byte_of_Z (k * 256 + z) = byte_of_Z z.
Proof. unfold byte_of_Z. by rewrite Z.add_comm, Z.mod_add. Qed.

Lemma be_bytes_shift n k z : be_bytes n (k * 256 ^ Z.of_nat n + z) = be_bytes n z.
Proof.
  revert k. induction n as [|n IH]; intros k; [done|]. cbn [be_bytes].
  rewrite Nat2Z.inj_succ, Z.pow_succ_r by lia.
  assert (0 < 256 ^ Z.of_nat n) by (apply Z.pow_pos_nonneg; lia).
  replace (k * (256 * 256 ^ Z.of_nat n) + z) with ((k * 256) * 256 ^ Z.of_nat n + z) by lia.
  rewrite Z.div_add_l by lia. rewrite IH. f_equal. apply byte_of_Z_shift.
Qed.

Lemma fold_unpack_acc (b : bytes) acc :
  fold_left (fun acc x => acc * 256 + Z_of_byte x) b acc
    = acc * 256 ^ len b + unpack_be b.
Proof.
  unfold unpack_be. revert acc. induction b as [|x b IH]; intros acc; [rewrite len_nil; simpl; lia|].
  cbn [fold_left]. rewrite IH, (IH (0 * 256 + _)), len_cons.
  rewrite Z.pow_add_r by (pose proof (len_nonneg b); lia). lia.
Qed.

Lemma unpack_be_lt (b : bytes) : unpack_be b < 256 ^ len b.
Proof.
  induction b as [|x b IH]; [done|]. unfold unpack_be. cbn [fold_left]. rewrite fold_unpack_acc.
  pose proof (Z_of_byte_range x). rewrite len_cons.
  rewrite Z.pow_add_r by (pose proof (len_nonneg b); lia).
  assert (0 < 256 ^ len b) by (apply Z.pow_pos_nonneg; [lia|apply len_nonneg]). nia.
Qed.

(** Packing what was unpacked gives the bytes back. *)
Lemma be_bytes_unpack (b : bytes) : be_bytes (length b) (unpack_be b) = b.
Proof.
  induction b as [|x b IH]; [done|]. unfold unpack_be. cbn [fold_left length be_bytes].
  rewrite fold_unpack_acc. change (256 ^ len b) with (256 ^ Z.of_nat (length b)).
  rewrite be_bytes_shift, IH. f_equal.
  assert (0 < 256 ^ Z.of_nat (length b)) by (apply Z.pow_pos_nonneg; lia).
  rewrite Z.div_add_l by lia. pose proof (unpack_be_lt b). pose proof (unpack_be_nonneg b).
  rewrite (Z.div_small (unpack_be b)) by (unfold len in *; lia).
  by rewrite Z.add_0_r, byte_of_Z_shift, byte_of_Z_of_byte.
Qed.

(** ** Streams

    A reader is what the other side sends before closing, with a record of the
    buffer sizes the program asked for; a writer is what was written so far and
    whether the transport is lost (then [drain] raises). *)

Record reader := Reader { rd_buf : bytes; rd_requests : list Z }.
Record writer := Writer { wr_out : bytes; wr_lost : bool; wr_closed : bool }.

(** [await reader.readexactly(n)]: on a short stream the bytes that did arrive
    are discarded and [IncompleteReadError] is raised. *)
Definition readexactly (n : Z) : M reader bytes := fun r =>
  let req := rd_requests r ++ [n] in
  if n <=? len (rd_buf r)
  then (Reader (drop (Z.to_nat n) (rd_buf r)) req, Ok (take (Z.to_nat n) (rd_buf r)))
  else (Reader [] req, Err (lib_exn IncompleteReadError)).

(** [writer.write(data); await writer.drain()] *)
Definition write_and_drain (data : bytes) : M writer unit := fun w =>
  let w' := Writer (wr_out w ++ data) (wr_lost w) (wr_closed w) in
  if wr_lost w then (w', Err (lib_exn ConnectionError)) else (w', Ok tt).

(** ** Frames *)

Definition read_frame (max_size : Z) : M reader bytes :=
  len_bytes <- readexactly 4;;
  let length := unpack_be len_bytes in
  if max_size <? length
  then mraise (Exn FrameTooLarge
         ("peer claimed frame size " +:+ pretty length +:+ " bytes, max allowed is "
            +:+ pretty max_size))
  else if length =? 0 then mret []
  else mtry (readexactly length)
         (fun e => if decide (exn_cls e = IncompleteReadError)
                   then Some (mraise (Exn ConnectionClosed "peer closed connection mid-frame"))
                   else None).

Definition write_frame (payload : bytes) : M writer unit :=
  if Config.MAX_FRAME_SIZE <? len payload
  then mraise (Exn FrameTooLarge
         ("refusing to send frame of " +:+ pretty (len payload) +:+ " bytes"))
  else
    prefix <- mlift (pack_be 4 (len payload));;
    write_and_drain (prefix ++ payload).

(** The bytes of one frame on the wire. *)
Definition frame (payload : bytes) : bytes := be_bytes 4 (len payload) ++ payload.

(** ** Messages *)

Inductive MsgType :=
  | HELLO | WELCOME | AUTH | STORE_BLOCK | REQUEST_BLOCK | BLOCK_DATA
  | BLOCK_NOT_FOUND | SET_KEY | GET_KEY | KEY_FOUND | PING | PONG
  | QUOTA_UPDATE | NACK | FREE_BLOCK | FREED | BLOCK_CHUNK | STREAM_ABORT | BYE.

#[global] Instance MsgType_eq_decision : EqDecision MsgType.
Proof. solve_decision. Defined.

Definition MsgType_all : list MsgType :=
  [HELLO; WELCOME; AUTH; STORE_BLOCK; REQUEST_BLOCK; BLOCK_DATA; BLOCK_NOT_FOUND;
   SET_KEY; GET_KEY; KEY_FOUND; PING; PONG; QUOTA_UPDATE; NACK; FREE_BLOCK; FREED;
   BLOCK_CHUNK; STREAM_ABORT; BYE].

(** [MsgType.value] *)
Definition MsgType_value (t : MsgType) : string :=
  match t with
  | HELLO => "Hello" | WELCOME => "Welcome" | AUTH => "Auth"
  | STORE_BLOCK => "StoreBlock" | REQUEST_BLOCK => "RequestBlock"
  | BLOCK_DATA => "BlockData" | BLOCK_NOT_FOUND => "BlockNotFound"
  | SET_KEY => "SetKey" | GET_KEY => "GetKey" | KEY_FOUND => "KeyFound"
  | PING => "Ping" | PONG => "Pong" | QUOTA_UPDATE => "QuotaUpdate"
  | NACK => "Nack" | FREE_BLOCK => "FreeBlock" | FREED => "Freed"
  | BLOCK_CHUNK => "BlockChunk" | STREAM_ABORT => "StreamAbort" | BYE => "Bye"
  end.

(** [MsgType(x)] *)
Definition MsgType_of (v : pyval) : result MsgType :=
  match v with
  | VStr s =>
      match list_find (fun t => MsgType_value t = s) MsgType_all with
      | Some (_, t) => Ok t
      | None => Err (lib_exn ValueError)
      end
  | _ => Err (lib_exn ValueError)
  end.

(** The body is whatever the peer put there: only a dictionary has [.get]. *)
Record Message := Msg { msg_type : MsgType; msg_body : pyval }.

(** The [stream_id] property. *)
Definition stream_id (m : Message) : result Z :=
  let? value := vget_default "stream_id" (VInt 0) (msg_body m) in
  Ok (default 0 (as_int value)).

(** A serialisation library: encoding may refuse a value, decoding any bytes. *)
Record codec := Codec { c_enc : pyval -> result bytes; c_dec : bytes -> result pyval }.

(** What its documentation promises: what it encodes it decodes again, for the
    values [ok] it represents faithfully. *)
Class CodecLaws (c : codec) (ok : pyval -> Prop) : Prop :=
  codec_roundtrip : forall v b, ok v -> c_enc c v = Ok b -> c_dec c b = Ok v.

Section message.
Context (msgpack : codec).

Definition encode (m : Message) : result bytes :=
  c_enc msgpack (VDict [("type", VStr (MsgType_value (msg_type m))); ("body", msg_body m)]).

Definition decode (raw : bytes) : result Message :=
  let? obj := c_dec msgpack raw in
  let? tv := vindex "type" obj in
  let? t := MsgType_of tv in
  let? body := vget_default "body" (VDict []) obj in
  Ok (Msg t body).

Definition send_message (m : Message) : M writer unit :=
  raw <- mlift (encode m);; write_frame raw.

Definition recv_message : M reader Message :=
  raw <- read_frame Config.MAX_FRAME_SIZE;; mlift (decode raw).
End message.

(** ** Framing lemmas *)

Lemma len_frame (p : bytes) : len (frame p) = 4 + len p.
Proof. unfold frame. rewrite len_app. unfold len at 1. by rewrite length_be_bytes. Qed.

Lemma readexactly_app (b rest : bytes) req :
  readexactly (len b) (Reader (b ++ rest) req) = (Reader rest (req ++ [len b]), Ok b).
Proof.
  unfold readexactly; simpl. rewrite len_app.
  pose proof (len_nonneg rest). zcase; [|lia].
  unfold len. rewrite Nat2Z.id. by rewrite take_app_length, drop_app_length.
Qed.

Lemma readexactly_short n r :
  len (rd_buf r) < n ->
  readexactly n r = (Reader [] (rd_requests r ++ [n]), Err (lib_exn IncompleteReadError)).
Proof. intros. unfold readexactly. zcase; [lia|done]. Qed.

Lemma unpack_length_prefix (p : bytes) :
  len p <= Config.MAX_FRAME_SIZE -> unpack_be (be_bytes 4 (len p)) = len p.
Proof.
  intros Hp. apply unpack_be_bytes. pose proof (len_nonneg p).
  unfold Config.MAX_FRAME_SIZE in *. change (256 ^ Z.of_nat 4) with 4294967296. lia.
Qed.

(** A frame that was read took at least its prefix from the stream. *)
Lemma read_frame_consumes max_size r r' p :
  read_frame max_size r = (r', Ok p) -> (length (rd_buf r') + 4 <= length (rd_buf r))%nat.
Proof.
  unfold read_frame, mbind_m, mtry, readexactly, mraise, mret. unfold len.
  repeat (case_match; simplify_eq/=; try done).
  all: repeat match goal with H : (_ <=? _) = true |- _ => apply Z.leb_le in H end.
  all: intros; simplify_eq/=; rewrite ?length_drop in *; lia.
Qed.

(** The buffers [read_frame] asks for when it reads the frame of [p]. *)
Definition frame_requests (p : bytes) : list Z :=
  if len p =? 0 then [4] else [4; len p].

Lemma read_frame_of_frame max_size p rest req :
  len p <= Config.MAX_FRAME_SIZE -> len p <= max_size ->
  read_frame max_size (Reader (frame p ++ rest) req)
    = (Reader rest (req ++ frame_requests p), Ok p).
Proof.
  intros Hp Hmax. unfold read_frame, frame, frame_requests. rewrite <-(assoc_L app).
  unfold mbind_m. pose proof (readexactly_app (be_bytes 4 (len p)) (p ++ rest) req) as H4.
  replace (len (be_bytes 4 (len p))) with 4 in H4
    by (unfold len; by rewrite length_be_bytes).
  rewrite H4.
  rewrite unpack_length_prefix by done.
  zcase; [lia|]. zcase.
  - destruct p; [done|]. rewrite len_cons in *. pose proof (len_nonneg p). lia.
  - unfold mtry. rewrite readexactly_app. by rewrite <-(assoc_L app).
Qed.

Lemma write_frame_ok p out closed :
  len p <= Config.MAX_FRAME_SIZE ->
  write_frame p (Writer out false closed) = (Writer (out ++ frame p) false closed, Ok tt).
Proof.
  intros Hp. unfold write_frame. zcase; [lia|]. unfold mbind_m, mlift, pack_be.
  pose proof (len_nonneg p). unfold Config.MAX_FRAME_SIZE in *.
  change (256 ^ Z.of_nat 4) with 4294967296.
  repeat (zcase; [|lia]). done.
Qed.

(** A write that succeeds appended exactly the frame, to a live transport. *)
Lemma write_frame_inv p w w' :
  write_frame p w = (w', Ok tt) ->
  len p <= Config.MAX_FRAME_SIZE /\ wr_lost w = false /\
  w' = Writer (wr_out w ++ frame p) false (wr_closed w).
Proof.
  destruct w as [out lost closed]. intros Hw.
  destruct (Z.le_gt_cases (len p) Config.MAX_FRAME_SIZE) as [Hp|Hp].
  2:{ revert Hw. unfold write_frame. by zcase; [|lia]. }
  destruct lost; [|by rewrite write_frame_ok in Hw by done; simplify_eq].
  revert Hw. unfold write_frame, mbind_m, mlift, write_and_drain. zcase; [lia|].
  by destruct (pack_be _ _).
Qed.

(** On a live transport a write that fails wrote nothing. *)
Lemma write_frame_err p w w' e :
  wr_lost w = false -> write_frame p w = (w', Err e) -> w' = w.
Proof.
  destruct w as [out lost closed]. cbn. intros -> Hw.
  destruct (Z.le_gt_cases (len p) Config.MAX_FRAME_SIZE) as [Hp|Hp].
  - by rewrite write_frame_ok in Hw.
  - revert Hw. unfold write_frame. zcase; [|lia]. by intros [= <- _].
Qed.

(** ** Codec laws at work: messages survive encoding *)

Lemma MsgType_of_value t : MsgType_of (VStr (MsgType_value t)) = Ok t.
Proof. by destruct t. Qed.

Section message_roundtrip.
Context (msgpack : codec) (ok : pyval -> Prop) `{!CodecLaws msgpack ok}.

Lemma decode_encode m raw :
  ok (VDict [("type", VStr (MsgType_value (msg_type m))); ("body", msg_body m)]) ->
  encode msgpack m = Ok raw -> decode msgpack raw = Ok m.
Proof.
  intros Hok Henc. unfold decode. rewrite (codec_roundtrip _ _ Hok Henc).
  cbn [result_bind vindex dget]. rewrite decide_True by done.
  cbn [result_bind]. rewrite MsgType_of_value. cbn. by destruct m.
Qed.
End message_roundtrip.

(** ** Properties *)

(** Reading back what [write_frame] wrote returns the payload and leaves
    exactly the bytes that follow it, for every payload the writer accepts. *)
Theorem frame_roundtrip p w w' rest :
  write_frame p w = (w', Ok tt) ->
  exists written, wr_out w' = wr_out w ++ written /\
    forall req, exists req',
      read_frame Config.MAX_FRAME_SIZE (Reader (written ++ rest) req) = (Reader rest req', Ok p).
Proof.
  intros (Hp & _ & ->)%write_frame_inv. exists (frame p). split; [done|].
  intros req. eexists. by apply read_frame_of_frame.
Qed.

(** Whatever bytes a peer sends, [read_frame] never asks the stream for a
    buffer larger than the limit (or the four-byte prefix). *)
Theorem read_frame_bounded max_size r r' res :
  read_frame max_size r = (r', res) ->
  exists req, rd_requests r' = rd_requests r ++ req /\
    Forall (fun n => 0 <= n <= Z.max 4 max_size) req.
Proof.
  unfold read_frame, mbind_m, mtry, readexactly, mraise, mret.
  intros H. repeat (case_match; simplify_eq/=);
    repeat match goal with H : context [Z.leb _ _] |- _ => zcase_in H end; simplify_eq/=.
  all: try (eexists; split; [done|]; repeat constructor; lia).
  all: eexists; rewrite <-(assoc_L app); split; [done|].
  all: repeat constructor; try lia.
  all: try apply unpack_be_nonneg.
  all: repeat match goal with H : (_ <? _) = false |- _ => apply Z.ltb_ge in H end; lia.
Qed.

(** ** Witnesses *)

(** A codec for a fixed table of documents: it writes the position. *)
Definition table_codec (docs : list pyval) : codec := {|
  c_enc := fun v =>
    match list_find (fun d => d = v) docs with
    | Some (i, _) => Ok (be_bytes 2 (Z.of_nat i))
    | None => Err (lib_exn TypeError)
    end;
  c_dec := fun raw =>
    match docs !! Z.to_nat (unpack_be raw) with
    | Some d => Ok d
    | None => Err (lib_exn ValueError)
    end
|}.

Lemma table_codec_laws docs :
  len docs <= 65536 -> CodecLaws (table_codec docs) (fun _ => True).
Proof.
  intros Hlen v b _. cbn [table_codec c_enc c_dec]. destruct (list_find _ _) as [[i d]|] eqn:Hf; [|done].
  intros Heq. assert (b = be_bytes 2 (Z.of_nat i)) as -> by congruence.
  apply list_find_Some in Hf as (Hi & -> & _).
  pose proof (lookup_lt_Some _ _ _ Hi). unfold len in *.
  rewrite unpack_be_bytes by (change (256 ^ Z.of_nat 2) with 65536; lia).
  by rewrite Nat2Z.id, Hi.
Qed.

Definition greeting : bytes := [Byte.x68; Byte.x69].

Lemma frame_roundtrip_witness :
  exists written, wr_out (Writer (frame greeting) false false) = [] ++ written /\
    forall req, exists req',
      read_frame Config.MAX_FRAME_SIZE (Reader (written ++ [Byte.x00]) req)
        = (Reader [Byte.x00] req', Ok greeting).
Proof.
  apply (frame_roundtrip greeting (Writer [] false false) (Writer (frame greeting) false false)
           [Byte.x00]).
  by vm_compute.
Defined.

Lemma read_frame_bounded_witness :
  exists req, rd_requests (state_after (read_frame 1) (Reader (frame greeting) []))
      = [] ++ req /\ Forall (fun n => 0 <= n <= 4) req.
Proof.
  apply (read_frame_bounded 1 (Reader (frame greeting) [])
           (state_after (read_frame 1) (Reader (frame greeting) []))
           (outcome (read_frame 1) (Reader (frame greeting) []))).
  by vm_compute.
Defined.
