(* ===== verification/Blocks.v ===== *)
(** * The block store ([memnode/blocks.py])

    [BlockManager] with its stripes, key index, quota accounting and eviction.

    asyncio runs one coroutine at a time and none of the critical sections of
    this file suspends while it holds a lock, so every lock is free when it is
    asked for and no operation of the store yields the event loop: each one is
    a single transition of the manager's state.

    Parameters: Python's randomised [hash] of a string, the time, and the random
    source of [random.shuffle] (any permutation). *)
From S2P Require Import Prelude Config.

Inductive Durability := PINNED | CACHE.

#[global] Instance Durability_eq_decision : EqDecision Durability.
Proof. solve_decision. Defined.

Definition Durability_value (d : Durability) : string :=
  match d with PINNED => "pinned" | CACHE => "cache" end.

(** [_Entry] *)
Record Entry := mkEntry {
  e_data : bytes;
  e_durability : Durability;
  e_last_access : Z;
  e_key : option string
}.

Definition e_size (e : Entry) : Z := len (e_data e).

(** [_Stripe] and [_KeyStripe]; their locks are never contended (above). *)
Record Stripe := mkStripe { st_blocks : gmap Z Entry; st_used : Z }.
Record KeyStripe := mkKeyStripe { ks_index : gmap string Z }.

Definition empty_stripe : Stripe := mkStripe ∅ 0.
Definition empty_key_stripe : KeyStripe := mkKeyStripe ∅.

Record BlockManager := mkBM {
  bm_max : Z;                       (* max_memory_bytes *)
  bm_stripe_count : Z;
  bm_stripes : list Stripe;
  bm_key_stripes : list KeyStripe;
  bm_reserved : Z;                  (* _reserved_bytes *)
  bm_next_id : Z                    (* the next value of _id_counter *)
}.

(** What an operation draws from its environment: the clock and two uses of
    [random.shuffle] (the stripe order, the candidates of stripe [i]). *)
Record rng := mkRng {
  shuffle_order : list nat -> list nat;
  shuffle_candidates : nat -> list Z -> list Z
}.

Class RngOk (r : rng) : Prop := {
  shuffle_order_perm : forall l, shuffle_order r l ≡ₚ l;
  shuffle_candidates_perm : forall i l, shuffle_candidates r i l ≡ₚ l
}.

(** [BlockManager.__init__] *)
Definition BlockManager_init (max_memory_bytes stripe_count : Z) : result BlockManager :=
  if stripe_count <? 1 then Err (Exn ValueError "stripe_count must be >= 1")
  else Ok (mkBM max_memory_bytes stripe_count
             (replicate (Z.to_nat stripe_count) empty_stripe)
             (replicate (Z.to_nat stripe_count) empty_key_stripe) 0 1).

(** ** Updates of one field *)

Definition set_stripe (i : nat) (s : Stripe) (bm : BlockManager) : BlockManager :=
  mkBM (bm_max bm) (bm_stripe_count bm) (<[i:=s]> (bm_stripes bm)) (bm_key_stripes bm)
    (bm_reserved bm) (bm_next_id bm).

Definition set_key_stripe (i : nat) (k : KeyStripe) (bm : BlockManager) : BlockManager :=
  mkBM (bm_max bm) (bm_stripe_count bm) (bm_stripes bm) (<[i:=k]> (bm_key_stripes bm))
    (bm_reserved bm) (bm_next_id bm).

Definition set_reserved (r : Z) (bm : BlockManager) : BlockManager :=
  mkBM (bm_max bm) (bm_stripe_count bm) (bm_stripes bm) (bm_key_stripes bm)
    r (bm_next_id bm).

Definition set_next_id (n : Z) (bm : BlockManager) : BlockManager :=
  mkBM (bm_max bm) (bm_stripe_count bm) (bm_stripes bm) (bm_key_stripes bm)
    (bm_reserved bm) n.

Section operations.
Context (py_hash : string -> Z).

(** ** Stripe selection: [_stripe] and [_key_stripe] *)

Definition stripe_index (bm : BlockManager) (block_id : Z) : nat :=
  Z.to_nat (block_id mod bm_stripe_count bm).

Definition key_stripe_index (bm : BlockManager) (key : string) : nat :=
  Z.to_nat (py_hash key mod bm_stripe_count bm).

Definition stripe (block_id : Z) : M BlockManager Stripe := fun bm =>
  match bm_stripes bm !! stripe_index bm block_id with
  | Some s => (bm, Ok s)
  | None => (bm, Err (lib_exn IndexError))
  end.

Definition key_stripe (key : string) : M BlockManager KeyStripe := fun bm =>
  match bm_key_stripes bm !! key_stripe_index bm key with
  | Some s => (bm, Ok s)
  | None => (bm, Err (lib_exn IndexError))
  end.

Definition put_stripe (block_id : Z) (s : Stripe) : M BlockManager unit :=
  mmodify (fun bm => set_stripe (stripe_index bm block_id) s bm).

Definition put_key_stripe (key : string) (ks : KeyStripe) : M BlockManager unit :=
  mmodify (fun bm => set_key_stripe (key_stripe_index bm key) ks bm).

(** ** Quota accounting *)

Definition _reserve (size : Z) : M BlockManager bool := fun bm =>
  if bm_max bm <? bm_reserved bm + size then (bm, Ok false)
  else (set_reserved (bm_reserved bm + size) bm, Ok true).

Definition _release (size : Z) : M BlockManager unit :=
  mmodify (fun bm => set_reserved (Z.max 0 (bm_reserved bm - size)) bm).

(** ** Freeing *)

(** [if ks.index.get(key) == block_id: del ks.index[key]] *)
Definition drop_key_if (key : string) (block_id : Z) : M BlockManager unit :=
  ks <- key_stripe key;;
  if decide (ks_index ks !! key = Some block_id)
  then put_key_stripe key (mkKeyStripe (delete key (ks_index ks)))
  else mret tt.

Definition free (block_id : Z) (_drop_key : bool) : M BlockManager bool :=
  s <- stripe block_id;;
  match st_blocks s !! block_id with
  | None => mret false
  | Some entry =>
      put_stripe block_id
        (mkStripe (delete block_id (st_blocks s)) (st_used s - e_size entry));;;
      _release (e_size entry);;;
      match _drop_key, e_key entry with
      | true, Some key => drop_key_if key block_id
      | _, _ => mret tt
      end;;;
      mret true
  end.

Definition free_by_key (key : string) : M BlockManager bool :=
  ks <- key_stripe key;;
  match ks_index ks !! key with
  | None => mret false
  | Some block_id => free block_id true
  end.

(** ** Loading *)

Definition load (now : Z) (block_id : Z) : M BlockManager (option bytes) :=
  s <- stripe block_id;;
  match st_blocks s !! block_id with
  | None => mret None
  | Some entry =>
      put_stripe block_id
        (mkStripe (<[block_id := mkEntry (e_data entry) (e_durability entry) now (e_key entry)]>
                     (st_blocks s)) (st_used s));;;
      mret (Some (e_data entry))
  end.

Definition load_by_key (now : Z) (key : string) : M BlockManager (option bytes) :=
  ks <- key_stripe key;;
  match ks_index ks !! key with
  | None => mret None
  | Some block_id => load now block_id
  end.

(** ** Eviction *)

(** A block taken out of its stripe, not yet released. *)
Record Victim := mkVictim { v_id : Z; v_size : Z; v_key : option string }.

(** [candidates] before shuffling. *)
Definition cache_ids (s : Stripe) : list Z :=
  (filter (fun p => e_durability p.2 = CACHE) (map_to_list (st_blocks s))).*1.

(** The inner loop over the shuffled candidates of one stripe; [freed]
    accumulates over the whole eviction, [reserved] is the value of
    [_reserved_bytes] during the loop. *)
Fixpoint evict_candidates (reserved max needed : Z) (cands : list Z)
    (s : Stripe) (freed : Z) (victims : list Victim) : Stripe * Z * list Victim :=
  match cands with
  | [] => (s, freed, victims)
  | bid :: cands =>
      match st_blocks s !! bid with
      | None => evict_candidates reserved max needed cands s freed victims
      | Some entry =>
          let size := e_size entry in
          let s := mkStripe (delete bid (st_blocks s)) (st_used s - size) in
          let freed := freed + size in
          let victims := victims ++ [mkVictim bid size (e_key entry)] in
          if reserved - freed + needed <=? max then (s, freed, victims)
          else evict_candidates reserved max needed cands s freed victims
      end
  end.

(** [for bid, size, key in victims: ...] *)
Fixpoint release_victims (victims : list Victim) : M BlockManager unit :=
  match victims with
  | [] => mret tt
  | v :: victims =>
      _release (v_size v);;;
      match v_key v with
      | None => mret tt
      | Some key => drop_key_if key (v_id v)
      end;;;
      release_victims victims
  end.

(** One iteration of the loop over the stripes: take the victims out of the
    stripe, then release them. *)
Definition evict_stripe (r : rng) (needed : Z) (idx : nat) (freed : Z) : M BlockManager Z :=
  fun bm =>
    match bm_stripes bm !! idx with
    | None => (bm, Err (lib_exn IndexError))
    | Some s =>
        let '(s, freed, victims) :=
          evict_candidates (bm_reserved bm) (bm_max bm) needed
            (shuffle_candidates r idx (cache_ids s)) s freed [] in
        (mmodify (set_stripe idx s);;; release_victims victims;;; mret freed) bm
    end.

Fixpoint evict_loop (r : rng) (needed : Z) (order : list nat) (freed : Z) : M BlockManager Z :=
  match order with
  | [] => mret freed
  | idx :: order =>
      freed <- evict_stripe r needed idx freed;;
      bm <- mget;;
      if bm_reserved bm + needed <=? bm_max bm then mret freed
      else evict_loop r needed order freed
  end.

Definition _evict_to_free (r : rng) (needed : Z) : M BlockManager Z :=
  bm <- mget;;
  evict_loop r needed (shuffle_order r (seq 0 (Z.to_nat (bm_stripe_count bm)))) 0.

(** ** Storing *)

(** The quota part of [store]: reserve, or evict and try again. *)
Definition acquire_space (r : rng) (size : Z) : M BlockManager unit :=
  ok <- _reserve size;;
  if ok : bool then mret tt
  else
    freed <- _evict_to_free r size;;
    ok <- _reserve size;;
    if ok : bool then mret tt
    else
      bm <- mget;;
      mraise (Exn OutOfMemory
        ("cannot store " +:+ pretty size +:+ " bytes: used=" +:+ pretty (bm_reserved bm)
           +:+ ", max=" +:+ pretty (bm_max bm) +:+ ", eviction freed only " +:+ pretty freed)).

Definition next_block_id : M BlockManager Z := fun bm =>
  (set_next_id (bm_next_id bm + 1) bm, Ok (bm_next_id bm)).

(** Binding a key to the new block, releasing the block it named before. *)
Definition bind_key (key : string) (block_id : Z) : M BlockManager unit :=
  ks <- key_stripe key;;
  let previous := ks_index ks !! key in
  put_key_stripe key (mkKeyStripe (<[key := block_id]> (ks_index ks)));;;
  match previous with
  | Some p => if decide (p = block_id) then mret tt else _ <- free p false;; mret tt
  | None => mret tt
  end.

Definition store (r : rng) (now : Z) (data : bytes) (durability : Durability)
    (key : option string) : M BlockManager Z :=
  let size := len data in
  if Config.MAX_BLOCK_SIZE <? size
  then mraise (Exn BlockTooLarge
         ("block of " +:+ pretty size +:+ " bytes exceeds MAX_BLOCK_SIZE="
            +:+ pretty Config.MAX_BLOCK_SIZE
            +:+ "; use streaming/chunked upload for larger payloads"))
  else
    acquire_space r size;;;
    block_id <- next_block_id;;
    s <- stripe block_id;;
    put_stripe block_id
      (mkStripe (<[block_id := mkEntry data durability now key]> (st_blocks s))
         (st_used s + size));;;
    match key with
    | None => mret tt
    | Some k => bind_key k block_id
    end;;;
    mret block_id.

(** ** Statistics *)

Record Stats := mkStats {
  used_bytes : Z; max_bytes : Z; free_bytes : Z; block_count : Z; stripes : Z
}.

Definition stats (bm : BlockManager) : Stats :=
  let used := bm_reserved bm in
  let count := zsum (map (fun s => Z.of_nat (size (st_blocks s))) (bm_stripes bm)) in
  mkStats used (bm_max bm) (bm_max bm - used) count (bm_stripe_count bm).
End operations.
