(* ===== verification/BlocksFacts.v ===== *)
(** * Invariant and effect of the block-store operations

    The well-formedness invariant of [BlockManager], the two look-ups through
    which the rest of the program sees it, and a lemma per operation of
    [Blocks] that says what it does to both look-ups and to the accounting. *)
From S2P Require Import Prelude Config Blocks.

Section facts.
Context (py_hash : string -> Z).

(** ** The two look-ups *)

Definition lookup_block (bm : BlockManager) (id : Z) : option Entry :=
  bm_stripes bm !! stripe_index bm id ≫= fun s => st_blocks s !! id.

Definition lookup_key (bm : BlockManager) (k : string) : option Z :=
  bm_key_stripes bm !! key_stripe_index py_hash bm k ≫= fun ks => ks_index ks !! k.

(** ** The invariant *)

Record stripe_ok (bm : BlockManager) (i : nat) (s : Stripe) : Prop := {
  so_used : st_used s = msum e_size (st_blocks s);
  so_home : forall id e, st_blocks s !! id = Some e ->
    stripe_index bm id = i /\ 1 <= id < bm_next_id bm /\ e_size e <= Config.MAX_BLOCK_SIZE
}.

(** The structural part, with [pend] bytes reserved that no stripe accounts
    for (a store between reserving and inserting, or blocks taken out of
    their stripe and not yet released). *)
Record SInv (pend : Z) (bm : BlockManager) : Prop := {
  si_count : 1 <= bm_stripe_count bm;
  si_len : length (bm_stripes bm) = Z.to_nat (bm_stripe_count bm);
  si_klen : length (bm_key_stripes bm) = Z.to_nat (bm_stripe_count bm);
  si_stripes : forall i s, bm_stripes bm !! i = Some s -> stripe_ok bm i s;
  si_pend : 0 <= pend;
  si_reserved : bm_reserved bm = zsum (st_used <$> bm_stripes bm) + pend;
  si_quota : bm_reserved bm <= bm_max bm;
  si_next : 1 <= bm_next_id bm;
  si_key_home : forall i ks k id, bm_key_stripes bm !! i = Some ks ->
    ks_index ks !! k = Some id -> i = key_stripe_index py_hash bm k
}.

(** The key index names exactly the live blocks that carry the key. *)
Definition KInv (bm : BlockManager) : Prop :=
  forall k id, lookup_key bm k = Some id <->
    exists e, lookup_block bm id = Some e /\ e_key e = Some k.

(** Between operations. *)
Definition Inv (bm : BlockManager) : Prop := SInv 0 bm /\ KInv bm.

(** ** Indices stay in range *)

Lemma stripe_index_lt pend bm id :
  SInv pend bm -> (stripe_index bm id < length (bm_stripes bm))%nat.
Proof.
  intros HI. rewrite (si_len _ _ HI). unfold stripe_index.
  pose proof (si_count _ _ HI).
  pose proof (Z.mod_pos_bound id (bm_stripe_count bm) ltac:(lia)). lia.
Qed.

Lemma key_stripe_index_lt pend bm k :
  SInv pend bm -> (key_stripe_index py_hash bm k < length (bm_key_stripes bm))%nat.
Proof.
  intros HI. rewrite (si_klen _ _ HI). unfold key_stripe_index.
  pose proof (si_count _ _ HI).
  pose proof (Z.mod_pos_bound (py_hash k) (bm_stripe_count bm) ltac:(lia)). lia.
Qed.

Lemma stripe_get pend bm id :
  SInv pend bm -> exists s, bm_stripes bm !! stripe_index bm id = Some s /\
    stripe id bm = (bm, Ok s) /\ st_blocks s !! id = lookup_block bm id.
Proof.
  intros HI. destruct (lookup_lt_is_Some_2 _ _ (stripe_index_lt pend bm id HI)) as [s Hs].
  exists s. unfold stripe, lookup_block. by rewrite Hs.
Qed.

Lemma key_stripe_get pend bm k :
  SInv pend bm -> exists ks,
    bm_key_stripes bm !! key_stripe_index py_hash bm k = Some ks /\
    key_stripe py_hash k bm = (bm, Ok ks) /\ ks_index ks !! k = lookup_key bm k.
Proof.
  intros HI.
  destruct (lookup_lt_is_Some_2 _ _ (key_stripe_index_lt pend bm k HI)) as [s Hs].
  exists s. unfold key_stripe, lookup_key. by rewrite Hs.
Qed.

Lemma used_nonneg pend bm i s :
  SInv pend bm -> bm_stripes bm !! i = Some s -> 0 <= st_used s.
Proof.
  intros HI Hs. rewrite (so_used _ _ _ (si_stripes _ _ HI _ _ Hs)).
  apply msum_nonneg. intros. apply len_nonneg.
Qed.

Lemma total_used_nonneg pend bm : SInv pend bm -> 0 <= zsum (st_used <$> bm_stripes bm).
Proof.
  intros HI. apply zsum_nonneg. apply Forall_forall. intros z Hz.
  apply list_elem_of_fmap in Hz as (s & -> & Hs).
  apply list_elem_of_lookup in Hs as [i Hs]. by eapply used_nonneg.
Qed.

Lemma lookup_block_bounds pend bm id e :
  SInv pend bm -> lookup_block bm id = Some e ->
  1 <= id < bm_next_id bm /\ e_size e <= Config.MAX_BLOCK_SIZE.
Proof.
  intros HI He. unfold lookup_block in He. apply bind_Some in He as (s & Hs & He).
  by destruct (so_home _ _ _ (si_stripes _ _ HI _ _ Hs) _ _ He).
Qed.

(** ** Replacing one stripe *)

Lemma lookup_block_set_stripe bm i s s0 id :
  bm_stripes bm !! i = Some s0 ->
  lookup_block (set_stripe i s bm) id
    = if decide (stripe_index bm id = i) then st_blocks s !! id else lookup_block bm id.
Proof.
  intros Hs0. unfold lookup_block, set_stripe; simpl.
  change (stripe_index _ id) with (stripe_index bm id).
  pose proof (lookup_lt_Some _ _ _ Hs0) as Hlt. case_decide as Hi.
  - subst i. by rewrite list_lookup_insert_eq.
  - by rewrite list_lookup_insert_ne by done.
Qed.

Lemma SInv_set_stripe pend pend' bm i s s0 :
  SInv pend bm -> bm_stripes bm !! i = Some s0 -> stripe_ok bm i s ->
  0 <= pend' -> pend' = pend + st_used s0 - st_used s ->
  SInv pend' (set_stripe i s bm).
Proof.
  intros HI Hs0 Hs Hp Hpend. pose proof HI as []. constructor; simpl; try done.
  - by rewrite length_insert.
  - intros j sj Hj. apply list_lookup_insert_Some in Hj as [(<- & <- & _)|[_ Hj]].
    + by destruct Hs; constructor.
    + by destruct (si_stripes0 _ _ Hj); constructor.
  - rewrite list_fmap_insert.
    rewrite (zsum_insert _ i (st_used s0)); [lia|].
    rewrite list_lookup_fmap. by rewrite Hs0.
Qed.

Lemma lookup_key_set_stripe bm i s k : lookup_key (set_stripe i s bm) k = lookup_key bm k.
Proof. done. Qed.

(** Writing back a stripe in which one block was added, removed or touched. *)
Lemma stripe_ok_insert pend bm s id e :
  SInv pend bm -> bm_stripes bm !! stripe_index bm id = Some s ->
  st_blocks s !! id = None -> 1 <= id < bm_next_id bm -> e_size e <= Config.MAX_BLOCK_SIZE ->
  stripe_ok bm (stripe_index bm id)
    (mkStripe (<[id:=e]> (st_blocks s)) (st_used s + e_size e)).
Proof.
  intros HI Hs Hid Hr He. destruct (si_stripes _ _ HI _ _ Hs) as [Hu Hh].
  constructor; simpl.
  - rewrite msum_insert by done. lia.
  - intros id' e' He'. apply lookup_insert_Some in He' as [[<- <-]|[_ He']]; [done|].
    by apply Hh.
Qed.

Lemma stripe_ok_delete pend bm s i id e :
  SInv pend bm -> bm_stripes bm !! i = Some s -> st_blocks s !! id = Some e ->
  stripe_ok bm i (mkStripe (delete id (st_blocks s)) (st_used s - e_size e)).
Proof.
  intros HI Hs Hid. destruct (si_stripes _ _ HI _ _ Hs) as [Hu Hh].
  constructor; simpl.
  - rewrite (msum_delete _ _ _ e) by done. lia.
  - intros id' e' He'. apply lookup_delete_Some in He' as [_ He']. by apply Hh.
Qed.

Lemma stripe_ok_update pend bm s i id e e' :
  SInv pend bm -> bm_stripes bm !! i = Some s -> st_blocks s !! id = Some e ->
  e_size e' = e_size e ->
  stripe_ok bm i (mkStripe (<[id:=e']> (st_blocks s)) (st_used s)).
Proof.
  intros HI Hs Hid Hsz. destruct (si_stripes _ _ HI _ _ Hs) as [Hu Hh].
  constructor; simpl.
  - rewrite (msum_update _ _ _ e) by done. lia.
  - intros id' e'' He'. apply lookup_insert_Some in He' as [[<- <-]|[_ He']].
    + rewrite Hsz. by apply (Hh _ e).
    + by apply Hh.
Qed.

(** ** Replacing one key stripe *)

Lemma SInv_set_key_stripe pend bm k ks m :
  SInv pend bm -> bm_key_stripes bm !! key_stripe_index py_hash bm k = Some ks ->
  (forall k' id, m !! k' = Some id -> k' = k \/ ks_index ks !! k' = Some id) ->
  SInv pend (set_key_stripe (key_stripe_index py_hash bm k) (mkKeyStripe m) bm).
Proof.
  intros HI Hks Hm. pose proof HI as []. constructor; simpl; try done.
  - by rewrite length_insert.
  - intros i s Hi. by destruct (si_stripes0 _ _ Hi); constructor.
  - intros i ks' k' id Hi Hk'.
    apply list_lookup_insert_Some in Hi as [(<- & <- & _)|[_ Hi]].
    + simpl in Hk'. destruct (Hm _ _ Hk') as [->|Hold]; [done|].
      by apply (si_key_home0 _ ks _ id).
    + by eapply si_key_home0.
Qed.

Lemma lookup_key_set_key_stripe bm k ks m k' :
  bm_key_stripes bm !! key_stripe_index py_hash bm k = Some ks ->
  (forall k'', k'' <> k -> m !! k'' = ks_index ks !! k'') ->
  lookup_key (set_key_stripe (key_stripe_index py_hash bm k) (mkKeyStripe m) bm) k'
    = if decide (k' = k) then m !! k else lookup_key bm k'.
Proof.
  intros Hks Hm. unfold lookup_key, set_key_stripe; simpl.
  change (key_stripe_index py_hash _ k') with (key_stripe_index py_hash bm k').
  pose proof (lookup_lt_Some _ _ _ Hks) as Hlt.
  destruct (decide (key_stripe_index py_hash bm k' = key_stripe_index py_hash bm k)) as [Hi|Hi].
  - rewrite Hi, list_lookup_insert_eq by done. simpl. rewrite Hks. simpl.
    case_decide; [by subst|]. by apply Hm.
  - rewrite list_lookup_insert_ne by done. case_decide; [by subst|done].
Qed.

Lemma lookup_block_set_key_stripe bm i ks id :
  lookup_block (set_key_stripe i ks bm) id = lookup_block bm id.
Proof. done. Qed.

(** ** Accounting *)

(** The fields no operation but [__init__] and the id counter changes. *)
Definition same_shape (bm bm' : BlockManager) : Prop :=
  bm_max bm' = bm_max bm /\ bm_stripe_count bm' = bm_stripe_count bm /\
  bm_next_id bm' = bm_next_id bm.

#[global] Instance same_shape_po : PreOrder same_shape.
Proof. split; [done|]. unfold same_shape. intros ???. naive_solver congruence. Qed.

Lemma SInv_set_reserved pend pend' bm r :
  SInv pend bm -> 0 <= pend' -> r = zsum (st_used <$> bm_stripes bm) + pend' ->
  r <= bm_max bm -> SInv pend' (set_reserved r bm).
Proof.
  intros HI Hp Hr Hq. pose proof HI as []. constructor; simpl; try done.
  intros i s Hi. by destruct (si_stripes0 _ _ Hi); constructor.
Qed.

Lemma reserve_true bm n :
  bm_reserved bm + n <= bm_max bm ->
  _reserve n bm = (set_reserved (bm_reserved bm + n) bm, Ok true).
Proof. intros. unfold _reserve. zcase; [lia|done]. Qed.

Lemma reserve_false bm n :
  bm_max bm < bm_reserved bm + n -> _reserve n bm = (bm, Ok false).
Proof. intros. unfold _reserve. zcase; [done|lia]. Qed.

Lemma SInv_reserve pend bm n :
  SInv pend bm -> 0 <= n -> bm_reserved bm + n <= bm_max bm ->
  SInv (pend + n) (set_reserved (bm_reserved bm + n) bm).
Proof.
  intros HI Hn Hq. pose proof (si_pend _ _ HI). pose proof (si_reserved _ _ HI).
  eapply SInv_set_reserved; [done|lia..].
Qed.

Lemma release_spec pend bm n :
  SInv (pend + n) bm -> 0 <= pend -> 0 <= n ->
  _release n bm = (set_reserved (bm_reserved bm - n) bm, Ok tt) /\
  SInv pend (set_reserved (bm_reserved bm - n) bm).
Proof.
  intros HI Hp Hn. pose proof (si_reserved _ _ HI). pose proof (si_quota _ _ HI).
  pose proof (total_used_nonneg _ _ HI).
  unfold _release, mmodify. rewrite Z.max_r by lia. split; [done|].
  eapply SInv_set_reserved; [done|lia..].
Qed.

(** ** The key index *)

Lemma drop_key_if_spec pend bm k id :
  SInv pend bm -> exists bm',
    drop_key_if py_hash k id bm = (bm', Ok tt) /\ SInv pend bm' /\ same_shape bm bm' /\
    bm_reserved bm' = bm_reserved bm /\
    (forall id', lookup_block bm' id' = lookup_block bm id') /\
    (forall k', lookup_key bm' k'
       = if decide (k' = k /\ lookup_key bm k = Some id) then None else lookup_key bm k').
Proof.
  intros HI. destruct (key_stripe_get _ _ k HI) as (ks & Hks & Hget & Hk).
  unfold drop_key_if. rewrite (bind_ok _ _ _ _ _ Hget), Hk.
  destruct (decide (lookup_key bm k = Some id)) as [Hid|Hid].
  - unfold put_key_stripe, mmodify. eexists. split; [done|].
    split; [|split; [done|split; [done|split]]].
    + eapply SInv_set_key_stripe; [done..|]. intros k' id' Hk'.
      apply lookup_delete_Some in Hk' as [_ Hk']. by right.
    + done.
    + intros k'. erewrite lookup_key_set_key_stripe; [|done|].
      * repeat case_decide; try naive_solver. apply lookup_delete_eq.
      * intros k'' Hne. by rewrite lookup_delete_ne.
  - exists bm. split_and!; try done. intros k'. case_decide; naive_solver.
Qed.

(** ** [free] *)

(** Taking a block out of its stripe. *)
Lemma remove_spec pend bm s i id e :
  SInv pend bm -> bm_stripes bm !! i = Some s -> st_blocks s !! id = Some e ->
  let bm' := set_stripe i (mkStripe (delete id (st_blocks s)) (st_used s - e_size e)) bm in
  SInv (pend + e_size e) bm' /\
  (forall id', lookup_block bm' id'
     = if decide (id' = id) then None else lookup_block bm id').
Proof.
  intros HI Hs He bm'. pose proof (si_pend _ _ HI). pose proof (len_nonneg (e_data e)).
  assert (Hhome : stripe_index bm id = i)
    by (by destruct (so_home _ _ _ (si_stripes _ _ HI _ _ Hs) _ _ He)).
  split.
  - eapply SInv_set_stripe; [done..| | |]; simpl.
    + by eapply stripe_ok_delete.
    + unfold e_size. lia.
    + unfold e_size. lia.
  - intros id'. unfold bm'. erewrite lookup_block_set_stripe by done. simpl.
    destruct (decide (id' = id)) as [->|Hne].
    + rewrite decide_True by done. apply lookup_delete_eq.
    + case_decide as Hi; [|done]. rewrite lookup_delete_ne by done.
      unfold lookup_block. by rewrite Hi, Hs.
Qed.

Definition freed_size (o : option Entry) : Z :=
  match o with Some e => e_size e | None => 0 end.

Lemma free_spec pend bm id dk :
  SInv pend bm -> exists bm',
    free py_hash id dk bm = (bm', Ok (bool_decide (is_Some (lookup_block bm id)))) /\
    SInv pend bm' /\ same_shape bm bm' /\
    bm_reserved bm' = bm_reserved bm - freed_size (lookup_block bm id) /\
    (forall id', lookup_block bm' id'
       = if decide (id' = id) then None else lookup_block bm id') /\
    (forall k, lookup_key bm' k
       = if decide (dk = true /\ (lookup_block bm id ≫= e_key) = Some k /\
                    lookup_key bm k = Some id)
         then None else lookup_key bm k).
Proof.
  intros HI. destruct (stripe_get _ _ id HI) as (s & Hs & Hget & Hid).
  unfold free. rewrite (bind_ok _ _ _ _ _ Hget), Hid.
  destruct (lookup_block bm id) as [e|] eqn:He.
  2:{ exists bm. split_and!; try done; cbn [freed_size]; [lia| |].
      - intros id'. case_decide; congruence.
      - intros k. case_decide; naive_solver. }
  destruct (remove_spec _ _ _ _ id e HI Hs Hid) as [HI1 Hb1].
  set (bm1 := set_stripe _ _ bm) in *.
  pose proof (len_nonneg (e_data e)).
  destruct (release_spec pend bm1 (e_size e) HI1 (si_pend _ _ HI)) as [Hrel HI2]; [done|].
  rewrite (bind_ok _ _ _ bm1 tt eq_refl), (bind_ok _ _ _ _ _ Hrel).
  set (bm2 := set_reserved _ bm1) in *.
  assert (Hb2 : forall id', lookup_block bm2 id'
            = if decide (id' = id) then None else lookup_block bm id') by exact Hb1.
  assert (Hk2 : forall k, lookup_key bm2 k = lookup_key bm k) by done.
  change ((Some e : option Entry) ≫= e_key) with (e_key e).
  destruct dk, (e_key e) as [key|].
  2-4: exists bm2; split_and!; try done; intros k; case_decide; naive_solver.
  destruct (drop_key_if_spec _ bm2 key id HI2) as (bm3 & Hd & HI3 & Hsh & Hr & Hb & Hk).
  rewrite (bind_ok _ _ _ _ _ Hd). exists bm3. split_and!; try done.
  - intros id'. rewrite Hb. apply Hb2.
  - intros k. rewrite Hk, !Hk2. repeat case_decide; naive_solver.
Qed.

(** ** Eviction *)

(** The victims [new], all of them in [cands], have left the stripe. *)
Record removed (cands : list Z) (s s' : Stripe) (new : list Victim) : Prop := {
  rm_used : st_used s' = st_used s - zsum (v_size <$> new);
  rm_sum : st_used s = msum e_size (st_blocks s) -> st_used s' = msum e_size (st_blocks s');
  rm_blocks : forall id, st_blocks s' !! id = if decide (id ∈ v_id <$> new) then None else st_blocks s !! id;
  rm_from : forall v, v ∈ new -> v_id v ∈ cands /\ exists e, st_blocks s !! v_id v = Some e /\
    v_size v = e_size e /\ v_key v = e_key e;
  rm_nodup : NoDup (v_id <$> new)
}.

Lemma removed_nil cands s : removed cands s s [].
Proof.
  split; try done; [simpl; lia| |constructor]. intros v Hv. by apply not_elem_of_nil in Hv.
Qed.

Lemma removed_more bid cands s s' new : removed cands s s' new -> removed (bid :: cands) s s' new.
Proof.
  intros [Hu Hm Hb Hv Hnd]. split; try done.
  intros v Hin. destruct (Hv v Hin) as [Hc Hrest]. split; [by right|done].
Qed.

Lemma removed_cons bid e cands s s' new :
  st_blocks s !! bid = Some e ->
  removed cands (mkStripe (delete bid (st_blocks s)) (st_used s - e_size e)) s' new ->
  removed (bid :: cands) s s' (mkVictim bid (e_size e) (e_key e) :: new).
Proof.
  intros He [Hu Hm Hb Hv Hnd]. cbn [st_blocks st_used] in *. split.
  - rewrite Hu, fmap_cons, zsum_cons. simpl. lia.
  - intros Hs. apply Hm. rewrite (msum_delete _ _ _ e) by done. lia.
  - intros id. rewrite Hb. simpl. destruct (decide (id = bid)) as [->|Hne].
    + rewrite lookup_delete_eq, (decide_True (P := bid ∈ _ :: _)) by set_solver. by case_decide.
    + rewrite lookup_delete_ne by done. repeat case_decide; set_solver.
  - intros v' [->|Hv']%elem_of_cons; simpl; [split; [by left|eauto]|].
    destruct (Hv v' Hv') as (Hin & e' & He' & Hsz & Hky). split; [by right|].
    apply lookup_delete_Some in He' as [_ He']. eauto.
  - simpl. apply NoDup_cons. split; [|done]. intros Hin.
    apply list_elem_of_fmap in Hin as (v' & Heqv & Hv'). destruct (Hv v' Hv') as (_ & e' & He' & _).
    rewrite <-Heqv in He'. by rewrite lookup_delete_eq in He'.
Qed.

(** The inner loop: which blocks leave the stripe, and when it stops. *)
Lemma evict_candidates_spec reserved max needed cands s freed vs :
  exists new s',
    evict_candidates reserved max needed cands s freed vs
      = (s', freed + zsum (v_size <$> new), vs ++ new) /\
    removed cands s s' new /\
    ((new <> [] /\ reserved - (freed + zsum (v_size <$> new)) + needed <= max) \/
     (forall id, id ∈ cands -> st_blocks s' !! id = None)).
Proof.
  revert s freed vs. induction cands as [|bid cands IH]; intros s freed vs; cbn [evict_candidates].
  { exists [], s. rewrite Z.add_0_r, app_nil_r. split_and!; [done|apply removed_nil|].
    right. intros id Hid. by apply not_elem_of_nil in Hid. }
  destruct (st_blocks s !! bid) as [e|] eqn:He; cbn zeta.
  - set (s1 := mkStripe (delete bid (st_blocks s)) (st_used s - e_size e)).
    set (v := mkVictim bid (e_size e) (e_key e)). zcase.
    + exists [v], s1. split_and!; [simpl; by rewrite Z.add_0_r| |left; split; [done|simpl; lia]].
      by apply removed_cons, removed_nil.
    + destruct (IH s1 (freed + e_size e) (vs ++ [v])) as (new & s' & Heq & Hrm & Hstop).
      rewrite Heq. exists (v :: new), s'. pose proof (removed_cons _ _ _ _ _ _ He Hrm) as Hrm'. split_and!.
      * rewrite <-(assoc_L app). simpl. by rewrite (Z.add_assoc freed).
      * done.
      * destruct Hstop as [[Hne Hle]|Hall]; [left|right].
        -- split; [done|]. rewrite fmap_cons, zsum_cons. simpl. lia.
        -- intros id [->|Hid]%elem_of_cons; [|by apply Hall].
           rewrite (rm_blocks _ _ _ _ Hrm'), decide_True; [done|by left].
  - destruct (IH s freed vs) as (new & s' & Heq & Hrm & Hstop).
    exists new, s'. split_and!; [done|by apply removed_more|].
    destruct Hstop as [?|Hall]; [by left|right]. intros id [->|Hid]%elem_of_cons; [|by apply Hall].
    rewrite (rm_blocks _ _ _ _ Hrm). by case_decide.
Qed.

Lemma elem_cache_ids s id :
  id ∈ cache_ids s <-> exists e, st_blocks s !! id = Some e /\ e_durability e = CACHE.
Proof.
  unfold cache_ids. rewrite list_elem_of_fmap. split.
  - intros ([id' e] & -> & Hin). apply list_elem_of_filter in Hin as [Hc Hin].
    apply elem_of_map_to_list in Hin. eauto.
  - intros (e & He & Hc). exists (id, e). split; [done|].
    apply list_elem_of_filter. split; [done|]. by apply elem_of_map_to_list.
Qed.

(** Total size of a list of victims. *)
Definition vsum (vs : list Victim) : Z := zsum (v_size <$> vs).

Lemma vsum_cons v vs : vsum (v :: vs) = v_size v + vsum vs.
Proof. done. Qed.

Lemma vsum_app vs vs' : vsum (vs ++ vs') = vsum vs + vsum vs'.
Proof. unfold vsum. by rewrite fmap_app, zsum_app. Qed.

Lemma vsum_nonneg vs : Forall (fun v => 0 <= v_size v) vs -> 0 <= vsum vs.
Proof. intros H. apply zsum_nonneg. by apply Forall_fmap. Qed.

(** The victim list [vs] names key [k]'s block [id]. *)
Definition names_key (vs : list Victim) (k : string) (id : Z) : Prop :=
  exists v, v ∈ vs /\ v_id v = id /\ v_key v = Some k.

Lemma release_victims_spec vs pend bm :
  SInv (pend + vsum vs) bm -> 0 <= pend -> Forall (fun v => 0 <= v_size v) vs ->
  exists bm', release_victims py_hash vs bm = (bm', Ok tt) /\ SInv pend bm' /\
    same_shape bm bm' /\ bm_reserved bm' = bm_reserved bm - vsum vs /\
    (forall id, lookup_block bm' id = lookup_block bm id) /\
    (forall k id, lookup_key bm' k = Some id <->
       lookup_key bm k = Some id /\ ~ names_key vs k id).
Proof.
  revert bm. induction vs as [|v vs IH]; intros bm HI Hp Hall.
  { exists bm. change (vsum []) with 0 in *. rewrite Z.add_0_r in HI.
    split_and!; try done; [lia|]. intros k id. unfold names_key. set_solver. }
  apply Forall_cons in Hall as [Hv Hall]. pose proof (vsum_nonneg vs Hall).
  rewrite vsum_cons in *. cbn [release_victims].
  destruct (release_spec (pend + vsum vs) bm (v_size v)) as [Hrel HI1]; [|lia|done|].
  { by replace (pend + vsum vs + v_size v) with (pend + (v_size v + vsum vs)) by lia. }
  rewrite (bind_ok _ _ _ _ _ Hrel). set (bm1 := set_reserved _ bm) in *.
  assert (Hdrop : exists bm2,
    (match v_key v with None => mret tt | Some key => drop_key_if py_hash key (v_id v) end) bm1
      = (bm2, Ok tt) /\ SInv (pend + vsum vs) bm2 /\ same_shape bm1 bm2 /\
    bm_reserved bm2 = bm_reserved bm1 /\
    (forall id, lookup_block bm2 id = lookup_block bm1 id) /\
    (forall k id, lookup_key bm2 k = Some id <-> lookup_key bm k = Some id /\
       ~ (v_id v = id /\ v_key v = Some k))).
  { destruct (v_key v) as [key|].
    - destruct (drop_key_if_spec _ bm1 key (v_id v) HI1) as (bm2 & Hd & HI2 & Hsh & Hr & Hb & Hk).
      exists bm2. split_and!; try done. intros k id. rewrite Hk.
      change (lookup_key bm1) with (lookup_key bm).
      destruct (decide (k = key /\ lookup_key bm key = Some (v_id v))) as [[-> Hc]|Hc].
      + split; [done|]. intros [Hid Hn]. destruct Hn. split; congruence.
      + split; [|by intros [? _]]. intros Hid. split; [done|].
        intros [<- Heq]. apply Hc. split; congruence.
    - exists bm1. split_and!; try done. intros k id.
      change (lookup_key bm1) with (lookup_key bm). naive_solver. }
  destruct Hdrop as (bm2 & Hd & HI2 & Hsh2 & Hr2 & Hb2 & Hk2).
  rewrite (bind_ok _ _ _ _ _ Hd).
  destruct (IH bm2 HI2 Hp Hall) as (bm3 & Hrest & HI3 & Hsh3 & Hr3 & Hb3 & Hk3).
  exists bm3. split_and!; try done.
  - etrans; [|exact Hsh3]. etrans; [|exact Hsh2]. done.
  - rewrite Hr3, Hr2. simpl. lia.
  - intros id. by rewrite Hb3, Hb2.
  - intros k id. rewrite Hk3, Hk2. unfold names_key. set_solver.
Qed.

(** What an eviction did: the victims, all of them CACHE blocks of the state
    before, are gone together with their keys, and their bytes are released. *)
Record evicts (bm bm' : BlockManager) (vs : list Victim) : Prop := {
  ev_shape : same_shape bm bm';
  ev_reserved : bm_reserved bm' = bm_reserved bm - vsum vs;
  ev_blocks : forall id, lookup_block bm' id
    = if decide (id ∈ v_id <$> vs) then None else lookup_block bm id;
  ev_keys : forall k id, lookup_key bm' k = Some id <->
    lookup_key bm k = Some id /\ ~ names_key vs k id;
  ev_victims : forall v, v ∈ vs -> exists e, lookup_block bm (v_id v) = Some e /\
    e_durability e = CACHE /\ v_size v = e_size e /\ v_key v = e_key e;
  ev_nodup : NoDup (v_id <$> vs)
}.

Lemma evicts_nil bm : evicts bm bm [].
Proof.
  constructor; [done| | | | |constructor].
  - change (vsum []) with 0. lia.
  - done.
  - unfold names_key. set_solver.
  - set_solver.
Qed.

Lemma evicts_trans bm bm1 bm2 vs1 vs2 :
  evicts bm bm1 vs1 -> evicts bm1 bm2 vs2 -> evicts bm bm2 (vs1 ++ vs2).
Proof.
  intros [Hsh1 Hr1 Hb1 Hk1 Hv1 Hn1] [Hsh2 Hr2 Hb2 Hk2 Hv2 Hn2].
  assert (Hold : forall v, v ∈ vs2 -> (v_id v ∉ (v_id <$> vs1)) /\
            exists e, lookup_block bm (v_id v) = Some e /\
              e_durability e = CACHE /\ v_size v = e_size e /\ v_key v = e_key e).
  { intros v Hv. destruct (Hv2 v Hv) as (e & He & Hrest). rewrite Hb1 in He.
    case_decide; [done|]. eauto. }
  constructor.
  - by etrans.
  - rewrite Hr2, Hr1, vsum_app. lia.
  - intros id. rewrite Hb2, Hb1, fmap_app. repeat case_decide; set_solver.
  - intros k id. rewrite Hk2, Hk1. unfold names_key. set_solver.
  - intros v [Hv|Hv]%elem_of_app; [by apply Hv1|]. by apply Hold.
  - rewrite fmap_app. apply NoDup_app. split_and!; [done| |done].
    intros id Hid1 Hid2. apply list_elem_of_fmap in Hid2 as (v & -> & Hv).
    by destruct (Hold v Hv).
Qed.

Lemma evicts_KInv bm bm' vs : KInv bm -> evicts bm bm' vs -> KInv bm'.
Proof.
  intros HK [_ _ Hb Hk Hv _] k id. rewrite Hk, (HK k id). setoid_rewrite Hb. split.
  - intros [(e & He & Hek) Hn]. exists e. split; [|done]. rewrite decide_False; [done|].
    intros Hin. apply list_elem_of_fmap in Hin as (v & -> & Hin).
    apply Hn. exists v. destruct (Hv v Hin) as (e' & He' & _ & _ & Hvk).
    naive_solver congruence.
  - intros (e & He & Hek). case_decide as Hin; [done|]. split; [eauto|].
    intros (v & Hvin & <- & _). apply Hin. by apply list_elem_of_fmap_2.
Qed.

(** The victims of a stripe are CACHE blocks of the store. *)
Lemma removed_cached r pend bm idx s s' vs :
  RngOk r -> SInv pend bm -> bm_stripes bm !! idx = Some s ->
  removed (shuffle_candidates r idx (cache_ids s)) s s' vs ->
  (forall v, v ∈ vs -> exists e, lookup_block bm (v_id v) = Some e /\
     e_durability e = CACHE /\ v_size v = e_size e /\ v_key v = e_key e) /\
  Forall (fun v => 0 <= v_size v) vs.
Proof.
  intros Hr HI Hs Hrm. destruct (si_stripes _ _ HI _ _ Hs) as [_ Hhome].
  assert (forall v, v ∈ vs -> exists e, lookup_block bm (v_id v) = Some e /\
    e_durability e = CACHE /\ v_size v = e_size e /\ v_key v = e_key e) as Hvs.
  { intros v Hin. destruct (rm_from _ _ _ _ Hrm v Hin) as (Hc & e & He & Hrest).
    rewrite shuffle_candidates_perm in Hc. apply elem_cache_ids in Hc as (e' & He' & Hc).
    exists e. split; [|naive_solver congruence]. unfold lookup_block.
    destruct (Hhome _ _ He) as [-> _]. by rewrite Hs. }
  split; [done|]. apply Forall_forall. intros v Hin. destruct (Hvs v Hin) as (e & _ & _ & -> & _).
  apply len_nonneg.
Qed.

(** One stripe: its inner loop ends with room for the request according to its
    test (which subtracts [freed], the bytes of earlier stripes, once more), or
    with no CACHE block left in the stripe. *)
Lemma evict_stripe_spec r pend bm needed idx freed :
  RngOk r -> SInv pend bm -> (idx < length (bm_stripes bm))%nat ->
  exists bm' vs, evict_stripe py_hash r needed idx freed bm = (bm', Ok (freed + vsum vs)) /\
    SInv pend bm' /\ evicts bm bm' vs /\
    (bm_reserved bm' + needed - freed <= bm_max bm \/
     forall id e, lookup_block bm' id = Some e -> stripe_index bm id = idx ->
       e_durability e = PINNED).
Proof.
  intros Hr HI Hlt. destruct (lookup_lt_is_Some_2 _ _ Hlt) as [s Hs].
  unfold evict_stripe. rewrite Hs.
  destruct (evict_candidates_spec (bm_reserved bm) (bm_max bm) needed
              (shuffle_candidates r idx (cache_ids s)) s freed [])
    as (vs & s' & -> & Hrm & Hstop). rewrite app_nil_l.
  destruct (si_stripes _ _ HI _ _ Hs) as [Hus Hhome].
  destruct (removed_cached r pend bm idx s s' vs Hr HI Hs Hrm) as [Hvs Hpos].
  destruct Hrm as [Hu Hm Hb Hv Hnd].
  assert (HI1 : SInv (pend + vsum vs) (set_stripe idx s' bm)).
  { pose proof (si_pend _ _ HI). pose proof (vsum_nonneg vs Hpos).
    eapply SInv_set_stripe; [done..| |lia|unfold vsum in *; lia].
    constructor; [by apply Hm|]. intros id e He. rewrite Hb in He.
    destruct (decide _); [done|]. by apply Hhome. }
  rewrite (bind_ok _ _ _ (set_stripe idx s' bm) tt eq_refl).
  destruct (release_victims_spec vs pend _ HI1 (si_pend _ _ HI) Hpos)
    as (bm' & Hrel & HI' & Hsh & Hres & Hbk & Hky).
  rewrite (bind_ok _ _ _ _ _ Hrel). exists bm', vs. split; [done|]. split; [done|].
  assert (Hbk' : forall id, lookup_block bm' id
            = if decide (stripe_index bm id = idx) then st_blocks s' !! id
              else lookup_block bm id).
  { intros id. rewrite Hbk. by erewrite lookup_block_set_stripe by done. }
  split.
  - constructor; try done. intros id. rewrite Hbk', Hb.
    destruct (decide (id ∈ v_id <$> vs)) as [Hin|Hin].
    + destruct (decide (stripe_index bm id = idx)) as [|Hne]; [done|]. destruct Hne.
      apply list_elem_of_fmap in Hin as (v & -> & Hin).
      destruct (Hv v Hin) as (_ & e & He & _). by destruct (Hhome _ _ He).
    + destruct (decide (stripe_index bm id = idx)) as [Hi|Hi]; [|done].
      unfold lookup_block. by rewrite Hi, Hs.
  - destruct Hstop as [[_ Hle]|Hall]; [left|right].
    + rewrite Hres. simpl. unfold vsum in *. lia.
    + intros id e He Hi. destruct (e_durability e) eqn:Hd; [done|].
      rewrite Hbk', decide_True in He by done. pose proof He as He0.
      rewrite Hb in He0. destruct (decide _) in He0; [done|].
      rewrite Hall in He; [done|]. rewrite shuffle_candidates_perm.
      apply elem_cache_ids. eauto.
Qed.

Lemma same_shape_lengths pend pend' bm bm' :
  SInv pend bm -> SInv pend' bm' -> same_shape bm bm' ->
  length (bm_stripes bm') = length (bm_stripes bm).
Proof.
  intros HI HI' (_ & Hc & _). rewrite (si_len _ _ HI), (si_len _ _ HI'). by rewrite Hc.
Qed.

(** The loop over the stripes stops with room for the request, or after the
    last stripe of the order. *)
Lemma evict_loop_spec r pend needed order bm freed :
  RngOk r -> SInv pend bm ->
  Forall (fun i => (i < length (bm_stripes bm))%nat) order ->
  exists bm' vs, evict_loop py_hash r needed order freed bm = (bm', Ok (freed + vsum vs)) /\
    SInv pend bm' /\ evicts bm bm' vs.
Proof.
  intros Hr. revert bm freed. induction order as [|idx order IH]; intros bm freed HI Hord.
  { exists bm, []. split; [cbn; by rewrite Z.add_0_r|]. split; [done|]. apply evicts_nil. }
  apply Forall_cons in Hord as [Hidx Hord].
  destruct (evict_stripe_spec r pend bm needed idx freed Hr HI Hidx)
    as (bm1 & vs1 & Hev & HI1 & Hevs1 & _).
  cbn [evict_loop]. rewrite (bind_ok _ _ _ _ _ Hev), (bind_ok _ _ _ bm1 bm1 eq_refl).
  zcase; [by exists bm1, vs1|].
  destruct (IH bm1 (freed + vsum vs1) HI1) as (bm2 & vs2 & Hl & HI2 & Hevs2).
  { by rewrite (same_shape_lengths _ _ _ _ HI HI1 (ev_shape _ _ _ Hevs1)). }
  exists bm2, (vs1 ++ vs2). split; [|split; [done|by eapply evicts_trans]].
  rewrite Hl, vsum_app. by rewrite Z.add_assoc.
Qed.

(** Whatever the later stripes do, the first one of the order is exhausted
    unless room was made. *)
Lemma evict_loop_first r pend needed i order bm bm' freed :
  RngOk r -> SInv pend bm ->
  Forall (fun i => (i < length (bm_stripes bm))%nat) (i :: order) ->
  evict_loop py_hash r needed (i :: order) 0 bm = (bm', Ok freed) ->
  bm_reserved bm' + needed <= bm_max bm \/
  (forall id e, lookup_block bm' id = Some e -> stripe_index bm id = i ->
     e_durability e = PINNED).
Proof.
  intros Hr HI Hord Hloop. apply Forall_cons in Hord as [Hi Hord].
  destruct (evict_stripe_spec r pend bm needed i 0 Hr HI Hi)
    as (bm1 & vs1 & Hev & HI1 & Hevs1 & Hstop).
  cbn [evict_loop] in Hloop.
  rewrite (bind_ok _ _ _ _ _ Hev), (bind_ok _ _ _ bm1 bm1 eq_refl) in Hloop.
  destruct (ev_shape _ _ _ Hevs1) as (Hmx & _). rewrite Hmx in Hloop.
  zcase_in Hloop; [injection Hloop as <- _; by left|].
  destruct Hstop as [Hle|Hpin]; [lia|].
  destruct (evict_loop_spec r pend needed order bm1 (0 + vsum vs1) Hr HI1)
    as (bm2 & vs2 & Hl & _ & Hevs2).
  { by rewrite (same_shape_lengths _ _ _ _ HI HI1 (ev_shape _ _ _ Hevs1)). }
  rewrite Hl in Hloop. injection Hloop as <- _. right. intros id e He Hid.
  rewrite (ev_blocks _ _ _ Hevs2) in He. destruct (decide _) in He; [done|].
  by apply (Hpin id).
Qed.

(** No CACHE block of [bm1] lives in the stripe an eviction of [bm] visits
    first. *)
Definition first_exhausted (r : rng) (bm bm1 : BlockManager) : Prop :=
  forall i order id e,
    shuffle_order r (seq 0 (Z.to_nat (bm_stripe_count bm))) = i :: order ->
    lookup_block bm1 id = Some e -> stripe_index bm id = i -> e_durability e = PINNED.

Lemma evict_to_free_spec r pend bm needed :
  RngOk r -> SInv pend bm ->
  exists bm' vs, _evict_to_free py_hash r needed bm = (bm', Ok (vsum vs)) /\
    SInv pend bm' /\ evicts bm bm' vs /\
    (bm_reserved bm' + needed <= bm_max bm \/ first_exhausted r bm bm').
Proof.
  intros Hr HI. unfold _evict_to_free. rewrite (bind_ok _ _ _ bm bm eq_refl).
  assert (Hord : Forall (fun i => (i < length (bm_stripes bm))%nat)
            (shuffle_order r (seq 0 (Z.to_nat (bm_stripe_count bm))))).
  { rewrite shuffle_order_perm. apply Forall_forall. intros i Hi.
    apply elem_of_seq in Hi. rewrite (si_len _ _ HI). lia. }
  destruct (evict_loop_spec r pend needed _ bm 0 Hr HI Hord) as (bm' & vs & Hl & HI' & Hev).
  exists bm', vs. split; [done|]. split; [done|]. split; [done|].
  destruct (shuffle_order r _) as [|i order] eqn:Ho.
  - right. intros i order id e Hi. congruence.
  - destruct (evict_loop_first r pend needed i order bm bm' _ Hr HI Hord Hl) as [?|Hp]; [by left|].
    right. intros i' order' id e Hi He Hid. rewrite Ho in Hi. simplify_eq. by apply (Hp id).
Qed.

(** ** [store] *)

(** The quota part: room was found, possibly after evicting, or it was not. *)
Lemma acquire_space_spec r bm n :
  RngOk r -> SInv 0 bm -> 0 <= n ->
  exists bm1 vs, SInv 0 bm1 /\ evicts bm bm1 vs /\
    (bm_reserved bm + n <= bm_max bm -> vs = [] /\ bm1 = bm) /\
    ((bm_reserved bm1 + n <= bm_max bm1 /\
      acquire_space py_hash r n bm = (set_reserved (bm_reserved bm1 + n) bm1, Ok tt)) \/
     (bm_max bm1 < bm_reserved bm1 + n /\ first_exhausted r bm bm1 /\
      exists msg, acquire_space py_hash r n bm = (bm1, Err (Exn OutOfMemory msg)))).
Proof.
  intros Hr HI Hn. unfold acquire_space.
  destruct (decide (bm_reserved bm + n <= bm_max bm)) as [Hfit|Hfit].
  { exists bm, []. split; [done|]. split; [apply evicts_nil|]. split; [done|]. left.
    split; [done|]. by rewrite (bind_ok _ _ _ _ _ (reserve_true bm n Hfit)). }
  rewrite (bind_ok _ _ _ _ _ (reserve_false bm n ltac:(lia))).
  destruct (evict_to_free_spec r 0 bm n Hr HI) as (bm1 & vs & Hev & HI1 & Hevs & Hex).
  destruct (ev_shape _ _ _ Hevs) as (Hmx & _).
  rewrite (bind_ok _ _ _ _ _ Hev). exists bm1, vs. split; [done|]. split; [done|].
  split; [lia|]. destruct (decide (bm_reserved bm1 + n <= bm_max bm1)) as [Hfit1|Hfit1].
  - left. split; [done|]. by rewrite (bind_ok _ _ _ _ _ (reserve_true bm1 n Hfit1)).
  - right. split; [lia|]. split; [destruct Hex as [?|?]; [lia|done]|].
    rewrite (bind_ok _ _ _ _ _ (reserve_false bm1 n ltac:(lia))).
    rewrite (bind_ok _ _ _ bm1 bm1 eq_refl). by eexists.
Qed.

(** A fresh block goes into its stripe. *)
Lemma insert_spec bm id e s :
  SInv (e_size e) bm -> bm_stripes bm !! stripe_index bm id = Some s ->
  lookup_block bm id = None -> 1 <= id < bm_next_id bm -> e_size e <= Config.MAX_BLOCK_SIZE ->
  let bm' := set_stripe (stripe_index bm id)
               (mkStripe (<[id:=e]> (st_blocks s)) (st_used s + e_size e)) bm in
  SInv 0 bm' /\
  (forall id', lookup_block bm' id' = if decide (id' = id) then Some e else lookup_block bm id').
Proof.
  intros HI Hs Hnone Hr Hsz bm'.
  assert (Hin : st_blocks s !! id = None).
  { unfold lookup_block in Hnone. by rewrite Hs in Hnone. }
  split.
  - eapply SInv_set_stripe; [done..| | |]; simpl; [by eapply stripe_ok_insert|lia|lia].
  - intros id'. unfold bm'. erewrite lookup_block_set_stripe by done. simpl.
    destruct (decide (id' = id)) as [->|Hne].
    + rewrite decide_True by done. apply lookup_insert_eq.
    + destruct (decide (stripe_index bm id' = stripe_index bm id)) as [Hi|Hi]; [|done].
      rewrite lookup_insert_ne by done. unfold lookup_block. by rewrite Hi, Hs.
Qed.

(** Re-binding a key releases the block it named. *)
Lemma bind_key_spec bm k id :
  SInv 0 bm -> lookup_key bm k <> Some id -> exists bm',
    bind_key py_hash k id bm = (bm', Ok tt) /\ SInv 0 bm' /\ same_shape bm bm' /\
    bm_reserved bm' = bm_reserved bm - freed_size (lookup_key bm k ≫= lookup_block bm) /\
    (forall id', lookup_block bm' id'
       = if decide (lookup_key bm k = Some id') then None else lookup_block bm id') /\
    (forall k', lookup_key bm' k' = if decide (k' = k) then Some id else lookup_key bm k').
Proof.
  intros HI Hne. destruct (key_stripe_get _ _ k HI) as (ks & Hks & Hget & Hk).
  unfold bind_key. rewrite (bind_ok _ _ _ _ _ Hget), Hk.
  set (bm1 := set_key_stripe (key_stripe_index py_hash bm k)
                (mkKeyStripe (<[k:=id]> (ks_index ks))) bm).
  assert (HI1 : SInv 0 bm1).
  { eapply SInv_set_key_stripe; [done..|]. intros k' id' Hk'.
    apply lookup_insert_Some in Hk' as [[-> _]|[_ Hk']]; [by left|by right]. }
  assert (Hk1 : forall k', lookup_key bm1 k'
            = if decide (k' = k) then Some id else lookup_key bm k').
  { intros k'. unfold bm1. erewrite lookup_key_set_key_stripe; [|done|].
    - by rewrite lookup_insert_eq.
    - intros k'' Hk''. by rewrite lookup_insert_ne. }
  rewrite (bind_ok _ _ _ bm1 tt eq_refl).
  destruct (lookup_key bm k) as [p|] eqn:Hp.
  - rewrite decide_False by congruence.
    destruct (free_spec 0 bm1 p false HI1) as (bm2 & Hf & HI2 & Hsh & Hr & Hb & Hk2).
    rewrite (bind_ok _ _ _ _ _ Hf). exists bm2. split_and!; try done.
    + intros id'. rewrite Hb. change (lookup_block bm1 id') with (lookup_block bm id').
      repeat case_decide; congruence.
    + intros k'. rewrite Hk2. rewrite decide_False by naive_solver. apply Hk1.
  - exists bm1. split_and!; try done. cbn. lia.
Qed.

(** The effect of placing entry [e] under the next id: the block its key named
    before is gone, every other block and key is as it was. *)
Record stored (bm bm' : BlockManager) (e : Entry) : Prop := {
  sd_max : bm_max bm' = bm_max bm;
  sd_count : bm_stripe_count bm' = bm_stripe_count bm;
  sd_next : bm_next_id bm' = bm_next_id bm + 1;
  sd_reserved : bm_reserved bm'
    = bm_reserved bm + e_size e
      - freed_size ((e_key e ≫= lookup_key bm) ≫= lookup_block bm);
  sd_blocks : forall id, lookup_block bm' id
    = if decide (id = bm_next_id bm) then Some e
      else if decide ((e_key e ≫= lookup_key bm) = Some id) then None
      else lookup_block bm id;
  sd_keys : forall k, lookup_key bm' k
    = if decide (e_key e = Some k) then Some (bm_next_id bm) else lookup_key bm k
}.

Lemma lookup_key_lt bm k id : Inv bm -> lookup_key bm k = Some id -> id < bm_next_id bm.
Proof.
  intros [HI HK] Hk. apply HK in Hk as (e & He & _).
  destruct (lookup_block_bounds _ _ _ _ HI He). lia.
Qed.

Lemma stored_KInv bm bm' e : Inv bm -> stored bm bm' e -> KInv bm'.
Proof.
  intros HInv [_ _ _ _ Hb Hk] k id. pose proof (lookup_key_lt bm) as Hlt.
  destruct HInv as [HI HK]. rewrite Hk. setoid_rewrite Hb.
  destruct (decide (e_key e = Some k)) as [He|He].
  - split.
    + intros [= <-]. exists e. by rewrite decide_True.
    + intros (e' & He' & Hek). destruct (decide (id = bm_next_id bm)) as [->|Hid]; [done|].
      destruct (decide _) as [|Hn] in He'; [done|]. destruct Hn.
      rewrite He. simpl. apply HK. eauto.
  - rewrite (HK k id). split.
    + intros (e' & He' & Hek). exists e'. split; [|done].
      destruct (lookup_block_bounds _ _ _ _ HI He').
      rewrite decide_False by lia. rewrite decide_False; [done|].
      intros Hk'. apply bind_Some in Hk' as (k' & Hk'' & Hk').
      apply HK in Hk' as (e'' & He'' & Hek'). naive_solver congruence.
    + intros (e' & He' & Hek). destruct (decide (id = bm_next_id bm)) as [->|Hid].
      * simplify_eq.
      * destruct (decide _) in He'; [done|]. eauto.
Qed.

Lemma SInv_set_next_id pend bm n :
  SInv pend bm -> bm_next_id bm <= n -> SInv pend (set_next_id n bm).
Proof.
  intros HI Hn. pose proof HI as []. constructor; simpl; try done; [|lia].
  intros i s Hi. destruct (si_stripes0 _ _ Hi) as [Hu Hh]. constructor; [done|].
  intros id e He. destruct (Hh _ _ He) as (? & ? & ?). simpl. split_and!; try done; lia.
Qed.

(** What [store] does once the bytes are reserved. *)
Definition place (now : Z) (data : bytes) (d : Durability) (key : option string) :
    M BlockManager Z :=
  block_id <- next_block_id;;
  s <- stripe block_id;;
  put_stripe block_id
    (mkStripe (<[block_id := mkEntry data d now key]> (st_blocks s)) (st_used s + len data));;;
  match key with
  | None => mret tt
  | Some k => bind_key py_hash k block_id
  end;;;
  mret block_id.

Lemma place_spec bm now data d key :
  Inv bm -> len data <= Config.MAX_BLOCK_SIZE -> bm_reserved bm + len data <= bm_max bm ->
  exists bm', place now data d key (set_reserved (bm_reserved bm + len data) bm)
      = (bm', Ok (bm_next_id bm)) /\ Inv bm' /\ stored bm bm' (mkEntry data d now key).
Proof.
  intros HInv Hmax Hfit. pose proof HInv as [HI HK]. set (e := mkEntry data d now key).
  set (id := bm_next_id bm).
  pose proof (SInv_reserve _ _ _ HI (len_nonneg data) Hfit) as HIr.
  apply (SInv_set_next_id _ _ (id + 1)) in HIr; [|simpl; lia].
  set (bmq := set_next_id (id + 1) _) in HIr.
  assert (Hbq : forall i, lookup_block bmq i = lookup_block bm i) by done.
  assert (Hkq : forall k, lookup_key bmq k = lookup_key bm k) by done.
  pose proof (si_next _ _ HI) as Hn1.
  assert (Hfresh : lookup_block bmq id = None).
  { rewrite Hbq. destruct (lookup_block bm id) as [e'|] eqn:He'; [|done].
    destruct (lookup_block_bounds _ _ _ _ HI He'). unfold id in *. lia. }
  destruct (stripe_get _ _ id HIr) as (s & Hs & Hget & _).
  destruct (insert_spec bmq id e s HIr Hs Hfresh) as [HI1 Hb1]; [simpl; lia|done|].
  set (bm1 := set_stripe _ _ bmq) in *.
  unfold place. rewrite (bind_ok _ _ _ bmq id eq_refl), (bind_ok _ _ _ _ _ Hget).
  rewrite (bind_ok _ _ _ bm1 tt eq_refl).
  destruct key as [k|].
  - assert (Hkne : lookup_key bm1 k <> Some id).
    { change (lookup_key bm1 k) with (lookup_key bm k). intros Hk.
      pose proof (lookup_key_lt _ _ _ HInv Hk). unfold id in *. lia. }
    destruct (bind_key_spec bm1 k id HI1 Hkne) as (bm2 & Hbk & HI2 & (Hs1 & Hs2 & Hs3) & Hr2 & Hb2 & Hk2).
    rewrite (bind_ok _ _ _ _ _ Hbk). exists bm2. split; [done|].
    assert (Hst : stored bm bm2 e); [|by split; [split; [|eapply stored_KInv]|]].
    change (lookup_key bm1 k) with (lookup_key bm k) in *.
    constructor; try done.
    + rewrite Hr2. simpl. f_equal. destruct (lookup_key bm k) as [p|] eqn:Hp; [|done].
      simpl. rewrite Hb1, Hbq, decide_False; [done|].
      pose proof (lookup_key_lt _ _ _ HInv Hp). unfold id. lia.
    + intros i. rewrite Hb2, Hb1, Hbq. simpl. repeat case_decide; naive_solver.
    + intros k'. rewrite Hk2. simpl. repeat case_decide; naive_solver.
  - exists bm1. split; [done|].
    assert (Hst : stored bm bm1 e); [|by split; [split; [|eapply stored_KInv]|]].
    constructor; try done. unfold e_size, e. simpl. lia.
Qed.

Lemma store_too_large r bm now data d key :
  Config.MAX_BLOCK_SIZE < len data -> exists msg,
    store py_hash r now data d key bm = (bm, Err (Exn BlockTooLarge msg)).
Proof. intros. unfold store. zcase; [by eexists|lia]. Qed.

Lemma store_spec r bm now data d key :
  RngOk r -> Inv bm -> len data <= Config.MAX_BLOCK_SIZE ->
  exists bm1 vs, Inv bm1 /\ evicts bm bm1 vs /\
    (bm_reserved bm + len data <= bm_max bm -> vs = [] /\ bm1 = bm) /\
    ((bm_reserved bm1 + len data <= bm_max bm /\
      exists bm', store py_hash r now data d key bm = (bm', Ok (bm_next_id bm)) /\
        Inv bm' /\ stored bm1 bm' (mkEntry data d now key)) \/
     (bm_max bm < bm_reserved bm1 + len data /\ first_exhausted r bm bm1 /\
      exists msg, store py_hash r now data d key bm = (bm1, Err (Exn OutOfMemory msg)))).
Proof.
  intros Hr [HI HK] Hmax.
  destruct (acquire_space_spec r bm (len data) Hr HI (len_nonneg data))
    as (bm1 & vs & HI1 & Hev & Hnoev & Hcase).
  destruct (ev_shape _ _ _ Hev) as (Hmx & _ & Hnx). rewrite Hmx in Hcase.
  exists bm1, vs. split; [by split; [|eapply evicts_KInv]|]. split; [done|]. split; [done|].
  assert (Hst : store py_hash r now data d key bm
            = (acquire_space py_hash r (len data);;; place now data d key) bm).
  { unfold store. zcase; [lia|done]. }
  rewrite Hst. destruct Hcase as [[Hfit Hacq]|(Hfull & Hex & msg & Hacq)]; [left|right].
  - split; [done|]. rewrite (bind_ok _ _ _ _ _ Hacq). rewrite <-Hnx.
    apply place_spec; [by split; [|eapply evicts_KInv]|done|by rewrite Hmx].
  - split; [done|]. split; [done|]. rewrite (bind_err _ _ _ _ _ Hacq). by eexists.
Qed.

(** ** [load], [load_by_key], [free_by_key], [__init__] *)

Definition touch (now : Z) (e : Entry) : Entry :=
  mkEntry (e_data e) (e_durability e) now (e_key e).

Lemma load_spec bm now id :
  Inv bm -> exists bm',
    load now id bm = (bm', Ok (e_data <$> lookup_block bm id)) /\ Inv bm' /\
    same_shape bm bm' /\ bm_reserved bm' = bm_reserved bm /\
    (forall id', lookup_block bm' id'
       = if decide (id' = id) then touch now <$> lookup_block bm id else lookup_block bm id') /\
    (forall k, lookup_key bm' k = lookup_key bm k).
Proof.
  intros [HI HK]. destruct (stripe_get _ _ id HI) as (s & Hs & Hget & Hid).
  unfold load. rewrite (bind_ok _ _ _ _ _ Hget), Hid.
  destruct (lookup_block bm id) as [e|] eqn:He.
  2:{ exists bm. split_and!; try done. intros id'. case_decide; [by subst|done]. }
  set (bm' := set_stripe (stripe_index bm id)
         (mkStripe (<[id:=touch now e]> (st_blocks s)) (st_used s)) bm).
  rewrite (bind_ok _ _ _ bm' tt eq_refl).
  assert (Hb : forall id', lookup_block bm' id'
            = if decide (id' = id) then Some (touch now e) else lookup_block bm id').
  { intros id'. unfold bm'. erewrite lookup_block_set_stripe by done. simpl.
    destruct (decide (id' = id)) as [->|Hne].
    - rewrite decide_True by done. apply lookup_insert_eq.
    - destruct (decide (stripe_index bm id' = stripe_index bm id)) as [Hi|Hi]; [|done].
      rewrite lookup_insert_ne by done. unfold lookup_block. by rewrite Hi, Hs. }
  exists bm'. split; [done|]. split; [|done]. split.
  - eapply SInv_set_stripe; [done..| |lia|simpl; lia]. by eapply stripe_ok_update.
  - intros k id'. change (lookup_key bm' k) with (lookup_key bm k). rewrite (HK k id').
    setoid_rewrite Hb. destruct (decide (id' = id)) as [->|]; naive_solver.
Qed.

Lemma load_by_key_spec bm now k :
  Inv bm -> load_by_key py_hash now k bm
    = match lookup_key bm k with
      | Some id => load now id bm
      | None => (bm, Ok None)
      end.
Proof.
  intros [HI HK]. destruct (key_stripe_get _ _ k HI) as (ks & Hks & Hget & Hk).
  unfold load_by_key. rewrite (bind_ok _ _ _ _ _ Hget), Hk. by destruct (lookup_key bm k).
Qed.

Lemma free_by_key_spec bm k :
  Inv bm -> free_by_key py_hash k bm
    = match lookup_key bm k with
      | Some id => free py_hash id true bm
      | None => (bm, Ok false)
      end.
Proof.
  intros [HI HK]. destruct (key_stripe_get _ _ k HI) as (ks & Hks & Hget & Hk).
  unfold free_by_key. rewrite (bind_ok _ _ _ _ _ Hget), Hk. by destruct (lookup_key bm k).
Qed.

Lemma free_Inv bm id : Inv bm -> exists bm',
    free py_hash id true bm = (bm', Ok (bool_decide (is_Some (lookup_block bm id)))) /\
    Inv bm' /\ same_shape bm bm' /\
    bm_reserved bm' = bm_reserved bm - freed_size (lookup_block bm id) /\
    (forall id', lookup_block bm' id'
       = if decide (id' = id) then None else lookup_block bm id') /\
    (forall k, lookup_key bm' k
       = if decide (lookup_key bm k = Some id) then None else lookup_key bm k).
Proof.
  intros [HI HK]. destruct (free_spec 0 bm id true HI) as (bm' & Hf & HI' & Hsh & Hr & Hb & Hk).
  assert (Hk' : forall k, lookup_key bm' k
            = if decide (lookup_key bm k = Some id) then None else lookup_key bm k).
  { intros k. rewrite Hk. destruct (decide (lookup_key bm k = Some id)) as [Hid|Hid].
    - rewrite decide_True; [done|]. split; [done|]. split; [|done].
      apply HK in Hid as (e & -> & He). done.
    - rewrite decide_False; naive_solver. }
  exists bm'. split; [done|]. split; [|done]. split; [done|].
  intros k id'. rewrite Hk'. setoid_rewrite Hb.
  destruct (decide (lookup_key bm k = Some id)) as [Hid|Hid].
  - split; [done|]. intros (e & He & Hek). destruct (decide (id' = id)); [done|].
    assert (lookup_key bm k = Some id') by (apply HK; eauto). congruence.
  - rewrite (HK k id'). destruct (decide (id' = id)) as [->|]; [|done].
    split; [|naive_solver]. intros (e & He & Hek). destruct Hid. apply HK. eauto.
Qed.

Lemma init_Inv max n bm :
  0 <= max -> BlockManager_init max n = Ok bm -> Inv bm.
Proof.
  intros Hmax Hi. unfold BlockManager_init in Hi. zcase_in Hi; simplify_eq.
  assert (Hb : forall id, lookup_block
            (mkBM max n (replicate (Z.to_nat n) empty_stripe)
               (replicate (Z.to_nat n) empty_key_stripe) 0 1) id = None).
  { intros id. unfold lookup_block; simpl. destruct (replicate _ _ !! _) as [s|] eqn:Hs; [|done].
    apply lookup_replicate in Hs as [-> _]. done. }
  split; [constructor; simpl; rewrite ?length_replicate; try done|].
  - intros i s Hs. apply lookup_replicate in Hs as [-> _]. constructor.
    + simpl. by rewrite msum_empty.
    + by intros id e He.
  - rewrite fmap_replicate. simpl. rewrite zsum_replicate0. lia.
  - intros i ks k id Hi Hk. apply lookup_replicate in Hi as [-> _]. done.
  - intros k id. setoid_rewrite Hb. split; [|by intros (? & ? & _)].
    unfold lookup_key; simpl. destruct (replicate _ _ !! _) as [s|] eqn:Hs; [|done].
    by apply lookup_replicate in Hs as [-> _].
Qed.
End facts.
