(* ===== verification/BlocksSpec.v ===== *)
(** * What the block store promises

    The abstract store is one finite map from ids to blocks with a quota; an
    abstract step says what each request may do to it.  The striped, counted,
    key-indexed manager of [Blocks] refines it, and the properties its callers
    rely on follow. *)
From S2P Require Import Prelude Config Blocks BlocksFacts.

(** ** The abstract store *)

Record AStore := mkAStore { a_max : Z; a_next : Z; a_blocks : gmap Z Entry }.

(** The bytes an abstract store holds. *)
Definition a_used (m : gmap Z Entry) : Z := msum e_size m.

(** [o] is the block that carries key [k], if there is one. *)
Definition key_holder (m : gmap Z Entry) (k : string) (o : option Z) : Prop :=
  match o with
  | Some id => exists e, m !! id = Some e /\ e_key e = Some k
  | None => forall id e, m !! id = Some e -> e_key e <> Some k
  end.

Inductive op :=
  | OpStore (r : rng) (now : Z) (data : bytes) (d : Durability) (key : option string)
  | OpLoad (now id : Z)
  | OpLoadKey (now : Z) (k : string)
  | OpFree (id : Z)
  | OpFreeKey (k : string).

Inductive answer := AId (id : Z) | AData (o : option bytes) | ABool (b : bool).

(** [m1] is [m] without some of its CACHE blocks. *)
Definition sheds_cache (m m1 : gmap Z Entry) : Prop :=
  m1 ⊆ m /\ forall id e, m !! id = Some e -> m1 !! id = None -> e_durability e = CACHE.

(** Removing the block an optional id names. *)
Definition drop_opt (o : option Z) (m : gmap Z Entry) : gmap Z Entry :=
  match o with Some id => delete id m | None => m end.

Inductive astep (a : AStore) : op -> result answer -> AStore -> Prop :=
  | as_too_large r now data d key msg :
      Config.MAX_BLOCK_SIZE < len data ->
      astep a (OpStore r now data d key) (Err (Exn BlockTooLarge msg)) a
  | as_stored r now data d key m1 prev :
      len data <= Config.MAX_BLOCK_SIZE ->
      sheds_cache (a_blocks a) m1 ->
      (a_used (a_blocks a) + len data <= a_max a -> m1 = a_blocks a) ->
      a_used m1 + len data <= a_max a ->
      match key with Some k => key_holder m1 k prev | None => prev = None end ->
      astep a (OpStore r now data d key) (Ok (AId (a_next a)))
        (mkAStore (a_max a) (a_next a + 1)
           (<[a_next a := mkEntry data d now key]> (drop_opt prev m1)))
  | as_full r now data d key m1 msg :
      len data <= Config.MAX_BLOCK_SIZE ->
      sheds_cache (a_blocks a) m1 ->
      a_max a < a_used m1 + len data ->
      astep a (OpStore r now data d key) (Err (Exn OutOfMemory msg))
        (mkAStore (a_max a) (a_next a) m1)
  | as_load now id :
      astep a (OpLoad now id) (Ok (AData (e_data <$> a_blocks a !! id)))
        (mkAStore (a_max a) (a_next a) (alter (touch now) id (a_blocks a)))
  | as_load_key now k o :
      key_holder (a_blocks a) k o ->
      astep a (OpLoadKey now k) (Ok (AData (e_data <$> (o ≫= fun id => a_blocks a !! id))))
        (mkAStore (a_max a) (a_next a)
           (match o with Some id => alter (touch now) id (a_blocks a) | None => a_blocks a end))
  | as_free id :
      astep a (OpFree id) (Ok (ABool (bool_decide (is_Some (a_blocks a !! id)))))
        (mkAStore (a_max a) (a_next a) (delete id (a_blocks a)))
  | as_free_key k o :
      key_holder (a_blocks a) k o ->
      astep a (OpFreeKey k) (Ok (ABool (bool_decide (is_Some o))))
        (mkAStore (a_max a) (a_next a) (drop_opt o (a_blocks a))).

(** ** Running the manager *)

Section spec.
Context (py_hash : string -> Z).

(** One request served by the manager. *)
Definition exec (o : op) : M BlockManager answer :=
  match o with
  | OpStore r now data d key => id <- store py_hash r now data d key;; mret (AId id)
  | OpLoad now id => o <- load now id;; mret (AData o)
  | OpLoadKey now k => o <- load_by_key py_hash now k;; mret (AData o)
  | OpFree id => b <- free py_hash id true;; mret (ABool b)
  | OpFreeKey k => b <- free_by_key py_hash k;; mret (ABool b)
  end.

(** A request whose random source is a shuffle. *)
Definition op_ok (o : op) : Prop :=
  match o with OpStore r _ _ _ _ => RngOk r | _ => True end.

(** The states a manager started with quota [max] and [n] stripes can reach. *)
Inductive reachable (max n : Z) : BlockManager -> Prop :=
  | reach_init bm : BlockManager_init max n = Ok bm -> reachable max n bm
  | reach_step bm o : reachable max n bm -> op_ok o ->
      reachable max n (state_after (exec o) bm).

(** The abstraction: the union of the stripes. *)
Definition all_blocks (ss : list Stripe) : gmap Z Entry :=
  foldr (fun s m => st_blocks s ∪ m) ∅ ss.

Definition abs (bm : BlockManager) : AStore :=
  mkAStore (bm_max bm) (bm_next_id bm) (all_blocks (bm_stripes bm)).

(** ** The abstraction reads what the look-ups read *)

Lemma all_blocks_lookup (home : Z -> nat) ss off :
  (forall i s id e, ss !! i = Some s -> st_blocks s !! id = Some e -> home id = (off + i)%nat) ->
  forall id, all_blocks ss !! id
    = if decide (off <= home id)%nat
      then ss !! (home id - off)%nat ≫= fun s => st_blocks s !! id else None.
Proof.
  revert off. induction ss as [|s ss IH]; intros off Hh id; simpl.
  { by destruct (decide _). }
  assert (Hh' : forall i s' id e, ss !! i = Some s' -> st_blocks s' !! id = Some e ->
            home id = (S off + i)%nat).
  { intros i s' id' e Hi He. rewrite (Hh (S i) s' id' e Hi He). lia. }
  specialize (IH (S off) Hh' id). rewrite lookup_union, IH.
  destruct (st_blocks s !! id) as [e|] eqn:He.
  - pose proof (Hh O s id e eq_refl He) as Hid. rewrite Nat.add_0_r in Hid.
    rewrite decide_False by lia. rewrite decide_True by lia.
    rewrite Hid, Nat.sub_diag. simpl. by rewrite He.
  - rewrite (left_id_L None (∪)).
    destruct (decide (S off <= home id)%nat) as [Hle|Hgt].
    + rewrite decide_True by lia.
      by replace (home id - off)%nat with (S (home id - S off))%nat by lia.
    + destruct (decide (off <= home id)%nat) as [Hle|Hgt']; [|done].
      replace (home id - off)%nat with O by lia. simpl. by rewrite He.
Qed.

Lemma abs_lookup pend bm id :
  SInv py_hash pend bm -> a_blocks (abs bm) !! id = lookup_block bm id.
Proof.
  intros HI. simpl. rewrite (all_blocks_lookup (stripe_index bm) _ 0).
  - rewrite decide_True by lia. by rewrite Nat.sub_0_r.
  - intros i s id' e Hi He. by destruct (so_home _ _ _ (si_stripes _ _ _ HI _ _ Hi) _ _ He).
Qed.

Lemma all_blocks_sum (home : Z -> nat) (f : Entry -> Z) ss off :
  (forall i s id e, ss !! i = Some s -> st_blocks s !! id = Some e -> home id = (off + i)%nat) ->
  msum f (all_blocks ss) = zsum ((fun s => msum f (st_blocks s)) <$> ss).
Proof.
  revert off. induction ss as [|s ss IH]; intros off Hh; simpl; [apply msum_empty|].
  assert (Hh' : forall i s' id e, ss !! i = Some s' -> st_blocks s' !! id = Some e ->
            home id = (S off + i)%nat).
  { intros i s' id' e Hi He. rewrite (Hh (S i) s' id' e Hi He). lia. }
  rewrite msum_union, (IH (S off) Hh'); [done|].
  apply map_disjoint_spec. intros id e e' He He'.
  rewrite (all_blocks_lookup home ss (S off) Hh') in He'.
  pose proof (Hh O s id e eq_refl He). destruct (decide _) in He'; [lia|done].
Qed.

(** The counter is exactly the bytes of the blocks held. *)
Lemma abs_used bm : Inv py_hash bm -> a_used (a_blocks (abs bm)) = bm_reserved bm.
Proof.
  intros [HI _]. unfold a_used, abs; simpl.
  rewrite (all_blocks_sum (stripe_index bm) _ _ 0).
  - rewrite (si_reserved _ _ _ HI), Z.add_0_r. f_equal.
    apply list_eq. intros i. rewrite !list_lookup_fmap.
    destruct (bm_stripes bm !! i) as [s|] eqn:Hs; [|done]. simpl. f_equal.
    symmetry. apply (so_used _ _ _ (si_stripes _ _ _ HI _ _ Hs)).
  - intros i s id' e Hi He. by destruct (so_home _ _ _ (si_stripes _ _ _ HI _ _ Hi) _ _ He).
Qed.

Lemma abs_key_holder bm k :
  Inv py_hash bm -> key_holder (a_blocks (abs bm)) k (lookup_key py_hash bm k).
Proof.
  intros [HI HK]. unfold key_holder. destruct (lookup_key py_hash bm k) as [id|] eqn:Hk.
  - apply HK in Hk as (e & He & Hek). exists e. by rewrite (abs_lookup _ _ _ HI).
  - intros id e He Hek. rewrite (abs_lookup _ _ _ HI) in He.
    assert (lookup_key py_hash bm k = Some id) by (apply HK; eauto). congruence.
Qed.

(** Two states with the same shape and look-ups have related abstractions. *)
Lemma abs_blocks_eq bm m :
  Inv py_hash bm -> (forall id, lookup_block bm id = m !! id) -> a_blocks (abs bm) = m.
Proof. intros [HI _] H. apply map_eq. intros id. by rewrite (abs_lookup _ _ _ HI). Qed.

Lemma evicts_sheds bm bm1 vs :
  Inv py_hash bm -> Inv py_hash bm1 -> evicts py_hash bm bm1 vs ->
  sheds_cache (a_blocks (abs bm)) (a_blocks (abs bm1)).
Proof.
  intros [HI _] [HI1 _] Hev. split.
  - apply map_subseteq_spec. intros id e He.
    rewrite (abs_lookup _ _ _ HI1), (ev_blocks _ _ _ _ Hev) in He.
    rewrite (abs_lookup _ _ _ HI). by destruct (decide _) in He.
  - intros id e He Hn. rewrite (abs_lookup _ _ _ HI) in He.
    rewrite (abs_lookup _ _ _ HI1), (ev_blocks _ _ _ _ Hev) in Hn.
    destruct (decide (id ∈ v_id <$> vs)) as [Hin|]; [|congruence].
    apply list_elem_of_fmap in Hin as (v & -> & Hin).
    destruct (ev_victims _ _ _ _ Hev v Hin) as (e' & He' & Hc & _). congruence.
Qed.

Lemma abs_touch bm bm' now id :
  Inv py_hash bm -> Inv py_hash bm' -> same_shape bm bm' ->
  (forall id', lookup_block bm' id'
     = if decide (id' = id) then touch now <$> lookup_block bm id else lookup_block bm id') ->
  abs bm' = mkAStore (a_max (abs bm)) (a_next (abs bm))
              (alter (touch now) id (a_blocks (abs bm))).
Proof.
  intros [HI HK] HI' (Hm & _ & Hn) Hb. unfold abs at 1. rewrite Hm, Hn. f_equal.
  apply abs_blocks_eq; [done|]. intros id'. rewrite Hb, lookup_alter.
  rewrite !(abs_lookup _ _ _ HI). repeat case_decide; congruence.
Qed.

Lemma abs_delete bm bm' id :
  Inv py_hash bm -> Inv py_hash bm' -> same_shape bm bm' ->
  (forall id', lookup_block bm' id' = if decide (id' = id) then None else lookup_block bm id') ->
  abs bm' = mkAStore (a_max (abs bm)) (a_next (abs bm)) (delete id (a_blocks (abs bm))).
Proof.
  intros [HI HK] HI' (Hm & _ & Hn) Hb. unfold abs at 1. rewrite Hm, Hn. f_equal.
  apply abs_blocks_eq; [done|]. intros id'. rewrite Hb, lookup_delete.
  rewrite !(abs_lookup _ _ _ HI). repeat case_decide; congruence.
Qed.

Lemma store_refines r now data d key bm :
  RngOk r -> Inv py_hash bm ->
  let '(bm', res) := exec (OpStore r now data d key) bm in
  Inv py_hash bm' /\ astep (abs bm) (OpStore r now data d key) res (abs bm').
Proof.
  intros Hr HI. cbn [exec].
  destruct (decide (len data <= Config.MAX_BLOCK_SIZE)) as [Hle|Hgt].
  2:{ destruct (store_too_large py_hash r bm now data d key) as [msg Hst]; [lia|].
      rewrite (bind_err _ _ _ _ _ Hst). split; [done|]. constructor. lia. }
  destruct (store_spec py_hash r bm now data d key Hr HI Hle)
    as (bm1 & vs & HI1 & Hev & Hnoev & Hcase).
  pose proof (evicts_sheds _ _ _ HI HI1 Hev) as Hshed.
  destruct (ev_shape _ _ _ _ Hev) as (Hm1 & _ & Hn1).
  pose proof (abs_used _ HI) as Hu. pose proof (abs_used _ HI1) as Hu1.
  destruct Hcase as [(Hfit & bm' & Hst & HI' & Hsd)|(Hfull & _ & msg & Hst)].
  - rewrite (bind_ok _ _ _ _ _ Hst). split; [done|].
    assert (Habs : abs bm' = mkAStore (a_max (abs bm)) (a_next (abs bm) + 1)
              (<[a_next (abs bm) := mkEntry data d now key]>
                 (drop_opt (key ≫= lookup_key py_hash bm1) (a_blocks (abs bm1))))).
    { unfold abs at 1. rewrite (sd_max _ _ _ _ Hsd), (sd_next _ _ _ _ Hsd), Hm1, Hn1.
      f_equal. apply abs_blocks_eq; [done|]. intros id.
      rewrite (sd_blocks _ _ _ _ Hsd), Hn1, lookup_insert. cbn [e_key a_next abs].
      destruct HI1 as [HI1 _].
      destruct (decide (id = bm_next_id bm)) as [->|Hne]; [by rewrite decide_True|].
      rewrite (decide_False (P := bm_next_id bm = id)) by congruence.
      rewrite <-(abs_lookup _ _ _ HI1).
      destruct (decide _) as [->|Hk]; simpl; [by rewrite lookup_delete_eq|].
      destruct (key ≫= lookup_key py_hash bm1) as [p|]; [|done]. simpl.
      by rewrite lookup_delete_ne by congruence. }
    rewrite Habs. constructor; [done..| | |].
    + rewrite Hu. intros Hf. destruct (Hnoev Hf) as [_ ->]. done.
    + rewrite Hu1. done.
    + destruct key as [k|]; [|done]. by apply abs_key_holder.
  - rewrite (bind_err _ _ _ _ _ Hst). split; [done|].
    unfold abs at 2. rewrite Hm1, Hn1.
    apply (as_full (abs bm) r now data d key (a_blocks (abs bm1)) msg); [done..|].
    by rewrite Hu1.
Qed.

(** Every request keeps the invariant and does what the abstract store allows. *)
Lemma exec_refines o bm :
  op_ok o -> Inv py_hash bm ->
  let '(bm', res) := exec o bm in
  Inv py_hash bm' /\ astep (abs bm) o res (abs bm').
Proof.
  intros Hok HI. destruct o as [r now data d key|now id|now k|id|k]; cbn [op_ok] in Hok.
  - by apply store_refines.
  - cbn [exec]. destruct (load_spec py_hash bm now id HI) as (bm' & Hl & HI' & Hsh & _ & Hb & _).
    rewrite (bind_ok _ _ _ _ _ Hl). split; [done|].
    rewrite (abs_touch _ _ _ _ HI HI' Hsh Hb). destruct HI as [HI HK].
    rewrite <-(abs_lookup _ _ _ HI). constructor.
  - cbn [exec]. pose proof (abs_key_holder _ k HI) as Hkh.
    pose proof (load_by_key_spec py_hash bm now k HI) as Hlk.
    destruct (lookup_key py_hash bm k) as [id|].
    + destruct (load_spec py_hash bm now id HI) as (bm' & Hl & HI' & Hsh & _ & Hb & _).
      rewrite Hl in Hlk. rewrite (bind_ok _ _ _ _ _ Hlk). split; [done|].
      rewrite (abs_touch _ _ _ _ HI HI' Hsh Hb). destruct HI as [HI HK].
      rewrite <-(abs_lookup _ _ _ HI). by apply (as_load_key (abs bm) now k (Some id)).
    + rewrite (bind_ok _ _ _ _ _ Hlk). split; [done|].
      by apply (as_load_key (abs bm) now k None).
  - cbn [exec]. destruct (free_Inv py_hash bm id HI) as (bm' & Hf & HI' & Hsh & _ & Hb & _).
    rewrite (bind_ok _ _ _ _ _ Hf). split; [done|].
    rewrite (abs_delete _ _ _ HI HI' Hsh Hb). destruct HI as [HI HK].
    rewrite <-(abs_lookup _ _ _ HI). constructor.
  - cbn [exec]. pose proof (abs_key_holder _ k HI) as Hkh.
    pose proof (free_by_key_spec py_hash bm k HI) as Hfk.
    destruct (lookup_key py_hash bm k) as [id|].
    + destruct (free_Inv py_hash bm id HI) as (bm' & Hf & HI' & Hsh & _ & Hb & _).
      rewrite Hf in Hfk. rewrite (bind_ok _ _ _ _ _ Hfk). split; [done|].
      rewrite (abs_delete _ _ _ HI HI' Hsh Hb).
      replace (bool_decide (is_Some (lookup_block bm id))) with
        (bool_decide (is_Some (Some id))); [by apply (as_free_key (abs bm) k (Some id))|].
      destruct Hkh as (e & He & _). destruct HI as [HI HK].
      rewrite (abs_lookup _ _ _ HI) in He. rewrite He. by rewrite !bool_decide_true.
    + rewrite (bind_ok _ _ _ _ _ Hfk). split; [done|].
      by apply (as_free_key (abs bm) k None).
Qed.

Lemma reachable_Inv max n bm : 0 <= max -> reachable max n bm -> Inv py_hash bm.
Proof.
  intros Hmax Hr. induction Hr as [bm Hi|bm o Hr IH Hok]; [by eapply init_Inv|].
  pose proof (exec_refines o bm Hok IH) as Hx. unfold state_after.
  by destruct (exec o bm) as [bm' res], Hx.
Qed.
End spec.

(** ** Properties *)

Section properties.
Context (py_hash : string -> Z).

Lemma reachable_max max n bm :
  0 <= max -> reachable py_hash max n bm -> bm_max bm = max.
Proof.
  intros Hmax Hr. induction Hr as [bm Hi|bm o Hr IH Hok].
  - unfold BlockManager_init in Hi. by zcase_in Hi; simplify_eq.
  - pose proof (exec_refines py_hash o bm Hok (reachable_Inv _ _ _ _ Hmax Hr)) as Hx.
    unfold state_after. destruct (exec py_hash o bm) as [bm' res]. destruct Hx as [_ Hx].
    rewrite <-IH. by inversion Hx.
Qed.

(** C1: the striped manager refines the abstract store: from every reachable
    state, every request answers and changes the set of blocks in a way the
    abstract store allows. *)
Theorem block_store_refines max n bm o :
  0 <= max -> reachable py_hash max n bm -> op_ok o ->
  astep (abs bm) o (outcome (exec py_hash o) bm) (abs (state_after (exec py_hash o) bm)).
Proof.
  intros Hmax Hr Hok. pose proof (exec_refines py_hash o bm Hok (reachable_Inv _ _ _ _ Hmax Hr)).
  unfold outcome, state_after. by destruct (exec py_hash o bm) as [bm' res], H.
Qed.

(** C2: in every reachable state the byte counter is exactly the bytes of the
    blocks held, it never exceeds the quota the manager was created with, and
    no block exceeds the block size limit. *)
Theorem quota_never_exceeded max n bm :
  0 <= max -> reachable py_hash max n bm ->
  bm_reserved bm = a_used (a_blocks (abs bm)) /\ bm_reserved bm <= max /\
  forall id e, lookup_block bm id = Some e -> e_size e <= Config.MAX_BLOCK_SIZE.
Proof.
  intros Hmax Hr. pose proof (reachable_Inv _ _ _ _ Hmax Hr) as HI.
  rewrite (abs_used _ _ HI). destruct HI as [HI _]. split_and!; [done| |].
  - rewrite <-(reachable_max _ _ _ Hmax Hr). apply (si_quota _ _ _ HI).
  - intros id e He. by destruct (lookup_block_bounds _ _ _ _ _ HI He).
Qed.

(** A stored block can be loaded again by the id [store] returned and, when
    it was given a key, by that key. *)
Theorem store_then_load r now now' now'' data d key bm bm1 id :
  RngOk r -> Inv py_hash bm ->
  store py_hash r now data d key bm = (bm1, Ok id) ->
  outcome (load now' id) bm1 = Ok (Some data) /\
  (forall k, key = Some k ->
     outcome (load_by_key py_hash now'' k) (state_after (load now' id) bm1) = Ok (Some data)).
Proof.
  intros Hr HI Hst.
  destruct (decide (len data <= Config.MAX_BLOCK_SIZE)) as [Hle|Hgt].
  2:{ destruct (store_too_large py_hash r bm now data d key) as [msg Hx]; [lia|congruence]. }
  destruct (store_spec py_hash r bm now data d key Hr HI Hle)
    as (bm0 & vs & _ & Hev & _ & [(_ & bm' & Hst' & HI' & Hsd)|(_ & _ & msg & Hst')]);
    rewrite Hst in Hst'; simplify_eq.
  destruct (ev_shape _ _ _ _ Hev) as (_ & _ & Hn).
  assert (Hblk : lookup_block bm' (bm_next_id bm) = Some (mkEntry data d now key)).
  { rewrite (sd_blocks _ _ _ _ Hsd), <-Hn. by rewrite decide_True. }
  destruct (load_spec py_hash bm' now' (bm_next_id bm) HI') as (bm2 & Hl & HI2 & _ & _ & Hb2 & Hk2).
  unfold outcome, state_after. rewrite Hl, Hblk. split; [done|]. intros k ->.
  cbn [fst]. rewrite (load_by_key_spec py_hash bm2 now'' k HI2), Hk2, (sd_keys _ _ _ _ Hsd).
  rewrite decide_True by done. rewrite Hn.
  destruct (load_spec py_hash bm2 now'' (bm_next_id bm) HI2) as (bm3 & Hl3 & _).
  rewrite Hl3, Hb2, decide_True, Hblk by done. done.
Qed.

(** C35: a store, whether it succeeds, evicts or fails, never removes or changes
    a PINNED block, except the one whose key it re-binds. *)
Theorem pinned_blocks_survive r now data d key bm id e :
  RngOk r -> Inv py_hash bm -> lookup_block bm id = Some e -> e_durability e = PINNED ->
  (e_key e = None \/ e_key e <> key) ->
  lookup_block (state_after (store py_hash r now data d key) bm) id = Some e.
Proof.
  intros Hr HI He Hp Hkey. unfold state_after.
  destruct (decide (len data <= Config.MAX_BLOCK_SIZE)) as [Hle|Hgt].
  2:{ destruct (store_too_large py_hash r bm now data d key) as [msg ->]; [lia|done]. }
  destruct (store_spec py_hash r bm now data d key Hr HI Hle)
    as (bm0 & vs & HI0 & Hev & _ & Hcase).
  assert (He0 : lookup_block bm0 id = Some e).
  { rewrite (ev_blocks _ _ _ _ Hev), decide_False; [done|]. intros Hin.
    apply list_elem_of_fmap in Hin as (v & -> & Hin).
    destruct (ev_victims _ _ _ _ Hev v Hin) as (e' & He' & Hc & _). congruence. }
  destruct Hcase as [(_ & bm' & -> & _ & Hsd)|(_ & _ & msg & ->)]; [|done]. cbn [fst].
  rewrite (sd_blocks _ _ _ _ Hsd). destruct HI0 as [HI0 HK0].
  rewrite decide_False by (destruct (lookup_block_bounds _ _ _ _ _ HI0 He0); lia).
  rewrite decide_False; [done|]. cbn [e_key]. intros Hk.
  apply bind_Some in Hk as (k & -> & Hk). apply HK0 in Hk as (e' & He' & Hek').
  assert (e' = e) as -> by congruence. rewrite Hek' in Hkey. by destruct Hkey.
Qed.

(** Freeing a block answers whether it was there, releases exactly its
    bytes, and makes it unreachable by id and by key; freeing it again answers
    [False] and changes nothing in the accounting. *)
Theorem free_releases now id bm :
  Inv py_hash bm ->
  let bm' := state_after (free py_hash id true) bm in
  outcome (free py_hash id true) bm = Ok (bool_decide (is_Some (lookup_block bm id))) /\
  bm_reserved bm' = bm_reserved bm - freed_size (lookup_block bm id) /\
  outcome (load now id) bm' = Ok None /\
  (forall k, lookup_key py_hash bm k = Some id -> outcome (load_by_key py_hash now k) bm' = Ok None) /\
  outcome (free py_hash id true) bm' = Ok false /\
  bm_reserved (state_after (free py_hash id true) bm') = bm_reserved bm'.
Proof.
  intros HI bm'. destruct (free_Inv py_hash bm id HI) as (bm1 & Hf & HI1 & _ & Hr & Hb & Hk).
  assert (Heq : bm' = bm1) by (unfold bm', state_after; by rewrite Hf).
  rewrite Heq. unfold outcome, state_after. rewrite Hf. cbn [snd].
  assert (Hnone : lookup_block bm1 id = None) by (rewrite Hb; by rewrite decide_True).
  split; [done|]. split; [done|]. split_and!.
  - destruct (load_spec py_hash bm1 now id HI1) as (bm2 & -> & _). by rewrite Hnone.
  - intros k Hk0. rewrite (load_by_key_spec py_hash bm1 now k HI1), Hk. by rewrite decide_True.
  - destruct (free_Inv py_hash bm1 id HI1) as (bm2 & -> & _). by rewrite Hnone.
  - destruct (free_Inv py_hash bm1 id HI1) as (bm2 & -> & _ & _ & Hr2 & _).
    rewrite Hnone in Hr2. cbn [fst freed_size] in *. lia.
Qed.

(** Re-binding a key on a successful store releases the block it named: the
    old block is gone and the counter grows only by the difference in size. *)
Theorem rebinding_releases r now data d k bm bm' id old e :
  RngOk r -> Inv py_hash bm -> bm_reserved bm + len data <= bm_max bm ->
  lookup_key py_hash bm k = Some old -> lookup_block bm old = Some e ->
  store py_hash r now data d (Some k) bm = (bm', Ok id) ->
  lookup_block bm' old = None /\ lookup_key py_hash bm' k = Some id /\
  bm_reserved bm' = bm_reserved bm + len data - e_size e.
Proof.
  intros Hr HI Hfit Hk He Hst.
  destruct (decide (len data <= Config.MAX_BLOCK_SIZE)) as [Hle|Hgt].
  2:{ destruct (store_too_large py_hash r bm now data d (Some k)) as [msg Hx]; [lia|congruence]. }
  destruct (store_spec py_hash r bm now data d (Some k) Hr HI Hle)
    as (bm0 & vs & _ & _ & Hnoev & [(_ & bm1 & Hst' & _ & Hsd)|(_ & _ & msg & Hst')]);
    rewrite Hst in Hst'; simplify_eq.
  destruct (Hnoev Hfit) as [_ ->]. split_and!.
  - rewrite (sd_blocks _ _ _ _ Hsd). cbn. pose proof (lookup_key_lt _ _ _ _ HI Hk).
    rewrite decide_False by lia. by rewrite Hk, decide_True.
  - rewrite (sd_keys _ _ _ _ Hsd). by rewrite decide_True.
  - rewrite (sd_reserved _ _ _ _ Hsd). cbn [e_key]. simpl. rewrite Hk. simpl. by rewrite He.
Qed.

(** When a store fails for lack of memory, no CACHE block is left in the
    first stripe eviction visited; with a single stripe, every CACHE block was
    evicted before giving up. *)
Theorem out_of_memory_exhausts_first_stripe r now data d key bm msg i order :
  RngOk r -> Inv py_hash bm ->
  shuffle_order r (seq 0 (Z.to_nat (bm_stripe_count bm))) = i :: order ->
  outcome (store py_hash r now data d key) bm = Err (Exn OutOfMemory msg) ->
  let bm' := state_after (store py_hash r now data d key) bm in
  bm_max bm < bm_reserved bm' + len data /\
  forall id e, lookup_block bm' id = Some e -> stripe_index bm id = i ->
    e_durability e = PINNED.
Proof.
  intros Hr HI Hord Hout bm'. unfold bm', outcome, state_after in *. clear bm'.
  destruct (decide (len data <= Config.MAX_BLOCK_SIZE)) as [Hle|Hgt].
  2:{ destruct (store_too_large py_hash r bm now data d key) as [m Hx]; [lia|].
      rewrite Hx in Hout. done. }
  destruct (store_spec py_hash r bm now data d key Hr HI Hle)
    as (bm1 & vs & _ & _ & _ & [(_ & bm2 & Hst & _)|(Hfull & Hex & m & Hst)]);
    rewrite Hst in *; [done|]. cbn [fst]. split; [done|]. intros id e. by apply (Hex i order).
Qed.
End properties.

(** ** Concrete managers *)

(** A shuffle that leaves every list as it is. *)
Definition rng_id : rng := mkRng (fun l => l) (fun _ l => l).

#[global] Instance rng_id_ok : RngOk rng_id.
Proof. by split. Qed.

(** The requests of a concrete list shuffle with [rng_id]. *)
Ltac ops_ok :=
  repeat (apply List.Forall_cons; [first [exact rng_id_ok | exact I]|]); apply List.Forall_nil.

(** Every string hashes to 0 (all keys share a key stripe). *)
Definition hash0 (_ : string) : Z := 0.

Definition run_ops (py_hash : string -> Z) (os : list op) (bm : BlockManager) : BlockManager :=
  foldl (fun bm o => state_after (exec py_hash o) bm) bm os.

Lemma reachable_run_ops py_hash max n os bm :
  reachable py_hash max n bm -> Forall op_ok os -> reachable py_hash max n (run_ops py_hash os bm).
Proof.
  intros Hr Hos. revert bm Hr. induction Hos as [|o os Ho Hos IH]; intros bm Hr; [done|].
  apply IH. by apply reach_step.
Qed.

Definition new_manager (max n : Z) : BlockManager :=
  match BlockManager_init max n with
  | Ok bm => bm
  | Err _ => mkBM max n [] [] 0 1
  end.

(** [n] bytes of payload. *)
Definition payload (n : nat) : bytes := replicate n Byte.x2a.

Definition demo_ops : list op :=
  [OpStore rng_id 1 (payload 3) PINNED (Some "a");
   OpStore rng_id 2 (payload 2) CACHE (Some "b");
   OpStore rng_id 3 (payload 4) PINNED None].

(** A manager of 16 bytes and 2 stripes holding three blocks. *)
Definition demo_manager : BlockManager := run_ops hash0 demo_ops (new_manager 16 2).

Lemma demo_reachable : reachable hash0 16 2 demo_manager.
Proof.
  apply reachable_run_ops; [by apply reach_init|ops_ok].
Qed.

Lemma demo_Inv : Inv hash0 demo_manager.
Proof. apply (reachable_Inv hash0 16 2); [lia|apply demo_reachable]. Qed.

(** Ten CACHE blocks of one byte fill a manager of ten bytes and two stripes. *)
Definition full_cache_manager : BlockManager :=
  run_ops hash0 (replicate 10 (OpStore rng_id 1 (payload 1) CACHE None)) (new_manager 10 2).

(** Eviction can give up too early: with nothing but CACHE blocks in the
    store, a request well within the quota is refused with [OutOfMemory] while
    CACHE blocks remain, because the inner loop's test subtracts the bytes freed
    from earlier stripes twice. *)
Theorem eviction_gives_up_early :
  let bm := full_cache_manager in
  let st := store hash0 rng_id 5 (payload 8) PINNED None in
  reachable hash0 10 2 bm /\
  map_Forall (fun _ e => e_durability e = CACHE) (a_blocks (abs bm)) /\
  len (payload 8) <= bm_max bm /\
  (exists msg, outcome st bm = Err (Exn OutOfMemory msg)) /\
  a_used (a_blocks (abs (state_after st bm))) = 4.
Proof.
  cbn zeta. split_and!.
  - apply reachable_run_ops; [by apply reach_init|ops_ok].
  - apply (bool_decide_eq_true_1 _). by vm_compute.
  - by vm_compute.
  - eexists. by vm_compute.
  - by vm_compute.
Qed.

(** ** Witnesses *)

Lemma block_store_refines_witness :
  let o := OpStore rng_id 4 (payload 9) PINNED (Some "a") in
  astep (abs demo_manager) o (outcome (exec hash0 o) demo_manager)
    (abs (state_after (exec hash0 o) demo_manager)) /\
  outcome (exec hash0 o) demo_manager = Ok (AId 4).
Proof.
  split; [|by vm_compute].
  apply (block_store_refines hash0 16 2); [lia|apply demo_reachable|exact rng_id_ok].
Defined.

Lemma quota_never_exceeded_witness : bm_reserved demo_manager = 9 /\ 9 <= 16.
Proof.
  destruct (quota_never_exceeded hash0 16 2 demo_manager ltac:(lia) demo_reachable) as (_ & Hq & _).
  split; [by vm_compute|]. by vm_compute in Hq |- *.
Defined.

(** The state after one more keyed store in the demonstration manager. *)
Definition demo_stored : BlockManager :=
  state_after (store hash0 rng_id 5 (payload 2) CACHE (Some "a")) demo_manager.

Lemma demo_stored_run :
  store hash0 rng_id 5 (payload 2) CACHE (Some "a") demo_manager = (demo_stored, Ok 4).
Proof. by vm_compute. Qed.

Lemma store_then_load_witness :
  outcome (load 6 4) demo_stored = Ok (Some (payload 2)) /\
  outcome (load_by_key hash0 7 "a") (state_after (load 6 4) demo_stored) = Ok (Some (payload 2)).
Proof.
  destruct (store_then_load hash0 rng_id 5 6 7 (payload 2) CACHE (Some "a") demo_manager
              demo_stored 4 rng_id_ok demo_Inv demo_stored_run) as [H1 H2].
  split; [exact H1|by apply H2].
Defined.

(** Storing nine bytes in the demonstration manager evicts its CACHE block. *)
Lemma pinned_blocks_survive_witness :
  lookup_block (state_after (store hash0 rng_id 5 (payload 9) PINNED None) demo_manager) 3
    = Some (mkEntry (payload 4) PINNED 3 None) /\
  lookup_block (state_after (store hash0 rng_id 5 (payload 9) PINNED None) demo_manager) 2 = None.
Proof.
  split; [|by vm_compute].
  apply pinned_blocks_survive; [exact rng_id_ok|exact demo_Inv|by vm_compute|done|by left].
Defined.

Lemma free_releases_witness :
  bm_reserved (state_after (free hash0 1 true) demo_manager) = 6 /\
  outcome (load_by_key hash0 9 "a") (state_after (free hash0 1 true) demo_manager) = Ok None.
Proof.
  destruct (free_releases hash0 9 1 demo_manager demo_Inv) as (_ & Hr & _ & Hk & _).
  split; [rewrite Hr; by vm_compute|]. apply Hk. by vm_compute.
Defined.

Lemma rebinding_releases_witness :
  lookup_block demo_stored 1 = None /\ lookup_key hash0 demo_stored "a" = Some 4 /\
  bm_reserved demo_stored = 9 + 2 - 3.
Proof.
  apply (rebinding_releases hash0 rng_id 5 (payload 2) CACHE "a" demo_manager demo_stored 4 1
           (mkEntry (payload 3) PINNED 1 (Some "a")));
    [exact rng_id_ok|exact demo_Inv|by vm_compute..|exact demo_stored_run].
Defined.

(** One stripe: sixteen bytes asked for, seven pinned. *)
Definition one_stripe_manager : BlockManager := run_ops hash0 demo_ops (new_manager 16 1).

Lemma one_stripe_Inv : Inv hash0 one_stripe_manager.
Proof.
  apply (reachable_Inv hash0 16 1); [lia|].
  apply reachable_run_ops; [by apply reach_init|ops_ok].
Qed.

Lemma out_of_memory_exhausts_first_stripe_witness :
  let st := store hash0 rng_id 5 (payload 10) PINNED None in
  bm_max one_stripe_manager < bm_reserved (state_after st one_stripe_manager) + 10 /\
  forall id e, lookup_block (state_after st one_stripe_manager) id = Some e ->
    e_durability e = PINNED.
Proof.
  cbn zeta. destruct (out_of_memory_exhausts_first_stripe hash0 rng_id 5 (payload 10) PINNED None
    one_stripe_manager "cannot store 10 bytes: used=7, max=16, eviction freed only 2" 0 [] rng_id_ok one_stripe_Inv) as [H1 H2]; [done|by vm_compute|].
  split; [exact H1|]. intros id e He. apply (H2 id e He).
  unfold stripe_index. replace (bm_stripe_count one_stripe_manager) with 1 by (by vm_compute).
  by rewrite Z.mod_1_r.
Defined.
