(* ===== verification/Stripes.v ===== *)
(** * Striping is invisible ([memnode/blocks.py])

    A reference store without stripes, key index or byte counter: one map from
    ids to blocks, keys found by a scan.  As long as nothing has to be evicted
    the striped manager answers and changes exactly as the reference, whatever
    its stripe count and whatever the randomised hash of the keys. *)
From S2P Require Import Prelude Config Blocks BlocksFacts BlocksSpec.

(** ** The reference *)

(** The block that carries a key, by a scan. *)
Definition holder (m : gmap Z Entry) (k : string) : option Z :=
  (fun p => p.2.1) <$> list_find (fun p => e_key p.2 = Some k) (map_to_list m).

Definition ref_exec (o : op) (a : AStore) : AStore * result answer :=
  let m := a_blocks a in
  let keep m := mkAStore (a_max a) (a_next a) m in
  match o with
  | OpStore r now data d key =>
      if Config.MAX_BLOCK_SIZE <? len data then
        (a, Err (Exn BlockTooLarge
           ("block of " +:+ pretty (len data) +:+ " bytes exceeds MAX_BLOCK_SIZE="
              +:+ pretty Config.MAX_BLOCK_SIZE
              +:+ "; use streaming/chunked upload for larger payloads")))
      else
        (mkAStore (a_max a) (a_next a + 1)
           (<[a_next a := mkEntry data d now key]> (drop_opt (key ≫= holder m) m)), Ok (AId (a_next a)))
  | OpLoad now id => (keep (alter (touch now) id m), Ok (AData (e_data <$> m !! id)))
  | OpLoadKey now k =>
      match holder m k with
      | Some id => (keep (alter (touch now) id m), Ok (AData (e_data <$> m !! id)))
      | None => (a, Ok (AData None))
      end
  | OpFree id => (keep (delete id m), Ok (ABool (bool_decide (is_Some (m !! id)))))
  | OpFreeKey k =>
      match holder m k with
      | Some id => (keep (delete id m), Ok (ABool true))
      | None => (a, Ok (ABool false))
      end
  end.

(** The bytes a request may add. *)
Definition op_bytes (o : op) : Z := match o with OpStore _ _ data _ _ => len data | _ => 0 end.

(** A caller that goes on after a failed request. *)
Fixpoint ref_all (ops : list op) (a : AStore) : AStore * list (result answer) :=
  match ops with
  | [] => (a, [])
  | o :: ops => let '(a, r) := ref_exec o a in let '(a, rs) := ref_all ops a in (a, r :: rs)
  end.

Section manager.
Context (py_hash : string -> Z).

Fixpoint exec_all (ops : list op) (bm : BlockManager) : BlockManager * list (result answer) :=
  match ops with
  | [] => (bm, [])
  | o :: ops =>
      let '(bm, r) := exec py_hash o bm in let '(bm, rs) := exec_all ops bm in (bm, r :: rs)
  end.

(** ** The scan finds what the index holds *)

Lemma holder_spec m k : key_holder m k (holder m k).
Proof.
  unfold holder. destruct (list_find _ (map_to_list m)) as [[i [id e]]|] eqn:Hf; cbn.
  - apply list_find_Some in Hf as (Hi & Hk & _). apply list_elem_of_lookup_2, elem_of_map_to_list in Hi.
    by exists e.
  - intros id e He Hk. apply list_find_None in Hf. rewrite Forall_forall in Hf.
    apply (Hf (id, e)); [by apply elem_of_map_to_list|done].
Qed.

(** At most one block carries a key. *)
Lemma key_holder_fun bm k o1 o2 :
  Inv py_hash bm -> key_holder (a_blocks (abs bm)) k o1 -> key_holder (a_blocks (abs bm)) k o2 -> o1 = o2.
Proof.
  intros [HI HK].
  assert (forall id, key_holder (a_blocks (abs bm)) k (Some id) -> lookup_key py_hash bm k = Some id) as Hk.
  { intros id (e & He & Hek). apply HK. exists e. by rewrite <-(abs_lookup _ _ _ _ HI). }
  destruct o1 as [i1|], o2 as [i2|]; try done.
  - intros H1%Hk H2%Hk. congruence.
  - intros (e & He & Hek) H2. by destruct (H2 i1 e He).
  - intros H1 (e & He & Hek). by destruct (H1 i2 e He).
Qed.

Lemma a_used_subseteq m1 m2 : m1 ⊆ m2 -> a_used m1 <= a_used m2.
Proof.
  intros Hs. rewrite <-(map_difference_union m1 m2 Hs).
  unfold a_used. rewrite msum_union by (by apply map_disjoint_difference_r1).
  assert (0 <= msum e_size (m2 ∖ m1)) by (apply msum_nonneg; intros; apply len_nonneg). lia.
Qed.

(** ** One request *)

Lemma exec_ref o bm bm' res :
  op_ok o -> Inv py_hash bm -> a_used (a_blocks (abs bm)) + op_bytes o <= bm_max bm ->
  exec py_hash o bm = (bm', res) -> (abs bm', res) = ref_exec o (abs bm) /\ Inv py_hash bm'.
Proof.
  intros Hok HI Hfit Hx. pose proof (exec_refines py_hash o bm Hok HI) as Hr. rewrite Hx in Hr.
  destruct Hr as [HI' Hst]. split; [|done].
  pose proof (fun k => holder_spec (a_blocks (abs bm)) k) as Hh.
  remember (abs bm') as a' eqn:Ha'. clear Ha'.
  inversion Hst as [r now data d key msg Hlen|r now data d key m1 prev Hlen Hshed Hno Hroom Hprev|
    r now data d key m1 msg Hlen Hshed Hfull|now id|now k w Hw|id|k w Hw]; clear Hst; subst;
    cbn [ref_exec op_bytes] in *.
  - rewrite (proj2 (Z.ltb_lt _ _) Hlen). revert Hx. cbn [exec]. unfold store.
    rewrite (proj2 (Z.ltb_lt _ _) Hlen), bind_raise. intros E.
    by rewrite <-(f_equal snd E : Err _ = Err _).
  - rewrite (proj2 (Z.ltb_ge _ _) Hlen). rewrite (Hno Hfit) in *. do 2 f_equal.
    assert (prev = key ≫= holder (a_blocks (abs bm))) as -> ; [|done].
    destruct key as [k|]; [|done]. apply (key_holder_fun bm k); [done|done|apply Hh].
  - exfalso. destruct Hshed as [Hsub _]. pose proof (a_used_subseteq _ _ Hsub).
    change (a_max (abs bm)) with (bm_max bm) in Hfull. lia.
  - done.
  - rewrite (key_holder_fun bm k w _ HI Hw (Hh k)) in *. by destruct (holder _ k).
  - done.
  - rewrite (key_holder_fun bm k w _ HI Hw (Hh k)) in *. by destruct (holder _ k).
Qed.

(** A request adds no more than its bytes, and keeps the quota. *)
Lemma ref_exec_used o a :
  (forall id e, a_blocks a !! id = Some e -> id < a_next a) ->
  a_max (ref_exec o a).1 = a_max a /\ a_used (a_blocks (ref_exec o a).1) <= a_used (a_blocks a) + op_bytes o.
Proof.
  intros Hlt. assert (forall m id, a_used (delete id m) <= a_used m) as Hdel
    by (intros; apply a_used_subseteq, delete_subseteq).
  assert (forall now m id, a_used (alter (touch now) id m) = a_used m) as Htouch.
  { intros now m id. unfold a_used. destruct (m !! id) as [e|] eqn:He.
    - assert (alter (touch now) id m = <[id := touch now e]> m) as ->.
      { apply map_eq. intros j. rewrite lookup_alter, lookup_insert.
        destruct (decide (id = j)) as [->|]; [by rewrite He|done]. }
      rewrite (msum_update _ _ _ _ _ He). unfold touch, e_size. cbn. lia.
    - f_equal. apply map_eq. intros j. rewrite lookup_alter. case_decide; [subst; by rewrite He|done]. }
  destruct o as [r now data d key|now id|now k|id|k]; cbn [ref_exec op_bytes].
  - pose proof (len_nonneg data). zcase; cbn [fst a_max a_blocks]; [split; [done|lia]|]. split; [done|].
    unfold a_used at 1. rewrite msum_insert.
    + change (e_size (mkEntry data d now key)) with (len data). assert (a_used (drop_opt (key ≫= holder (a_blocks a)) (a_blocks a))
        <= a_used (a_blocks a)); [|unfold a_used in *; lia].
      destruct (key ≫= _); cbn; [apply Hdel|lia].
    + assert (a_blocks a !! a_next a = None) as Hn.
      { destruct (a_blocks a !! a_next a) as [e|] eqn:He; [|done]. specialize (Hlt _ _ He). lia. }
      destruct (key ≫= _); cbn; [by apply lookup_delete_None; right|done].
  - cbn [fst a_max a_blocks]. rewrite Htouch. split; [done|lia].
  - destruct (holder _ k); cbn [fst a_max a_blocks]; [rewrite Htouch|]; (split; [done|lia]).
  - cbn [fst a_max a_blocks]. pose proof (Hdel (a_blocks a) id). split; [done|lia].
  - destruct (holder _ k) as [id|]; cbn [fst a_max a_blocks]; [pose proof (Hdel (a_blocks a) id)|];
      (split; [done|lia]).
Qed.

Lemma exec_all_ref ops bm :
  Forall op_ok ops -> Inv py_hash bm ->
  a_used (a_blocks (abs bm)) + zsum (op_bytes <$> ops) <= bm_max bm ->
  let '(bm', rs) := exec_all ops bm in (abs bm', rs) = ref_all ops (abs bm) /\ Inv py_hash bm'.
Proof.
  revert bm. induction ops as [|o ops IH]; intros bm Hok HI Hfit; [done|].
  apply Forall_cons in Hok as [Ho Hok]. cbn [exec_all ref_all fmap list_fmap] in *. rewrite zsum_cons in Hfit.
  assert (0 <= zsum (op_bytes <$> ops)) as Hnn.
  { clear. induction ops as [|o ops IH]; cbn [fmap list_fmap]; [done|]. rewrite zsum_cons.
    destruct o; cbn [op_bytes]; try lia. pose proof (len_nonneg data). lia. }
  destruct (exec py_hash o bm) as [bm1 r] eqn:Hx.
  destruct (exec_ref o bm bm1 r Ho HI ltac:(lia) Hx) as [Hr HI1].
  assert (forall id e, a_blocks (abs bm) !! id = Some e -> id < a_next (abs bm)) as Hlt.
  { intros id e He. destruct HI as [HI _]. rewrite (abs_lookup _ _ _ _ HI) in He.
    pose proof (lookup_block_bounds _ _ _ _ _ HI He) as Hb. cbn. lia. }
  destruct (ref_exec_used o (abs bm) Hlt) as [Hm Hu]. rewrite <-Hr in Hm, Hu |- *. cbn [fst] in Hm, Hu.
  change (a_max (abs bm1)) with (bm_max bm1) in Hm. change (a_max (abs bm)) with (bm_max bm) in Hm.
  specialize (IH bm1 Hok HI1 ltac:(lia)). destruct (exec_all ops bm1) as [bm' rs].
  destruct IH as [E HI']. rewrite <-E. done.
Qed.
End manager.

(** A new manager is the empty reference. *)
Lemma stripes_start max n bm : BlockManager_init max n = Ok bm -> abs bm = mkAStore max 1 ∅.
Proof.
  unfold BlockManager_init. zcase; [done|]. intros [= <-]. unfold abs. cbn. f_equal.
  induction (Z.to_nat n) as [|k IH]; [done|]. cbn. by rewrite IH, (left_id_L ∅ (∪)).
Qed.

(** ** Properties *)

(** C3: as long as the stores fit the quota, a manager with any number of
    stripes and any hash of the keys is the plain reference store: the same
    answer to every request of any sequence, errors included, and the same
    blocks, ids and keys at the end.  So neither the stripe count nor the seed
    of the key hash can be observed. *)
Theorem stripes_invisible py_hash max n bm ops :
  0 <= max -> BlockManager_init max n = Ok bm -> Forall op_ok ops -> zsum (op_bytes <$> ops) <= max ->
  let '(bm', answers) := exec_all py_hash ops bm in
  (abs bm', answers) = ref_all ops (mkAStore max 1 ∅).
Proof.
  intros Hmax Hi Hok Hfit.
  pose proof (stripes_start max n bm Hi) as Ha.
  assert (bm_max bm = max) as Hm.
  { revert Hi. unfold BlockManager_init. zcase; [done|]. by intros [= <-]. }
  pose proof (exec_all_ref py_hash ops bm Hok (init_Inv _ _ _ _ Hmax Hi)) as H.
  rewrite Ha, Hm in H. cbn [a_blocks] in H. unfold a_used in H. rewrite msum_empty in H.
  specialize (H ltac:(lia)). destruct (exec_all py_hash ops bm) as [bm' rs]. apply H.
Qed.

(** ** Witnesses *)

Definition some_ops : list op :=
  [OpStore rng_id 0 [Byte.x01; Byte.x02] PINNED (Some "a"); OpStore rng_id 1 [Byte.x03] CACHE (Some "b");
   OpLoadKey 2 "a"; OpStore rng_id 3 [Byte.x04] CACHE (Some "a"); OpLoad 4 1; OpFreeKey "b"; OpFreeKey "b"].

Lemma some_ops_ok : Forall op_ok some_ops.
Proof. unfold some_ops. repeat (apply List.Forall_cons; [exact rng_id_ok || exact I|]). apply List.Forall_nil. Qed.

Definition three_stripes : BlockManager :=
  mkBM 10 3 (replicate 3 empty_stripe) (replicate 3 empty_key_stripe) 0 1.

Lemma stripes_invisible_witness :
  let '(bm', answers) := exec_all (fun k => Z.of_nat (String.length k)) some_ops three_stripes in
  (abs bm', answers) = ref_all some_ops (mkAStore 10 1 ∅).
Proof.
  exact (stripes_invisible (fun k => Z.of_nat (String.length k)) 10 3 three_stripes some_ops ltac:(lia) eq_refl
    some_ops_ok ltac:(by vm_compute)).
Defined.

Example some_answers : (ref_all some_ops (mkAStore 10 1 ∅)).2
  = [Ok (AId 1); Ok (AId 2); Ok (AData (Some [Byte.x01; Byte.x02])); Ok (AId 3); Ok (AData None);
     Ok (ABool true); Ok (ABool false)].
Proof. by vm_compute. Qed.
