(* ===== verification/BenchBlocks.v ===== *)
(** * The block-store benchmark ([bench/bench_blocks.py])

    The workloads whose time the benchmark reports: the concurrent cycles of
    [_worker] and the removals of [bench_free_scaling].  Time itself is not
    modelled; what is shown is that the timed operations do the work the report
    says, at every stripe count, and what the reported counts are.  No
    operation of the store gives up the event loop (see [Blocks]), so the tasks
    of [asyncio.gather] run one after the other. *)
From S2P Require Import Prelude Config Blocks BlocksFacts BlocksSpec Stripes.

Definition GiB : Z := 1073741824.       (* [1 << 30] *)

(** ** The workloads *)

Section bench.
Context (py_hash : string -> Z) (r : rng).
Context (t_store t_load : Z -> Z -> Z).  (* the clock in the cycles of a worker *)

(** [f"{tag}-{i}"] *)
Definition worker_key (tag i : Z) : string := pretty tag +:+ "-" +:+ pretty i.

(** The body of the loop of [_worker]. *)
Definition cycle (payload : bytes) (tag i : Z) : M BlockManager unit :=
  bid <- store py_hash r (t_store tag i) payload CACHE (Some (worker_key tag i));;
  _ <- load (t_load tag i) bid;;
  _ <- free py_hash bid true;;
  mret tt.

Fixpoint worker_from (i : Z) (ops : nat) (payload : bytes) (tag : Z) : M BlockManager unit :=
  match ops with
  | O => mret tt
  | S ops => cycle payload tag i;;; worker_from (i + 1) ops payload tag
  end.

Definition _worker (ops : Z) (payload : bytes) (tag : Z) : M BlockManager unit :=
  worker_from 0 (Z.to_nat ops) payload tag.

(** [asyncio.gather]: every task runs; the first exception is passed on. *)
Fixpoint gather (tasks : list (M BlockManager unit)) : M BlockManager unit := fun bm =>
  match tasks with
  | [] => (bm, Ok tt)
  | t :: tasks =>
      let '(bm, res) := t bm in
      let '(bm, rest) := gather tasks bm in
      (bm, match res with Ok _ => rest | Err e => Err e end)
  end.

Definition stripes_payload : bytes := replicate 256 Byte.x78.

Definition per_worker (concurrency operations : Z) : result Z :=
  if concurrency =? 0 then Err (lib_exn ZeroDivisionError)
  else Ok (Z.max 1 (operations / concurrency)).

(** One of the repeats of [bench_stripes], and the manager it leaves. *)
Definition bench_round (stripe_count concurrency operations : Z) : result BlockManager :=
  let? per := per_worker concurrency operations in
  let? bm := BlockManager_init GiB stripe_count in
  let '(bm, res) := gather ((fun w => _worker per stripes_payload (Z.of_nat w)) <$> seq 0 (Z.to_nat concurrency)) bm in
  let? _ := res in Ok bm.

(** What [main] divides the time by. *)
Definition total_ops (concurrency operations : Z) : Z := (operations / concurrency) * concurrency * 3.

(** *** [bench_free_scaling] *)

Definition scaling_key (i : Z) : string := "key-" +:+ pretty i.
Definition scaling_payload : bytes := replicate 64 Byte.x79.

Fixpoint store_keys (i : Z) (n : nat) : M BlockManager (list Z) :=
  match n with
  | O => mret []
  | S n =>
      id <- store py_hash r (t_store 0 i) scaling_payload PINNED (Some (scaling_key i));;
      ids <- store_keys (i + 1) n;;
      mret (id :: ids)
  end.

(** [ids[-200:]] *)
Definition last_200 (ids : list Z) : list Z := drop (length ids - 200) ids.

Fixpoint free_each (ids : list Z) : M BlockManager (list bool) :=
  match ids with
  | [] => mret []
  | id :: ids => b <- free py_hash id true;; bs <- free_each ids;; mret (b :: bs)
  end.

(** One size: the answers of the timed removals and the manager left;
    [statistics.median] raises when there is no sample. *)
Definition free_round (n : Z) : result (list bool * BlockManager) :=
  let? bm := BlockManager_init GiB Config.BLOCK_STRIPE_COUNT in
  let '(bm, res) := (ids <- store_keys 0 (Z.to_nat n);; free_each (last_200 ids)) bm in
  let? answers := res in
  if len answers =? 0 then Err (lib_exn ValueError) else Ok (answers, bm).
End bench.

(** ** What the workloads do *)

Section facts.
Context (py_hash : string -> Z) (r : rng) `{!RngOk r}.

(** An empty manager whose next id is [next]. *)
Definition empty_at (max next : Z) (bm : BlockManager) : Prop :=
  Inv py_hash bm /\ abs bm = mkAStore max next ∅.

(** A request the reference answers, on the operations themselves. *)
Lemma store_as_ref now data d key bm a :
  Inv py_hash bm -> abs bm = a -> a_used (a_blocks a) + len data <= a_max a ->
  len data <= Config.MAX_BLOCK_SIZE ->
  exists bm', store py_hash r now data d key bm = (bm', Ok (a_next a)) /\ Inv py_hash bm' /\
    abs bm' = (ref_exec (OpStore r now data d key) a).1.
Proof.
  intros HI <- Hfit Hlen.
  destruct (exec py_hash (OpStore r now data d key) bm) as [bm' res] eqn:Hx.
  destruct (exec_ref py_hash (OpStore r now data d key) bm bm' res ltac:(done) HI Hfit Hx) as [Hr HI'].
  cbn [ref_exec] in Hr |- *. rewrite (proj2 (Z.ltb_ge _ _) Hlen) in Hr |- *.
  apply pair_equal_spec in Hr as [Ha ->]. exists bm'. split; [|done]. cbn [exec] in Hx. unfold mbind_m in Hx.
  destruct (store _ _ _ _ _ _ _) as [bm1 [id|e]]; [|done]. injection Hx as <- Hid. by rewrite Hid.
Qed.

Lemma load_as_ref now id bm a :
  Inv py_hash bm -> abs bm = a ->
  exists bm', load now id bm = (bm', Ok (e_data <$> a_blocks a !! id)) /\ Inv py_hash bm' /\
    abs bm' = (ref_exec (OpLoad now id) a).1.
Proof.
  intros HI <-. destruct (load_spec py_hash bm now id HI) as (bm' & Hl & HI' & Hsh & _ & Hb & _).
  exists bm'. rewrite (abs_lookup py_hash 0) by apply HI. split; [done|]. split; [done|].
  by apply (abs_touch py_hash).
Qed.

Lemma free_as_ref id bm a :
  Inv py_hash bm -> abs bm = a ->
  exists bm', free py_hash id true bm = (bm', Ok (bool_decide (is_Some (a_blocks a !! id)))) /\ Inv py_hash bm' /\
    abs bm' = (ref_exec (OpFree id) a).1.
Proof.
  intros HI <-. destruct (free_Inv py_hash bm id HI) as (bm' & Hf & HI' & Hsh & _ & Hb & _).
  exists bm'. rewrite (abs_lookup py_hash 0) by apply HI. split; [done|]. split; [done|].
  by apply (abs_delete py_hash).
Qed.

(** A cycle on an empty manager leaves it empty, one id later. *)
Lemma cycle_empty ts tl payload tag i max next bm :
  empty_at max next bm -> len payload <= max -> len payload <= Config.MAX_BLOCK_SIZE ->
  exists bm', cycle py_hash r ts tl payload tag i bm = (bm', Ok tt) /\ empty_at max (next + 1) bm'.
Proof.
  intros [HI Ha] Hmax Hlen. unfold cycle.
  destruct (store_as_ref (ts tag i) payload CACHE (Some (worker_key tag i)) bm _ HI Ha)
    as (bm1 & Hs & HI1 & Ha1); [cbn; unfold a_used; rewrite msum_empty; lia|done|].
  rewrite (bind_ok _ _ _ _ _ Hs). cbn [ref_exec] in Ha1. rewrite (proj2 (Z.ltb_ge _ _) Hlen) in Ha1.
  destruct (load_as_ref (tl tag i) next bm1 _ HI1 Ha1) as (bm2 & Hl & HI2 & Ha2).
  rewrite (bind_ok _ _ _ _ _ Hl).
  destruct (free_as_ref next bm2 _ HI2 Ha2) as (bm3 & Hf & HI3 & Ha3).
  rewrite (bind_ok _ _ _ _ _ Hf). exists bm3. split; [done|]. split; [done|]. rewrite Ha3. cbn.
  f_equal. rewrite alter_insert_eq, delete_insert_eq. done.
Qed.

Lemma worker_empty ts tl payload tag ops max i next bm :
  empty_at max next bm -> len payload <= max -> len payload <= Config.MAX_BLOCK_SIZE ->
  exists bm', worker_from py_hash r ts tl i ops payload tag bm = (bm', Ok tt) /\
    empty_at max (next + Z.of_nat ops) bm'.
Proof.
  intros He Hmax Hlen. revert i next bm He. induction ops as [|ops IH]; intros i next bm He; cbn [worker_from].
  { exists bm. rewrite Z.add_0_r. done. }
  destruct (cycle_empty ts tl payload tag i max next bm He Hmax Hlen) as (bm1 & Hc & He1).
  rewrite (bind_ok _ _ _ _ _ Hc). destruct (IH (i + 1) (next + 1) bm1 He1) as (bm2 & Hw & He2).
  exists bm2. split; [done|]. by replace (next + Z.of_nat (S ops)) with (next + 1 + Z.of_nat ops) by lia.
Qed.

Lemma gather_empty ts tl payload per ws max next bm :
  empty_at max next bm -> len payload <= max -> len payload <= Config.MAX_BLOCK_SIZE -> 0 <= per ->
  exists bm', gather ((fun w => _worker py_hash r ts tl per payload (Z.of_nat w)) <$> ws) bm = (bm', Ok tt) /\
    empty_at max (next + len ws * per) bm'.
Proof.
  intros He Hmax Hlen Hper. revert next bm He. induction ws as [|w ws IH]; intros next bm He.
  { exists bm. by replace (next + len [] * per) with next by (unfold len; cbn; lia). }
  destruct (worker_empty ts tl payload (Z.of_nat w) (Z.to_nat per) max 0 next bm He Hmax Hlen)
    as (bm1 & Hw & He1). rewrite Z2Nat.id in He1 by done.
  destruct (IH (next + per) bm1 He1) as (bm2 & Hg & He2). cbn [fmap list_fmap gather].
  change (_worker py_hash r ts tl per payload (Z.of_nat w) bm)
    with (worker_from py_hash r ts tl 0 (Z.to_nat per) payload (Z.of_nat w) bm).
  rewrite Hw, Hg. exists bm2. split; [done|]. rewrite len_cons.
  by replace (next + (1 + len ws) * per) with (next + per + len ws * per) by lia.
Qed.

Lemma init_empty max n bm : 0 <= max -> BlockManager_init max n = Ok bm -> empty_at max 1 bm.
Proof.
  intros Hmax Hi. split; [by eapply init_Inv|].
  pose proof (stripes_start max n bm Hi). done.
Qed.

(** *** [bench_free_scaling] *)

Definition scaling_entry (t : Z -> Z -> Z) (i : Z) : Entry :=
  mkEntry scaling_payload PINNED (t 0 i) (Some (scaling_key i)).

(** After [n] stores: the blocks [1 .. n], each with the key of its index. *)
Record scaled (t : Z -> Z -> Z) (n : Z) (bm : BlockManager) : Prop := {
  sc_inv : Inv py_hash bm;
  sc_max : a_max (abs bm) = GiB;
  sc_next : a_next (abs bm) = n + 1;
  sc_blocks : forall id, a_blocks (abs bm) !! id
    = if decide (1 <= id <= n) then Some (scaling_entry t (id - 1)) else None;
  sc_used : a_used (a_blocks (abs bm)) = 64 * n
}.

Lemma scaling_key_inj i j : scaling_key i = scaling_key j -> i = j.
Proof. unfold scaling_key. intros H. apply (inj (String.append "key-")) in H. by apply (inj pretty) in H. Qed.

Lemma scaled_step t n bm :
  scaled t n bm -> 0 <= n -> 64 * (n + 1) <= GiB ->
  exists bm', store py_hash r (t 0 n) scaling_payload PINNED (Some (scaling_key n)) bm = (bm', Ok (n + 1)) /\
    scaled t (n + 1) bm'.
Proof.
  intros [HI Hm Hn Hb Hu] Hnn Hroom.
  destruct (store_as_ref (t 0 n) scaling_payload PINNED (Some (scaling_key n)) bm (abs bm) HI eq_refl)
    as (bm' & Hs & HI' & Ha); [rewrite Hu, Hm; change (len scaling_payload) with 64; lia|done|].
  exists bm'. rewrite Hs, Hn. split; [done|].
  cbn [ref_exec] in Ha. change (Config.MAX_BLOCK_SIZE <? len scaling_payload) with false in Ha.
  assert (holder (a_blocks (abs bm)) (scaling_key n) = None) as Hh.
  { pose proof (holder_spec (a_blocks (abs bm)) (scaling_key n)) as Hk.
    destruct (holder _ _) as [id|]; [|done]. destruct Hk as (e & He & Hk). rewrite Hb in He.
    case_decide; [|done]. injection He as <-.
    change (Some (scaling_key (id - 1)) = Some (scaling_key n)) in Hk.
    assert (scaling_key (id - 1) = scaling_key n) as Hk'%scaling_key_inj by congruence. lia. }
  cbn [mbind option_bind fst] in Ha. rewrite Hh in Ha. cbn [drop_opt] in Ha. rewrite Hn in Ha.
  assert (a_blocks (abs bm) !! (n + 1) = None) as Hfresh by (rewrite Hb, decide_False by lia; done).
  split; rewrite ?Ha; cbn [a_max a_next a_blocks]; try done; try lia.
  - intros id. rewrite lookup_insert. destruct (decide (n + 1 = id)) as [<-|Hne].
    + rewrite decide_True by lia. unfold scaling_entry. by replace (n + 1 - 1) with n by lia.
    + rewrite Hb. do 2 case_decide; (done || lia).
  - unfold a_used in *. rewrite msum_insert, Hu by done.
    change (e_size (mkEntry scaling_payload PINNED (t 0 n) (Some (scaling_key n)))) with 64. lia.
Qed.

Lemma store_keys_scaled t k n bm :
  scaled t n bm -> 0 <= n -> 64 * (n + Z.of_nat k) <= GiB ->
  exists bm', store_keys py_hash r t n k bm = (bm', Ok ((fun i => n + 1 + Z.of_nat i) <$> seq 0 k)) /\
    scaled t (n + Z.of_nat k) bm'.
Proof.
  revert n bm. induction k as [|k IH]; intros n bm Hs Hn Hroom; cbn [store_keys].
  { exists bm. by rewrite Z.add_0_r. }
  destruct (scaled_step t n bm Hs Hn ltac:(lia)) as (bm1 & H1 & Hs1). rewrite (bind_ok _ _ _ _ _ H1).
  destruct (IH (n + 1) bm1 Hs1 ltac:(lia) ltac:(lia)) as (bm2 & H2 & Hs2). rewrite (bind_ok _ _ _ _ _ H2).
  exists bm2. split; [|by replace (n + Z.of_nat (S k)) with (n + 1 + Z.of_nat k) by lia].
  unfold mret. do 2 f_equal. cbn [seq fmap list_fmap]. f_equal; [lia|].
  rewrite <-(fmap_S_seq 0 k), <-list_fmap_compose. apply list_fmap_ext. intros i x _. cbn. lia.
Qed.

(** Removing distinct blocks of 64 bytes that are there. *)
Lemma free_each_present ids bm :
  Inv py_hash bm -> NoDup ids ->
  (forall id, id ∈ ids -> exists e, a_blocks (abs bm) !! id = Some e /\ e_size e = 64) ->
  exists bm', free_each py_hash ids bm = (bm', Ok (replicate (length ids) true)) /\ Inv py_hash bm' /\
    a_used (a_blocks (abs bm')) = a_used (a_blocks (abs bm)) - 64 * len ids.
Proof.
  revert bm. induction ids as [|id ids IH]; intros bm HI Hnd Hin; cbn [free_each].
  { exists bm. split_and!; [done|done|unfold len; cbn; lia]. }
  apply NoDup_cons in Hnd as [Hni Hnd].
  destruct (Hin id ltac:(by left)) as (e & He & Hsz).
  destruct (free_as_ref id bm (abs bm) HI eq_refl) as (bm1 & Hf & HI1 & Ha1). cbn [ref_exec fst] in Ha1.
  rewrite He, bool_decide_true in Hf by done. rewrite (bind_ok _ _ _ _ _ Hf).
  destruct (IH bm1 HI1 Hnd) as (bm2 & H2 & HI2 & Hu2).
  { intros j Hj. rewrite Ha1. cbn [a_blocks]. rewrite lookup_delete_ne; [apply Hin; by right|].
    intros ->. done. }
  rewrite (bind_ok _ _ _ _ _ H2). exists bm2. split_and!; [done|done|].
  rewrite Hu2, Ha1. cbn [a_blocks]. unfold a_used. rewrite (msum_delete _ _ _ _ He), len_cons. lia.
Qed.
End facts.

(** ** Properties *)

Section claims.
Context (py_hash : string -> Z) (r : rng) `{!RngOk r} (ts tl : Z -> Z -> Z).

(** The striping benchmark does the same work at every stripe count: the
    workers run [max(1, operations // concurrency)] whole cycles each, none of
    them fails or is refused, and the store is empty again at the end. *)
Theorem bench_round_clean stripe_count concurrency operations :
  1 <= stripe_count -> 1 <= concurrency ->
  exists bm, bench_round py_hash r ts tl stripe_count concurrency operations = Ok bm /\
    abs bm = mkAStore GiB (1 + concurrency * Z.max 1 (operations / concurrency)) ∅ /\
    used_bytes (stats bm) = 0.
Proof.
  intros Hs Hc. unfold bench_round, per_worker. rewrite (proj2 (Z.eqb_neq _ _)) by lia. cbn [result_bind].
  assert (exists bm0, BlockManager_init GiB stripe_count = Ok bm0) as [bm0 Hi]
    by (unfold BlockManager_init; zcase; [lia|by eexists]).
  rewrite Hi. cbn [result_bind].
  destruct (gather_empty py_hash r ts tl stripes_payload (Z.max 1 (operations / concurrency))
    (seq 0 (Z.to_nat concurrency)) GiB 1 bm0) as (bm & Hg & HI & Ha);
    [by eapply init_empty|by vm_compute|by vm_compute|lia|].
  rewrite Hg. cbn [result_bind]. exists bm. split; [done|].
  rewrite Ha. unfold len. rewrite length_seq, Z2Nat.id by lia. split; [done|].
  pose proof (abs_used py_hash bm HI) as Hu. rewrite Ha in Hu. cbn in Hu |- *. rewrite <-Hu. apply msum_empty.
Qed.

(** The count the report divides by is three operations per cycle run, unless
    there are fewer operations than workers: then every worker still runs one
    cycle, and the report counts none. *)
Theorem reported_ops concurrency operations :
  1 <= concurrency -> 0 <= operations ->
  (concurrency <= operations ->
   total_ops concurrency operations = 3 * (concurrency * Z.max 1 (operations / concurrency))) /\
  (operations < concurrency -> total_ops concurrency operations = 0).
Proof.
  intros Hc Ho. unfold total_ops. split; intros H.
  - assert (1 <= operations / concurrency) by (apply Z.div_le_lower_bound; lia).
    rewrite Z.max_r by done. ring.
  - rewrite Z.div_small by lia. lia.
Qed.

(** Every timed removal of the scaling benchmark removes a keyed block: for any
    size whose blocks fit the quota the last 200 (or all) ids are freed with the
    answer [True], and the others stay. *)
Theorem free_round_removes n :
  1 <= n -> 64 * n <= GiB ->
  exists bm, free_round py_hash r ts n = Ok (replicate (Z.to_nat (Z.min n 200)) true, bm) /\
    used_bytes (stats bm) = 64 * Z.max 0 (n - 200).
Proof.
  intros Hn Hfit. unfold free_round.
  assert (exists bm0, BlockManager_init GiB Config.BLOCK_STRIPE_COUNT = Ok bm0) as [bm0 Hi] by (by eexists).
  rewrite Hi. cbn [result_bind].
  assert (scaled py_hash ts 0 bm0) as Hs0.
  { destruct (init_empty py_hash GiB _ bm0 ltac:(done) Hi) as [HI Ha].
    split; rewrite ?Ha; try done. intros id. cbn. case_decide; [lia|done]. }
  destruct (store_keys_scaled py_hash r ts (Z.to_nat n) 0 bm0 Hs0) as (bm1 & Hk & [HI1 _ _ Hb1 Hu1]);
    [lia|lia|]. rewrite (bind_ok _ _ _ _ _ Hk). rewrite Z2Nat.id in Hb1, Hu1 by lia.
  set (ids := (fun i => 0 + 1 + Z.of_nat i) <$> seq 0 (Z.to_nat n)) in *.
  assert (length (last_200 ids) = Z.to_nat (Z.min n 200)) as Hl.
  { unfold last_200, ids. rewrite length_drop, length_fmap, length_seq. lia. }
  destruct (free_each_present py_hash (last_200 ids) bm1 HI1) as (bm2 & Hf & HI2 & Hu2).
  - assert (NoDup ids) as Hnd by (apply NoDup_fmap_2; [intros ? ?; lia|apply NoDup_seq]).
    rewrite <-(take_drop (length ids - 200) ids) in Hnd. by apply NoDup_app in Hnd as (_ & _ & ?).
  - intros id [k Hin]%list_elem_of_lookup. exists (scaling_entry ts (id - 1)). split; [|done].
    unfold last_200 in Hin. rewrite lookup_drop in Hin. apply list_elem_of_lookup_2 in Hin.
    apply list_elem_of_fmap in Hin as (i & -> & Hi'%elem_of_seq). rewrite Hb1. apply decide_True. lia.
  - rewrite Hf. cbn [result_bind]. rewrite Hl.
    assert (len (replicate (Z.to_nat (Z.min n 200)) true) = Z.min n 200) as Hlen
      by (unfold len; rewrite length_replicate; lia).
    rewrite Hlen, (proj2 (Z.eqb_neq _ _)) by lia. exists bm2. split; [done|].
    pose proof (abs_used py_hash bm2 HI2) as Hu. cbn. rewrite <-Hu, Hu2, Hu1. unfold len. lia.
Qed.
End claims.

(** ** Witnesses *)

Lemma bench_round_clean_witness :
  exists bm, bench_round (fun k => Z.of_nat (String.length k)) rng_id (fun _ i => i) (fun _ i => i) 4 3 10 = Ok bm /\
    abs bm = mkAStore GiB 10 ∅ /\ used_bytes (stats bm) = 0.
Proof.
  apply (bench_round_clean (fun k => Z.of_nat (String.length k)) rng_id (fun _ i => i) (fun _ i => i) 4 3 10); lia.
Defined.

Lemma reported_ops_witness :
  (256 <= 20000 -> total_ops 256 20000 = 3 * (256 * Z.max 1 (20000 / 256))) /\
  (100 < 256 -> total_ops 256 100 = 0).
Proof.
  split; [apply (reported_ops 256 20000); lia|apply (reported_ops 256 100); lia].
Defined.

Lemma free_round_removes_witness :
  exists bm, free_round (fun k => Z.of_nat (String.length k)) rng_id (fun _ i => i) 3
      = Ok ([true; true; true], bm) /\ used_bytes (stats bm) = 0.
Proof.
  apply (free_round_removes (fun k => Z.of_nat (String.length k)) rng_id (fun _ i => i) 3); vm_compute; congruence.
Defined.
