(* ===== verification/Replay.v ===== *)
(** * The anti-replay window ([ReplayWindow] of [memnode/security.py])

    The bitmap over the last [size] sequence numbers, and its specification: a
    window that remembers every sequence number it ever accepted. *)
From S2P Require Import Prelude Config.

(** ** The window *)

Record ReplayWindow := RWin {
  rw_size : Z;
  rw_highest : Z;
  rw_bitmap : Z;
  rw_seen_any : bool
}.

Definition ReplayWindow_init (size : Z) : result ReplayWindow :=
  if size <? 1 then Err (Exn ValueError "replay window size must be >= 1")
  else Ok (RWin size 0 0 false).

(** The [highest] property. *)
Definition highest (w : ReplayWindow) : Z :=
  if rw_seen_any w then rw_highest w else -1.

Definition check_and_update (seq : Z) (w : ReplayWindow) : ReplayWindow * bool :=
  if (seq <? 0) || (seq >? 0xFFFFFFFFFFFFFFFF) then (w, false)
  else if negb (rw_seen_any w) then (RWin (rw_size w) seq 1 true, true)
  else if seq >? rw_highest w then
    let shift := seq - rw_highest w in
    let bitmap :=
      if shift >=? rw_size w then 1
      else Z.land (Z.lor (Z.shiftl (rw_bitmap w) shift) 1) (Z.shiftl 1 (rw_size w) - 1) in
    (RWin (rw_size w) seq bitmap true, true)
  else
    let offset := rw_highest w - seq in
    if offset >=? rw_size w then (w, false)
    else
      let mask := Z.shiftl 1 offset in
      if negb (Z.land (rw_bitmap w) mask =? 0) then (w, false)
      else (RWin (rw_size w) (rw_highest w) (Z.lor (rw_bitmap w) mask) true, true).

(** The answers to a sequence of calls. *)
Fixpoint check_all (seqs : list Z) (w : ReplayWindow) : ReplayWindow * list bool :=
  match seqs with
  | [] => (w, [])
  | seq :: seqs =>
      let '(w1, b) := check_and_update seq w in
      let '(w2, bs) := check_all seqs w1 in (w2, b :: bs)
  end.

(** ** The specification

    The state is the set of accepted numbers.  A number is accepted when it is
    a 64-bit number, was never accepted, and lies less than [size] below every
    accepted one. *)

Definition fresh (size : Z) (seq : Z) (accepted : gset Z) : Prop :=
  0 <= seq < 2 ^ 64 /\ (seq ∉ accepted) /\ set_Forall (fun a => (a - seq < size)) accepted.

#[global] Instance fresh_dec size seq accepted : Decision (fresh size seq accepted).
Proof. unfold fresh. solve_decision. Defined.

Definition spec_step (size seq : Z) (accepted : gset Z) : gset Z * bool :=
  if decide (fresh size seq accepted) then ({[seq]} ∪ accepted, true) else (accepted, false).

Fixpoint spec_all (size : Z) (seqs : list Z) (accepted : gset Z) : gset Z * list bool :=
  match seqs with
  | [] => (accepted, [])
  | seq :: seqs =>
      let '(a1, b) := spec_step size seq accepted in
      let '(a2, bs) := spec_all size seqs a1 in (a2, b :: bs)
  end.

(** ** The representation: bit [i] says whether [highest - i] was accepted *)

Record WRep (w : ReplayWindow) (accepted : gset Z) : Prop := {
  wr_size : 1 <= rw_size w;
  wr_empty : rw_seen_any w = false -> accepted = ∅;
  wr_top : rw_seen_any w = true -> rw_highest w ∈ accepted;
  wr_max : forall a, a ∈ accepted -> 0 <= a < 2 ^ 64 /\ a <= rw_highest w;
  wr_bitmap_range : 0 <= rw_bitmap w < 2 ^ rw_size w;
  wr_bits : forall i, rw_seen_any w = true -> 0 <= i < rw_size w ->
    (Z.testbit (rw_bitmap w) i = true <-> rw_highest w - i ∈ accepted)
}.

Lemma WRep_init size w : ReplayWindow_init size = Ok w -> WRep w ∅ /\ rw_size w = size.
Proof.
  unfold ReplayWindow_init. zcase; [done|]. intros [= <-]. split; [|done].
  split; simpl; try done; try set_solver.
  split; [lia|]. apply Z.pow_pos_nonneg; lia.
Qed.

Lemma mask_bit b offset :
  0 <= offset -> (Z.land b (Z.shiftl 1 offset) =? 0) = negb (Z.testbit b offset).
Proof.
  intros Ho. rewrite Z.shiftl_1_l. destruct (Z.testbit b offset) eqn:Hb; simpl.
  - apply Z.eqb_neq. intros H0. apply (f_equal (fun z => Z.testbit z offset)) in H0.
    rewrite Z.land_spec, Hb, Z.pow2_bits_true, Z.bits_0 in H0 by lia. done.
  - apply Z.eqb_eq. apply Z.bits_inj'. intros n Hn.
    rewrite Z.land_spec, Z.bits_0, Z.pow2_bits_eqb by lia.
    destruct (Z.eqb_spec offset n); [subst; by rewrite Hb | apply andb_false_r].
Qed.

Lemma bit_one i : 0 <= i -> Z.testbit 1 i = (i =? 0).
Proof. intros. change 1 with (2 ^ 0). rewrite Z.pow2_bits_eqb by lia. apply Z.eqb_sym. Qed.

(** The bitmap after sliding forward. *)
Lemma slide_bits size b shift i :
  0 < shift -> 0 <= i < size ->
  Z.testbit (Z.land (Z.lor (Z.shiftl b shift) 1) (Z.shiftl 1 size - 1)) i
    = Z.testbit b (i - shift) || (i =? 0).
Proof.
  intros Hs Hi. rewrite Z.land_spec, Z.lor_spec, Z.shiftl_spec, bit_one by lia.
  rewrite Z.shiftl_1_l. replace (2 ^ size - 1) with (Z.ones size) by (rewrite Z.ones_equiv; lia).
  rewrite Z.ones_spec_low by lia. by rewrite andb_true_r.
Qed.

Lemma slide_range size b shift :
  0 <= size -> 0 <= Z.land (Z.lor (Z.shiftl b shift) 1) (Z.shiftl 1 size - 1) < 2 ^ size.
Proof.
  intros Hs. rewrite Z.shiftl_1_l.
  replace (2 ^ size - 1) with (Z.ones size) by (rewrite Z.ones_equiv; lia).
  rewrite Z.land_ones by done. apply Z.mod_pos_bound. apply Z.pow_pos_nonneg; lia.
Qed.

Lemma set_bit_range size b offset :
  0 <= offset < size -> 0 <= b < 2 ^ size -> 0 <= Z.lor b (Z.shiftl 1 offset) < 2 ^ size.
Proof.
  intros Ho Hb. rewrite Z.shiftl_1_l.
  assert (0 <= 2 ^ offset) by (apply Z.pow_nonneg; lia). split; [apply Z.lor_nonneg; lia|].
  destruct (Z.eq_dec (Z.lor b (2 ^ offset)) 0) as [->|Hne]; [lia|].
  assert (0 <= Z.lor b (2 ^ offset)) by (apply Z.lor_nonneg; lia).
  apply Z.log2_lt_pow2; [lia|]. rewrite Z.log2_lor by lia.
  apply Z.max_lub_lt.
  - destruct (Z.eq_dec b 0) as [->|]; [simpl; lia|]. apply Z.log2_lt_pow2; lia.
  - rewrite Z.log2_pow2; lia.
Qed.

Lemma in_range seq :
  0 <= seq < 2 ^ 64 -> (seq <? 0) || (seq >? 0xFFFFFFFFFFFFFFFF) = false.
Proof. intros. destruct (Z.ltb_spec seq 0), (Z.gtb_spec seq 0xFFFFFFFFFFFFFFFF); simpl; lia. Qed.

(** The three ways a number is accepted keep the representation. *)
Lemma WRep_first w accepted seq :
  WRep w accepted -> rw_seen_any w = false -> 0 <= seq < 2 ^ 64 ->
  WRep (RWin (rw_size w) seq 1 true) ({[seq]} ∪ accepted).
Proof.
  intros Hw Hs Hseq. destruct (Hw) as [Hsz He _ _ _ _]. rewrite (He Hs).
  split; simpl; try done; try set_solver.
  - split; [lia|]. apply Z.pow_gt_1; lia.
  - intros i _ Hi. rewrite bit_one by lia. rewrite Z.eqb_eq. set_unfold. lia.
Qed.

Lemma WRep_advance w accepted seq :
  WRep w accepted -> rw_seen_any w = true -> 0 <= seq < 2 ^ 64 -> rw_highest w < seq ->
  WRep (fst (check_and_update seq w)) ({[seq]} ∪ accepted).
Proof.
  intros [Hsz _ Ht Hm Hr Hb] Hs Hseq Hlt. unfold check_and_update.
  rewrite (in_range seq Hseq), Hs. cbn [negb].
  rewrite (proj2 (Z.gtb_gt seq (rw_highest w))) by lia. cbn [fst].
  assert (forall a, a ∈ accepted -> a < seq) as Hbelow by (intros a Ha; specialize (Hm a Ha); lia).
  split; cbn [rw_size rw_highest rw_bitmap rw_seen_any]; try done.
  - intros _. set_solver +.
  - intros a Ha. apply elem_of_union in Ha as [Ha%elem_of_singleton|Ha]; [lia|].
    specialize (Hm a Ha). lia.
  - zcase; [split; [lia|apply Z.pow_gt_1; lia]|]. apply slide_range. lia.
  - intros i _ Hi. rewrite elem_of_union, elem_of_singleton. zcase.
    + rewrite bit_one, Z.eqb_eq by lia. split; [intros ->; lia|].
      intros [?|Ha]; [lia|]. specialize (Hm _ Ha). lia.
    + rewrite slide_bits, orb_true_iff, Z.eqb_eq by lia.
      destruct (Z.ltb_spec i (seq - rw_highest w)).
      * rewrite Z.testbit_neg_r by lia. split; [intros [?|?]; [done|lia]|].
        intros [?|Ha]; [lia|]. specialize (Hm _ Ha). lia.
      * rewrite Hb by (done || lia).
        replace (rw_highest w - (i - (seq - rw_highest w))) with (seq - i) by lia.
        split; intros [?|?]; auto; lia.
Qed.

Lemma WRep_fill w accepted seq :
  WRep w accepted -> rw_seen_any w = true -> 0 <= seq < 2 ^ 64 ->
  0 <= rw_highest w - seq < rw_size w ->
  WRep (RWin (rw_size w) (rw_highest w)
          (Z.lor (rw_bitmap w) (Z.shiftl 1 (rw_highest w - seq))) true) ({[seq]} ∪ accepted).
Proof.
  intros [Hsz _ Ht Hm Hr Hb] Hs Hseq Ho.
  split; cbn [rw_size rw_highest rw_bitmap rw_seen_any]; try done.
  - intros _. specialize (Ht Hs). set_solver +Ht.
  - intros a Ha. apply elem_of_union in Ha as [Ha%elem_of_singleton|Ha]; [lia|]. by apply Hm.
  - by apply set_bit_range.
  - intros i _ Hi. rewrite Z.lor_spec, orb_true_iff, Hb, Z.shiftl_1_l, Z.pow2_bits_eqb, Z.eqb_eq
      by (done || lia).
    rewrite elem_of_union, elem_of_singleton. split; intros [?|?]; auto; [left|right]; lia.
Qed.

(** Against an accepted top, only the distance below the top matters. *)
Lemma fresh_top w accepted seq :
  WRep w accepted -> rw_seen_any w = true -> 0 <= seq < 2 ^ 64 ->
  (fresh (rw_size w) seq accepted <-> (seq ∉ accepted) /\ rw_highest w - seq < rw_size w).
Proof.
  intros [_ _ Ht Hm _ _] Hs Hseq. unfold fresh. split.
  - intros (_ & Hn & Ha). split; [done|]. by apply (Ha _ (Ht Hs)).
  - intros [Hn Hlt]. split_and!; try done; try lia.
    intros a Ha. specialize (Hm a Ha). cbn. lia.
Qed.

(** One call: the answer of the specification, and the representation kept. *)
Lemma check_refines w accepted seq :
  WRep w accepted ->
  let '(w', b) := check_and_update seq w in
  let '(accepted', b') := spec_step (rw_size w) seq accepted in
  b = b' /\ WRep w' accepted' /\ rw_size w' = rw_size w.
Proof.
  intros Hw. pose proof Hw as [Hsz He Ht Hm Hr Hb]. unfold spec_step.
  destruct (decide (0 <= seq < 2 ^ 64)) as [Hseq|Hseq].
  2:{ unfold check_and_update. rewrite (decide_False (P := fresh _ _ _)) by (intros [? _]; done).
      destruct (Z.ltb_spec seq 0), (Z.gtb_spec seq 0xFFFFFFFFFFFFFFFF); simpl; auto; lia. }
  destruct (rw_seen_any w) eqn:Hs.
  - destruct (Z.lt_ge_cases (rw_highest w) seq) as [Hlt|Hge].
    + pose proof (WRep_advance w accepted seq Hw Hs Hseq Hlt) as Hadv.
      rewrite decide_True. 2:{ apply fresh_top; try done. split; [|lia].
        intros Ha. specialize (Hm _ Ha). lia. }
      revert Hadv. unfold check_and_update. rewrite (in_range seq Hseq), Hs. cbn [negb].
      rewrite (proj2 (Z.gtb_gt seq (rw_highest w))) by lia. by intros.
    + unfold check_and_update. rewrite (in_range seq Hseq), Hs. cbn [negb].
      replace (seq >? rw_highest w) with false
        by (rewrite Z.gtb_ltb; symmetry; apply Z.ltb_ge; lia). zcase.
      { rewrite decide_False; [done|]. rewrite fresh_top by done. lia. }
      rewrite mask_bit, negb_involutive by lia.
      specialize (Hb (rw_highest w - seq) eq_refl ltac:(lia)).
      replace (rw_highest w - (rw_highest w - seq)) with seq in Hb by lia.
      destruct (Z.testbit _ _).
      * rewrite decide_False; [done|]. rewrite fresh_top by done. naive_solver.
      * rewrite decide_True by (rewrite fresh_top by done; naive_solver).
        split_and!; [done| |done]. apply WRep_fill; try done; lia.
  - unfold check_and_update. rewrite (in_range seq Hseq), Hs. cbn [negb].
    rewrite decide_True.
    + split_and!; [done| |done]. by apply WRep_first.
    + rewrite (He eq_refl). split_and!; try lia; set_solver.
Qed.

(** A refused number changes nothing. *)
Lemma check_false seq w w' : check_and_update seq w = (w', false) -> w' = w.
Proof. unfold check_and_update. repeat case_match; by intros [= <-]. Qed.

Lemma check_all_refines seqs w accepted :
  WRep w accepted ->
  (check_all seqs w).2 = (spec_all (rw_size w) seqs accepted).2 /\
  WRep (check_all seqs w).1 (spec_all (rw_size w) seqs accepted).1.
Proof.
  revert w accepted. induction seqs as [|seq seqs IH]; intros w accepted Hw; [done|].
  cbn [check_all spec_all]. pose proof (check_refines w accepted seq Hw) as Hstep.
  destruct (check_and_update seq w) as [w1 b], (spec_step (rw_size w) seq accepted) as [a1 b'].
  destruct Hstep as (-> & Hw1 & <-). destruct (IH w1 a1 Hw1) as [Hbs Hw2].
  destruct (check_all seqs w1), (spec_all (rw_size w1) seqs a1). cbn in *. by subst.
Qed.

(** The numbers a run accepted, in order. *)
Definition accepted_of (seqs : list Z) (answers : list bool) : list Z :=
  (filter (fun sb => sb.2 = true) (zip seqs answers)).*1.

Lemma spec_all_NoDup size seqs accepted :
  let answers := (spec_all size seqs accepted).2 in
  NoDup (accepted_of seqs answers) /\ (forall x, x ∈ accepted_of seqs answers -> x ∉ accepted).
Proof.
  revert accepted. induction seqs as [|seq seqs IH]; intros accepted; simpl.
  { split; [constructor|]. set_solver. }
  unfold spec_step. destruct (decide (fresh size seq accepted)) as [Hf|Hf].
  - specialize (IH ({[seq]} ∪ accepted)). destruct (spec_all size seqs _) as [a2 bs].
    cbn in *. destruct IH as [Hnd Hnew]. unfold accepted_of in *. simpl.
    destruct Hf as (_ & Hn & _). split; [constructor; set_solver | set_solver].
  - specialize (IH accepted). destruct (spec_all size seqs accepted) as [a2 bs]. done.
Qed.

(** ** Properties *)

(** C27: over every sequence of calls, the 64-bit-number bitmap answers exactly
    as a window that remembers every number it accepted: a number is taken iff
    it is in range, was not taken before and is less than [size] below the
    highest one taken; the bitmap never needs more than [size] bits. *)
Theorem replay_window_refines size w seqs :
  ReplayWindow_init size = Ok w ->
  (check_all seqs w).2 = (spec_all size seqs ∅).2 /\
  0 <= rw_bitmap (check_all seqs w).1 < 2 ^ size.
Proof.
  intros Hi. destruct (WRep_init size w Hi) as [Hw <-].
  destruct (check_all_refines seqs w ∅ Hw) as [Hbs Hrep]. split; [done|].
  assert (rw_size (check_all seqs w).1 = rw_size w) as <-; [|by apply Hrep].
  clear. revert w. induction seqs as [|seq seqs IH]; intros w; [done|].
  cbn [check_all]. destruct (check_and_update seq w) as [w1 b] eqn:Hc.
  specialize (IH w1). destruct (check_all seqs w1). cbn in *. rewrite IH.
  revert Hc. unfold check_and_update. repeat case_match; by intros [= <- _].
Qed.

(** No sequence number is ever accepted twice, whatever order an attacker
    presents them in. *)
Theorem never_accepted_twice size w seqs :
  ReplayWindow_init size = Ok w -> NoDup (accepted_of seqs (check_all seqs w).2).
Proof.
  intros Hi. destruct (WRep_init size w Hi) as [Hw <-].
  destruct (check_all_refines seqs w ∅ Hw) as [-> _]. apply spec_all_NoDup.
Qed.

(** ** Witnesses *)

Definition demo_seqs : list Z := [5; 5; 3; 1; 4; 3; 2 ^ 64; -1; 9; 5; 6; 2 ^ 64 - 1].

Example demo_answers :
  (check_all demo_seqs (RWin 4 0 0 false)).2
    = [true; false; true; false; true; false; false; false; true; false; true; true].
Proof. by vm_compute. Qed.

Lemma replay_window_refines_witness :
  ReplayWindow_init 4 = Ok (RWin 4 0 0 false) /\
  (check_all demo_seqs (RWin 4 0 0 false)).2 = (spec_all 4 demo_seqs ∅).2 /\
  0 <= rw_bitmap (check_all demo_seqs (RWin 4 0 0 false)).1 < 2 ^ 4.
Proof. split; [done|]. by apply (replay_window_refines 4 (RWin 4 0 0 false) demo_seqs). Defined.

Lemma never_accepted_twice_witness :
  NoDup (accepted_of demo_seqs (check_all demo_seqs (RWin 4 0 0 false)).2).
Proof. by apply (never_accepted_twice 4 (RWin 4 0 0 false) demo_seqs). Defined.
