(* ===== verification/Channel.v ===== *)
(** * The encrypted transport ([SecureChannel] of [memnode/security.py])

    The key schedule, the short authentication string and the channel with its
    send and receive paths.  HKDF-SHA256 and ChaCha20-Poly1305 are parameters
    with the laws their documentation gives. *)
From Stdlib Require Import Strings.Ascii.
From S2P Require Import Prelude Config PyVal Protocol Replay.

(** ** Constants *)

Definition SEQ_LEN : Z := 8.
Definition AEAD_TAG_LEN : Z := 16.

(** An ASCII string as bytes. *)
Definition bytes_of_string (s : string) : bytes := String.list_byte_of_string s.

(** ** The cryptographic primitives

    [hkdf length salt info key] and the AEAD with its associated data. *)

Record crypto := Crypto {
  hkdf : Z -> bytes -> bytes -> bytes -> bytes;
  aead_encrypt : bytes -> bytes -> bytes -> bytes -> result bytes;
  aead_decrypt : bytes -> bytes -> bytes -> bytes -> result bytes
}.

(** HKDF returns as many bytes as asked for; encryption appends a 16-byte tag
    and decryption under the same key, nonce and data undoes it. *)
Class CryptoLaws (c : crypto) : Prop := {
  hkdf_length : forall n salt info key, 0 <= n -> len (hkdf c n salt info key) = n;
  aead_length : forall k n p a ct, aead_encrypt c k n p a = Ok ct -> len ct = len p + AEAD_TAG_LEN;
  aead_roundtrip : forall k n p a ct,
    aead_encrypt c k n p a = Ok ct -> aead_decrypt c k n ct a = Ok p
}.

Section channel.
Context (C : crypto).

(** ** Key derivation *)

Definition _derive_traffic_keys (shared_secret transcript_hash : bytes) : bytes * bytes :=
  let okm := hkdf C 64 transcript_hash (bytes_of_string "memnode-traffic-keys-v1") shared_secret in
  (take 32 okm, drop 32 okm).

Definition _advance_key (key transcript_hash : bytes) (epoch : Z) (direction : bytes) : bytes :=
  hkdf C 32 transcript_hash
    (bytes_of_string "memnode-rekey-v1|" ++ direction ++ bytes_of_string "|"
       ++ bytes_of_string (pretty epoch)) key.

(** [s.zfill(width)] of a string with no sign. *)
Definition zfill (width : Z) (s : string) : string :=
  String.append (String.string_of_list_ascii
    (replicate (Z.to_nat (width - Z.of_nat (String.length s))) "0"%char)) s.

Definition short_authentication_string (transcript_hash : bytes) (digits : Z) : result string :=
  if (digits <? 4) || (digits >? 18)
  then Err (Exn ValueError "SAS digits must be between 4 and 18")
  else
    let okm := hkdf C 8 (bytes_of_string "memnode-sas-v1")
                 (bytes_of_string "short-authentication-string") transcript_hash in
    let value := unpack_be okm mod 10 ^ digits in
    Ok (zfill digits (pretty value)).

(** ** The channel

    [ChaCha20Poly1305(key)] refuses a key that is not 32 bytes; the cipher
    object is its key. *)

Definition ChaCha20Poly1305 (key : bytes) : result bytes :=
  if len key =? 32 then Ok key else Err (lib_exn ValueError).

Record SecureChannel := Chan {
  sc_reader : reader;
  sc_writer : writer;
  sc_transcript_hash : bytes;
  sc_send_key : bytes;
  sc_recv_key : bytes;
  sc_send_cipher : bytes;
  sc_recv_cipher : bytes;
  sc_send_seq : Z;
  sc_send_epoch : Z;
  sc_recv_epoch : Z;
  sc_replay : ReplayWindow;
  sc_rekey_messages : Z;
  sc_rekey_seconds : Z;
  sc_max_epoch_skip : Z;
  sc_last_rekey_at : Z;
  sc_rekeys_sent : Z;
  sc_rekeys_received : Z;
  sc_replays_dropped : Z
}.

Definition SecureChannel_init (rd : reader) (wr : writer) (send_key recv_key t_hash : bytes)
    (window rekey_messages rekey_seconds max_skip now : Z) : result SecureChannel :=
  if rekey_messages <? 1 then Err (Exn ValueError "rekey_interval_messages must be >= 1")
  else
    let? send_cipher := ChaCha20Poly1305 send_key in
    let? recv_cipher := ChaCha20Poly1305 recv_key in
    let? replay := ReplayWindow_init window in
    Ok (Chan rd wr t_hash send_key recv_key send_cipher recv_cipher 0 0 0 replay
          rekey_messages rekey_seconds max_skip now 0 0 0).

(** *** Field updates *)

Definition with_reader (r : reader) (c : SecureChannel) : SecureChannel :=
  Chan r (sc_writer c) (sc_transcript_hash c) (sc_send_key c) (sc_recv_key c)
    (sc_send_cipher c) (sc_recv_cipher c) (sc_send_seq c) (sc_send_epoch c) (sc_recv_epoch c)
    (sc_replay c) (sc_rekey_messages c) (sc_rekey_seconds c) (sc_max_epoch_skip c)
    (sc_last_rekey_at c) (sc_rekeys_sent c) (sc_rekeys_received c) (sc_replays_dropped c).

Definition with_writer (w : writer) (c : SecureChannel) : SecureChannel :=
  Chan (sc_reader c) w (sc_transcript_hash c) (sc_send_key c) (sc_recv_key c)
    (sc_send_cipher c) (sc_recv_cipher c) (sc_send_seq c) (sc_send_epoch c) (sc_recv_epoch c)
    (sc_replay c) (sc_rekey_messages c) (sc_rekey_seconds c) (sc_max_epoch_skip c)
    (sc_last_rekey_at c) (sc_rekeys_sent c) (sc_rekeys_received c) (sc_replays_dropped c).

Definition with_send_seq (seq : Z) (c : SecureChannel) : SecureChannel :=
  Chan (sc_reader c) (sc_writer c) (sc_transcript_hash c) (sc_send_key c) (sc_recv_key c)
    (sc_send_cipher c) (sc_recv_cipher c) seq (sc_send_epoch c) (sc_recv_epoch c)
    (sc_replay c) (sc_rekey_messages c) (sc_rekey_seconds c) (sc_max_epoch_skip c)
    (sc_last_rekey_at c) (sc_rekeys_sent c) (sc_rekeys_received c) (sc_replays_dropped c).

Definition with_send_keys (epoch : Z) (key cipher : bytes) (rekeys : Z) (c : SecureChannel)
    : SecureChannel :=
  Chan (sc_reader c) (sc_writer c) (sc_transcript_hash c) key (sc_recv_key c)
    cipher (sc_recv_cipher c) (sc_send_seq c) epoch (sc_recv_epoch c)
    (sc_replay c) (sc_rekey_messages c) (sc_rekey_seconds c) (sc_max_epoch_skip c)
    (sc_last_rekey_at c) rekeys (sc_rekeys_received c) (sc_replays_dropped c).

Definition with_recv_keys (epoch : Z) (key cipher : bytes) (rekeys : Z) (c : SecureChannel)
    : SecureChannel :=
  Chan (sc_reader c) (sc_writer c) (sc_transcript_hash c) (sc_send_key c) key
    (sc_send_cipher c) cipher (sc_send_seq c) (sc_send_epoch c) epoch
    (sc_replay c) (sc_rekey_messages c) (sc_rekey_seconds c) (sc_max_epoch_skip c)
    (sc_last_rekey_at c) (sc_rekeys_sent c) rekeys (sc_replays_dropped c).

Definition with_last_rekey (t : Z) (c : SecureChannel) : SecureChannel :=
  Chan (sc_reader c) (sc_writer c) (sc_transcript_hash c) (sc_send_key c) (sc_recv_key c)
    (sc_send_cipher c) (sc_recv_cipher c) (sc_send_seq c) (sc_send_epoch c) (sc_recv_epoch c)
    (sc_replay c) (sc_rekey_messages c) (sc_rekey_seconds c) (sc_max_epoch_skip c)
    t (sc_rekeys_sent c) (sc_rekeys_received c) (sc_replays_dropped c).

Definition with_replay (w : ReplayWindow) (dropped : Z) (c : SecureChannel) : SecureChannel :=
  Chan (sc_reader c) (sc_writer c) (sc_transcript_hash c) (sc_send_key c) (sc_recv_key c)
    (sc_send_cipher c) (sc_recv_cipher c) (sc_send_seq c) (sc_send_epoch c) (sc_recv_epoch c)
    w (sc_rekey_messages c) (sc_rekey_seconds c) (sc_max_epoch_skip c)
    (sc_last_rekey_at c) (sc_rekeys_sent c) (sc_rekeys_received c) dropped.

Definition on_reader {A} (m : M reader A) : M SecureChannel A := fun c =>
  let '(r, res) := m (sc_reader c) in (with_reader r c, res).

Definition on_writer {A} (m : M writer A) : M SecureChannel A := fun c =>
  let '(w, res) := m (sc_writer c) in (with_writer w c, res).

(** *** Key schedule *)

Definition _epoch_for (c : SecureChannel) (seq : Z) : Z := seq / sc_rekey_messages c.

(** The body of the [while] of [_advance_send_to], run [n] times. *)
Fixpoint advance_send_steps (n : nat) (c : SecureChannel) : SecureChannel * result unit :=
  match n with
  | O => (c, Ok tt)
  | S n =>
      let epoch := sc_send_epoch c + 1 in
      let key := _advance_key (sc_send_key c) (sc_transcript_hash c) epoch (bytes_of_string "send") in
      match ChaCha20Poly1305 key with
      | Ok cipher => advance_send_steps n (with_send_keys epoch key cipher (sc_rekeys_sent c + 1) c)
      | Err e => (with_send_keys epoch key (sc_send_cipher c) (sc_rekeys_sent c) c, Err e)
      end
  end.

(** The loop runs [epoch - _send_epoch] times: the epoch grows by one each time. *)
Definition _advance_send_to (now epoch : Z) : M SecureChannel unit := fun c =>
  (advance_send_steps (Z.to_nat (epoch - sc_send_epoch c));;;
   mmodify (with_last_rekey now)) c.

Fixpoint advance_recv_steps (n : nat) (c : SecureChannel) : SecureChannel * result unit :=
  match n with
  | O => (c, Ok tt)
  | S n =>
      let epoch := sc_recv_epoch c + 1 in
      let key := _advance_key (sc_recv_key c) (sc_transcript_hash c) epoch (bytes_of_string "send") in
      match ChaCha20Poly1305 key with
      | Ok cipher => advance_recv_steps n (with_recv_keys epoch key cipher (sc_rekeys_received c + 1) c)
      | Err e => (with_recv_keys epoch key (sc_recv_cipher c) (sc_rekeys_received c) c, Err e)
      end
  end.

Definition _advance_recv_to (epoch : Z) : M SecureChannel unit := fun c =>
  if epoch <? sc_recv_epoch c then
    (c, Err (Exn ReplayDetected ("frame from expired key epoch " +:+ pretty epoch
               +:+ " (current " +:+ pretty (sc_recv_epoch c) +:+ ")")))
  else if sc_max_epoch_skip c <? epoch - sc_recv_epoch c then
    (c, Err (Exn ReplayDetected ("peer jumped " +:+ pretty (epoch - sc_recv_epoch c)
               +:+ " key epochs at once (max " +:+ pretty (sc_max_epoch_skip c)
               +:+ ") -- refusing")))
  else advance_recv_steps (Z.to_nat (epoch - sc_recv_epoch c)) c.

Definition _maybe_time_rekey (now : Z) (c : SecureChannel) : SecureChannel :=
  if sc_rekey_seconds c <=? 0 then c
  else if now - sc_last_rekey_at c <? sc_rekey_seconds c then c
  else
    let boundary := (sc_send_epoch c + 1) * sc_rekey_messages c in
    if sc_send_seq c <? boundary then with_send_seq boundary c else c.

Definition _nonce (seq : Z) : result bytes :=
  let? packed := pack_be 8 seq in Ok (replicate 4 Byte.x00 ++ packed).

(** *** Data path: [now1] and [now2] are the clock readings of
    [_maybe_time_rekey] and [_advance_send_to]. *)

Definition send (now1 now2 : Z) (plaintext : bytes) : M SecureChannel unit :=
  mmodify (_maybe_time_rekey now1);;;
  c <- mget;;
  let seq := sc_send_seq c in
  let epoch := _epoch_for c seq in
  (if epoch =? sc_send_epoch c then mret tt else _advance_send_to now2 epoch);;;
  seq_bytes <- mlift (pack_be 8 seq);;
  nonce <- mlift (_nonce seq);;
  c' <- mget;;
  ciphertext <- mlift (aead_encrypt C (sc_send_cipher c') nonce plaintext seq_bytes);;
  on_writer (write_frame (seq_bytes ++ ciphertext));;;
  mmodify (with_send_seq (seq + 1)).

(** One turn of the receive loop: [None] when the frame was dropped. *)
Definition recv_turn : M SecureChannel (option bytes) :=
  frame <- on_reader (read_frame Config.MAX_FRAME_SIZE);;
  if len frame <? SEQ_LEN + AEAD_TAG_LEN
  then mraise (Exn HandshakeFailed "truncated secure frame")
  else
    let seq_bytes := take (Z.to_nat SEQ_LEN) frame in
    let seq := unpack_be seq_bytes in
    let ciphertext := drop (Z.to_nat SEQ_LEN) frame in
    c <- mget;;
    let '(w, fresh) := check_and_update seq (sc_replay c) in
    if negb fresh then
      mmodify (with_replay w (sc_replays_dropped c + 1));;; mret None
    else
      mmodify (with_replay w (sc_replays_dropped c));;;
      _advance_recv_to (_epoch_for c seq);;;
      c' <- mget;;
      mtry (nonce <- mlift (_nonce seq);;
            p <- mlift (aead_decrypt C (sc_recv_cipher c') nonce ciphertext seq_bytes);;
            mret (Some p))
        (fun _ => Some (mraise (Exn HandshakeFailed "frame decryption/authentication failed"))).

Fixpoint recv_loop (fuel : nat) : M SecureChannel bytes :=
  match fuel with
  | O => mraise (lib_exn RuntimeError)
  | S fuel => got <- recv_turn;; match got with Some p => mret p | None => recv_loop fuel end
  end.

(** Every turn that goes on takes a whole frame from the stream, so one turn
    per buffered byte and one for the end of the stream are enough
    ([recv_fuel_enough]). *)
Definition recv : M SecureChannel bytes := fun c =>
  recv_loop (S (length (rd_buf (sc_reader c)))) c.

Section messages.
Context (msgpack : codec).

Definition send_msg (now1 now2 : Z) (m : Message) : M SecureChannel unit :=
  raw <- mlift (encode msgpack m);; send now1 now2 raw.

Definition recv_msg : M SecureChannel Message :=
  raw <- recv;; mlift (decode msgpack raw).
End messages.

(** The [stats] dictionary. *)
Definition stats (c : SecureChannel) : list (string * Z) :=
  [("send_seq", sc_send_seq c); ("send_epoch", sc_send_epoch c);
   ("recv_epoch", sc_recv_epoch c); ("highest_recv_seq", highest (sc_replay c));
   ("rekeys_sent", sc_rekeys_sent c); ("rekeys_received", sc_rekeys_received c);
   ("replays_dropped", sc_replays_dropped c)].

Definition close (c : SecureChannel) : SecureChannel :=
  with_writer (Writer (wr_out (sc_writer c)) (wr_lost (sc_writer c)) true) c.
End channel.

(** A channel is made from 32-byte keys, a window and an interval of at least
    one, and holds what it was given. *)
Lemma SecureChannel_init_inv rd wr ks kr th win n secs skip now c :
  SecureChannel_init rd wr ks kr th win n secs skip now = Ok c ->
  c = Chan rd wr th ks kr ks kr 0 0 0 (RWin win 0 0 false) n secs skip now 0 0 0 /\
  len ks = 32 /\ len kr = 32 /\ 1 <= n /\ 1 <= win.
Proof.
  unfold SecureChannel_init, ChaCha20Poly1305, ReplayWindow_init. zcase; [done|].
  repeat (zcase; cbn [result_bind]; try done). intros [= <-]. split_and!; (done || lia).
Qed.

Lemma SecureChannel_init_ok rd wr ks kr th win n secs skip now :
  len ks = 32 -> len kr = 32 -> 1 <= n -> 1 <= win ->
  SecureChannel_init rd wr ks kr th win n secs skip now
    = Ok (Chan rd wr th ks kr ks kr 0 0 0 (RWin win 0 0 false) n secs skip now 0 0 0).
Proof.
  intros H1 H2 H3 H4. unfold SecureChannel_init, ChaCha20Poly1305, ReplayWindow_init.
  rewrite H1, H2. zcase; [lia|]. cbn [Z.eqb Pos.eqb result_bind]. zcase; [lia|done].
Qed.
