(* ===== verification/ChannelFacts.v ===== *)
(** * Facts about the encrypted transport

    The invariants of the two directions of a [SecureChannel], what one [send]
    and one turn of [recv] do, and that the fuel of [recv] is enough. *)
From S2P Require Import Prelude Config PyVal Protocol Replay Channel.

(** The bytes of a secure frame, and the nonce of a sequence number. *)
Definition seq_bytes (seq : Z) : bytes := be_bytes 8 seq.
Definition nonce_of (seq : Z) : bytes := replicate 4 Byte.x00 ++ seq_bytes seq.

Definition is_seq (seq : Z) : Prop := 0 <= seq < 2 ^ 64.

#[global] Instance is_seq_dec seq : Decision (is_seq seq).
Proof. unfold is_seq. solve_decision. Defined.

Lemma pack_seq seq :
  pack_be 8 seq = if decide (is_seq seq) then Ok (seq_bytes seq) else Err (lib_exn StructError).
Proof.
  unfold pack_be, is_seq. change (256 ^ Z.of_nat 8) with (2 ^ 64).
  destruct (decide _), (Z.leb_spec 0 seq), (Z.ltb_spec seq (2 ^ 64)); simpl; (done || lia).
Qed.

Lemma nonce_seq seq : is_seq seq -> _nonce seq = Ok (nonce_of seq).
Proof. intros. unfold _nonce. rewrite pack_seq. by rewrite decide_True. Qed.

Lemma seq_bytes_length seq : length (seq_bytes seq) = 8%nat.
Proof. apply length_be_bytes. Qed.

Lemma unpack_seq_bytes seq : is_seq seq -> unpack_be (seq_bytes seq) = seq.
Proof. intros. apply unpack_be_bytes. by change (256 ^ Z.of_nat 8) with (2 ^ 64). Qed.

Lemma nonce_inj s1 s2 : is_seq s1 -> is_seq s2 -> nonce_of s1 = nonce_of s2 -> s1 = s2.
Proof.
  intros H1 H2 Heq. apply app_inv_head in Heq.
  rewrite <-(unpack_seq_bytes s1), <-(unpack_seq_bytes s2) by done. by rewrite Heq.
Qed.

(** The eight bytes in front of any frame are a sequence number, and packing
    it gives them back. *)
Lemma unpack_is_seq (b : bytes) : length b = 8%nat -> is_seq (unpack_be b).
Proof.
  intros Hb. split; [apply unpack_be_nonneg|].
  pose proof (unpack_be_lt b). unfold len in *. by rewrite Hb in *.
Qed.

Section facts.
Context (C : crypto) `{!CryptoLaws C}.

(** ** The key chain *)

Fixpoint key_at (base t_hash : bytes) (n : nat) : bytes :=
  match n with
  | O => base
  | S n => _advance_key C (key_at base t_hash n) t_hash (Z.of_nat n + 1) (bytes_of_string "send")
  end.

(** The key for a sequence number. *)
Definition key_for (base t_hash : bytes) (interval seq : Z) : bytes :=
  key_at base t_hash (Z.to_nat (seq / interval)).

Lemma advance_key_length key t_hash epoch d : len (_advance_key C key t_hash epoch d) = 32.
Proof. by apply hkdf_length. Qed.

Lemma cipher_ok key : len key = 32 -> ChaCha20Poly1305 key = Ok key.
Proof. intros H. unfold ChaCha20Poly1305. by rewrite H. Qed.

(** ** The sending side

    The key is the one of the current epoch, and the next sequence number
    belongs to the current epoch or is the first of the next one. *)

Record SendInv (base : bytes) (c : SecureChannel) : Prop := {
  si_interval : 1 <= sc_rekey_messages c;
  si_epoch : 0 <= sc_send_epoch c;
  si_key : sc_send_key c = key_at base (sc_transcript_hash c) (Z.to_nat (sc_send_epoch c));
  si_cipher : sc_send_cipher c = sc_send_key c;
  si_seq : sc_send_epoch c * sc_rekey_messages c <= sc_send_seq c
             <= (sc_send_epoch c + 1) * sc_rekey_messages c
}.

(** The parts of the channel a send leaves alone. *)
Definition send_frame_of (c c' : SecureChannel) : Prop :=
  sc_transcript_hash c' = sc_transcript_hash c /\
  sc_rekey_messages c' = sc_rekey_messages c /\
  wr_lost (sc_writer c') = wr_lost (sc_writer c).

Lemma advance_send_steps_eq n base c :
  0 <= sc_send_epoch c ->
  sc_send_key c = key_at base (sc_transcript_hash c) (Z.to_nat (sc_send_epoch c)) ->
  sc_send_cipher c = sc_send_key c ->
  advance_send_steps C n c =
    (with_send_keys (sc_send_epoch c + Z.of_nat n)
       (key_at base (sc_transcript_hash c) (Z.to_nat (sc_send_epoch c + Z.of_nat n)))
       (key_at base (sc_transcript_hash c) (Z.to_nat (sc_send_epoch c + Z.of_nat n)))
       (sc_rekeys_sent c + Z.of_nat n) c, Ok tt).
Proof.
  revert c. induction n as [|n IH]; intros c He Hk Hc.
  - simpl. rewrite !Z.add_0_r, <-Hk. f_equal. destruct c; cbn in *. by subst.
  - cbn [advance_send_steps]. rewrite cipher_ok by apply advance_key_length.
    rewrite Hk. rewrite IH; cbn; [|lia| |done].
    + replace (sc_send_epoch c + 1 + Z.of_nat n) with (sc_send_epoch c + Z.of_nat (S n)) by lia.
      replace (sc_rekeys_sent c + 1 + Z.of_nat n) with (sc_rekeys_sent c + Z.of_nat (S n)) by lia.
      done.
    + rewrite Z2Nat.inj_add, Nat.add_1_r by lia. cbn [key_at]. by rewrite Z2Nat.id.
Qed.

(** The part of [send] after the key schedule. *)
Definition transmit (seq : Z) (plaintext : bytes) : M SecureChannel unit :=
  sb <- mlift (pack_be 8 seq);;
  nonce <- mlift (_nonce seq);;
  c' <- mget;;
  ciphertext <- mlift (aead_encrypt C (sc_send_cipher c') nonce plaintext sb);;
  on_writer (write_frame (sb ++ ciphertext));;;
  mmodify (with_send_seq (seq + 1)).

(** What holds when the key schedule is done: the key is the one of [seq]. *)
Record Ready (base : bytes) (seq : Z) (c : SecureChannel) : Prop := {
  rdy_interval : 1 <= sc_rekey_messages c;
  rdy_seq : sc_send_seq c = seq;
  rdy_nonneg : 0 <= seq;
  rdy_epoch : sc_send_epoch c = seq / sc_rekey_messages c;
  rdy_cipher : sc_send_cipher c = key_for base (sc_transcript_hash c) (sc_rekey_messages c) seq;
  rdy_key : sc_send_key c = sc_send_cipher c
}.

Lemma Ready_SendInv base seq c : Ready base seq c -> SendInv base c.
Proof.
  intros [Hi Hs Hn He Hc Hk]. split; rewrite ?He, ?Hs; try done.
  - by apply Z.div_pos; lia.
  - by rewrite Hk, Hc.
  - pose proof (Z.mul_div_le seq (sc_rekey_messages c) ltac:(lia)).
    pose proof (Z.mul_succ_div_gt seq (sc_rekey_messages c) ltac:(lia)). nia.
Qed.

Lemma Ready_next base seq c :
  Ready base seq c -> SendInv base (with_send_seq (seq + 1) c).
Proof.
  intros [Hi Hs Hn He Hc Hk]. split; cbn; rewrite ?He; try done.
  - by apply Z.div_pos; lia.
  - by rewrite Hk, Hc.
  - pose proof (Z.mul_div_le seq (sc_rekey_messages c) ltac:(lia)).
    pose proof (Z.mul_succ_div_gt seq (sc_rekey_messages c) ltac:(lia)). nia.
Qed.

(** The key schedule of a send: the sequence number never goes back, and the
    epoch moves by at most one. *)
Lemma send_prepare base now1 now2 p c :
  SendInv base c ->
  exists seq c1, send C now1 now2 p c = transmit seq p c1 /\ Ready base seq c1 /\
    sc_send_seq c <= seq /\ send_frame_of c c1 /\ sc_writer c1 = sc_writer c /\
    sc_send_epoch c <= sc_send_epoch c1 <= sc_send_epoch c + 1.
Proof.
  intros [Hi He Hk Hc Hs]. set (n := sc_rekey_messages c) in *.
  set (c0 := _maybe_time_rekey now1 c). set (seq := sc_send_seq c0).
  assert (sc_send_seq c <= seq <= (sc_send_epoch c + 1) * n) as Hseq.
  { unfold seq, c0, _maybe_time_rekey. fold n. repeat zcase; cbn; lia. }
  assert (sc_rekey_messages c0 = n /\ sc_send_epoch c0 = sc_send_epoch c /\
          sc_transcript_hash c0 = sc_transcript_hash c /\ sc_send_key c0 = sc_send_key c /\
          sc_send_cipher c0 = sc_send_cipher c /\ sc_writer c0 = sc_writer c)
    as (Hn & He0 & Ht0 & Hk0 & Hc0 & Hw0).
  { unfold c0, _maybe_time_rekey. repeat zcase; done. }
  assert (sc_send_epoch c <= seq / n <= sc_send_epoch c + 1) as Hep.
  { split; [apply Z.div_le_lower_bound; nia|].
    apply Z.lt_succ_r. apply Z.div_lt_upper_bound; nia. }
  assert (0 <= seq) by nia.
  exists seq. unfold send. mrun. fold c0 seq. unfold _epoch_for. rewrite Hn.
  destruct (Z.eqb_spec (seq / n) (sc_send_epoch c0)) as [Heq|Hne].
  - exists c0. split; [by rewrite (bind_ok _ _ _ c0 tt)|]. split.
    { split; rewrite ?Hn; try done; [by rewrite Hc0, Ht0, Hc, Hk; unfold key_for; rewrite Heq, He0|].
      by rewrite Hk0, Hc0. }
    unfold send_frame_of. rewrite Hw0. split_and!; try done; lia.
  - set (k := key_at base (sc_transcript_hash c) (Z.to_nat (seq / n))).
    set (c1 := with_last_rekey now2 (with_send_keys (seq / n) k k
                 (sc_rekeys_sent c0 + Z.of_nat (Z.to_nat (seq / n - sc_send_epoch c0))) c0)).
    assert (_advance_send_to C now2 (seq / n) c0 = (c1, Ok tt)) as Hadv.
    { unfold _advance_send_to.
      rewrite (bind_ok _ _ _ _ _ (advance_send_steps_eq _ base c0
                 ltac:(lia) ltac:(by rewrite Hk0, Ht0, He0) ltac:(congruence))).
      unfold c1, k. rewrite Ht0. rewrite Z2Nat.id by lia.
      by replace (sc_send_epoch c0 + (seq / n - sc_send_epoch c0)) with (seq / n) by lia. }
    exists c1. split; [by rewrite (bind_ok _ _ _ _ _ Hadv)|].
    split; [|unfold send_frame_of; cbn; rewrite Hw0; split_and!; try done; lia].
    split; cbn; rewrite ?Hn, ?Ht0; done.
Qed.

(** A frame on the wire: its sequence number, and its ciphertext under the key
    of that number. *)
Definition sealed (base t_hash : bytes) (interval seq : Z) (p ct : bytes) : Prop :=
  aead_encrypt C (key_for base t_hash interval seq) (nonce_of seq) p (seq_bytes seq) = Ok ct.

Definition wire (seq : Z) (ct : bytes) : bytes := frame (seq_bytes seq ++ ct).

Lemma transmit_ok base seq p c c' :
  Ready base seq c -> transmit seq p c = (c', Ok tt) ->
  exists ct, is_seq seq /\ sealed base (sc_transcript_hash c) (sc_rekey_messages c) seq p ct /\
    len (seq_bytes seq ++ ct) <= Config.MAX_FRAME_SIZE /\
    c' = with_send_seq (seq + 1)
           (with_writer (Writer (wr_out (sc_writer c) ++ wire seq ct) false
                           (wr_closed (sc_writer c))) c) /\ wr_lost (sc_writer c) = false.
Proof.
  intros Hr Ht. unfold transmit in Ht.
  apply bind_ok_inv in Ht as (s1 & sb & Hp & Ht). unfold mlift in Hp. rewrite pack_seq in Hp.
  destruct (decide (is_seq seq)) as [His|]; [|done]. simplify_eq.
  rewrite nonce_seq in Ht by done. mrun_in Ht.
  apply bind_ok_inv in Ht as (s2 & ct & Henc & Ht). unfold mlift in Henc.
  injection Henc as <- Henc. rewrite (rdy_cipher _ _ _ Hr) in Henc.
  apply bind_ok_inv in Ht as (s3 & [] & Hw & Ht). unfold on_writer in Hw.
  destruct (write_frame _ _) as [w' [[]|e]] eqn:Hwf; simplify_eq.
  apply write_frame_inv in Hwf as (Hlen & Hlost & ->).
  injection Ht as <-. exists ct. done.
Qed.

(** On a live transport a transmission that fails sends nothing and keeps the
    sequence number for the next one. *)
Lemma transmit_err base seq p c c' e :
  Ready base seq c -> wr_lost (sc_writer c) = false -> transmit seq p c = (c', Err e) -> c' = c.
Proof.
  intros Hr Hl. unfold transmit, mbind_m, mlift, mget, on_writer.
  repeat (case_match; simplify_eq/=; try done).
  all: intros; simplify_eq; try done.
  match goal with H : write_frame _ _ = _ |- _ => apply write_frame_err in H; [|done] end.
  subst. by destruct c.
Qed.

(** One send, whatever its outcome, on a live transport. *)
Lemma send_spec base now1 now2 p c c' r :
  SendInv base c -> wr_lost (sc_writer c) = false -> send C now1 now2 p c = (c', r) ->
  SendInv base c' /\ send_frame_of c c' /\ sc_send_seq c <= sc_send_seq c' /\
  match r with
  | Err _ => wr_out (sc_writer c') = wr_out (sc_writer c)
  | Ok _ => exists seq ct, is_seq seq /\ sc_send_seq c <= seq /\ sc_send_seq c' = seq + 1 /\
      sealed base (sc_transcript_hash c) (sc_rekey_messages c) seq p ct /\
      len (seq_bytes seq ++ ct) <= Config.MAX_FRAME_SIZE /\
      wr_out (sc_writer c') = wr_out (sc_writer c) ++ wire seq ct /\
      sc_send_epoch c' = seq / sc_rekey_messages c /\
      sc_send_epoch c <= sc_send_epoch c' <= sc_send_epoch c + 1
  end.
Proof.
  intros Hi Hl Hs. destruct (send_prepare base now1 now2 p c Hi)
    as (seq & c1 & Heq & Hr & Hge & (Ht & Hn & Hl1) & Hw & Hep).
  rewrite Heq in Hs. destruct r as [[]|e].
  - apply (transmit_ok base) in Hs as (ct & His & Hseal & Hlen & -> & _); [|done].
    split; [by apply (Ready_next base seq c1) in Hr; destruct Hr; split|].
    unfold send_frame_of. cbn. rewrite Hw, Hl. split_and!; try done; [lia|].
    exists seq, ct. rewrite <-Ht, <-Hn. split_and!; try done; try lia. apply Hr.
  - apply (transmit_err base) in Hs as ->; [|done|congruence].
    split; [by eapply Ready_SendInv|]. unfold send_frame_of. rewrite Hw.
    split_and!; try done. by rewrite (rdy_seq _ _ _ Hr).
Qed.

(** ** The receiving side *)

Record RecvInv (base : bytes) (accepted : gset Z) (c : SecureChannel) : Prop := {
  ri_interval : 1 <= sc_rekey_messages c;
  ri_epoch : 0 <= sc_recv_epoch c;
  ri_key : sc_recv_key c = key_at base (sc_transcript_hash c) (Z.to_nat (sc_recv_epoch c));
  ri_cipher : sc_recv_cipher c = sc_recv_key c;
  ri_window : WRep (sc_replay c) accepted
}.

Lemma advance_recv_steps_eq n base c :
  0 <= sc_recv_epoch c ->
  sc_recv_key c = key_at base (sc_transcript_hash c) (Z.to_nat (sc_recv_epoch c)) ->
  sc_recv_cipher c = sc_recv_key c ->
  advance_recv_steps C n c =
    (with_recv_keys (sc_recv_epoch c + Z.of_nat n)
       (key_at base (sc_transcript_hash c) (Z.to_nat (sc_recv_epoch c + Z.of_nat n)))
       (key_at base (sc_transcript_hash c) (Z.to_nat (sc_recv_epoch c + Z.of_nat n)))
       (sc_rekeys_received c + Z.of_nat n) c, Ok tt).
Proof.
  revert c. induction n as [|n IH]; intros c He Hk Hc.
  - simpl. rewrite !Z.add_0_r, <-Hk. f_equal. destruct c; cbn in *. by subst.
  - cbn [advance_recv_steps]. rewrite cipher_ok by apply advance_key_length.
    rewrite Hk. rewrite IH; cbn; [|lia| |done].
    + replace (sc_recv_epoch c + 1 + Z.of_nat n) with (sc_recv_epoch c + Z.of_nat (S n)) by lia.
      replace (sc_rekeys_received c + 1 + Z.of_nat n)
        with (sc_rekeys_received c + Z.of_nat (S n)) by lia.
      done.
    + rewrite Z2Nat.inj_add, Nat.add_1_r by lia. cbn [key_at]. by rewrite Z2Nat.id.
Qed.

(** The channel after the receive keys moved to [epoch]. *)
Definition at_epoch (base : bytes) (epoch : Z) (c : SecureChannel) : SecureChannel :=
  let k := key_at base (sc_transcript_hash c) (Z.to_nat epoch) in
  with_recv_keys epoch k k (sc_rekeys_received c + (epoch - sc_recv_epoch c)) c.

Lemma advance_recv_ok base accepted epoch c :
  RecvInv base accepted c ->
  sc_recv_epoch c <= epoch <= sc_recv_epoch c + sc_max_epoch_skip c ->
  _advance_recv_to C epoch c = (at_epoch base epoch c, Ok tt).
Proof.
  intros [_ He Hk Hc _] Hep. unfold _advance_recv_to, at_epoch. zcase; [lia|]. zcase; [lia|].
  rewrite (advance_recv_steps_eq _ base) by done. rewrite Z2Nat.id by lia.
  by replace (sc_recv_epoch c + (epoch - sc_recv_epoch c)) with epoch by lia.
Qed.

(** Otherwise the frame is refused and nothing changes. *)
Lemma advance_recv_err epoch c :
  ~ sc_recv_epoch c <= epoch <= sc_recv_epoch c + sc_max_epoch_skip c ->
  exists m, _advance_recv_to C epoch c = (c, Err (Exn ReplayDetected m)).
Proof.
  intros Hep. unfold _advance_recv_to. zcase; [by eexists|]. zcase; [by eexists|]. lia.
Qed.

(** A turn of the loop on a frame that was read. *)
Definition turn_body (f : bytes) : M SecureChannel (option bytes) :=
  if len f <? SEQ_LEN + AEAD_TAG_LEN
  then mraise (Exn HandshakeFailed "truncated secure frame")
  else
    let sb := take (Z.to_nat SEQ_LEN) f in
    let seq := unpack_be sb in
    let ciphertext := drop (Z.to_nat SEQ_LEN) f in
    c <- mget;;
    let '(w, fresh) := check_and_update seq (sc_replay c) in
    if negb fresh then
      mmodify (with_replay w (sc_replays_dropped c + 1));;; mret None
    else
      mmodify (with_replay w (sc_replays_dropped c));;;
      _advance_recv_to C (_epoch_for c seq);;;
      c' <- mget;;
      mtry (nonce <- mlift (_nonce seq);;
            p <- mlift (aead_decrypt C (sc_recv_cipher c') nonce ciphertext sb);;
            mret (Some p))
        (fun _ => Some (mraise (Exn HandshakeFailed "frame decryption/authentication failed"))).

Lemma recv_turn_split c :
  recv_turn C c = mbind_m (on_reader (read_frame Config.MAX_FRAME_SIZE)) turn_body c.
Proof. done. Qed.

Lemma take_seq_length (f : bytes) :
  SEQ_LEN + AEAD_TAG_LEN <= len f -> length (take (Z.to_nat SEQ_LEN) f) = 8%nat.
Proof. unfold SEQ_LEN, AEAD_TAG_LEN, len. intros. rewrite length_take. lia. Qed.

(** A frame the window refuses is dropped. *)
Lemma turn_drop base accepted f c :
  RecvInv base accepted c -> SEQ_LEN + AEAD_TAG_LEN <= len f ->
  ~ fresh (rw_size (sc_replay c)) (unpack_be (take (Z.to_nat SEQ_LEN) f)) accepted ->
  turn_body f c = (with_replay (sc_replay c) (sc_replays_dropped c + 1) c, Ok None).
Proof.
  intros Hi Hlen Hf. unfold turn_body. zcase; [lia|]. mrun.
  pose proof (check_refines _ _ (unpack_be (take (Z.to_nat SEQ_LEN) f)) (ri_window _ _ _ Hi)) as Hc.
  pose proof (check_false (unpack_be (take (Z.to_nat SEQ_LEN) f)) (sc_replay c)) as Hsame.
  unfold spec_step in Hc. rewrite decide_False in Hc by done.
  destruct (check_and_update _ _) as [w b]. destruct Hc as (-> & _ & _).
  cbn [negb]. mrun. by rewrite (Hsame w eq_refl).
Qed.

(** A frame the window takes is decrypted with the key of its number, or ends
    the channel. *)
Lemma turn_fresh base accepted f c :
  let sb := take (Z.to_nat SEQ_LEN) f in
  let seq := unpack_be sb in
  let epoch := seq / sc_rekey_messages c in
  RecvInv base accepted c -> SEQ_LEN + AEAD_TAG_LEN <= len f ->
  fresh (rw_size (sc_replay c)) seq accepted ->
  exists w, WRep w ({[seq]} ∪ accepted) /\ rw_size w = rw_size (sc_replay c) /\
    let c1 := with_replay w (sc_replays_dropped c) c in
    if decide (sc_recv_epoch c <= epoch <= sc_recv_epoch c + sc_max_epoch_skip c) then
      turn_body f c = (at_epoch base epoch c1,
        match aead_decrypt C (key_for base (sc_transcript_hash c) (sc_rekey_messages c) seq)
                (nonce_of seq) (drop (Z.to_nat SEQ_LEN) f) sb with
        | Ok p => Ok (Some p)
        | Err _ => Err (Exn HandshakeFailed "frame decryption/authentication failed")
        end)
    else exists m, turn_body f c = (c1, Err (Exn ReplayDetected m)).
Proof.
  intros sb seq epoch Hi Hlen Hf. unfold turn_body. zcase; [lia|]. fold sb seq.
  pose proof (unpack_is_seq sb (take_seq_length f Hlen)) as His.
  pose proof (check_refines _ _ seq (ri_window _ _ _ Hi)) as Hc.
  unfold spec_step in Hc. rewrite decide_True in Hc by done. rewrite bind_get.
  destruct (check_and_update seq (sc_replay c)) as [w b]. destruct Hc as (-> & Hw & Hsz).
  exists w. split; [done|]. split; [done|]. cbv zeta. cbn [negb]. rewrite bind_modify.
  set (c1 := with_replay w (sc_replays_dropped c) c).
  assert (RecvInv base ({[seq]} ∪ accepted) c1) as Hi1 by (destruct Hi; by split).
  change (_epoch_for c seq) with epoch.
  destruct (decide _) as [Hep|Hep].
  - rewrite (bind_ok _ _ _ _ _ (advance_recv_ok base _ epoch c1 Hi1 Hep)).
    rewrite bind_get. unfold mtry. rewrite nonce_seq by done. rewrite bind_lift_ok.
    cbn [at_epoch sc_recv_cipher with_recv_keys]. unfold key_for. fold epoch.
    change (sc_transcript_hash c1) with (sc_transcript_hash c).
    by destruct (aead_decrypt _ _ _ _ _).
  - destruct (advance_recv_err epoch c1 Hep) as [m Hm]. exists m.
    by rewrite (bind_err _ _ _ _ _ Hm).
Qed.
End facts.
