(* ===== verification/ChannelSpec.v ===== *)
(** * What the encrypted transport promises

    Delivery in order, nonces used once, replays dropped without harm, every
    delivered message fresh and authenticated, bounded work per frame, and the
    form of the short authentication string. *)
From Stdlib Require Import Strings.Ascii.
From S2P Require Import Prelude Config PyVal Protocol Replay Channel ChannelFacts.

(** ** Runs *)

Section runs.
Context (C : crypto).

(** A caller that sends messages one after the other and goes on after a
    failure; every message comes with its two clock readings. *)
Fixpoint send_each (msgs : list (Z * Z * bytes)) : M SecureChannel (list (result unit)) :=
  match msgs with
  | [] => mret []
  | (now1, now2, p) :: msgs => fun c =>
      let '(c1, r) := send C now1 now2 p c in
      (rs <- send_each msgs;; mret (r :: rs)) c1
  end.

(** Sends that all succeed, and receives that all succeed. *)
Fixpoint send_all (msgs : list (Z * Z * bytes)) : M SecureChannel unit :=
  match msgs with
  | [] => mret tt
  | (now1, now2, p) :: msgs => send C now1 now2 p;;; send_all msgs
  end.

Fixpoint recv_n (n : nat) : M SecureChannel (list bytes) :=
  match n with
  | O => mret []
  | S n => p <- recv C;; ps <- recv_n n;; mret (p :: ps)
  end.
End runs.

Section spec.
Context (C : crypto) `{!CryptoLaws C}.

(** What receiving leaves alone. *)
Definition recv_frame_of (c c' : SecureChannel) : Prop :=
  sc_transcript_hash c' = sc_transcript_hash c /\
  sc_rekey_messages c' = sc_rekey_messages c /\
  sc_max_epoch_skip c' = sc_max_epoch_skip c /\
  rw_size (sc_replay c') = rw_size (sc_replay c) /\
  sc_send_seq c' = sc_send_seq c /\ sc_writer c' = sc_writer c.

Lemma recv_frame_trans c1 c2 c3 :
  recv_frame_of c1 c2 -> recv_frame_of c2 c3 -> recv_frame_of c1 c3.
Proof. unfold recv_frame_of. intuition congruence. Qed.

(** [p] came authenticated under the key and nonce of [seq]. *)
Definition opened (base t_hash : bytes) (interval seq : Z) (p : bytes) : Prop :=
  exists ct, aead_decrypt C (key_for C base t_hash interval seq) (nonce_of seq) ct (seq_bytes seq)
    = Ok p.

(** ** One turn *)

Lemma turn_spec base accepted f c c' r :
  RecvInv C base accepted c -> turn_body C f c = (c', r) ->
  recv_frame_of c c' /\ sc_reader c' = sc_reader c /\
  0 <= sc_rekeys_received c' - sc_rekeys_received c <= Z.max 0 (sc_max_epoch_skip c) /\
  match r with
  | Ok None => RecvInv C base accepted c' /\ sc_rekeys_received c' = sc_rekeys_received c
  | Ok (Some p) => exists seq, fresh (rw_size (sc_replay c)) seq accepted /\
      RecvInv C base ({[seq]} ∪ accepted) c' /\
      opened base (sc_transcript_hash c) (sc_rekey_messages c) seq p /\
      sc_recv_epoch c' = seq / sc_rekey_messages c
  | Err _ => True
  end.
Proof.
  intros Hi Ht. destruct (Z.ltb_spec (len f) (SEQ_LEN + AEAD_TAG_LEN)) as [Hs|Hlen].
  { unfold turn_body in Ht. rewrite (proj2 (Z.ltb_lt _ _) Hs) in Ht.
    injection Ht as <- <-. unfold recv_frame_of. split_and!; (done || lia). }
  set (seq := unpack_be (take (Z.to_nat SEQ_LEN) f)).
  destruct (decide (fresh (rw_size (sc_replay c)) seq accepted)) as [Hf|Hf].
  - destruct (turn_fresh C base accepted f c Hi Hlen Hf) as (w & Hw & Hsz & Hcase).
    cbv zeta in Hcase. fold seq in Hcase, Hw.
    destruct (decide _) as [Hep|Hep].
    + rewrite Hcase in Ht. injection Ht as <- Hr. unfold recv_frame_of. cbn.
      split_and!; try done; [lia|lia|]. subst r.
      destruct (aead_decrypt _ _ _ _ _) as [p|e] eqn:Hdec; [|done].
      exists seq. split; [done|]. destruct Hi as [H1 H2 H3 H4 H5].
      split; [split; cbn; try done; by apply Z.le_trans with (sc_recv_epoch c); lia|].
      split; [|done]. exists (drop (Z.to_nat SEQ_LEN) f).
      assert (seq_bytes seq = take (Z.to_nat SEQ_LEN) f) as ->; [|done].
      unfold seq, seq_bytes. by rewrite <-(take_seq_length f Hlen), be_bytes_unpack.
    + destruct Hcase as [m Hm]. rewrite Hm in Ht. injection Ht as <- <-.
      unfold recv_frame_of. cbn. split_and!; (done || lia).
  - rewrite (turn_drop C base accepted f c Hi Hlen Hf) in Ht. injection Ht as <- <-.
    unfold recv_frame_of. cbn. split_and!; try (done || lia). destruct Hi. by split.
Qed.

Lemma on_reader_inv {A} (m : M reader A) c c' r :
  on_reader m c = (c', r) ->
  exists rd, m (sc_reader c) = (rd, r) /\ c' = with_reader rd c.
Proof. unfold on_reader. destruct (m (sc_reader c)) as [rd r']. intros [= <- <-]. by eexists. Qed.

Lemma RecvInv_reader base accepted rd c :
  RecvInv C base accepted c -> RecvInv C base accepted (with_reader rd c).
Proof. intros []. by split. Qed.

Lemma turn_none f c c' : turn_body C f c = (c', Ok None) -> sc_reader c' = sc_reader c.
Proof.
  unfold turn_body. case_match; [done|]. mrun.
  destruct (check_and_update _ _) as [w []]; cbn [negb]; mrun; [|by intros [= <-]].
  unfold mbind_m at 1. destruct (_advance_recv_to _ _ _) as [c1 [[]|e]]; [|done].
  rewrite bind_get. unfold mtry, mbind_m, mlift, mret. by repeat case_match; intros; simplify_eq.
Qed.

(** A turn that goes on consumed a frame. *)
Lemma recv_turn_consumes c c' :
  recv_turn C c = (c', Ok None) ->
  (length (rd_buf (sc_reader c')) + 4 <= length (rd_buf (sc_reader c)))%nat.
Proof.
  rewrite recv_turn_split. intros (c1 & f & (rd & Hrd & ->)%on_reader_inv & Ht)%bind_ok_inv.
  rewrite (turn_none _ _ _ Ht). by apply read_frame_consumes in Hrd.
Qed.

(** The fuel of [recv] is enough: more turns change nothing. *)
Lemma recv_fuel_enough n m c :
  (length (rd_buf (sc_reader c)) < n)%nat -> (length (rd_buf (sc_reader c)) < m)%nat ->
  recv_loop C n c = recv_loop C m c.
Proof.
  revert m c. induction n as [|n IH]; intros [|m] c Hn Hm; try lia.
  cbn [recv_loop]. unfold mbind_m. destruct (recv_turn C c) as [c' [[p|]|e]] eqn:Ht; try done.
  apply recv_turn_consumes in Ht. apply IH; lia.
Qed.

(** ** One receive *)

Lemma recv_loop_spec n base accepted c c' r :
  RecvInv C base accepted c -> recv_loop C n c = (c', r) ->
  recv_frame_of c c' /\
  0 <= sc_rekeys_received c' - sc_rekeys_received c <= Z.max 0 (sc_max_epoch_skip c) /\
  match r with
  | Ok p => exists seq, fresh (rw_size (sc_replay c)) seq accepted /\
      RecvInv C base ({[seq]} ∪ accepted) c' /\
      opened base (sc_transcript_hash c) (sc_rekey_messages c) seq p
  | Err _ => True
  end.
Proof.
  revert c. induction n as [|n IH]; intros c Hi Hr.
  { injection Hr as <- <-. unfold recv_frame_of. split_and!; (done || lia). }
  cbn [recv_loop] in Hr. unfold mbind_m in Hr at 1. rewrite recv_turn_split in Hr.
  unfold mbind_m in Hr at 1.
  destruct (on_reader _ c) as [c1 [f|e]] eqn:Hrd.
  2:{ injection Hr as <- <-. apply on_reader_inv in Hrd as (rd & _ & ->).
      unfold recv_frame_of. cbn. split_and!; (done || lia). }
  apply on_reader_inv in Hrd as (rd & _ & ->).
  destruct (turn_body C f (with_reader rd c)) as [c2 r2] eqn:Ht.
  apply (turn_spec base accepted) in Ht as (Hfr & Hrd2 & Hk & Hres); [|by apply RecvInv_reader].
  destruct r2 as [[p|]|e].
  - injection Hr as <- <-. destruct Hres as (seq & Hf & Hi2 & Ho & _).
    split; [done|]. split; [done|]. by exists seq.
  - destruct Hres as [Hi2 Hk2]. destruct (IH c2 Hi2 Hr) as (Hfr2 & Hk3 & Hres).
    assert (recv_frame_of c c2) as Hfrc by done.
    destruct Hfrc as (E1 & E2 & E3 & E4 & _). rewrite E1, E2, E4 in Hres. rewrite E3 in Hk3.
    split; [by eapply recv_frame_trans|]. split; [cbn in *; lia|done].
  - injection Hr as <- <-. split; [done|]. by split.
Qed.

Lemma recv_spec base accepted c c' r :
  RecvInv C base accepted c -> recv C c = (c', r) ->
  recv_frame_of c c' /\
  0 <= sc_rekeys_received c' - sc_rekeys_received c <= Z.max 0 (sc_max_epoch_skip c) /\
  match r with
  | Ok p => exists seq, fresh (rw_size (sc_replay c)) seq accepted /\
      RecvInv C base ({[seq]} ∪ accepted) c' /\
      opened base (sc_transcript_hash c) (sc_rekey_messages c) seq p
  | Err _ => True
  end.
Proof. apply recv_loop_spec. Qed.

Lemma recv_n_spec n base accepted c c' ps :
  RecvInv C base accepted c -> recv_n C n c = (c', Ok ps) ->
  exists seqs, NoDup seqs /\ (forall s, s ∈ seqs -> s ∉ accepted) /\
    Forall2 (opened base (sc_transcript_hash c) (sc_rekey_messages c)) seqs ps.
Proof.
  revert accepted c ps. induction n as [|n IH]; intros accepted c ps Hi Hr.
  { injection Hr as <- <-. exists []. split; [constructor|]. split; [set_solver|constructor]. }
  cbn [recv_n] in Hr. apply bind_ok_inv in Hr as (c1 & p & Hp & Hr).
  apply bind_ok_inv in Hr as (c2 & ps' & Hps & Hr). injection Hr as <- <-.
  apply (recv_spec base accepted) in Hp as ((E1 & E2 & _) & _ & seq & (_ & Hn & _) & Hi1 & Ho); [|done].
  destruct (IH _ _ _ Hi1 Hps) as (seqs & Hnd & Hnew & Hall). rewrite E1, E2 in Hall.
  exists (seq :: seqs). split; [constructor; [set_solver|done]|].
  split; [set_solver|]. by constructor.
Qed.
End spec.

(** ** Two ends in step

    The receiver has accepted only numbers below the sender's next one, and is
    at the sender's epoch. *)

Section sync.
Context (C : crypto) `{!CryptoLaws C}.

Record Synced (base : bytes) (accepted : gset Z) (s r : SecureChannel) : Prop := {
  sy_send : SendInv C base s;
  sy_recv : RecvInv C base accepted r;
  sy_hash : sc_transcript_hash r = sc_transcript_hash s;
  sy_interval : sc_rekey_messages r = sc_rekey_messages s;
  sy_skip : 1 <= sc_max_epoch_skip r;
  sy_epoch : sc_recv_epoch r = sc_send_epoch s;
  sy_below : forall a, a ∈ accepted -> a < sc_send_seq s;
  sy_live : wr_lost (sc_writer s) = false
}.

Lemma Synced_reader base accepted s r rd :
  Synced base accepted s r -> Synced base accepted s (with_reader rd r).
Proof. intros []. split; try done. by apply RecvInv_reader. Qed.

Lemma init_inv rd wr ks kr th win n secs skip now c :
  SecureChannel_init rd wr ks kr th win n secs skip now = Ok c ->
  SendInv C ks c /\ RecvInv C kr ∅ c /\ sc_reader c = rd /\ sc_writer c = wr /\
  sc_transcript_hash c = th /\ sc_rekey_messages c = n /\ sc_max_epoch_skip c = skip /\
  sc_send_epoch c = 0 /\ sc_recv_epoch c = 0 /\ sc_send_seq c = 0 /\
  rw_size (sc_replay c) = win /\ sc_send_key c = ks /\ sc_recv_key c = kr.
Proof.
  intros (-> & _ & _ & Hn & Hw)%SecureChannel_init_inv.
  assert (WRep (RWin win 0 0 false) ∅) by (apply (WRep_init win); unfold ReplayWindow_init; zcase; [lia|done]).
  cbn. split_and!; try done; split; cbn; (done || lia).
Qed.

Lemma recv_first base accepted f rest req c w :
  RecvInv C base accepted c -> sc_reader c = Reader (frame f ++ rest) req ->
  len f <= Config.MAX_FRAME_SIZE ->
  forall p, turn_body C f (with_reader (Reader rest (req ++ frame_requests f)) c) = (w, Ok (Some p)) ->
  recv C c = (w, Ok p).
Proof.
  intros Hi Hrd Hlen p Ht. unfold recv. cbn [recv_loop]. unfold mbind_m at 1.
  rewrite recv_turn_split. erewrite bind_ok; [rewrite Ht; done|].
  unfold on_reader. rewrite Hrd, read_frame_of_frame by done. done.
Qed.

(** One message across: sent, received, and the two ends in step again. *)
Lemma deliver_one base accepted s r now1 now2 p s' sent rest :
  Synced base accepted s r -> send C now1 now2 p s = (s', Ok tt) ->
  wr_out (sc_writer s') = wr_out (sc_writer s) ++ sent ->
  rd_buf (sc_reader r) = sent ++ rest ->
  exists r' accepted', recv C r = (r', Ok p) /\ rd_buf (sc_reader r') = rest /\
    Synced base accepted' s' r'.
Proof.
  intros Hsy Hsend Hout Hbuf. pose proof Hsy as [Hs Hr Hth Hn Hskip Hep Hbelow Hlive].
  destruct (send_spec C base _ _ _ _ _ _ Hs Hlive Hsend)
    as (Hs' & (Eth & En & Elost) & _ & seq & ct & His & Hge & Hseq' & Hseal & Hlen & Hw & Hep' & Hstep).
  assert (sent = wire seq ct) as -> by (rewrite Hw in Hout; by apply app_inv_head in Hout).
  destruct (sc_reader r) as [buf req] eqn:Hrd. cbn in Hbuf. subst buf.
  set (f := seq_bytes seq ++ ct) in *.
  set (r0 := with_reader (Reader rest (req ++ frame_requests f)) r).
  pose proof (RecvInv_reader C base accepted (Reader rest (req ++ frame_requests f)) r Hr) as Hr0.
  fold r0 in Hr0.
  assert (take (Z.to_nat SEQ_LEN) f = seq_bytes seq) as Htake.
  { unfold f. rewrite take_app_le, take_ge by (rewrite seq_bytes_length; done). done. }
  assert (drop (Z.to_nat SEQ_LEN) f = ct) as Hdrop.
  { unfold f. rewrite drop_app_ge by (by rewrite seq_bytes_length).
    by rewrite seq_bytes_length, drop_0. }
  assert (SEQ_LEN + AEAD_TAG_LEN <= len f) as Hmin.
  { unfold f. rewrite len_app, (aead_length _ _ _ _ _ Hseal). unfold len at 1.
    rewrite seq_bytes_length. pose proof (len_nonneg p). unfold SEQ_LEN, AEAD_TAG_LEN. lia. }
  pose proof (turn_fresh C base accepted f r0 Hr0 Hmin) as Hturn.
  rewrite Htake, Hdrop, unpack_seq_bytes in Hturn by done. cbv zeta in Hturn.
  cbn [r0 with_reader sc_replay sc_transcript_hash sc_rekey_messages sc_recv_epoch
       sc_max_epoch_skip sc_replays_dropped] in Hturn.
  destruct Hturn as (w & Hw' & Hsz & Hturn).
  { split; [done|]. pose proof (wr_size _ _ (ri_window _ _ _ _ Hr)).
    split; [intros Ha; specialize (Hbelow _ Ha); lia|].
    intros a Ha. specialize (Hbelow _ Ha). cbn. lia. }
  rewrite Hth, Hn, Hep, <-Hep' in Hturn. rewrite decide_True in Hturn by lia.
  rewrite (aead_roundtrip _ _ _ _ _ Hseal) in Hturn.
  eexists _, ({[seq]} ∪ accepted).
  split; [by apply (recv_first base accepted f rest req)|]. split; [done|].
  destruct Hr as [I1 I2 I3 I4 I5]. pose proof (si_epoch _ _ _ Hs).
  split; cbn; try done; try congruence.
  - split; cbn; try done; lia.
  - intros a [Ha%elem_of_singleton|Ha]%elem_of_union; [lia|]. specialize (Hbelow _ Ha). lia.
Qed.

Lemma send_all_grows base msgs s s' :
  SendInv C base s -> wr_lost (sc_writer s) = false -> send_all C msgs s = (s', Ok tt) ->
  exists sent, wr_out (sc_writer s') = wr_out (sc_writer s) ++ sent.
Proof.
  revert s. induction msgs as [|[[now1 now2] p] msgs IH]; intros s Hi Hl Hs.
  { injection Hs as <-. exists []. by rewrite app_nil_r. }
  apply bind_ok_inv in Hs as (s1 & [] & H1 & H2).
  destruct (send_spec C base _ _ _ _ _ _ Hi Hl H1)
    as (Hi1 & (_ & _ & El) & _ & seq & ct & _ & _ & _ & _ & _ & Hw & _).
  destruct (IH s1 Hi1 ltac:(congruence) H2) as [sent Hsent].
  exists (wire seq ct ++ sent). by rewrite Hsent, Hw, (assoc_L app).
Qed.

Lemma deliver_all base msgs accepted s r s' sent rest :
  Synced base accepted s r -> send_all C msgs s = (s', Ok tt) ->
  wr_out (sc_writer s') = wr_out (sc_writer s) ++ sent ->
  rd_buf (sc_reader r) = sent ++ rest ->
  exists r' accepted', recv_n C (length msgs) r = (r', Ok (msgs.*2)) /\
    rd_buf (sc_reader r') = rest /\ Synced base accepted' s' r'.
Proof.
  revert accepted s r sent. induction msgs as [|[[now1 now2] p] msgs IH];
    intros accepted s r sent Hsy Hs Hout Hbuf.
  { injection Hs as <-. rewrite <-(app_nil_r (wr_out _)) in Hout at 1.
    apply app_inv_head in Hout as <-. by exists r, accepted. }
  apply bind_ok_inv in Hs as (s1 & [] & H1 & H2).
  destruct (send_spec C base _ _ _ _ _ _ (sy_send _ _ _ _ Hsy) (sy_live _ _ _ _ Hsy) H1)
    as (Hi1 & (_ & _ & El) & _ & seq & ct & _ & _ & _ & _ & _ & Hw & _).
  destruct (send_all_grows base msgs s1 s' Hi1) as [tail Htail];
    [rewrite El; by apply (sy_live _ _ _ _ Hsy)|done|].
  assert (sent = wire seq ct ++ tail) as ->.
  { rewrite Htail, Hw, <-(assoc_L app) in Hout. by apply app_inv_head in Hout. }
  rewrite <-(assoc_L app) in Hbuf.
  destruct (deliver_one _ _ _ _ _ _ _ _ _ _ Hsy H1 Hw Hbuf) as (r1 & acc1 & Hr1 & Hb1 & Hsy1).
  destruct (IH acc1 s1 r1 tail Hsy1 H2 Htail Hb1) as (r' & acc' & Hrn & Hb & Hsy').
  exists r', acc'. split; [|done]. cbn [length recv_n fmap list_fmap].
  rewrite (bind_ok _ _ _ _ _ Hr1). by rewrite (bind_ok _ _ _ _ _ Hrn).
Qed.

(** The frames a sender puts on the wire, in order. *)
Definition wire_all (sent : list (Z * bytes)) : bytes := concat ((fun sc => wire sc.1 sc.2) <$> sent).

Lemma send_each_log base msgs s s' rs :
  SendInv C base s -> wr_lost (sc_writer s) = false -> send_each C msgs s = (s', Ok rs) ->
  exists sent, wr_out (sc_writer s') = wr_out (sc_writer s) ++ wire_all sent /\
    length sent = length (filter (fun r : result unit => r = Ok tt) rs) /\
    StronglySorted Z.lt (fst <$> sent) /\
    Forall (fun sc => sc_send_seq s <= sc.1 /\ is_seq sc.1 /\ exists p,
      sealed C base (sc_transcript_hash s) (sc_rekey_messages s) sc.1 p sc.2) sent.
Proof.
  revert s rs. induction msgs as [|[[now1 now2] p] msgs IH]; intros s rs Hi Hl Hs.
  { injection Hs as <- <-. exists []. rewrite app_nil_r. repeat constructor. }
  cbn [send_each] in Hs. destruct (send C now1 now2 p s) as [s1 r] eqn:H1.
  apply bind_ok_inv in Hs as (s2 & rs' & H2 & Hret). injection Hret as <- <-.
  destruct (send_spec C base _ _ _ _ _ _ Hi Hl H1) as (Hi1 & (Eth & En & El) & Hmono & Hr).
  destruct (IH s1 rs' Hi1 ltac:(congruence) H2) as (sent & Hout & Hcount & Hsort & Hall).
  rewrite Eth, En in Hall. destruct r as [[]|e].
  - destruct Hr as (seq & ct & His & Hge & Hseq & Hseal & _ & Hw & _).
    exists ((seq, ct) :: sent). unfold wire_all in *. cbn [fmap list_fmap concat fst snd].
    rewrite filter_cons_True by done. cbn [length]. rewrite Hcount.
    split; [by rewrite Hout, Hw, (assoc_L app)|]. split; [done|]. split.
    + constructor; [done|]. apply Forall_fmap. eapply Forall_impl; [apply Hall|].
      intros sc (? & _). cbn. lia.
    + constructor; [by split_and!; [|destruct His..|exists p]|].
      eapply Forall_impl; [apply Hall|]. intros sc (? & ? & ?). split_and!; try done. lia.
  - exists sent. rewrite filter_cons_False by done. split_and!; try done; [congruence|].
    eapply Forall_impl; [apply Hall|]. intros sc (? & ? & ?). split_and!; try done. lia.
Qed.

Lemma sorted_nonces l :
  StronglySorted Z.lt l -> Forall is_seq l -> NoDup (nonce_of <$> l).
Proof.
  induction 1 as [|x l Hs IH Hx]; intros Hl; [constructor|]. inversion Hl; subst.
  constructor; [|by apply IH]. intros (y & Heq & Hy)%list_elem_of_fmap.
  rewrite Forall_forall in Hx, H2. specialize (Hx y Hy).
  apply nonce_inj in Heq; [lia|done|by apply H2].
Qed.

(** Frames the window refuses are skipped one by one. *)
Lemma drop_one base accepted f rest req c :
  RecvInv C base accepted c -> sc_reader c = Reader (frame f ++ rest) req ->
  SEQ_LEN + AEAD_TAG_LEN <= len f <= Config.MAX_FRAME_SIZE ->
  ~ fresh (rw_size (sc_replay c)) (unpack_be (take (Z.to_nat SEQ_LEN) f)) accepted ->
  recv C c = recv C (with_replay (sc_replay c) (sc_replays_dropped c + 1)
                       (with_reader (Reader rest (req ++ frame_requests f)) c)).
Proof.
  intros Hi Hrd Hlen Hf. unfold recv at 1. cbn [recv_loop]. unfold mbind_m at 1.
  rewrite recv_turn_split. erewrite bind_ok.
  2:{ unfold on_reader. rewrite Hrd, read_frame_of_frame by lia. done. }
  rewrite (turn_drop C base accepted) by (done || lia || by apply RecvInv_reader).
  cbv beta iota. unfold recv. apply recv_fuel_enough; cbn [rd_buf sc_reader with_replay with_reader]; [|lia].
  rewrite Hrd. cbn. rewrite length_app.
  pose proof (len_frame f). unfold len in *. lia.
Qed.
End sync.

(** ** Decimal strings *)

Definition is_digit (c : ascii) : Prop := (48 <= nat_of_ascii c <= 57)%nat.

Definition digits_only (s : string) : Prop := Forall is_digit (String.list_ascii_of_string s).

(** The number a string of digits denotes, after the digits worth [acc]. *)
Fixpoint dec_value (acc : Z) (s : string) : Z :=
  match s with
  | String.EmptyString => acc
  | String.String c s => dec_value (acc * 10 + (Z.of_nat (nat_of_ascii c) - 48)) s
  end.

Lemma pretty_digit x :
  (x < 10)%N -> is_digit (pretty_N_char x) /\
  Z.of_nat (nat_of_ascii (pretty_N_char x)) - 48 = Z.of_N x.
Proof.
  intros Hx.
  assert (x = 0 \/ x = 1 \/ x = 2 \/ x = 3 \/ x = 4 \/ x = 5 \/ x = 6 \/ x = 7 \/ x = 8 \/ x = 9)%N
    as Hcases by lia.
  clear Hx. unfold is_digit. repeat destruct Hcases as [->|Hcases]; [..|subst x].
  all: split; [|done]; vm_compute nat_of_ascii; lia.
Qed.

Lemma pretty_go_spec k x s :
  (Z.of_N x < 10 ^ Z.of_nat k) -> digits_only s ->
  digits_only (pretty_N_go x s) /\
  (String.length (pretty_N_go x s) <= k + String.length s)%nat /\
  dec_value 0 (pretty_N_go x s) = dec_value (Z.of_N x) s.
Proof.
  revert x s. induction k as [|k IH]; intros x s Hx Hs.
  { assert (x = 0%N) as -> by (simpl in Hx; lia). rewrite pretty_N_go_0. split_and!; [done|lia|done]. }
  destruct (decide (x = 0%N)) as [->|Hne].
  { rewrite pretty_N_go_0. split_and!; [done|lia|done]. }
  rewrite pretty_N_go_step by lia.
  pose proof (N.mod_lt x 10 ltac:(lia)) as Hm. destruct (pretty_digit _ Hm) as [Hd Hv].
  rewrite Nat2Z.inj_succ, Z.pow_succ_r in Hx by lia.
  pose proof (N.div_mod x 10 ltac:(lia)) as Hdm.
  destruct (IH (x / 10)%N (String.String (pretty_N_char (x mod 10)) s)) as (H1 & H2 & H3).
  - rewrite N2Z.inj_div. apply Z.div_lt_upper_bound; lia.
  - by constructor.
  - split_and!; [done|simpl in H2; lia|]. rewrite H3. cbn [dec_value]. rewrite Hv.
    f_equal. lia.
Qed.

(** [str(z)] of a number of at most [k] digits. *)
Lemma pretty_spec k z :
  (0 < k)%nat -> 0 <= z < 10 ^ Z.of_nat k ->
  digits_only (pretty z) /\ (String.length (pretty z) <= k)%nat /\ dec_value 0 (pretty z) = z.
Proof.
  intros Hk Hz. destruct z as [|p|p]; [|..|lia].
  - split_and!; [|simpl; lia|done]. repeat constructor; vm_compute; lia.
  - destruct (pretty_go_spec k (N.pos p) "") as (H1 & H2 & H3); [simpl; lia|constructor|].
    change (pretty (Z.pos p)) with (pretty_N_go (N.pos p) "").
    split_and!; [done| |done]. simpl in H2. lia.
Qed.

Lemma list_ascii_app s1 s2 :
  String.list_ascii_of_string (s1 +:+ s2)
    = String.list_ascii_of_string s1 ++ String.list_ascii_of_string s2.
Proof. induction s1 as [|c s1 IH]; [done|]. simpl. by rewrite IH. Qed.

Lemma zeros_spec n s :
  digits_only s ->
  let z := String.string_of_list_ascii (replicate n "0"%char) in
  digits_only (z +:+ s) /\ String.length (z +:+ s) = (n + String.length s)%nat /\
  dec_value 0 (z +:+ s) = dec_value 0 s.
Proof.
  intros Hs. induction n as [|n IH]; [done|]. cbn in *. destruct IH as (H1 & H2 & H3).
  split_and!; [|by apply (f_equal S)|done]. constructor; [|done]. unfold is_digit. vm_compute. lia.
Qed.

Section sas.
Context (C : crypto) `{!CryptoLaws C}.

(** The short authentication string is refused outside 4 to 18 digits, and
    otherwise is exactly [digits] decimal digits: the 64-bit number HKDF makes
    of the transcript hash, modulo [10^digits], so two ends that hold the same
    transcript read the same code and the code says nothing else. *)
Theorem sas_shape t_hash digits :
  match short_authentication_string C t_hash digits with
  | Ok s => 4 <= digits <= 18 /\ Z.of_nat (String.length s) = digits /\ digits_only s /\
      dec_value 0 s = unpack_be (hkdf C 8 (bytes_of_string "memnode-sas-v1")
        (bytes_of_string "short-authentication-string") t_hash) mod 10 ^ digits
  | Err e => ~ 4 <= digits <= 18 /\ exn_cls e = ValueError
  end.
Proof.
  unfold short_authentication_string.
  destruct (Z.ltb_spec digits 4), (Z.gtb_spec digits 18); cbn [orb]; try (split; [lia|done]).
  set (v := unpack_be _ mod _). split; [lia|].
  assert (0 <= v < 10 ^ digits) as Hv by (apply Z.mod_pos_bound; apply Z.pow_pos_nonneg; lia).
  destruct (pretty_spec (Z.to_nat digits) v) as (H1 & H2 & H3); [lia|by rewrite Z2Nat.id by lia|].
  unfold zfill. destruct (zeros_spec (Z.to_nat (digits - Z.of_nat (String.length (pretty v))))
    (pretty v) H1) as (Z1 & Z2 & Z3).
  split_and!; [|done|by rewrite Z3]. unfold "+:+" in *. rewrite Z2. lia.
Qed.
End sas.

(** ** Properties of the channel *)

Section claims.
Context (C : crypto) `{!CryptoLaws C}.

(** C4: what one end of a fresh pair sends, the other end receives, in order
    and unchanged, across any number of message-count and time-triggered
    rekeys; afterwards both ends hold the same epoch and key, and the bytes
    that follow are untouched. *)
Theorem channel_delivers rd out closed wr req ka kb kb' th win win' n secs secs' skip skip' now now'
    s s' r msgs sent rest :
  SecureChannel_init rd (Writer out false closed) ka kb th win n secs skip now = Ok s ->
  SecureChannel_init (Reader (sent ++ rest) req) wr kb' ka th win' n secs' skip' now' = Ok r ->
  1 <= skip' ->
  send_all C msgs s = (s', Ok tt) ->
  wr_out (sc_writer s') = out ++ sent ->
  exists r', recv_n C (length msgs) r = (r', Ok msgs.*2) /\ rd_buf (sc_reader r') = rest /\
    sc_recv_epoch r' = sc_send_epoch s' /\ sc_recv_key r' = sc_send_key s'.
Proof.
  intros Hs Hr Hskip Hsend Hout.
  destruct (init_inv C _ _ _ _ _ _ _ _ _ _ _ Hs)
    as (Is & _ & _ & Hw & Ht & Hn & _ & Es & _ & _).
  destruct (init_inv C _ _ _ _ _ _ _ _ _ _ _ Hr)
    as (_ & Ir & Hrd & _ & Ht' & Hn' & Hk & _ & Er & _).
  assert (Synced C ka ∅ s r) as Hsy.
  { split; try done; try congruence; try lia; by rewrite Hw. }
  destruct (deliver_all C ka msgs ∅ s r s' sent rest Hsy Hsend) as (r' & acc & Hrn & Hb & Hsy').
  { by rewrite Hw. } { by rewrite Hrd. }
  exists r'. split_and!; [done|done|apply Hsy'|].
  destruct Hsy' as [S1 R1 T1 _ _ E1 _ _].
  by rewrite (ri_key _ _ _ _ R1), (si_key _ _ _ S1), T1, E1.
Qed.

(** C28: on a live transport no nonce is used for two frames under one key,
    also when some sends fail and the caller goes on: the frames on the wire
    carry strictly increasing sequence numbers, each sealed under the key of
    its own epoch with the nonce of its own number. *)
Theorem nonces_used_once base msgs s s' rs :
  SendInv C base s -> wr_lost (sc_writer s) = false -> send_each C msgs s = (s', Ok rs) ->
  exists sent, wr_out (sc_writer s') = wr_out (sc_writer s) ++ wire_all sent /\
    length sent = length (filter (fun r : result unit => r = Ok tt) rs) /\
    StronglySorted Z.lt (fst <$> sent) /\ NoDup (nonce_of <$> (fst <$> sent)) /\
    Forall (fun sc => exists p,
      sealed C base (sc_transcript_hash s) (sc_rekey_messages s) sc.1 p sc.2) sent.
Proof.
  intros Hi Hl Hs. destruct (send_each_log C base msgs s s' rs Hi Hl Hs)
    as (sent & H1 & H2 & H3 & H4).
  exists sent. split_and!; try done.
  - apply sorted_nonces; [done|]. apply Forall_fmap. eapply Forall_impl; [apply H4|]. naive_solver.
  - eapply Forall_impl; [apply H4|]. naive_solver.
Qed.

(** Replayed or too-old frames, any number of them, are skipped without
    ending the channel: receiving goes on exactly as if they had not been sent,
    with the drop counter moved. *)
Theorem replays_are_skipped base accepted fs rest req c :
  RecvInv C base accepted c ->
  sc_reader c = Reader (concat (frame <$> fs) ++ rest) req ->
  Forall (fun f : bytes => SEQ_LEN + AEAD_TAG_LEN <= len f <= Config.MAX_FRAME_SIZE /\
    ~ fresh (rw_size (sc_replay c)) (unpack_be (take (Z.to_nat SEQ_LEN) f)) accepted) fs ->
  recv C c = recv C (with_replay (sc_replay c) (sc_replays_dropped c + len fs)
    (with_reader (Reader rest (req ++ concat (frame_requests <$> fs))) c)).
Proof.
  revert req c. induction fs as [|f fs IH]; intros req c Hi Hrd Hf.
  { cbn. rewrite app_nil_r, len_nil, Z.add_0_r. destruct c; cbn in *. by subst. }
  inversion Hf as [|? ? [Hlen Hold] Hfs]; subst. cbn [fmap list_fmap concat] in Hrd.
  rewrite <-(assoc_L app) in Hrd.
  rewrite (drop_one C base accepted f _ req c Hi Hrd Hlen Hold).
  rewrite (IH (req ++ frame_requests f)); [|by destruct Hi; split|done|done].
  cbn [fmap list_fmap concat]. rewrite len_cons, <-(assoc_L app).
  cbn [with_replay with_reader sc_replays_dropped sc_replay]. f_equal. unfold with_replay. cbn.
  by rewrite Z.add_assoc.
Qed.

(** C5: whatever bytes arrive, every message a receiver delivers was
    authenticated under the key and nonce of a sequence number of its own: no
    number is delivered twice, so no recorded frame can be delivered again. *)
Theorem delivered_fresh_once rd wr ks kr th win n secs skip now c k c' ps :
  SecureChannel_init rd wr ks kr th win n secs skip now = Ok c ->
  recv_n C k c = (c', Ok ps) ->
  exists seqs, NoDup seqs /\ Forall2 (opened C kr th n) seqs ps.
Proof.
  intros Hc Hr. destruct (init_inv C _ _ _ _ _ _ _ _ _ _ _ Hc) as (_ & Hi & _ & _ & Ht & Hn & _).
  destruct (recv_n_spec C k kr ∅ c c' ps Hi Hr) as (seqs & Hnd & _ & Hall).
  rewrite Ht, Hn in Hall. by exists seqs.
Qed.

(** One call of [recv] derives at most [max_epoch_skip] keys, whatever
    sequence numbers the peer (or an attacker) puts on its frames, and ends
    after at most one turn per buffered byte: more turns than the bound give
    the same outcome. *)
Theorem recv_work_bounded base accepted c :
  RecvInv C base accepted c ->
  0 <= sc_rekeys_received (state_after (recv C) c) - sc_rekeys_received c
    <= Z.max 0 (sc_max_epoch_skip c) /\
  forall fuel, (length (rd_buf (sc_reader c)) < fuel)%nat -> recv_loop C fuel c = recv C c.
Proof.
  intros Hi. split.
  - unfold state_after. destruct (recv C c) as [c' r] eqn:Hr.
    by apply (recv_spec C base accepted) in Hr as (_ & ? & _).
  - intros fuel Hf. apply recv_fuel_enough; lia.
Qed.

(** A frame that is fresh and inside the replay window but belongs to an
    earlier key epoch is not dropped: it raises [ReplayDetected] out of [recv],
    which ends the connection. *)
Theorem old_epoch_frame_ends_channel base accepted f rest req c :
  let seq := unpack_be (take (Z.to_nat SEQ_LEN) f) in
  RecvInv C base accepted c -> sc_reader c = Reader (frame f ++ rest) req ->
  SEQ_LEN + AEAD_TAG_LEN <= len f <= Config.MAX_FRAME_SIZE ->
  fresh (rw_size (sc_replay c)) seq accepted ->
  seq / sc_rekey_messages c < sc_recv_epoch c ->
  exists m, outcome (recv C) c = Err (Exn ReplayDetected m).
Proof.
  intros seq Hi Hrd Hlen Hf Hep.
  set (c0 := with_reader (Reader rest (req ++ frame_requests f)) c).
  destruct (turn_fresh C base accepted f c0) as (w & _ & _ & Hcase);
    [by apply RecvInv_reader|lia|done|].
  cbv zeta in Hcase. rewrite decide_False in Hcase by (cbn; fold seq; lia).
  destruct Hcase as [m Hm]. exists m. unfold outcome, recv. cbn [recv_loop].
  unfold mbind_m at 1. rewrite recv_turn_split. erewrite bind_ok.
  2:{ unfold on_reader. rewrite Hrd, read_frame_of_frame by lia. done. }
  fold c0. by rewrite Hm.
Qed.
End claims.

(** ** Witnesses: a toy cipher with a checksum for a tag *)

Definition checksum (b : bytes) : Z := zsum (Z_of_byte <$> b).

Definition toy_tag (k n a : bytes) : bytes :=
  replicate 16 (byte_of_Z (checksum k + 3 * checksum n + 7 * checksum a)).

Definition toy_crypto : crypto := {|
  hkdf := fun n salt info key =>
    replicate (Z.to_nat n) (byte_of_Z (checksum salt + checksum info + 5 * checksum key));
  aead_encrypt := fun k n p a => Ok (p ++ toy_tag k n a);
  aead_decrypt := fun k n ct a =>
    let m := (length ct - 16)%nat in
    if decide (drop m ct = toy_tag k n a) then Ok (take m ct) else Err (lib_exn ValueError)
|}.

#[global] Instance toy_crypto_laws : CryptoLaws toy_crypto.
Proof.
  split.
  - intros n salt info key Hn. cbn. unfold len. rewrite length_replicate. lia.
  - intros k n p a ct [= <-]. rewrite len_app. unfold len at 2. done.
  - intros k n p a ct [= <-]. cbn [toy_crypto aead_decrypt].
    assert (length (p ++ toy_tag k n a) - 16 = length p)%nat as ->.
    { rewrite length_app. unfold toy_tag. rewrite length_replicate. lia. }
    rewrite take_app_length, drop_app_length. by rewrite decide_True.
Qed.

Definition key_a : bytes := replicate 32 Byte.x41.
Definition key_b : bytes := replicate 32 Byte.x42.
Definition t_hash0 : bytes := bytes_of_string "transcript".

Definition msg (s : string) : bytes := bytes_of_string s.

(** A channel that rekeys every two messages or every ten ticks. *)
Definition demo_chan (buf : bytes) (ks kr : bytes) : SecureChannel :=
  Chan (Reader buf []) (Writer [] false false) t_hash0 ks kr ks kr 0 0 0 (RWin 8 0 0 false)
    2 10 4 0 0 0 0.

Definition demo_msgs : list (Z * Z * bytes) :=
  [(0, 0, msg "a"); (1, 1, msg "bb"); (2, 2, msg "ccc"); (30, 31, msg "d"); (32, 32, msg "e")].

Definition demo_sender : SecureChannel := demo_chan [] key_a key_b.
Definition demo_sent : bytes := wr_out (sc_writer (state_after (send_all toy_crypto demo_msgs) demo_sender)).

Lemma channel_delivers_witness :
  exists r', recv_n toy_crypto 5 (demo_chan (demo_sent ++ [Byte.x07]) key_b key_a)
      = (r', Ok [msg "a"; msg "bb"; msg "ccc"; msg "d"; msg "e"]) /\
    rd_buf (sc_reader r') = [Byte.x07] /\
    sc_recv_epoch r' = sc_send_epoch (state_after (send_all toy_crypto demo_msgs) demo_sender) /\
    sc_recv_key r' = sc_send_key (state_after (send_all toy_crypto demo_msgs) demo_sender).
Proof.
  apply (channel_delivers toy_crypto (Reader [] []) [] false (Writer [] false false) []
           key_a key_b key_b t_hash0 8 8 2 10 10 4 4 0 0 demo_sender
           (state_after (send_all toy_crypto demo_msgs) demo_sender)
           (demo_chan (demo_sent ++ [Byte.x07]) key_b key_a) demo_msgs demo_sent [Byte.x07]).
  - by vm_compute.
  - by vm_compute.
  - lia.
  - by vm_compute.
  - by vm_compute.
Defined.

Lemma demo_SendInv : SendInv toy_crypto key_a demo_sender.
Proof. split; cbn; (done || lia). Qed.

Lemma nonces_used_once_witness :
  exists sent, wr_out (sc_writer (state_after (send_each toy_crypto demo_msgs) demo_sender))
      = [] ++ wire_all sent /\ length sent = 5%nat /\
    StronglySorted Z.lt (fst <$> sent) /\ NoDup (nonce_of <$> (fst <$> sent)) /\
    Forall (fun sc => exists p, sealed toy_crypto key_a t_hash0 2 sc.1 p sc.2) sent.
Proof.
  apply (nonces_used_once toy_crypto key_a demo_msgs demo_sender
           (state_after (send_each toy_crypto demo_msgs) demo_sender) (replicate 5 (Ok tt))
           demo_SendInv eq_refl).
  by vm_compute.
Defined.

(** What the window has accepted after a run of numbers. *)
Definition accepted_after (seqs : list Z) : gset Z := (spec_all 8 seqs ∅).1.

Lemma demo_window seqs : WRep (check_all seqs (RWin 8 0 0 false)).1 (accepted_after seqs).
Proof. apply (check_all_refines seqs (RWin 8 0 0 false) ∅). by apply (WRep_init 8). Qed.

(** The bodies of the five frames; a receiver that got the first of them, and
    one that got the first and the third. *)
Definition body (i : nat) : bytes :=
  nth i [be_bytes 8 0 ++ msg "a" ++ toy_tag key_a (nonce_of 0) (seq_bytes 0);
         be_bytes 8 1 ++ msg "bb" ++ toy_tag key_a (nonce_of 1) (seq_bytes 1);
         be_bytes 8 2 ++ msg "ccc" ++ toy_tag (key_at toy_crypto key_a t_hash0 1) (nonce_of 2) (seq_bytes 2)] [].

Example demo_bodies : take 90 demo_sent = frame (body 0) ++ frame (body 1) ++ frame (body 2).
Proof. by vm_compute. Qed.

Definition got_one (more : bytes) : SecureChannel :=
  state_after (recv_n toy_crypto 1) (demo_chan (frame (body 0) ++ more) key_b key_a).

Definition got_two (more : bytes) : SecureChannel :=
  state_after (recv_n toy_crypto 2) (demo_chan (frame (body 0) ++ frame (body 2) ++ more) key_b key_a).

Definition replayed : bytes := frame (body 0) ++ frame (body 0) ++ frame (body 1).

Lemma got_one_inv : RecvInv toy_crypto key_a (accepted_after [0]) (got_one replayed).
Proof.
  split; [vm_compute; congruence|vm_compute; congruence|by vm_compute|by vm_compute|].
  assert (sc_replay (got_one replayed) = (check_all [0] (RWin 8 0 0 false)).1) as -> by by vm_compute.
  apply demo_window.
Qed.

Lemma got_two_inv :
  RecvInv toy_crypto key_a (accepted_after [0; 2]) (got_two (frame (body 1))).
Proof.
  split; [vm_compute; congruence|vm_compute; congruence|by vm_compute|by vm_compute|].
  assert (sc_replay (got_two (frame (body 1))) = (check_all [0; 2] (RWin 8 0 0 false)).1) as ->
    by by vm_compute.
  apply demo_window.
Qed.

Lemma replays_are_skipped_witness :
  recv toy_crypto (got_one replayed)
    = recv toy_crypto (with_replay (sc_replay (got_one replayed)) 2
        (with_reader (Reader (frame (body 1)) ([4; 25] ++ [4; 25; 4; 25])) (got_one replayed))).
Proof.
  apply (replays_are_skipped toy_crypto key_a (accepted_after [0]) [body 0; body 0] (frame (body 1))
           [4; 25] (got_one replayed) got_one_inv).
  - by vm_compute.
  - repeat constructor; try (vm_compute; congruence).
    all: apply (bool_decide_eq_false_1 _); by vm_compute.
Defined.

Lemma delivered_fresh_once_witness :
  exists seqs, NoDup seqs /\ Forall2 (opened toy_crypto key_a t_hash0 2) seqs [msg "a"; msg "bb"].
Proof.
  apply (delivered_fresh_once toy_crypto (Reader (frame (body 0) ++ replayed) []) (Writer [] false false)
           key_b key_a t_hash0 8 2 10 4 0 (demo_chan (frame (body 0) ++ replayed) key_b key_a) 2
           (state_after (recv_n toy_crypto 2) (demo_chan (frame (body 0) ++ replayed) key_b key_a)));
    by vm_compute.
Defined.

Lemma recv_work_bounded_witness :
  0 <= sc_rekeys_received (state_after (recv toy_crypto) (got_one replayed))
       - sc_rekeys_received (got_one replayed) <= 4 /\
  forall fuel, (length (rd_buf (sc_reader (got_one replayed))) < fuel)%nat ->
    recv_loop toy_crypto fuel (got_one replayed) = recv toy_crypto (got_one replayed).
Proof. apply (recv_work_bounded toy_crypto key_a _ (got_one replayed) got_one_inv). Defined.

Lemma old_epoch_frame_ends_channel_witness :
  exists m, outcome (recv toy_crypto) (got_two (frame (body 1))) = Err (Exn ReplayDetected m).
Proof.
  apply (old_epoch_frame_ends_channel toy_crypto key_a (accepted_after [0; 2]) (body 1) [] [4; 25; 4; 27]
           (got_two (frame (body 1))) got_two_inv).
  - by vm_compute.
  - vm_compute. split; congruence.
  - apply (bool_decide_eq_true_1 _); by vm_compute.
  - by vm_compute.
Defined.
