(* ===== verification/Handshake.v ===== *)
(** * The peer handshake ([perform_handshake] of [memnode/security.py])

    Hello, Auth and the derivation of the traffic keys, on a connection (a
    stream reader and a writer).  SHA-256, Ed25519, X25519 and msgpack are
    parameters with their documented laws; the random draws are arguments. *)
From S2P Require Import Prelude Config PyVal Protocol Replay Channel ChannelFacts ChannelSpec.

(** ** Primitives *)

Record asym := Asym {
  sha256 : bytes -> bytes;
  ed_public : bytes -> bytes;
  ed_sign : bytes -> bytes -> bytes;
  ed_from_public : bytes -> result bytes;
  ed_verify : bytes -> bytes -> bytes -> bool;
  x_public : bytes -> bytes;
  x_exchange : bytes -> bytes -> result bytes
}.

(** Public keys are 32 bytes and load again; a signature by the key's owner
    verifies; both sides of an exchange get the same secret. *)
Class AsymLaws (K : asym) : Prop := {
  ed_public_length : forall s, len (ed_public K s) = 32;
  ed_public_loads : forall s, ed_from_public K (ed_public K s) = Ok (ed_public K s);
  ed_sign_verifies : forall s m, ed_verify K (ed_public K s) (ed_sign K s m) m = true;
  x_public_length : forall s, len (x_public K s) = 32;
  x_exchange_sym : forall a b, x_exchange K a (x_public K b) = x_exchange K b (x_public K a)
}.

(** ** The connection *)

Record conn := Conn { cn_reader : reader; cn_writer : writer }.

Definition conn_read {A} (m : M reader A) : M conn A := fun c =>
  let '(r, res) := m (cn_reader c) in (Conn r (cn_writer c), res).

Definition conn_write {A} (m : M writer A) : M conn A := fun c =>
  let '(w, res) := m (cn_writer c) in (Conn (cn_reader c) w, res).

(** [writer.close()] *)
Definition conn_close (c : conn) : conn :=
  Conn (cn_reader c) (Writer (wr_out (cn_writer c)) (wr_lost (cn_writer c)) true).

(** [writer.close(); raise HandshakeFailed(why)] *)
Definition refuse {A} (why : string) : M conn A :=
  mmodify conn_close;;; mraise (Exn HandshakeFailed why).

Record PeerInfo := Info {
  pi_name : pyval;
  pi_ram_quota : pyval;
  pi_transcript_hash : bytes;
  pi_sas : string
}.

Section handshake.
Context (C : crypto) (K : asym) (msgpack : codec) (py_str : pyval -> string).

(** [NodeIdentity.public_bytes]: an identity is its private key. *)
Definition public_bytes (signing_key : bytes) : bytes := ed_public K signing_key.

Definition hello_dict (my_nonce eph_pub : bytes) (node_name : string) : pyval :=
  VDict [("nonce", VBytes my_nonce); ("eph_pub", VBytes eph_pub); ("name", VStr node_name);
         ("version", VInt Config.PROTOCOL_VERSION)].

Definition auth_dict (pubkey signature : bytes) (ram_quota : Z) : pyval :=
  VDict [("identity_pubkey", VBytes pubkey); ("signature", VBytes signature);
         ("ram_quota", VInt ram_quota)].

(** Hello: returns our hello, the peer's hello as sent and decoded, and the
    peer's ephemeral key. *)
Definition exchange_hello (my_nonce eph_pub : bytes) (node_name : string)
    : M conn (bytes * bytes * pyval * bytes) :=
  hello <- mlift (c_enc msgpack (hello_dict my_nonce eph_pub node_name));;
  conn_write (write_frame hello);;;
  peer_hello_raw <- conn_read (read_frame Config.MAX_FRAME_SIZE);;
  peer_hello <- mlift (c_dec msgpack peer_hello_raw);;
  peer_version <- mlift (vget "version" peer_hello);;
  if negb (eq_int peer_version Config.PROTOCOL_VERSION) then
    refuse ("protocol version mismatch: peer speaks " +:+ py_str peer_version
              +:+ ", we speak " +:+ pretty Config.PROTOCOL_VERSION)
  else
    peer_nonce <- mlift (vget "nonce" peer_hello);;
    match as_bytes_of (len my_nonce) peer_nonce with
    | None => refuse "peer sent a malformed handshake nonce"
    | Some peer_nonce =>
        if decide (peer_nonce = my_nonce) then
          refuse "peer reflected our own handshake nonce -- refusing"
        else
          peer_eph_raw <- mlift (vget "eph_pub" peer_hello);;
          match as_bytes_of 32 peer_eph_raw with
          | None => refuse "peer sent a malformed ephemeral public key"
          | Some peer_eph =>
              if decide (peer_eph = eph_pub) then
                refuse "peer reflected our own ephemeral key -- refusing"
              else mret (hello, peer_hello_raw, peer_hello, peer_eph)
          end
    end.

(** The transcript hash: initiator's hello first. *)
Definition transcript (is_initiator : bool) (hello peer_hello_raw : bytes) : bytes :=
  sha256 K (if is_initiator then hello ++ peer_hello_raw else peer_hello_raw ++ hello).

(** Auth: returns the peer's identity key and its auth document. *)
Definition exchange_auth (signing_key t_hash : bytes) (ram_quota : Z) : M conn (bytes * pyval) :=
  let my_sig := ed_sign K signing_key t_hash in
  auth <- mlift (c_enc msgpack (auth_dict (public_bytes signing_key) my_sig ram_quota));;
  conn_write (write_frame auth);;;
  peer_auth_raw <- conn_read (read_frame Config.MAX_FRAME_SIZE);;
  peer_auth <- mlift (c_dec msgpack peer_auth_raw);;
  peer_pubkey <- mlift (vget "identity_pubkey" peer_auth);;
  match as_bytes_of 32 peer_pubkey with
  | None => refuse "peer sent a malformed identity public key"
  | Some peer_pubkey =>
      if decide (peer_pubkey = public_bytes signing_key) then
        refuse "peer presented our own identity key -- refusing self/mirror connection"
      else
        peer_pub <- mlift (ed_from_public K peer_pubkey);;
        signature <- mlift (vindex "signature" peer_auth);;
        match signature with
        | VBytes sig =>
            if ed_verify K peer_pub sig t_hash then mret (peer_pubkey, peer_auth)
            else refuse "peer signature over transcript did not verify (possible MITM)"
        | _ => mraise (lib_exn TypeError)
        end
  end.

(** Traffic keys, the channel and what the caller learns of the peer. *)
Definition establish (is_initiator : bool) (now : Z) (eph_priv peer_eph t_hash : bytes)
    (peer_hello peer_auth : pyval) : M conn (SecureChannel * PeerInfo) :=
  shared_secret <- mlift (x_exchange K eph_priv peer_eph);;
  let '(key_a, key_b) := _derive_traffic_keys C shared_secret t_hash in
  let '(send_key, recv_key) := if is_initiator then (key_a, key_b) else (key_b, key_a) in
  c <- mget;;
  channel <- mlift (SecureChannel_init (cn_reader c) (cn_writer c) send_key recv_key t_hash
    Config.REPLAY_WINDOW_SIZE Config.REKEY_INTERVAL_MESSAGES Config.REKEY_INTERVAL_SECONDS
    Config.MAX_REKEY_EPOCH_SKIP now);;
  name <- mlift (vget "name" peer_hello);;
  ram_quota <- mlift (vget_default "ram_quota" (VInt 0) peer_auth);;
  sas <- mlift (short_authentication_string C t_hash Config.SAS_DIGITS);;
  mret (channel, Info name ram_quota t_hash sas).

(** [eph_priv], [my_nonce]: the fresh key and nonce; [now]: the clock when the
    channel is made. *)
Definition perform_handshake (eph_priv my_nonce signing_key : bytes) (node_name : string)
    (ram_quota : Z) (is_initiator : bool) (now : Z) : M conn (SecureChannel * bytes * PeerInfo) :=
  got <- exchange_hello my_nonce (x_public K eph_priv) node_name;;
  let '(hello, peer_hello_raw, peer_hello, peer_eph) := got in
  let t_hash := transcript is_initiator hello peer_hello_raw in
  got <- exchange_auth signing_key t_hash ram_quota;;
  let '(peer_pubkey, peer_auth) := got in
  est <- establish is_initiator now eph_priv peer_eph t_hash peer_hello peer_auth;;
  let '(channel, info) := est in
  mret (channel, peer_pubkey, info).
End handshake.

(** ** Facts *)

Section facts.
Context (C : crypto) (K : asym) (msgpack : codec) (py_str : pyval -> string).

Lemma conn_write_frame p c :
  len p <= Config.MAX_FRAME_SIZE -> wr_lost (cn_writer c) = false ->
  conn_write (write_frame p) c
    = (Conn (cn_reader c) (Writer (wr_out (cn_writer c) ++ frame p) false (wr_closed (cn_writer c))), Ok tt).
Proof.
  destruct c as [r [out lost closed]]. cbn. intros Hp ->. unfold conn_write. cbn.
  by rewrite write_frame_ok.
Qed.

Lemma conn_read_frame p rest req w :
  len p <= Config.MAX_FRAME_SIZE ->
  conn_read (read_frame Config.MAX_FRAME_SIZE) (Conn (Reader (frame p ++ rest) req) w)
    = (Conn (Reader rest (req ++ frame_requests p)) w, Ok p).
Proof. intros Hp. unfold conn_read. cbn [cn_reader cn_writer]. by rewrite read_frame_of_frame. Qed.

Lemma as_bytes_of_ok n b : len b = n -> as_bytes_of n (VBytes b) = Some b.
Proof. intros H. cbn. by rewrite H, Z.eqb_refl. Qed.

Lemma as_bytes_of_inv n v b : as_bytes_of n v = Some b -> v = VBytes b /\ len b = n.
Proof. destruct v; cbn; try done. zcase; [|done]. by intros [= <-]. Qed.

(** A [refuse] never answers. *)
Lemma refuse_ok {A} why c c' (a : A) : refuse why c <> (c', Ok a).
Proof. done. Qed.

(** What the peer must have sent for its hello to be taken. *)
Lemma exchange_hello_ok my_nonce eph_pub name c c' hello raw ph peer_eph :
  exchange_hello msgpack py_str my_nonce eph_pub name c = (c', Ok (hello, raw, ph, peer_eph)) ->
  c_enc msgpack (hello_dict my_nonce eph_pub name) = Ok hello /\ c_dec msgpack raw = Ok ph /\
  exists v peer_nonce, vget "version" ph = Ok v /\ eq_int v Config.PROTOCOL_VERSION = true /\
    vget "nonce" ph = Ok (VBytes peer_nonce) /\ len peer_nonce = len my_nonce /\
    peer_nonce <> my_nonce /\
    vget "eph_pub" ph = Ok (VBytes peer_eph) /\ len peer_eph = 32 /\ peer_eph <> eph_pub.
Proof.
  unfold exchange_hello. intros H.
  apply bind_ok_inv in H as (c1 & h & H1 & H). unfold mlift in H1. simplify_eq.
  apply bind_ok_inv in H as (c2 & u & _ & H).
  apply bind_ok_inv in H as (c3 & raw' & _ & H).
  apply bind_ok_inv in H as (c4 & ph' & H4 & H). apply lift_inv in H4 as [-> H4].
  apply bind_ok_inv in H as (c5 & v & H5 & H). apply lift_inv in H5 as [-> H5].
  destruct (eq_int v Config.PROTOCOL_VERSION) eqn:Hv; cbn [negb] in H; [|by apply refuse_ok in H].
  apply bind_ok_inv in H as (c6 & pn & H6 & H). apply lift_inv in H6 as [-> H6].
  destruct (as_bytes_of _ pn) as [peer_nonce|] eqn:Hn; [|by apply refuse_ok in H].
  apply as_bytes_of_inv in Hn as [-> Hn].
  destruct (decide _) as [|Hne]; [by apply refuse_ok in H|].
  apply bind_ok_inv in H as (c7 & pe & H7 & H). apply lift_inv in H7 as [-> H7].
  destruct (as_bytes_of 32 pe) as [pe'|] eqn:He; [|by apply refuse_ok in H].
  apply as_bytes_of_inv in He as [-> He].
  destruct (decide _) as [|Hne']; [by apply refuse_ok in H|].
  injection H as <- <- <- <- <-. split; [done|]. split; [done|]. by exists v, peer_nonce.
Qed.

Lemma exchange_auth_ok signing_key t_hash quota c c' pk auth :
  exchange_auth K msgpack signing_key t_hash quota c = (c', Ok (pk, auth)) ->
  len pk = 32 /\ pk <> public_bytes K signing_key /\
  exists pub sig, ed_from_public K pk = Ok pub /\ ed_verify K pub sig t_hash = true.
Proof.
  unfold exchange_auth. intros H.
  apply bind_ok_inv in H as (c1 & a & _ & H).
  apply bind_ok_inv in H as (c2 & u & _ & H).
  apply bind_ok_inv in H as (c3 & raw' & _ & H).
  apply bind_ok_inv in H as (c4 & pa & H4 & H). apply lift_inv in H4 as [-> H4].
  apply bind_ok_inv in H as (c5 & v & H5 & H). apply lift_inv in H5 as [-> H5].
  destruct (as_bytes_of 32 v) as [pk'|] eqn:Hk; [|by apply refuse_ok in H].
  apply as_bytes_of_inv in Hk as [-> Hk].
  destruct (decide _) as [|Hne]; [by apply refuse_ok in H|].
  apply bind_ok_inv in H as (c6 & pub & H6 & H). apply lift_inv in H6 as [-> H6].
  apply bind_ok_inv in H as (c7 & sig & H7 & H). apply lift_inv in H7 as [-> H7].
  destruct sig; try done. destruct (ed_verify K pub b t_hash) eqn:Hver; [|by apply refuse_ok in H].
  injection H as <- <- <-. split; [done|]. split; [done|]. by exists pub, b.
Qed.

Lemma establish_ok init now priv peer_eph t_hash ph pa c c' ch info :
  establish C K init now priv peer_eph t_hash ph pa c = (c', Ok (ch, info)) ->
  exists secret, x_exchange K priv peer_eph = Ok secret /\ c' = c /\
    sc_transcript_hash ch = t_hash /\ pi_transcript_hash info = t_hash /\
    short_authentication_string C t_hash Config.SAS_DIGITS = Ok (pi_sas info) /\
    (sc_send_key ch, sc_recv_key ch)
      = (if init then _derive_traffic_keys C secret t_hash
         else ((_derive_traffic_keys C secret t_hash).2, (_derive_traffic_keys C secret t_hash).1)).
Proof.
  unfold establish. intros H.
  apply bind_ok_inv in H as (c1 & secret & H1 & H). apply lift_inv in H1 as [-> H1].
  exists secret. split; [done|].
  destruct (_derive_traffic_keys C secret t_hash) as [ka kb] eqn:Hk.
  assert (exists ks kr, (ks, kr) = (if init then (ka, kb) else (kb, ka)) ) as (ks & kr & Hkk)
    by (destruct init; by eexists _, _). rewrite <-Hkk in H. cbn [fst snd].
  apply bind_ok_inv in H as (c2 & cc & H2 & H). injection H2 as <- <-.
  apply bind_ok_inv in H as (c3 & chan & H3 & H). apply lift_inv in H3 as [-> H3].
  apply bind_ok_inv in H as (c4 & nm & H4 & H). apply lift_inv in H4 as [-> H4].
  apply bind_ok_inv in H as (c5 & q & H5 & H). apply lift_inv in H5 as [-> H5].
  apply bind_ok_inv in H as (c6 & s & H6 & H). apply lift_inv in H6 as [-> H6].
  injection H as <- <- <-.
  apply SecureChannel_init_inv in H3 as [-> _].
  by split_and!.
Qed.
End facts.

(** ** Two honest ends *)

Section honest.
Context (C : crypto) (K : asym) (msgpack : codec) (py_str : pyval -> string) (ok : pyval -> Prop).
Context `{!CryptoLaws C, !AsymLaws K, !CodecLaws msgpack ok}.

(** One end's fixed inputs. *)
Record party := Party {
  p_eph : bytes; p_nonce : bytes; p_key : bytes; p_name : string; p_quota : Z
}.

Definition hello_of (a : party) : pyval := hello_dict (p_nonce a) (x_public K (p_eph a)) (p_name a).
Definition auth_of (a : party) (t_hash : bytes) : pyval :=
  auth_dict (ed_public K (p_key a)) (ed_sign K (p_key a) t_hash) (p_quota a).

Definition run (a : party) (init : bool) (now : Z) : M conn (SecureChannel * bytes * PeerInfo) :=
  perform_handshake C K msgpack py_str (p_eph a) (p_nonce a) (p_key a) (p_name a) (p_quota a) init now.

(** A document that is encoded as [raw] and fits a frame. *)
Definition encodes (v : pyval) (raw : bytes) : Prop :=
  ok v /\ c_enc msgpack v = Ok raw /\ len raw <= Config.MAX_FRAME_SIZE.

Lemma encodes_dec v raw : encodes v raw -> c_dec msgpack raw = Ok v.
Proof. intros (Hok & He & _). by apply (codec_roundtrip v raw). Qed.

(** Two parties that are really two: nothing they draw or hold coincides. *)
Record distinct (a b : party) : Prop := {
  d_nonce_len : len (p_nonce a) = len (p_nonce b);
  d_nonce : p_nonce a <> p_nonce b;
  d_eph : x_public K (p_eph a) <> x_public K (p_eph b);
  d_identity : ed_public K (p_key a) <> ed_public K (p_key b)
}.

Lemma distinct_sym a b : distinct a b -> distinct b a.
Proof. intros []. split; congruence. Qed.

Lemma hello_phase a b ha hb buf req out closed :
  distinct a b -> encodes (hello_of a) ha -> encodes (hello_of b) hb ->
  exchange_hello msgpack py_str (p_nonce a) (x_public K (p_eph a)) (p_name a)
    (Conn (Reader (frame hb ++ buf) req) (Writer out false closed))
  = (Conn (Reader buf (req ++ frame_requests hb)) (Writer (out ++ frame ha) false closed),
     Ok (ha, hb, hello_of b, x_public K (p_eph b))).
Proof.
  intros [Hl Hn He Hi] (_ & Ha & Hla) Hb. pose proof (encodes_dec _ _ Hb) as Hdec.
  destruct Hb as (_ & _ & Hlb). unfold exchange_hello. fold (hello_of a). rewrite Ha. mrun.
  erewrite bind_ok by (by apply conn_write_frame). cbn [cn_reader cn_writer wr_out wr_closed].
  erewrite bind_ok by (by apply conn_read_frame). rewrite Hdec. mrun.
  rewrite (eq_refl : vget "version" (hello_of b) = Ok (VInt Config.PROTOCOL_VERSION)). mrun.
  cbn [eq_int]. rewrite Z.eqb_refl. cbn [negb].
  rewrite (eq_refl : vget "nonce" (hello_of b) = Ok (VBytes (p_nonce b))). mrun.
  rewrite as_bytes_of_ok by done. rewrite decide_False by congruence.
  rewrite (eq_refl : vget "eph_pub" (hello_of b) = Ok (VBytes (x_public K (p_eph b)))). mrun.
  rewrite as_bytes_of_ok by apply x_public_length. by rewrite decide_False by congruence.
Qed.

Lemma auth_phase a b t_hash aa ab buf req out closed :
  distinct a b -> encodes (auth_of a t_hash) aa -> encodes (auth_of b t_hash) ab ->
  exchange_auth K msgpack (p_key a) t_hash (p_quota a)
    (Conn (Reader (frame ab ++ buf) req) (Writer out false closed))
  = (Conn (Reader buf (req ++ frame_requests ab)) (Writer (out ++ frame aa) false closed),
     Ok (ed_public K (p_key b), auth_of b t_hash)).
Proof.
  intros [Hl Hn He Hi] (_ & Ha & Hla) Hb. pose proof (encodes_dec _ _ Hb) as Hdec.
  destruct Hb as (_ & _ & Hlb). unfold exchange_auth, public_bytes. cbv zeta.
  fold (auth_of a t_hash). rewrite Ha. mrun.
  erewrite bind_ok by (by apply conn_write_frame). cbn [cn_reader cn_writer wr_out wr_closed].
  erewrite bind_ok by (by apply conn_read_frame). rewrite Hdec. mrun.
  rewrite (eq_refl : vget "identity_pubkey" (auth_of b t_hash) = Ok (VBytes (ed_public K (p_key b)))).
  mrun. rewrite as_bytes_of_ok by apply ed_public_length. rewrite decide_False by congruence.
  rewrite ed_public_loads. mrun.
  rewrite (eq_refl : vindex "signature" (auth_of b t_hash)
             = Ok (VBytes (ed_sign K (p_key b) t_hash))).
  mrun. by rewrite ed_sign_verifies.
Qed.

Lemma derived_lengths secret t_hash :
  len (_derive_traffic_keys C secret t_hash).1 = 32 /\
  len (_derive_traffic_keys C secret t_hash).2 = 32.
Proof.
  unfold _derive_traffic_keys. cbn [fst snd].
  pose proof (hkdf_length 64 t_hash (bytes_of_string "memnode-traffic-keys-v1") secret) as H.
  unfold len in *. rewrite length_take, length_drop. lia.
Qed.

Lemma establish_phase init now a b t_hash secret c :
  x_exchange K (p_eph a) (x_public K (p_eph b)) = Ok secret ->
  exists ch sas,
    establish C K init now (p_eph a) (x_public K (p_eph b)) t_hash (hello_of b) (auth_of b t_hash) c
      = (c, Ok (ch, Info (VStr (p_name b)) (VInt (p_quota b)) t_hash sas)) /\
    short_authentication_string C t_hash Config.SAS_DIGITS = Ok sas /\
    sc_transcript_hash ch = t_hash /\ sc_reader ch = cn_reader c /\ sc_writer ch = cn_writer c /\
    (sc_send_key ch, sc_recv_key ch)
      = (if init then _derive_traffic_keys C secret t_hash
         else ((_derive_traffic_keys C secret t_hash).2, (_derive_traffic_keys C secret t_hash).1)).
Proof.
  intros Hx. destruct (derived_lengths secret t_hash) as [Hka Hkb]. unfold establish.
  rewrite Hx. mrun. destruct (_derive_traffic_keys C secret t_hash) as [ka kb]. cbn [fst snd] in *.
  destruct init; mrun; rewrite SecureChannel_init_ok by (done || vm_compute; congruence); mrun.
  all: rewrite (eq_refl : vget "name" (hello_of b) = Ok (VStr (p_name b))); mrun.
  all: rewrite (eq_refl : vget_default "ram_quota" (VInt 0) (auth_of b t_hash) = Ok (VInt (p_quota b))); mrun.
  all: destruct (short_authentication_string C t_hash Config.SAS_DIGITS) as [sas|e] eqn:Hsas; [|done].
  all: by eexists _, sas; split_and!.
Qed.

(** The whole run of one end, given what the other end sends. *)
Lemma run_ok a b (init : bool) now ha hb aa ab secret rest req :
  let t_hash := transcript K init ha hb in
  distinct a b -> encodes (hello_of a) ha -> encodes (hello_of b) hb ->
  encodes (auth_of a t_hash) aa -> encodes (auth_of b t_hash) ab ->
  x_exchange K (p_eph a) (x_public K (p_eph b)) = Ok secret ->
  exists c' ch sas, run a init now
      (Conn (Reader (frame hb ++ frame ab ++ rest) req) (Writer [] false false))
      = (c', Ok (ch, ed_public K (p_key b), Info (VStr (p_name b)) (VInt (p_quota b)) t_hash sas)) /\
    cn_writer c' = Writer (frame ha ++ frame aa) false false /\ rd_buf (cn_reader c') = rest /\
    short_authentication_string C t_hash Config.SAS_DIGITS = Ok sas /\
    sc_transcript_hash ch = t_hash /\ sc_reader ch = cn_reader c' /\ sc_writer ch = cn_writer c' /\
    (sc_send_key ch, sc_recv_key ch)
      = (if init then _derive_traffic_keys C secret t_hash
         else ((_derive_traffic_keys C secret t_hash).2, (_derive_traffic_keys C secret t_hash).1)).
Proof.
  intros t_hash Hd Hha Hhb Haa Hab Hx. unfold run, perform_handshake.
  erewrite bind_ok by (by apply hello_phase). cbv beta iota zeta. fold t_hash.
  erewrite bind_ok by (by apply (auth_phase a b)). cbv beta iota.
  set (c0 := Conn _ _).
  destruct (establish_phase init now a b t_hash secret c0 Hx)
    as (ch & sas & He & Hsas & Ht & Hrd & Hwr & Hk).
  rewrite (bind_ok _ _ _ _ _ He). exists c0, ch, sas. by split_and!.
Qed.
End honest.

(** ** Properties *)

Section claims.
Context (C : crypto) (K : asym) (msgpack : codec) (py_str : pyval -> string) (ok : pyval -> Prop).
Context `{!CryptoLaws C, !AsymLaws K, !CodecLaws msgpack ok}.

(** C8: two honest ends complete the handshake with each other: each accepts
    what the other writes, learns the other's identity, name and quota, and
    they end with the same transcript hash, the same short authentication
    string and crossed traffic keys. *)
Theorem handshake_agrees a b now_a now_b ha hb aa ab secret rest_a rest_b req_a req_b :
  let t_hash := transcript K true ha hb in
  distinct K a b ->
  encodes msgpack ok (hello_of K a) ha -> encodes msgpack ok (hello_of K b) hb ->
  encodes msgpack ok (auth_of K a t_hash) aa -> encodes msgpack ok (auth_of K b t_hash) ab ->
  x_exchange K (p_eph a) (x_public K (p_eph b)) = Ok secret ->
  exists ca cb ch_a ch_b sas,
    run C K msgpack py_str a true now_a
      (Conn (Reader (frame hb ++ frame ab ++ rest_a) req_a) (Writer [] false false))
      = (ca, Ok (ch_a, ed_public K (p_key b), Info (VStr (p_name b)) (VInt (p_quota b)) t_hash sas)) /\
    run C K msgpack py_str b false now_b
      (Conn (Reader (frame ha ++ frame aa ++ rest_b) req_b) (Writer [] false false))
      = (cb, Ok (ch_b, ed_public K (p_key a), Info (VStr (p_name a)) (VInt (p_quota a)) t_hash sas)) /\
    wr_out (cn_writer ca) = frame ha ++ frame aa /\
    wr_out (cn_writer cb) = frame hb ++ frame ab /\
    sc_transcript_hash ch_a = sc_transcript_hash ch_b /\
    sc_send_key ch_a = sc_recv_key ch_b /\ sc_recv_key ch_a = sc_send_key ch_b.
Proof.
  intros t_hash Hd Hha Hhb Haa Hab Hx.
  destruct (run_ok C K msgpack py_str ok a b true now_a ha hb aa ab secret rest_a req_a Hd
              Hha Hhb Haa Hab Hx) as (ca & ch_a & sas & Hra & Hwa & _ & Hsa & Hta & _ & _ & Hka).
  rewrite x_exchange_sym in Hx.
  destruct (run_ok C K msgpack py_str ok b a false now_b hb ha ab aa secret rest_b req_b
              (distinct_sym _ _ _ Hd) Hhb Hha Hab Haa Hx)
    as (cb & ch_b & sas' & Hrb & Hwb & _ & Hsb & Htb & _ & _ & Hkb).
  subst t_hash. change (transcript K false hb ha) with (transcript K true ha hb) in *.
  assert (sas' = sas) as -> by congruence.
  destruct (_derive_traffic_keys C secret _) as [k1 k2]. cbn [fst snd] in *.
  exists ca, cb, ch_a, ch_b, sas. rewrite Hwa, Hwb. split_and!; (done || congruence).
Qed.

(** What a run that returns a channel checked. *)
Lemma run_authenticates a init now c c' ch pk info :
  run C K msgpack py_str a init now c = (c', Ok (ch, pk, info)) ->
  exists hello raw ph peer_nonce peer_eph pub sig secret,
    let t_hash := transcript K init hello raw in
    c_enc msgpack (hello_of K a) = Ok hello /\ c_dec msgpack raw = Ok ph /\
    vget "nonce" ph = Ok (VBytes peer_nonce) /\ len peer_nonce = len (p_nonce a) /\
    peer_nonce <> p_nonce a /\
    vget "eph_pub" ph = Ok (VBytes peer_eph) /\ len peer_eph = 32 /\
    peer_eph <> x_public K (p_eph a) /\
    (exists v, vget "version" ph = Ok v /\ eq_int v Config.PROTOCOL_VERSION = true) /\
    len pk = 32 /\ pk <> ed_public K (p_key a) /\
    ed_from_public K pk = Ok pub /\ ed_verify K pub sig t_hash = true /\
    x_exchange K (p_eph a) peer_eph = Ok secret /\
    sc_transcript_hash ch = t_hash /\ pi_transcript_hash info = t_hash /\
    short_authentication_string C t_hash Config.SAS_DIGITS = Ok (pi_sas info) /\
    (sc_send_key ch, sc_recv_key ch)
      = (if init then _derive_traffic_keys C secret t_hash
         else ((_derive_traffic_keys C secret t_hash).2, (_derive_traffic_keys C secret t_hash).1)).
Proof.
  unfold run, perform_handshake. intros H.
  apply bind_ok_inv in H as (c1 & [[[hello raw] ph] peer_eph] & H1 & H).
  apply exchange_hello_ok in H1 as (He & Hd & v & peer_nonce & Hv & Hveq & Hn & Hnl & Hne & Hp & Hpl & Hpe).
  cbv zeta in H. apply bind_ok_inv in H as (c2 & [pk' pa] & H2 & H).
  apply exchange_auth_ok in H2 as (Hkl & Hkn & pub & sig & Hpub & Hver).
  apply bind_ok_inv in H as (c3 & [ch' info'] & H3 & H).
  apply establish_ok in H3 as (secret & Hx & _ & Ht & Hti & Hs & Hk).
  injection H as <- <- <- <-.
  exists hello, raw, ph, peer_nonce, peer_eph, pub, sig, secret.
  split_and!; try done. by exists v.
Qed.

(** C7: the handshake never returns a channel to an unauthenticated peer: the
    peer's hello had our version, a nonce and an ephemeral key of its own, and
    the returned identity key, which is not ours, verified a signature over
    the hash of exactly the two hellos; the channel and the short
    authentication string are bound to that hash. *)
Theorem handshake_authenticates a init now c c' ch pk info :
  run C K msgpack py_str a init now c = (c', Ok (ch, pk, info)) ->
  exists hello raw ph peer_nonce peer_eph pub sig secret,
    let t_hash := transcript K init hello raw in
    c_enc msgpack (hello_of K a) = Ok hello /\ c_dec msgpack raw = Ok ph /\
    vget "nonce" ph = Ok (VBytes peer_nonce) /\ len peer_nonce = len (p_nonce a) /\
    peer_nonce <> p_nonce a /\
    vget "eph_pub" ph = Ok (VBytes peer_eph) /\ len peer_eph = 32 /\
    peer_eph <> x_public K (p_eph a) /\
    (exists v, vget "version" ph = Ok v /\ eq_int v Config.PROTOCOL_VERSION = true) /\
    len pk = 32 /\ pk <> ed_public K (p_key a) /\
    ed_from_public K pk = Ok pub /\ ed_verify K pub sig t_hash = true /\
    x_exchange K (p_eph a) peer_eph = Ok secret /\
    sc_transcript_hash ch = t_hash /\ pi_transcript_hash info = t_hash /\
    short_authentication_string C t_hash Config.SAS_DIGITS = Ok (pi_sas info) /\
    (sc_send_key ch, sc_recv_key ch)
      = (if init then _derive_traffic_keys C secret t_hash
         else ((_derive_traffic_keys C secret t_hash).2, (_derive_traffic_keys C secret t_hash).1)).
Proof. apply run_authenticates. Qed.

(** A mirror that sends our own hello back is refused before anything is
    signed, and the connection is closed. *)
Theorem mirror_refused a init now ha rest req :
  encodes msgpack ok (hello_of K a) ha ->
  exists c' m, run C K msgpack py_str a init now
      (Conn (Reader (frame ha ++ rest) req) (Writer [] false false))
      = (c', Err (Exn HandshakeFailed m)) /\
    wr_closed (cn_writer c') = true /\ wr_out (cn_writer c') = frame ha.
Proof.
  intros Hh. pose proof (encodes_dec msgpack ok _ _ Hh) as Hdec. destruct Hh as (_ & He & Hl).
  unfold run, perform_handshake.
  exists (conn_close (Conn (Reader rest (req ++ frame_requests ha)) (Writer (frame ha) false false))).
  exists "peer reflected our own handshake nonce -- refusing". split; [|done].
  apply bind_err. unfold exchange_hello. fold (hello_of K a). rewrite He. mrun.
  erewrite bind_ok by (by apply conn_write_frame). cbn [cn_reader cn_writer wr_out wr_closed].
  erewrite bind_ok by (by apply conn_read_frame). rewrite Hdec. mrun.
  rewrite (eq_refl : vget "version" (hello_of K a) = Ok (VInt Config.PROTOCOL_VERSION)). mrun.
  cbn [eq_int]. rewrite Z.eqb_refl. cbn [negb].
  rewrite (eq_refl : vget "nonce" (hello_of K a) = Ok (VBytes (p_nonce a))). mrun.
  rewrite as_bytes_of_ok by done. by rewrite decide_True by done.
Qed.
End claims.

(** ** Witnesses: toy primitives and a codec for the documents exchanged *)

Definition toy_public (s : bytes) : bytes := take 32 (s ++ replicate 32 Byte.x01).
Definition toy_sign (k m : bytes) : bytes := toy_public k ++ m.

Definition sum_bytes (a b : bytes) : bytes :=
  [byte_of_Z (zsum (Z_of_byte <$> a) + zsum (Z_of_byte <$> b))].

Definition toy_asym : asym := {|
  sha256 := fun b => b;
  ed_public := toy_public;
  ed_sign := toy_sign;
  ed_from_public := Ok;
  ed_verify := fun pub sig m => bool_decide (sig = pub ++ m);
  x_public := toy_public;
  x_exchange := fun priv pub => Ok (sum_bytes (toy_public priv) pub)
|}.

#[global] Instance toy_asym_laws : AsymLaws toy_asym.
Proof.
  assert (forall s, len (toy_public s) = 32) as Hlen.
  { intros s. unfold toy_public, len. rewrite length_take, length_app, length_replicate. lia. }
  split; cbn; try done.
  - intros s m. by apply bool_decide_eq_true.
  - intros a b. unfold sum_bytes. by rewrite Z.add_comm.
Qed.

Definition alice : party := Party [Byte.x0a] (replicate 16 Byte.x11) [Byte.xa1] "alice" 1000.
Definition bob : party := Party [Byte.x0b] (replicate 16 Byte.x22) [Byte.xb1] "bob" 2000.

Definition hello_a : bytes := be_bytes 2 0.
Definition hello_b : bytes := be_bytes 2 1.
Definition t_ab : bytes := transcript toy_asym true hello_a hello_b.

Definition docs : list pyval :=
  [hello_of toy_asym alice; hello_of toy_asym bob; auth_of toy_asym alice t_ab; auth_of toy_asym bob t_ab].

#[global] Instance docs_laws : CodecLaws (table_codec docs) (fun _ => True).
Proof. apply table_codec_laws. vm_compute. congruence. Qed.

Lemma docs_encodes v i :
  c_enc (table_codec docs) v = Ok (be_bytes 2 i) ->
  encodes (table_codec docs) (fun _ => True) v (be_bytes 2 i).
Proof. intros H. split; [done|]. split; [done|]. vm_compute. congruence. Qed.

Definition show (v : pyval) : string := "?".

Lemma alice_bob_distinct : distinct toy_asym alice bob.
Proof. split; vm_compute; congruence. Qed.

Definition secret_ab : bytes := sum_bytes (toy_public [Byte.x0a]) (toy_public [Byte.x0b]).

Lemma handshake_agrees_witness :
  exists ca cb ch_a ch_b sas,
    run toy_crypto toy_asym (table_codec docs) show alice true 0
      (Conn (Reader (frame hello_b ++ frame (be_bytes 2 3) ++ []) []) (Writer [] false false))
      = (ca, Ok (ch_a, ed_public toy_asym (p_key bob), Info (VStr "bob") (VInt 2000) t_ab sas)) /\
    run toy_crypto toy_asym (table_codec docs) show bob false 5
      (Conn (Reader (frame hello_a ++ frame (be_bytes 2 2) ++ []) []) (Writer [] false false))
      = (cb, Ok (ch_b, ed_public toy_asym (p_key alice), Info (VStr "alice") (VInt 1000) t_ab sas)) /\
    wr_out (cn_writer ca) = frame hello_a ++ frame (be_bytes 2 2) /\
    wr_out (cn_writer cb) = frame hello_b ++ frame (be_bytes 2 3) /\
    sc_transcript_hash ch_a = sc_transcript_hash ch_b /\
    sc_send_key ch_a = sc_recv_key ch_b /\ sc_recv_key ch_a = sc_send_key ch_b.
Proof.
  apply (handshake_agrees toy_crypto toy_asym (table_codec docs) show (fun _ => True)
           alice bob 0 5 hello_a hello_b (be_bytes 2 2) (be_bytes 2 3) secret_ab [] [] [] []
           alice_bob_distinct).
  - apply docs_encodes. by vm_compute.
  - apply docs_encodes. by vm_compute.
  - apply docs_encodes. by vm_compute.
  - apply docs_encodes. by vm_compute.
  - by vm_compute.
Defined.

Definition alice_run : conn * result (SecureChannel * bytes * PeerInfo) :=
  run toy_crypto toy_asym (table_codec docs) show alice true 0
    (Conn (Reader (frame hello_b ++ frame (be_bytes 2 3)) []) (Writer [] false false)).

Definition alice_chan : SecureChannel :=
  match snd alice_run with Ok (ch, _, _) => ch | Err _ => demo_sender end.
Definition alice_info : PeerInfo :=
  match snd alice_run with Ok (_, _, i) => i | Err _ => Info VNone VNone [] "" end.

Lemma handshake_authenticates_witness :
  exists hello raw pub sig,
    ed_from_public toy_asym (toy_public [Byte.xb1]) = Ok pub /\
    ed_verify toy_asym pub sig (transcript toy_asym true hello raw) = true /\
    sc_transcript_hash alice_chan = transcript toy_asym true hello raw.
Proof.
  destruct (handshake_authenticates toy_crypto toy_asym (table_codec docs) show alice true 0
              (Conn (Reader (frame hello_b ++ frame (be_bytes 2 3)) []) (Writer [] false false))
              (fst alice_run) alice_chan (toy_public [Byte.xb1]) alice_info)
    as (hello & raw & ph & pn & pe & pub & sig & sec & H).
  - by vm_compute.
  - exists hello, raw, pub, sig. by destruct_and! H.
Defined.

Lemma mirror_refused_witness :
  exists c' m, run toy_crypto toy_asym (table_codec docs) show alice true 0
      (Conn (Reader (frame hello_a ++ []) []) (Writer [] false false))
      = (c', Err (Exn HandshakeFailed m)) /\
    wr_closed (cn_writer c') = true /\ wr_out (cn_writer c') = frame hello_a.
Proof.
  apply (mirror_refused toy_crypto toy_asym (table_codec docs) show (fun _ => True)).
  apply docs_encodes. by vm_compute.
Defined.
