(* ===== verification/RateLimit.v ===== *)
(** * Handshake admission control ([memnode/ratelimit.py])

    The per-source-address rate limit and the concurrency caps that stand in
    front of the peer handshake.  Clock readings are arguments; a dictionary
    whose order is not observed is a finite map. *)
From S2P Require Import Prelude Config PyVal.

(** ** State *)

Record IpState := IpSt {
  attempts : list Z;                    (* admission times, oldest first *)
  inflight : Z;
  last_seen : Z
}.

Record HandshakeGuard := Guard {
  max_per_ip_per_window : Z;
  window_seconds : Z;
  max_inflight_per_ip : Z;
  max_inflight_total : Z;
  max_tracked_ips : Z;
  ips : gmap string IpState;
  inflight_total : Z;
  rejected_rate : Z;
  rejected_inflight_ip : Z;
  rejected_inflight_total : Z
}.

Definition HandshakeGuard_init (per_ip window inflight_ip total tracked : Z) : HandshakeGuard :=
  Guard per_ip window inflight_ip total tracked ∅ 0 0 0 0.

Definition with_ips (m : gmap string IpState) (g : HandshakeGuard) : HandshakeGuard :=
  Guard (max_per_ip_per_window g) (window_seconds g) (max_inflight_per_ip g)
    (max_inflight_total g) (max_tracked_ips g) m (inflight_total g) (rejected_rate g)
    (rejected_inflight_ip g) (rejected_inflight_total g).

Definition with_inflight_total (n : Z) (g : HandshakeGuard) : HandshakeGuard :=
  Guard (max_per_ip_per_window g) (window_seconds g) (max_inflight_per_ip g)
    (max_inflight_total g) (max_tracked_ips g) (ips g) n (rejected_rate g)
    (rejected_inflight_ip g) (rejected_inflight_total g).

Definition count_rejection (rate ip total : Z) (g : HandshakeGuard) : HandshakeGuard :=
  Guard (max_per_ip_per_window g) (window_seconds g) (max_inflight_per_ip g)
    (max_inflight_total g) (max_tracked_ips g) (ips g) (inflight_total g) (rejected_rate g + rate)
    (rejected_inflight_ip g + ip) (rejected_inflight_total g + total).

(** [len(self._ips)] *)
Definition tracked (m : gmap string IpState) : Z := Z.of_nat (size m).

(** ** Eviction *)

(** The order of the tuples [(last_seen, ip)]. *)
Definition idle_le (a b : Z * string) : Prop :=
  a.1 < b.1 \/ (a.1 = b.1 /\ String.leb a.2 b.2 = true).

#[global] Instance idle_le_dec : RelDecision idle_le.
Proof. intros a b. unfold idle_le. solve_decision. Defined.

Definition pop_all (keys : list string) (m : gmap string IpState) : gmap string IpState :=
  foldl (fun m ip => delete ip m) m keys.

(** [[ip for ip, st in self._ips.items() if st.inflight == 0 and st.last_seen < cutoff]] *)
Definition stale (cutoff : Z) (m : gmap string IpState) : list string :=
  (filter (fun kv => inflight kv.2 = 0 /\ last_seen kv.2 < cutoff) (map_to_list m)).*1.

(** [sorted((st.last_seen, ip) for ip, st in self._ips.items() if st.inflight == 0)] *)
Definition idle (m : gmap string IpState) : list (Z * string) :=
  merge_sort idle_le
    ((fun kv => (last_seen kv.2, kv.1)) <$> filter (fun kv => inflight kv.2 = 0) (map_to_list m)).

(** The addresses dropped when nothing stale makes room. *)
Definition idle_victims (m : gmap string IpState) : list string :=
  (take (Z.to_nat (Z.max 1 (len (idle m) / 10))) (idle m)).*2.

Definition _evict_if_needed (now : Z) (g : HandshakeGuard) : HandshakeGuard :=
  if tracked (ips g) <? max_tracked_ips g then g
  else
    let cutoff := now - window_seconds g in
    let m1 := pop_all (stale cutoff (ips g)) (ips g) in
    if tracked m1 <? max_tracked_ips g then with_ips m1 g
    else with_ips (pop_all (idle_victims m1) m1) g.

(** ** Admission *)

(** [while state.attempts and state.attempts[0] < cutoff: popleft()] *)
Fixpoint expire (cutoff : Z) (l : list Z) : list Z :=
  match l with
  | [] => []
  | t :: l' => if t <? cutoff then expire cutoff l' else l
  end.

Section guard.
Context (fmt_g : Z -> string).          (* the [:g] format of a float *)

Definition acquire (now : Z) (ip : string) : M HandshakeGuard unit := fun g0 =>
  let '(g1, state) :=
    match ips g0 !! ip with
    | Some state => (g0, state)
    | None => (_evict_if_needed now g0, IpSt [] 0 0)
    end in
  let cutoff := now - window_seconds g1 in
  let state := IpSt (expire cutoff (attempts state)) (inflight state) now in
  let g := with_ips (<[ip := state]> (ips g1)) g1 in
  if inflight_total g >=? max_inflight_total g then
    (count_rejection 0 0 1 g, Err (Exn HandshakeRejected
      ("global handshake concurrency limit reached (" +:+ pretty (max_inflight_total g)
         +:+ "); refusing " +:+ ip)))
  else if inflight state >=? max_inflight_per_ip g then
    (count_rejection 0 1 0 g, Err (Exn HandshakeRejected
      (ip +:+ " already has " +:+ pretty (inflight state) +:+ " handshakes in flight (max "
         +:+ pretty (max_inflight_per_ip g) +:+ ")")))
  else if len (attempts state) >=? max_per_ip_per_window g then
    (count_rejection 1 0 0 g, Err (Exn HandshakeRejected
      (ip +:+ " exceeded " +:+ pretty (max_per_ip_per_window g) +:+ " handshake attempts per "
         +:+ fmt_g (window_seconds g) +:+ "s")))
  else
    let state := IpSt (attempts state ++ [now]) (inflight state + 1) now in
    (with_inflight_total (inflight_total g + 1) (with_ips (<[ip := state]> (ips g)) g), Ok tt).

Definition release (ip : string) (g : HandshakeGuard) : HandshakeGuard :=
  match ips g !! ip with
  | None => g
  | Some state =>
      let '(state, g) :=
        if inflight state >? 0 then
          let state := IpSt (attempts state) (inflight state - 1) (last_seen state) in
          (state, with_inflight_total (Z.max 0 (inflight_total g - 1))
                    (with_ips (<[ip := state]> (ips g)) g))
        else (state, g) in
      if (inflight state =? 0) && (len (attempts state) =? 0)
      then with_ips (delete ip (ips g)) g else g
  end.

(** [_GuardSlot]: the context manager around the two. *)
Record GuardSlot := Slot { slot_ip : string; slot_held : bool }.

Definition slot (ip : string) : GuardSlot := Slot ip false.

Definition aenter (now : Z) : M (HandshakeGuard * GuardSlot) unit := fun '(g, sl) =>
  match acquire now (slot_ip sl) g with
  | (g', Ok _) => (g', Slot (slot_ip sl) true, Ok tt)
  | (g', Err e) => (g', sl, Err e)
  end.

Definition aexit (st : HandshakeGuard * GuardSlot) : HandshakeGuard * GuardSlot :=
  let '(g, sl) := st in
  if slot_held sl then (release (slot_ip sl) g, Slot (slot_ip sl) false) else (g, sl).
End guard.

(** The [stats] dictionary. *)
Definition guard_stats (g : HandshakeGuard) : list (string * Z) :=
  [("tracked_ips", tracked (ips g)); ("inflight_total", inflight_total g);
   ("rejected_rate", rejected_rate g); ("rejected_inflight_ip", rejected_inflight_ip g);
   ("rejected_inflight_total", rejected_inflight_total g)].

(** [peer_ip]: a socket address is a tuple, [None] or something else. *)
Definition peer_ip (py_str : pyval -> string) (addr : pyval) : string :=
  match addr with
  | VList (host :: _) => py_str host
  | VNone => "unknown"
  | _ => py_str addr
  end.

(** ** Facts *)

Lemma lookup_pop_all keys m ip :
  pop_all keys m !! ip = if decide (ip ∈ keys) then None else m !! ip.
Proof.
  unfold pop_all. revert m. induction keys as [|k keys IH]; intros m; cbn [foldl].
  { by rewrite decide_False by set_solver. }
  rewrite IH. destruct (decide (ip ∈ keys)), (decide (ip ∈ k :: keys)) as [Hin|Hin]; try done;
    [set_solver|..].
  - apply elem_of_cons in Hin as [->|]; [apply lookup_delete_eq|done].
  - rewrite lookup_delete_ne; [done|set_solver].
Qed.

Lemma elem_stale cutoff m ip :
  ip ∈ stale cutoff m <-> exists st, m !! ip = Some st /\ inflight st = 0 /\ last_seen st < cutoff.
Proof.
  unfold stale. rewrite list_elem_of_fmap. split.
  - intros ([k st] & -> & [[? ?] Hin]%list_elem_of_filter). apply elem_of_map_to_list in Hin.
    by exists st.
  - intros (st & Hm & H1 & H2). exists (ip, st). split; [done|].
    apply list_elem_of_filter. split; [done|]. by apply elem_of_map_to_list.
Qed.

Lemma elem_idle m t ip :
  (t, ip) ∈ idle m <-> exists st, m !! ip = Some st /\ inflight st = 0 /\ last_seen st = t.
Proof.
  unfold idle. rewrite merge_sort_Permutation, list_elem_of_fmap. split.
  - intros ([k st] & [= -> ->] & [? Hin]%list_elem_of_filter). apply elem_of_map_to_list in Hin.
    by exists st.
  - intros (st & Hm & H1 & <-). exists (ip, st). split; [done|].
    apply list_elem_of_filter. split; [done|]. by apply elem_of_map_to_list.
Qed.

Lemma idle_victims_idle m ip :
  ip ∈ idle_victims m -> exists st, m !! ip = Some st /\ inflight st = 0.
Proof.
  unfold idle_victims. intros ([t k] & -> & Hin)%list_elem_of_fmap.
  apply elem_of_take in Hin as (i & Hi & _). apply list_elem_of_lookup_2, elem_idle in Hi.
  naive_solver.
Qed.

(** Eviction removes entries with nothing in flight and changes nothing else. *)
Lemma evict_lookup now g ip st :
  ips g !! ip = Some st -> inflight st <> 0 -> ips (_evict_if_needed now g) !! ip = Some st.
Proof.
  intros Hip Hst.
  assert (forall m, m !! ip = Some st -> pop_all (stale (now - window_seconds g) m) m !! ip = Some st) as H1.
  { intros m Hm. rewrite lookup_pop_all, decide_False; [done|].
    intros (st' & ? & ? & _)%elem_stale. congruence. }
  assert (forall m, m !! ip = Some st -> pop_all (idle_victims m) m !! ip = Some st) as H2.
  { intros m Hm. rewrite lookup_pop_all, decide_False; [done|].
    intros (st' & ? & ?)%idle_victims_idle. congruence. }
  unfold _evict_if_needed. repeat zcase; cbn; auto.
Qed.

Lemma evict_subset now g : ips (_evict_if_needed now g) ⊆ ips g.
Proof.
  assert (forall keys m, pop_all keys m ⊆ m) as Hpop.
  { intros keys m. apply map_subseteq_spec. intros ip st. rewrite lookup_pop_all. by case_decide. }
  unfold _evict_if_needed. repeat zcase; cbn; [done|apply Hpop|]. etrans; apply Hpop.
Qed.

Lemma msum_pop_all keys (m : gmap string IpState) :
  (forall ip st, ip ∈ keys -> m !! ip = Some st -> inflight st = 0) ->
  msum inflight (pop_all keys m) = msum inflight m.
Proof.
  unfold pop_all. revert m. induction keys as [|k keys IH]; intros m Hz; cbn [foldl]; [done|].
  rewrite IH.
  - destruct (m !! k) as [st|] eqn:Hk; [|by rewrite delete_id].
    rewrite (msum_delete _ _ _ _ Hk), (Hz k st) by (done || set_solver). lia.
  - intros ip st Hin [_ Hst]%lookup_delete_Some. apply (Hz ip st); [set_solver|done].
Qed.

Lemma evict_msum now g : msum inflight (ips (_evict_if_needed now g)) = msum inflight (ips g).
Proof.
  assert (forall m, msum inflight (pop_all (stale (now - window_seconds g) m) m) = msum inflight m) as H1.
  { intros m. apply msum_pop_all. intros ip st (st' & ? & ? & _)%elem_stale ?. congruence. }
  assert (forall m, msum inflight (pop_all (idle_victims m) m) = msum inflight m) as H2.
  { intros m. apply msum_pop_all. intros ip st (st' & ? & ?)%idle_victims_idle ?. congruence. }
  unfold _evict_if_needed. repeat zcase; cbn; rewrite ?H2, ?H1; done.
Qed.

Lemma size_le_msum (m : gmap string IpState) :
  (forall ip st, m !! ip = Some st -> 1 <= inflight st) -> tracked m <= msum inflight m.
Proof.
  unfold tracked. induction m as [|k a m Hk IH] using map_ind; intros Hm.
  { by rewrite map_size_empty, msum_empty. }
  rewrite map_size_insert_None, msum_insert by done.
  assert (1 <= inflight a) by (apply (Hm k); apply lookup_insert_eq).
  assert (Z.of_nat (size m) <= msum inflight m); [|lia].
  apply IH. intros ip st Hip. apply (Hm ip). rewrite lookup_insert_ne; [done|congruence].
Qed.

Lemma tracked_subseteq (m1 m2 : gmap string IpState) : m1 ⊆ m2 -> tracked m1 <= tracked m2.
Proof. intros H. unfold tracked. apply inj_le. by apply map_subseteq_size. Qed.

Lemma tracked_insert ip st (m : gmap string IpState) :
  tracked (<[ip := st]> m) <= tracked m + 1 /\
  (is_Some (m !! ip) -> tracked (<[ip := st]> m) = tracked m).
Proof.
  unfold tracked. destruct (m !! ip) as [st'|] eqn:Hm.
  - rewrite map_size_insert_Some by (rewrite Hm; eauto). split; [lia|done].
  - rewrite map_size_insert_None by done. split; [lia|by intros []].
Qed.

(** Compute the fields of an updated guard or entry, and nothing else. *)
Ltac gsimpl := cbn [with_ips with_inflight_total count_rejection HandshakeGuard_init ips
  inflight_total max_per_ip_per_window window_seconds max_inflight_per_ip max_inflight_total
  max_tracked_ips rejected_rate rejected_inflight_ip rejected_inflight_total
  attempts inflight last_seen fst snd].

(** ** The invariant of the guard *)

Record GInv (g : HandshakeGuard) : Prop := {
  gi_total : inflight_total g = msum inflight (ips g);
  gi_cap : inflight_total g <= Z.max 0 (max_inflight_total g);
  gi_entry : forall ip st, ips g !! ip = Some st ->
    0 <= inflight st <= Z.max 0 (max_inflight_per_ip g) /\
    len (attempts st) <= Z.max 0 (max_per_ip_per_window g);
  gi_tracked : 0 <= max_inflight_total g < max_tracked_ips g ->
    tracked (ips g) <= max_tracked_ips g
}.

(** When the table is full some entry is idle, since the entries in flight are
    fewer than the table has room for. *)
Lemma evict_room now g :
  GInv g -> 0 <= max_inflight_total g < max_tracked_ips g ->
  tracked (ips (_evict_if_needed now g)) < max_tracked_ips g.
Proof.
  intros [Htot Hcap Hent Htr] Hlim. specialize (Htr Hlim). unfold _evict_if_needed. zcase; [lia|].
  set (m1 := pop_all (stale (now - window_seconds g) (ips g)) (ips g)).
  assert (m1 ⊆ ips g) as Hsub.
  { apply map_subseteq_spec. intros ip st. unfold m1. rewrite lookup_pop_all. by case_decide. }
  assert (msum inflight m1 = msum inflight (ips g)) as Hsum.
  { apply msum_pop_all. intros ip st (st' & ? & ? & _)%elem_stale ?. congruence. }
  zcase; cbn; [lia|]. destruct (idle m1) as [|[t ip] rest] eqn:Hidle.
  - exfalso. assert (tracked m1 <= msum inflight m1) as Hsz; [apply size_le_msum|lia].
    intros ip st Hip. destruct (Hent ip st) as [? _]; [by eapply lookup_weaken|].
    destruct (decide (inflight st = 0)); [|lia]. exfalso.
    assert ((last_seen st, ip) ∈ idle m1) as Hin by (apply elem_idle; by exists st).
    rewrite Hidle in Hin. by apply not_elem_of_nil in Hin.
  - assert ((t, ip) ∈ idle m1) as Hin by (rewrite Hidle; by left).
    apply elem_idle in Hin as (st & Hst & _).
    assert (ip ∈ idle_victims m1) as Hv.
    { unfold idle_victims. rewrite Hidle. destruct (Z.to_nat _) as [|n] eqn:Hn; [lia|]. by left. }
    pose proof (tracked_subseteq m1 (ips g) Hsub).
    assert (pop_all (idle_victims m1) m1 ⊂ m1) as Hlt.
    { split; [apply map_subseteq_spec; intros k x; rewrite lookup_pop_all; by case_decide|].
      intros Hle. pose proof (lookup_weaken _ _ _ _ Hst Hle) as Hc.
      by rewrite lookup_pop_all, decide_True in Hc. }
    apply map_subset_size in Hlt. unfold tracked in *. lia.
Qed.

Lemma evict_limits now g :
  let g' := _evict_if_needed now g in
  max_per_ip_per_window g' = max_per_ip_per_window g /\ window_seconds g' = window_seconds g /\
  max_inflight_per_ip g' = max_inflight_per_ip g /\ max_inflight_total g' = max_inflight_total g /\
  max_tracked_ips g' = max_tracked_ips g /\ inflight_total g' = inflight_total g.
Proof. unfold _evict_if_needed. repeat zcase; done. Qed.

Lemma GInv_evict now g : GInv g -> GInv (_evict_if_needed now g).
Proof.
  intros [H1 H2 H3 H4]. destruct (evict_limits now g) as (E1 & E2 & E3 & E4 & E5 & E6).
  pose proof (evict_subset now g) as Hs. split; rewrite ?E1, ?E3, ?E4, ?E5, ?E6.
  - by rewrite evict_msum.
  - done.
  - intros ip st Hip. apply (H3 ip). by eapply lookup_weaken.
  - intros Hl. specialize (H4 Hl). apply tracked_subseteq in Hs. lia.
Qed.

Lemma expire_length cutoff l : len (expire cutoff l) <= len l.
Proof. induction l as [|t l IH]; cbn [expire]; [done|]. zcase; rewrite ?len_cons; lia. Qed.

Lemma GInv_init a b c d e : GInv (HandshakeGuard_init a b c d e).
Proof.
  split; gsimpl; try done; [lia|]. unfold tracked. rewrite map_size_empty. lia.
Qed.

(** Replacing an entry by one with the same load. *)
Lemma GInv_touch g ip st st' :
  GInv g -> default (IpSt [] 0 0) (ips g !! ip) = st ->
  inflight st' = inflight st -> len (attempts st') <= len (attempts st) ->
  (ips g !! ip = None -> 0 <= max_inflight_total g < max_tracked_ips g ->
     tracked (ips g) < max_tracked_ips g) ->
  GInv (with_ips (<[ip := st']> (ips g)) g).
Proof.
  intros [H1 H2 H3 H4] Hst Hi Ha Hroom. split; gsimpl; try done.
  - rewrite H1. destruct (ips g !! ip) as [st0|] eqn:Hip; cbn in Hst; subst.
    + rewrite (msum_update _ _ _ _ _ Hip). lia.
    + rewrite msum_insert, Hi by done. cbn. lia.
  - intros k x. destruct (decide (ip = k)) as [->|Hne].
    + rewrite lookup_insert_eq. intros [= <-].
      destruct (ips g !! k) as [st0|] eqn:Hip; cbn in Hst; subst.
      * specialize (H3 k st Hip). lia.
      * cbn in *. rewrite Hi. cbn. rewrite len_nil in Ha. lia.
    + rewrite lookup_insert_ne by done. apply H3.
  - intros Hl. destruct (tracked_insert ip st' (ips g)) as [Hle Heq].
    destruct (ips g !! ip) as [st0|] eqn:Hip; [rewrite Heq by done; auto|].
    specialize (Hroom eq_refl Hl). lia.
Qed.

Section steps.
Context (fmt_g : Z -> string).

(** The table with the caller's entry brought up to date, before the checks. *)
Definition refreshed (now : Z) (ip : string) (g : HandshakeGuard) : IpState * HandshakeGuard :=
  let '(g1, st) := match ips g !! ip with
                   | Some st => (g, st)
                   | None => (_evict_if_needed now g, IpSt [] 0 0)
                   end in
  let st' := IpSt (expire (now - window_seconds g1) (attempts st)) (inflight st) now in
  (st', with_ips (<[ip := st']> (ips g1)) g1).

Lemma evict_keeps_absent now g ip :
  ips g !! ip = None -> ips (_evict_if_needed now g) !! ip = None.
Proof.
  intros Hip. destruct (ips (_evict_if_needed now g) !! ip) as [st|] eqn:H; [|done].
  pose proof (lookup_weaken _ _ _ _ H (evict_subset now g)). congruence.
Qed.

Lemma GInv_refreshed now ip g :
  GInv g -> GInv (refreshed now ip g).2 /\
    ips (refreshed now ip g).2 !! ip = Some (refreshed now ip g).1.
Proof.
  intros Hi. unfold refreshed. destruct (ips g !! ip) as [st|] eqn:Hip; cbn [fst snd];
    (split; [|apply lookup_insert_eq]).
  - apply (GInv_touch g ip st); cbn; try done; [by rewrite Hip|apply expire_length|congruence].
  - apply (GInv_touch _ ip (IpSt [] 0 0)); cbn; try done.
    + by apply GInv_evict.
    + by rewrite evict_keeps_absent.
    + intros _ Hl. destruct (evict_limits now g) as (_ & _ & _ & E4 & E5 & _).
      rewrite E4, E5 in Hl. rewrite E5. by apply evict_room.
Qed.

(** The four outcomes of [acquire]. *)
Lemma acquire_cases now ip g g' r :
  acquire fmt_g now ip g = (g', r) ->
  let '(st, g1) := refreshed now ip g in
  (exists a b c m, r = Err (Exn HandshakeRejected m) /\ g' = count_rejection a b c g1) \/
  (r = Ok tt /\ inflight_total g1 < max_inflight_total g1 /\
   inflight st < max_inflight_per_ip g1 /\ len (attempts st) < max_per_ip_per_window g1 /\
   g' = with_inflight_total (inflight_total g1 + 1)
          (with_ips (<[ip := IpSt (attempts st ++ [now]) (inflight st + 1) now]> (ips g1)) g1)).
Proof.
  unfold acquire, refreshed. destruct (ips g !! ip) as [st|]; cbv zeta; cbn [inflight attempts].
  all: repeat zcase; intros [= <- <-].
  all: first [left; by eexists _, _, _, _ | right; by split_and!].
Qed.

Lemma GInv_acquire now ip g g' r : acquire fmt_g now ip g = (g', r) -> GInv g -> GInv g'.
Proof.
  intros Ha Hi. apply acquire_cases in Ha. pose proof (GInv_refreshed now ip g Hi) as [H Hip].
  destruct (refreshed now ip g) as [st g1]. cbn [fst snd] in *.
  destruct H as [H1 H2 H3 H4]. destruct Ha as [(a & b & c & m & _ & ->)|(_ & L1 & L2 & L3 & ->)];
    split; gsimpl; try done.
  - rewrite (msum_update _ _ _ _ _ Hip). gsimpl. lia.
  - lia.
  - intros k x. destruct (decide (ip = k)) as [->|Hne].
    + rewrite lookup_insert_eq. intros [= <-]. specialize (H3 k st Hip). gsimpl.
      rewrite len_snoc. lia.
    + rewrite lookup_insert_ne by done. apply H3.
  - intros Hl. destruct (tracked_insert ip (IpSt (attempts st ++ [now]) (inflight st + 1) now) (ips g1))
      as [_ Heq]. rewrite Heq by done. by apply H4.
Qed.

Lemma GInv_release ip g : GInv g -> GInv (release ip g).
Proof.
  intros [H1 H2 H3 H4]. unfold release. destruct (ips g !! ip) as [st|] eqn:Hip; [|done].
  destruct (H3 ip st Hip) as [Hb Hat].
  assert (0 <= msum inflight (ips g)) as Hnn.
  { apply msum_nonneg. intros k a Hk. by destruct (H3 k a Hk) as [[? _] _]. }
  assert (inflight st <= msum inflight (ips g)) as Hle.
  { apply (msum_elem_le inflight (ips g) ip st); [|done]. intros k a Hk. by destruct (H3 k a Hk) as [[? _] _]. }
  destruct (Z.gtb_spec (inflight st) 0) as [Hpos|Hz].
  - set (st' := IpSt (attempts st) (inflight st - 1) (last_seen st)).
    set (g1 := with_inflight_total _ (with_ips _ g)).
    assert (GInv g1) as Hg1.
    { unfold g1. split; gsimpl; try done.
      - rewrite (msum_update _ _ _ _ _ Hip). unfold st'. gsimpl. lia.
      - lia.
      - intros k x. destruct (decide (ip = k)) as [->|Hne].
        + rewrite lookup_insert_eq. intros [= <-]. unfold st'. gsimpl. lia.
        + rewrite lookup_insert_ne by done. apply H3.
      - intros Hl. destruct (tracked_insert ip st' (ips g)) as [_ Heq]. rewrite Heq by done. by apply H4. }
    destruct ((inflight st' =? 0) && _) eqn:Hpop; [|done].
    apply andb_true_iff in Hpop as [Hz%Z.eqb_eq _]. destruct Hg1 as [G1 G2 G3 G4].
    assert (ips g1 !! ip = Some st') as Hip1 by apply lookup_insert_eq.
    split; gsimpl; try done.
    + rewrite (msum_delete _ _ _ _ Hip1), Hz, <-G1. lia.
    + intros k x [_ Hk]%lookup_delete_Some. by apply (G3 k).
    + intros Hl. specialize (G4 Hl). etrans; [apply tracked_subseteq, delete_subseteq|done].
  - destruct ((inflight st =? 0) && _) eqn:Hpop; [|done].
    apply andb_true_iff in Hpop as [Hz'%Z.eqb_eq _]. split; gsimpl; try done.
    + rewrite (msum_delete _ _ _ _ Hip). lia.
    + intros k x [_ Hk]%lookup_delete_Some. by apply (H3 k).
    + intros Hl. specialize (H4 Hl). etrans; [apply tracked_subseteq, delete_subseteq|done].
Qed.
End steps.

(** ** Runs

    The guard over time: [log] lists the admissions, oldest first.  In a
    [lossless] run the table never has to drop an idle entry whose attempts are
    still inside the window. *)

Definition forgets (now : Z) (ip : string) (g : HandshakeGuard) : bool :=
  match ips g !! ip with
  | Some _ => false
  | None =>
      negb (tracked (ips g) <? max_tracked_ips g) &&
      negb (tracked (pop_all (stale (now - window_seconds g) (ips g)) (ips g)) <? max_tracked_ips g)
  end.

Section runs.
Context (fmt_g : Z -> string) (lossless : bool).

Inductive reach (start : HandshakeGuard) : HandshakeGuard -> Z -> list (string * Z) -> Prop :=
  | reach_start now : reach start start now []
  | reach_admit g now log now' ip g' :
      reach start g now log -> now <= now' -> (lossless = true -> forgets now' ip g = false) ->
      acquire fmt_g now' ip g = (g', Ok tt) -> reach start g' now' (log ++ [(ip, now')])
  | reach_reject g now log now' ip g' e :
      reach start g now log -> now <= now' -> (lossless = true -> forgets now' ip g = false) ->
      acquire fmt_g now' ip g = (g', Err e) -> reach start g' now' log
  | reach_release g now log ip :
      reach start g now log -> reach start (release ip g) now log.

Lemma reach_GInv start g now log : GInv start -> reach start g now log -> GInv g.
Proof.
  intros Hs. induction 1; [done|by eapply GInv_acquire..|by apply GInv_release].
Qed.
End runs.

(** *** What the table remembers of an address *)

Definition times_of (ip : string) (log : list (string * Z)) : list Z :=
  (filter (fun e => e.1 = ip) log).*2.

Definition attempts_of (ip : string) (g : HandshakeGuard) : list Z :=
  from_option attempts [] (ips g !! ip).

(** The admissions of [l] that fall into the window that ends at [T]. *)
Definition in_window (w T : Z) (l : list Z) : list Z := filter (fun t => T - w <= t <= T) l.

Record RInv (g : HandshakeGuard) (now : Z) (log : list (string * Z)) : Prop := {
  ri_suffix : forall ip, exists dropped, times_of ip log = dropped ++ attempts_of ip g /\
    Forall (fun t => t < now - window_seconds g) dropped;
  ri_past : forall ip, Forall (fun t => t <= now) (times_of ip log);
  ri_seen : forall ip st, ips g !! ip = Some st ->
    Forall (fun t => t <= last_seen st) (attempts st) /\ last_seen st <= now;
  ri_rate : forall ip T, len (in_window (window_seconds g) T (times_of ip log))
    <= Z.max 0 (max_per_ip_per_window g)
}.

Lemma expire_split cutoff l :
  exists dropped, l = dropped ++ expire cutoff l /\ Forall (fun t => t < cutoff) dropped.
Proof.
  induction l as [|t l IH]; cbn [expire]; [by exists []|]. zcase; [|by exists []].
  destruct IH as (d & Heq & Hd). exists (t :: d). cbn. rewrite <-Heq. split; [done|by constructor].
Qed.

Lemma in_window_le w T l : len (in_window w T l) <= len l.
Proof. unfold in_window, len. apply inj_le, length_filter. Qed.

Lemma in_window_none w T l : Forall (fun t => t < T - w) l -> in_window w T l = [].
Proof.
  induction 1 as [|t l Ht Hl IH]; [done|]. unfold in_window in *.
  rewrite filter_cons_False by lia. done.
Qed.

Lemma times_of_snoc ip k t log :
  times_of ip (log ++ [(k, t)]) = times_of ip log ++ (if decide (k = ip) then [t] else []).
Proof.
  unfold times_of. rewrite filter_app, fmap_app. f_equal. destruct (decide (k = ip)).
  - by rewrite filter_cons_True.
  - by rewrite filter_cons_False.
Qed.

(** When nothing in the window is forgotten, every evicted address had only
    expired attempts. *)
Lemma evict_attempts now' now g log ip k :
  RInv g now log -> now <= now' -> forgets now' k g = false -> ips g !! k = None ->
  attempts_of ip (_evict_if_needed now' g) = attempts_of ip g \/
  (ips (_evict_if_needed now' g) !! ip = None /\
   Forall (fun t => t < now' - window_seconds g) (attempts_of ip g)).
Proof.
  intros Hi Hle Hf Hk. unfold forgets in Hf. rewrite Hk in Hf. unfold _evict_if_needed.
  destruct (tracked (ips g) <? max_tracked_ips g); [by left|]. cbn [negb andb] in Hf.
  apply negb_false_iff in Hf. rewrite Hf. unfold attempts_of at 1. gsimpl.
  rewrite lookup_pop_all. destruct (decide _) as [(st & Hst & _ & Hls)%elem_stale|]; [|by left].
  right. split; [done|]. unfold attempts_of. rewrite Hst. cbn.
  destruct (ri_seen _ _ _ Hi ip st Hst) as [Hat _].
  eapply Forall_impl; [apply Hat|]. cbn. lia.
Qed.

Lemma evict_lookup_some now' g ip st :
  ips (_evict_if_needed now' g) !! ip = Some st -> ips g !! ip = Some st.
Proof. intros H. eapply lookup_weaken; [done|apply evict_subset]. Qed.

(** Time passes. *)
Lemma RInv_later g now now' log : RInv g now log -> now <= now' -> RInv g now' log.
Proof.
  intros [H1 H2 H3 H4] Hle. split; try done.
  - intros ip. destruct (H1 ip) as (d & Heq & Hd). exists d. split; [done|].
    eapply Forall_impl; [apply Hd|]. cbn. lia.
  - intros ip. eapply Forall_impl; [apply (H2 ip)|]. cbn. lia.
  - intros ip st Hip. destruct (H3 ip st Hip). split; [done|lia].
Qed.

Lemma RInv_evict now g log k :
  RInv g now log -> forgets now k g = false -> ips g !! k = None ->
  RInv (_evict_if_needed now g) now log.
Proof.
  intros Hi Hf Hk. destruct (evict_limits now g) as (E1 & E2 & _).
  pose proof Hi as [H1 H2 H3 H4]. split; rewrite ?E1, ?E2; try done.
  - intros ip. destruct (H1 ip) as (d & Heq & Hd).
    destruct (evict_attempts now now g log ip k Hi ltac:(lia) Hf Hk) as [->|[Hn Hexp]].
    + by exists d.
    + unfold attempts_of at 1. rewrite Hn. cbn. exists (times_of ip log).
      rewrite app_nil_r. split; [done|]. rewrite Heq. by apply Forall_app.
  - intros ip st Hip%evict_lookup_some. by apply (H3 ip).
Qed.

(** The caller's entry brought up to date. *)
Lemma RInv_entry now g log ip st :
  RInv g now log -> attempts st = attempts_of ip g ->
  RInv (with_ips (<[ip := IpSt (expire (now - window_seconds g) (attempts st)) (inflight st) now]>
          (ips g)) g) now log.
Proof.
  intros [H1 H2 H3 H4] Hst. split; gsimpl; try done.
  - intros k. destruct (H1 k) as (d & Heq & Hd). unfold attempts_of at 1. gsimpl.
    destruct (decide (ip = k)) as [->|Hne].
    + rewrite lookup_insert_eq. cbn. rewrite Hst.
      destruct (expire_split (now - window_seconds g) (attempts_of k g)) as (d' & Heq' & Hd').
      exists (d ++ d'). rewrite <-(assoc_L app), <-Heq'. split; [done|]. by apply Forall_app.
    + rewrite lookup_insert_ne by done. by exists d.
  - intros k x. destruct (decide (ip = k)) as [->|Hne].
    + rewrite lookup_insert_eq. intros [= <-]. gsimpl. split; [|lia].
      destruct (H1 k) as (d & Heq & Hd). specialize (H2 k). rewrite Heq, <-Hst in H2.
      destruct (expire_split (now - window_seconds g) (attempts st)) as (d' & Heq' & _).
      rewrite Heq' in H2. by repeat apply Forall_app in H2 as [_ H2].
    + rewrite lookup_insert_ne by done. apply H3.
Qed.

Lemma RInv_refreshed now g log ip :
  RInv g now log -> forgets now ip g = false -> RInv (refreshed now ip g).2 now log.
Proof.
  intros Hi Hf. unfold refreshed. destruct (ips g !! ip) as [st|] eqn:Hip; gsimpl.
  - apply RInv_entry; [done|]. unfold attempts_of. by rewrite Hip.
  - apply (RInv_entry now _ log ip (IpSt [] 0 0)); [by eapply RInv_evict|].
    unfold attempts_of. by rewrite evict_keeps_absent.
Qed.

Lemma RInv_counts a b c g now log : RInv g now log -> RInv (count_rejection a b c g) now log.
Proof. intros []. by split. Qed.

(** An admission keeps the rate: what is still in the window was counted. *)
Lemma RInv_admit now g log ip st n :
  RInv g now log -> ips g !! ip = Some st -> len (attempts st) < max_per_ip_per_window g ->
  RInv (with_inflight_total n
          (with_ips (<[ip := IpSt (attempts st ++ [now]) (inflight st + 1) now]> (ips g)) g))
    now (log ++ [(ip, now)]).
Proof.
  intros [H1 H2 H3 H4] Hip Hlen. destruct (H1 ip) as (d & Heq & Hd).
  unfold attempts_of in Heq. rewrite Hip in Heq. cbn in Heq. split; gsimpl.
  - intros k. rewrite times_of_snoc. unfold attempts_of. gsimpl.
    destruct (decide (ip = k)) as [->|Hne].
    + rewrite lookup_insert_eq. cbn. exists d. rewrite Heq, <-(assoc_L app). done.
    + rewrite lookup_insert_ne, app_nil_r by done. apply H1.
  - intros k. rewrite times_of_snoc. apply Forall_app. split; [done|].
    destruct (decide _); repeat constructor. lia.
  - intros k x. destruct (decide (ip = k)) as [->|Hne].
    + rewrite lookup_insert_eq. intros [= <-]. gsimpl. split; [|lia].
      apply Forall_app. split; [|by repeat constructor].
      eapply Forall_impl; [apply (H3 k st Hip)|]. destruct (H3 k st Hip). cbn. lia.
    + rewrite lookup_insert_ne by done. apply H3.
  - intros k T. rewrite times_of_snoc. destruct (decide (ip = k)) as [->|Hne]; [|by rewrite app_nil_r].
    unfold in_window. rewrite filter_app, len_app. fold (in_window (window_seconds g) T (times_of k log)).
    fold (in_window (window_seconds g) T [now]).
    destruct (Z.le_gt_cases now T) as [HT|HT].
    + rewrite Heq. unfold in_window at 1. rewrite filter_app, len_app.
      fold (in_window (window_seconds g) T d). fold (in_window (window_seconds g) T (attempts st)).
      rewrite (in_window_none _ _ d) by (eapply Forall_impl; [apply Hd|]; cbn; lia).
      pose proof (in_window_le (window_seconds g) T (attempts st)).
      pose proof (in_window_le (window_seconds g) T [now]).
      change (len [now]) with 1 in *. rewrite len_nil. lia.
    + unfold in_window at 2. rewrite filter_cons_False by lia. rewrite filter_nil, len_nil.
      specialize (H4 k T). lia.
Qed.

Lemma RInv_release ip g now log : RInv g now log -> RInv (release ip g) now log.
Proof.
  intros Hi. unfold release. destruct (ips g !! ip) as [st|] eqn:Hip; [|done].
  set (st' := IpSt (attempts st) (inflight st - 1) (last_seen st)).
  assert (forall n, RInv (with_inflight_total n (with_ips (<[ip := st']> (ips g)) g)) now log) as Hset.
  { intros n. destruct Hi as [H1 H2 H3 H4]. split; gsimpl; try done.
    - intros k. unfold attempts_of. gsimpl. destruct (decide (ip = k)) as [->|Hne].
      + rewrite lookup_insert_eq. specialize (H1 k). unfold attempts_of in H1. by rewrite Hip in H1.
      + rewrite lookup_insert_ne by done. apply H1.
    - intros k x. destruct (decide (ip = k)) as [->|Hne].
      + rewrite lookup_insert_eq. intros [= <-]. by apply (H3 k st).
      + rewrite lookup_insert_ne by done. apply H3. }
  assert (forall g1 s, RInv g1 now log -> ips g1 !! ip = Some s -> attempts s = [] ->
            RInv (with_ips (delete ip (ips g1)) g1) now log) as Hdel.
  { intros g1 s [H1 H2 H3 H4] Hs Hnil. split; gsimpl; try done.
    - intros k. unfold attempts_of. gsimpl. destruct (decide (ip = k)) as [->|Hne].
      + rewrite lookup_delete_eq. specialize (H1 k). unfold attempts_of in H1.
        rewrite Hs in H1. cbn in *. by rewrite Hnil in H1.
      + rewrite lookup_delete_ne by done. apply H1.
    - intros k x [_ Hk]%lookup_delete_Some. by apply (H3 k). }
  assert (forall s, (len (attempts s) =? 0) = true -> attempts s = []) as Hnil.
  { intros s Hs%Z.eqb_eq. apply nil_length_inv. unfold len in Hs. lia. }
  destruct (inflight st >? 0).
  - destruct (_ && _) eqn:Hpop; [|apply Hset]. apply andb_true_iff in Hpop as [_ Hz].
    apply (Hdel _ st'); [apply Hset|apply lookup_insert_eq|by apply Hnil].
  - destruct (_ && _) eqn:Hpop; [|done]. apply andb_true_iff in Hpop as [_ Hz].
    apply (Hdel _ st); [done|done|by apply Hnil].
Qed.

Lemma reach_RInv fmt_g a b c d e g now log :
  reach fmt_g true (HandshakeGuard_init a b c d e) g now log -> RInv g now log.
Proof.
  induction 1 as [now|g now log now' ip g' Hr IH Hle Hf Ha|g now log now' ip g' ex Hr IH Hle Hf Ha|
                  g now log ip Hr IH].
  - split; cbn; try done; [by intros ip; exists []|intros ip T; change (0 <= Z.max 0 a); lia].
  - specialize (Hf eq_refl). pose proof (RInv_later _ _ _ _ IH Hle) as IH'.
    pose proof (RInv_refreshed _ _ _ _ IH' Hf) as Hi.
    pose proof (reach_GInv fmt_g _ _ _ _ _ (GInv_init a b c d e) Hr) as HG.
    destruct (GInv_refreshed now' ip g HG) as [_ Hip].
    apply acquire_cases in Ha. destruct (refreshed now' ip g) as [st g1]. cbn in Hip, Hi.
    destruct Ha as [(? & ? & ? & ? & ? & _)|(_ & _ & _ & Hlen & ->)]; [done|].
    by apply RInv_admit.
  - specialize (Hf eq_refl). pose proof (RInv_later _ _ _ _ IH Hle) as IH'.
    pose proof (RInv_refreshed _ _ _ _ IH' Hf) as Hi.
    apply acquire_cases in Ha. destruct (refreshed now' ip g) as [st g1]. cbn in Hi.
    destruct Ha as [(? & ? & ? & ? & _ & ->)|(? & _)]; [|done]. by apply RInv_counts.
  - by apply RInv_release.
Qed.

(** ** Properties *)

Section claims.
Context (fmt_g : Z -> string).

(** C30: in every run that never has to drop a remembered attempt, at most
    [max_per_ip_per_window] handshakes of one source address are admitted in
    any window of [window_seconds], wherever the window lies. *)
Theorem guard_rate_limit per_ip window in_ip total table g now log ip T :
  reach fmt_g true (HandshakeGuard_init per_ip window in_ip total table) g now log ->
  len (in_window window T (times_of ip log)) <= Z.max 0 per_ip.
Proof.
  intros Hr. pose proof (reach_RInv _ _ _ _ _ _ _ _ _ Hr) as [_ _ _ Hrate].
  assert (window_seconds g = window /\ max_per_ip_per_window g = per_ip) as [<- <-]; [|done].
  clear Hrate. induction Hr as [|? ? ? ? ? ? ? IH ? ? Ha|? ? ? ? ? ? ? ? IH ? ? Ha|? ? ? ? ? IH]; [done|..].
  1,2: apply acquire_cases in Ha; unfold refreshed in Ha;
    destruct (evict_limits now' g) as (E1 & E2 & _); destruct (ips g !! ip0);
    destruct Ha as [(? & ? & ? & ? & _ & ->)|(_ & _ & _ & _ & ->)]; gsimpl; rewrite ?E1, ?E2; done.
  unfold release. destruct (ips g !! ip0); [|done]. repeat case_match; simplify_eq/=; done.
Qed.

(** The load of an address. *)
Definition load_of (ip : string) (g : HandshakeGuard) : Z := from_option inflight 0 (ips g !! ip).

Lemma evict_load now ip g : GInv g -> load_of ip (_evict_if_needed now g) = load_of ip g.
Proof.
  intros HG. unfold load_of. destruct (ips g !! ip) as [st|] eqn:Hip.
  - destruct (decide (inflight st = 0)) as [Hz|Hz]; [|by rewrite (evict_lookup now g ip st)].
    destruct (ips (_evict_if_needed now g) !! ip) as [st'|] eqn:He; [|cbn; congruence].
    apply evict_lookup_some in He. by simplify_eq.
  - by rewrite evict_keeps_absent.
Qed.

Lemma refreshed_load now k ip g :
  GInv g -> load_of k (refreshed now ip g).2 = load_of k g /\
    inflight_total (refreshed now ip g).2 = inflight_total g.
Proof.
  intros HG. unfold refreshed. destruct (evict_limits now g) as (_ & _ & _ & _ & _ & E6).
  destruct (ips g !! ip) as [st|] eqn:Hip; gsimpl; (split; [|done]).
  - unfold load_of. gsimpl. destruct (decide (ip = k)) as [->|Hne].
    + by rewrite lookup_insert_eq, Hip.
    + by rewrite lookup_insert_ne.
  - rewrite <-(evict_load now k g HG). unfold load_of. gsimpl. destruct (decide (ip = k)) as [->|Hne].
    + rewrite lookup_insert_eq, evict_keeps_absent by done. done.
    + by rewrite lookup_insert_ne.
Qed.

(** A slot taken and given back leaves every load as it was; a refusal changes
    none. *)
Lemma acquire_release_load now ip g g' :
  GInv g -> acquire fmt_g now ip g = (g', Ok tt) ->
  inflight_total (release ip g') = inflight_total g /\ forall k, load_of k (release ip g') = load_of k g.
Proof.
  intros HG Ha. pose proof (GInv_refreshed now ip g HG) as [HG1 Hip].
  pose proof (fun k => refreshed_load now k ip g HG) as Hload. apply acquire_cases in Ha.
  destruct (refreshed now ip g) as [st gr]. cbn [fst snd] in *.
  assert (0 <= inflight_total gr) as Hnn.
  { rewrite (gi_total _ HG1). apply msum_nonneg. intros k a Hk.
    by destruct (gi_entry _ HG1 k a Hk) as [[? _] _]. }
  destruct (Hload ip) as [Hip0 Htot].
  destruct Ha as [(? & ? & ? & ? & ? & _)|(_ & _ & _ & _ & ->)]; [done|].
  unfold release. gsimpl. rewrite lookup_insert_eq. gsimpl.
  destruct (gi_entry _ HG1 ip st Hip) as [[? ?] _]. rewrite (proj2 (Z.gtb_gt _ _)) by lia. gsimpl.
  destruct (_ && _) eqn:Hpop.
  { apply andb_true_iff in Hpop as [_ Hz]. exfalso. rewrite len_snoc in Hz.
    pose proof (len_nonneg (attempts st)). apply Z.eqb_eq in Hz. lia. }
  gsimpl. split; [lia|]. intros k. rewrite <-(proj1 (Hload k)). unfold load_of. gsimpl.
  destruct (decide (ip = k)) as [->|Hne].
  - rewrite lookup_insert_eq, Hip. cbn. lia.
  - by rewrite !lookup_insert_ne.
Qed.

Lemma acquire_err_load now ip g g' e :
  GInv g -> acquire fmt_g now ip g = (g', Err e) ->
  inflight_total g' = inflight_total g /\ forall k, load_of k g' = load_of k g.
Proof.
  intros HG Ha. pose proof (fun k => refreshed_load now k ip g HG) as Hload. apply acquire_cases in Ha.
  destruct (refreshed now ip g) as [st gr]. cbn [fst snd] in *.
  destruct Ha as [(a & b & c & m & _ & ->)|(? & _)]; [|done]. split; [apply (Hload ip)|].
  intros k. apply Hload.
Qed.

(** *** Counting handshakes in flight *)

Inductive guard_op :=
  | Arrive (now : Z) (ip : string)      (* guard.acquire(ip) *)
  | Leave (ip : string).                (* guard.release(ip) *)

(** Give one slot of [ip] back, if it holds any. *)
Fixpoint give_back (ip : string) (held : list string) : list string :=
  match held with
  | [] => []
  | k :: held => if decide (k = ip) then held else k :: give_back ip held
  end.

(** A run of the guard, with the history beside it: the addresses of the
    arrivals that were admitted and have not left, one entry for each. *)
Fixpoint guard_run (ops : list guard_op) (g : HandshakeGuard) (held : list string) : HandshakeGuard * list string :=
  match ops with
  | [] => (g, held)
  | Arrive now ip :: ops =>
      match acquire fmt_g now ip g with
      | (g', Ok _) => guard_run ops g' (ip :: held)
      | (g', Err _) => guard_run ops g' held
      end
  | Leave ip :: ops => guard_run ops (release ip g) (give_back ip held)
  end.

Definition holding (ip : string) (held : list string) : Z := len (filter (fun k => k = ip) held).

Record counted (g0 g : HandshakeGuard) (held : list string) : Prop := {
  co_inv : GInv g;
  co_total : inflight_total g = len held;
  co_load : forall ip, load_of ip g = holding ip held;
  co_limits : max_inflight_total g = max_inflight_total g0 /\ max_inflight_per_ip g = max_inflight_per_ip g0 /\
    max_tracked_ips g = max_tracked_ips g0 /\ max_per_ip_per_window g = max_per_ip_per_window g0
}.

Definition same_limits (g g' : HandshakeGuard) : Prop :=
  max_inflight_total g' = max_inflight_total g /\ max_inflight_per_ip g' = max_inflight_per_ip g /\
  max_tracked_ips g' = max_tracked_ips g /\ max_per_ip_per_window g' = max_per_ip_per_window g.

Lemma acquire_limits now ip g g' r : acquire fmt_g now ip g = (g', r) -> same_limits g g'.
Proof.
  intros Ha. apply acquire_cases in Ha. destruct (evict_limits now g) as (E1 & _ & E3 & E4 & E5 & _).
  unfold refreshed in Ha. destruct (ips g !! ip);
    destruct Ha as [(? & ? & ? & ? & _ & ->)|(_ & _ & _ & _ & ->)]; unfold same_limits; gsimpl; by rewrite ?E1, ?E3, ?E4, ?E5.
Qed.

Lemma release_limits ip g : same_limits g (release ip g).
Proof. unfold release, same_limits. destruct (ips g !! ip); [|done]. repeat case_match; simplify_eq/=; done. Qed.

(** An admission adds one to the load of its address and to the total. *)
Lemma acquire_ok_load now ip g g' :
  GInv g -> acquire fmt_g now ip g = (g', Ok tt) ->
  inflight_total g' = inflight_total g + 1 /\
  forall k, load_of k g' = load_of k g + (if decide (ip = k) then 1 else 0).
Proof.
  intros HG Ha. pose proof (GInv_refreshed now ip g HG) as [_ Hip].
  pose proof (fun k => refreshed_load now k ip g HG) as Hload. apply acquire_cases in Ha.
  destruct (refreshed now ip g) as [st gr]. cbn [fst snd] in *. destruct (Hload ip) as [_ Htot].
  destruct Ha as [(? & ? & ? & ? & ? & _)|(_ & _ & _ & _ & ->)]; [done|]. gsimpl. split; [lia|].
  intros k. rewrite <-(proj1 (Hload k)). unfold load_of. gsimpl. case_decide as Hd.
  - subst k. rewrite lookup_insert_eq, Hip. done.
  - rewrite lookup_insert_ne by done. lia.
Qed.

(** A release takes one away, where there is one. *)
Lemma release_load ip g :
  GInv g ->
  let d := if 0 <? load_of ip g then 1 else 0 in
  inflight_total (release ip g) = inflight_total g - d /\
  forall k, load_of k (release ip g) = load_of k g - (if decide (ip = k) then d else 0).
Proof.
  intros HG d. unfold release. unfold load_of in d.
  destruct (ips g !! ip) as [st|] eqn:Hip; [|cbn in d; split; [lia|intros k; case_decide; lia]]. cbn in d.
  destruct (gi_entry _ HG ip st Hip) as [[Hnn _] _].
  assert (inflight st <= inflight_total g) as Hle.
  { rewrite (gi_total _ HG). apply (msum_elem_le inflight (ips g) ip st); [|done]. intros k a Hk.
    by destruct (gi_entry _ HG k a Hk) as [[? _] _]. }
  assert (forall (g1 : HandshakeGuard) st', ips g1 !! ip = Some st' -> inflight st' = inflight st - d ->
    inflight_total g1 = inflight_total g - d -> (forall k, ip <> k -> ips g1 !! k = ips g !! k) ->
    let g2 := if (inflight st' =? 0) && (len (attempts st') =? 0) then with_ips (delete ip (ips g1)) g1 else g1 in
    inflight_total g2 = inflight_total g - d /\
    forall k, from_option inflight 0 (ips g2 !! k) = from_option inflight 0 (ips g !! k) - (if decide (ip = k) then d else 0)) as Hend.
  { intros g1 st' Hst Hin Htot Hoth g2. split; [unfold g2; by destruct (_ && _)|]. intros k. case_decide as Hk.
    - subst k. rewrite Hip. cbn. unfold g2. destruct (_ && _) eqn:Hpop; gsimpl.
      + rewrite lookup_delete_eq. cbn. apply andb_true_iff in Hpop as [Hz _]. apply Z.eqb_eq in Hz. lia.
      + rewrite Hst. cbn. lia.
    - unfold g2. destruct (_ && _); gsimpl; rewrite ?lookup_delete_ne, Hoth by done; lia. }
  unfold load_of. destruct (Z.gtb_spec (inflight st) 0) as [Hpos|Hpos].
  - assert (d = 1) as Hd by (unfold d; destruct (Z.ltb_spec 0 (inflight st)); lia).
    apply Hend; gsimpl; [by rewrite lookup_insert_eq|gsimpl; lia|lia|]. intros k Hk. by rewrite lookup_insert_ne.
  - assert (d = 0) as Hd by (unfold d; destruct (Z.ltb_spec 0 (inflight st)); lia).
    apply Hend; [done|lia|lia|done].
Qed.

Lemma holding_cons ip k held : holding ip (k :: held) = holding ip held + (if decide (k = ip) then 1 else 0).
Proof. unfold holding. rewrite filter_cons. case_decide; rewrite ?len_cons; lia. Qed.

Lemma give_back_holding ip k held :
  let d := if 0 <? holding ip held then 1 else 0 in
  len (give_back ip held) = len held - d /\
  holding k (give_back ip held) = holding k held - (if decide (ip = k) then d else 0).
Proof.
  induction held as [|x held [IH1 IH2]]; cbn [give_back]; [cbn; by case_decide|].
  pose proof (len_nonneg (filter (fun y => y = ip) held)) as Hnn. fold (holding ip held) in Hnn.
  rewrite !holding_cons, len_cons. destruct (decide (x = ip)) as [->|Hne].
  - rewrite (proj2 (Z.ltb_lt _ _)) by lia. split; [lia|]. case_decide; lia.
  - rewrite Z.add_0_r, holding_cons, len_cons, IH1, IH2. split; lia.
Qed.

Lemma guard_run_counted g0 ops g held :
  counted g0 g held -> let '(g', held') := guard_run ops g held in counted g0 g' held'.
Proof.
  revert g held. induction ops as [|[now ip|ip] ops IH]; intros g held Hc; cbn [guard_run]; [done|..].
  - destruct Hc as [HG Ht Hl (M1 & M2 & M3 & M4)]. destruct (acquire fmt_g now ip g) as [g' [[]|e]] eqn:Ha; apply IH.
    all: destruct (acquire_limits _ _ _ _ _ Ha) as (L1 & L2 & L3 & L4); pose proof (GInv_acquire _ _ _ _ _ _ Ha HG) as HG'.
    + destruct (acquire_ok_load _ _ _ _ HG Ha) as [A1 A2]. split; [done|rewrite len_cons; lia| |rewrite L1, L2, L3, L4; done].
      intros k. by rewrite A2, Hl, holding_cons.
    + destruct (acquire_err_load _ _ _ _ _ HG Ha) as [A1 A2]. split; [done|lia| |rewrite L1, L2, L3, L4; done].
      intros k. by rewrite A2.
  - destruct Hc as [HG Ht Hl (M1 & M2 & M3 & M4)]. apply IH. destruct (release_limits ip g) as (L1 & L2 & L3 & L4).
    destruct (release_load ip g HG) as [A1 A2]. rewrite Hl in A1, A2. pose proof (give_back_holding ip) as Hg.
    split; [by apply GInv_release| | |by rewrite L1, L2, L3, L4].
    + destruct (Hg "" held) as [-> _]. lia.
    + intros k. destruct (Hg k held) as [_ ->]. by rewrite A2, Hl.
Qed.

(** C31: whatever the sequence of arrivals and departures, the handshakes in
    flight are counted exactly: the total is the number of arrivals that were
    admitted and have not left, and the load of an address the number of its
    own (a departure of an address that holds nothing changes nothing).  So in
    all and per address they stay under their caps; no address is remembered
    with more attempts than the limit; and, when the cap on the total is at
    least 0 and below the size of the table, as in the configuration, the table
    of addresses stays within its bound. *)
Theorem guard_caps per_ip window in_ip total table ops g held :
  guard_run ops (HandshakeGuard_init per_ip window in_ip total table) [] = (g, held) ->
  inflight_total g = len held /\ (forall ip, load_of ip g = holding ip held) /\
  len held <= Z.max 0 total /\ (forall ip, holding ip held <= Z.max 0 in_ip) /\
  (forall ip, len (attempts_of ip g) <= Z.max 0 per_ip) /\
  (0 <= total < table -> tracked (ips g) <= table).
Proof.
  intros Hr. set (g0 := HandshakeGuard_init per_ip window in_ip total table) in *.
  pose proof (guard_run_counted g0 ops g0 []) as Hc. rewrite Hr in Hc.
  destruct Hc as [HG Ht Hl (M1 & M2 & M3 & M4)]; [split; [apply GInv_init|done|done|done]|].
  destruct HG as [_ Hcap Hent Htr]. rewrite M1, M2, M3, M4 in *. cbn in Hcap, Hent, Htr.
  split_and!; [done|done|lia| | |done].
  - intros ip. rewrite <-Hl. unfold load_of. destruct (ips g !! ip) as [st|] eqn:Hip; [|cbn; lia].
    apply (Hent _ _ Hip).
  - intros ip. unfold attempts_of. destruct (ips g !! ip) as [st|] eqn:Hip; [|change (0 <= Z.max 0 per_ip); lia]. apply (Hent _ _ Hip).
Qed.

(** Entering and leaving a slot is balanced: after leaving, the slot is
    not held and every address, and the total, has the load it had before,
    whether the guard admitted the caller or refused it. *)
Theorem slot_balanced now ip g g1 sl r :
  GInv g -> aenter fmt_g now (g, slot ip) = (g1, sl, r) ->
  let '(g2, sl2) := aexit (g1, sl) in
  slot_held sl2 = false /\ inflight_total g2 = inflight_total g /\
  forall k, load_of k g2 = load_of k g.
Proof.
  intros HG. unfold aenter. cbn [slot slot_ip slot_held].
  destruct (acquire fmt_g now ip g) as [g' [[]|e]] eqn:Ha; intros [= <- <- <-];
    cbn [aexit slot_held slot_ip]; (split; [done|]).
  - by eapply acquire_release_load.
  - by eapply acquire_err_load.
Qed.
End claims.

(** ** Witnesses *)

Definition fmt0 (_ : Z) : string := "60".

Definition guard0 : HandshakeGuard := HandshakeGuard_init 2 60 4 128 8192.

(** Two admissions of one address, a third refused, and one after the window. *)
Definition guard_after (l : list (Z * string)) (g : HandshakeGuard) : HandshakeGuard :=
  foldl (fun g e => state_after (acquire fmt0 e.1 e.2) g) g l.

Definition log0 : list (string * Z) := [("10.0.0.7", 1); ("10.0.0.7", 5); ("10.0.0.7", 62)].

Definition guard_end : HandshakeGuard :=
  release "10.0.0.7" (guard_after [(1, "10.0.0.7"); (5, "10.0.0.7"); (6, "10.0.0.7"); (62, "10.0.0.7")] guard0).

Lemma guard_end_reach : reach fmt0 true guard0 guard_end 62 log0.
Proof.
  apply reach_release.
  apply (reach_admit fmt0 true guard0
           (guard_after [(1, "10.0.0.7"); (5, "10.0.0.7"); (6, "10.0.0.7")] guard0) 6
           [("10.0.0.7", 1); ("10.0.0.7", 5)] 62 "10.0.0.7"); [|lia|done|by vm_compute].
  eapply (reach_reject fmt0 true guard0 (guard_after [(1, "10.0.0.7"); (5, "10.0.0.7")] guard0) 5
           [("10.0.0.7", 1); ("10.0.0.7", 5)] 6 "10.0.0.7"); [|lia|done|by vm_compute].
  apply (reach_admit fmt0 true guard0 (guard_after [(1, "10.0.0.7")] guard0) 1
           [("10.0.0.7", 1)] 5 "10.0.0.7"); [|lia|done|by vm_compute].
  apply (reach_admit fmt0 true guard0 guard0 0 [] 1 "10.0.0.7"); [|lia|done|by vm_compute].
  constructor.
Qed.

Lemma guard_rate_limit_witness : len (in_window 60 62 (times_of "10.0.0.7" log0)) <= 2.
Proof. apply (guard_rate_limit fmt0 2 60 4 128 8192 guard_end 62 log0 "10.0.0.7" 62 guard_end_reach). Defined.

(** Two admitted, one leaves, an address leaves that was never admitted. *)
Definition some_ops : list guard_op :=
  [Arrive 1 "10.0.0.7"; Arrive 2 "10.0.0.8"; Arrive 3 "10.0.0.7"; Leave "10.0.0.7"; Leave "10.0.0.9"].

Lemma guard_caps_witness :
  let g := (guard_run fmt0 some_ops guard0 []).1 in
  inflight_total g = 2 /\ load_of "10.0.0.7" g = 1 /\ tracked (ips g) <= 8192.
Proof.
  destruct (guard_caps fmt0 2 60 4 128 8192 some_ops (guard_run fmt0 some_ops guard0 []).1
    (guard_run fmt0 some_ops guard0 []).2) as (H1 & H2 & _ & _ & _ & H6); [by vm_compute|].
  cbv zeta. rewrite H1, (H2 "10.0.0.7"). split; [by vm_compute|]. split; [by vm_compute|]. apply H6. lia.
Defined.

Definition entered : HandshakeGuard * GuardSlot :=
  state_after (aenter fmt0 70) (guard_end, slot "10.0.0.8").

Lemma slot_balanced_witness :
  let '(g2, sl2) := aexit (entered.1, entered.2) in
  slot_held sl2 = false /\ inflight_total g2 = inflight_total guard_end /\
  forall k, load_of k g2 = load_of k guard_end.
Proof.
  apply (slot_balanced fmt0 70 "10.0.0.8" guard_end entered.1 entered.2 (Ok tt)).
  - apply (reach_GInv fmt0 true guard0 guard_end 62 log0); [apply GInv_init|apply guard_end_reach].
  - by vm_compute.
Defined.

(** A full table of one address: making room for a second address forgets the
    first one's attempts, so the first is admitted twice in one window of which
    it may use one. *)
Definition tiny : HandshakeGuard := HandshakeGuard_init 1 60 4 128 1.

Definition tiny_run : result unit :=
  let g1 := release "a" (state_after (acquire fmt0 1 "a") tiny) in
  let g2 := release "b" (state_after (acquire fmt0 2 "b") g1) in
  outcome (acquire fmt0 3 "a") g2.

Example full_table_forgets : tiny_run = Ok tt.
Proof. by vm_compute. Qed.
