(* ===== verification/Mux.v ===== *)
(** * The channel multiplexer ([memnode/mux.py])

    Per-stream queues served round-robin by one writer task, with a semaphore
    for backpressure.  The tasks interleave only at their awaits, so a step of
    the model is the code between two awaits: a [send] up to the semaphore or
    to its end, a sender resumed by the semaphore, one turn of the writer loop,
    the end of [channel.send_msg], and [close]. *)
From S2P Require Import Prelude Config PyVal Protocol.

(** ** State *)

(** Where the writer task is: not created, at the head of its loop, waiting
    for [_wake], inside [channel.send_msg], or finished. *)
Inductive writer_state := WNone | WReady | WWaiting | WSending (m : Message) | WDone.

Record ChannelMux := Mux {
  queues : gmap Z (list Message);
  order : list Z;
  wake : bool;
  slots : Z;                             (* the semaphore's counter *)
  waiting : list (Z * Message);          (* senders blocked on it, first come first *)
  closed : bool;
  writer_task : writer_state;
  messages_sent : Z;
  messages_received : Z;
  max_queue_depth : Z
}.

Definition ChannelMux_init (max_queued : Z) : ChannelMux :=
  Mux ∅ [] false max_queued [] false WNone 0 0 0.

(** [sum(len(q) for q in self._queues.values())] *)
Definition queued (q : gmap Z (list Message)) : Z := msum len q.

(** ** Sending *)

(** The part of [send] after the semaphore was acquired. *)
Definition enqueue (sid : Z) (m : Message) (s : ChannelMux) : ChannelMux :=
  let '(q, ord) :=
    match queues s !! sid with
    | None => (<[sid := [m]]> (queues s), order s ++ [sid])
    | Some q => (<[sid := q ++ [m]]> (queues s), order s)
    end in
  Mux q ord true (slots s) (waiting s) (closed s) (writer_task s) (messages_sent s)
    (messages_received s) (Z.max (max_queue_depth s) (queued q)).

Definition take_slot (s : ChannelMux) : ChannelMux :=
  Mux (queues s) (order s) (wake s) (slots s - 1) (waiting s) (closed s) (writer_task s)
    (messages_sent s) (messages_received s) (max_queue_depth s).

Definition with_waiting (w : list (Z * Message)) (s : ChannelMux) : ChannelMux :=
  Mux (queues s) (order s) (wake s) (slots s) w (closed s) (writer_task s)
    (messages_sent s) (messages_received s) (max_queue_depth s).

(** [send]: [Ok true] when the message was queued, [Ok false] when the caller
    is now blocked on the semaphore. *)
Definition send (m : Message) (sid : option Z) : M ChannelMux bool := fun s =>
  if closed s then (s, Err (Exn ConnectionError "channel multiplexer is closed"))
  else
    match (match sid with Some sid => Ok sid | None => stream_id m end) with
    | Err e => (s, Err e)
    | Ok sid =>
        if (0 <? slots s) && (len (waiting s) =? 0)
        then (enqueue sid m (take_slot s), Ok true)
        else (with_waiting (waiting s ++ [(sid, m)]) s, Ok false)
    end.

(** The first blocked sender goes on when a slot is free. *)
Definition resume (s : ChannelMux) : option ChannelMux :=
  match waiting s with
  | (sid, m) :: w => if 0 <? slots s then Some (enqueue sid m (take_slot (with_waiting w s))) else None
  | [] => None
  end.

(** ** The writer loop *)

Definition with_writer_task (w : writer_state) (s : ChannelMux) : ChannelMux :=
  Mux (queues s) (order s) (wake s) (slots s) (waiting s) (closed s) w
    (messages_sent s) (messages_received s) (max_queue_depth s).

Definition with_wake (b : bool) (s : ChannelMux) : ChannelMux :=
  Mux (queues s) (order s) b (slots s) (waiting s) (closed s) (writer_task s)
    (messages_sent s) (messages_received s) (max_queue_depth s).

Definition with_queues (q : gmap Z (list Message)) (ord : list Z) (s : ChannelMux) : ChannelMux :=
  Mux q ord (wake s) (slots s) (waiting s) (closed s) (writer_task s)
    (messages_sent s) (messages_received s) (max_queue_depth s).

(** One turn from the head of the loop to the next await; the second component
    is the message that is now being sent, with its stream. *)
Definition writer_turn (s : ChannelMux) : ChannelMux * option (Z * Message) :=
  if closed s then (with_writer_task WDone s, None)
  else
    match order s with
    | [] => (with_writer_task WWaiting (with_wake false s), None)
    | sid :: ord =>
        match queues s !! sid with
        | Some (m :: q) =>
            let s' :=
              match q with
              | _ :: _ => with_queues (<[sid := q]> (queues s)) (ord ++ [sid]) s
              | [] => with_queues (delete sid (queues s)) ord s
              end in
            (with_writer_task (WSending m) s', Some (sid, m))
        | _ => (with_writer_task WReady (with_queues (delete sid (queues s)) ord s), None)
        end
    end.

(** [channel.send_msg] returned ([ok]) or raised: the slot is released either
    way, an exception also ends the loop and closes the multiplexer. *)
Definition writer_sent (ok : bool) (s : ChannelMux) : ChannelMux :=
  Mux (queues s) (order s) (wake s) (slots s + 1) (waiting s)
    (if ok then closed s else true) (if ok then WReady else WDone)
    (if ok then messages_sent s + 1 else messages_sent s) (messages_received s) (max_queue_depth s).

(** ** Receiving and closing *)

Definition start_writer (s : ChannelMux) : ChannelMux := with_writer_task WReady s.

(** Cancelling the writer ends it at its await; the [finally] around
    [send_msg] gives its slot back. *)
Definition cancel_writer (s : ChannelMux) : ChannelMux :=
  match writer_task s with
  | WNone | WDone => s
  | WSending _ =>
      Mux (queues s) (order s) (wake s) (slots s + 1) (waiting s) (closed s) WDone
        (messages_sent s) (messages_received s) (max_queue_depth s)
  | _ => with_writer_task WDone s
  end.

Definition close (s : ChannelMux) : ChannelMux :=
  if closed s then s
  else cancel_writer
    (Mux (queues s) (order s) true (slots s) (waiting s) true (writer_task s)
       (messages_sent s) (messages_received s) (max_queue_depth s)).

Definition received (s : ChannelMux) : ChannelMux :=
  Mux (queues s) (order s) (wake s) (slots s) (waiting s) (closed s) (writer_task s)
    (messages_sent s) (messages_received s + 1) (max_queue_depth s).

(** The read loop of [run] on the messages that arrive before [recv_msg]
    raises [e]: [on_message] acts on the handler's own state [H], and what it
    raises is logged and dropped. *)
Section run.
Context {H : Type} (on_message : option (Message -> M H unit)).

Definition dispatch (m : Message) (h : H) : H :=
  match on_message with
  | None => h
  | Some f => state_after (f m) h
  end.

Fixpoint read_loop (incoming : list Message) (e : exn) (s : ChannelMux) (h : H)
    : ChannelMux * H * exn :=
  match incoming with
  | [] => (close s, h, e)
  | m :: incoming => read_loop incoming e (received s) (dispatch m h)
  end.

Definition run (incoming : list Message) (e : exn) (s : ChannelMux) (h : H)
    : ChannelMux * H * exn :=
  read_loop incoming e (start_writer s) h.
End run.

(** The [stats] dictionary. *)
Definition stats (s : ChannelMux) : pydict :=
  [("messages_sent", VInt (messages_sent s)); ("messages_received", VInt (messages_received s));
   ("open_streams", VInt (Z.of_nat (size (queues s))));
   ("max_queue_depth", VInt (max_queue_depth s)); ("closed", VBool (closed s))].

(** ** Steps

    [enqd] and [popped] are what was queued and what was handed to the channel
    so far, with the streams. *)

Record trace := Trace { enqd : list (Z * Message); popped : list (Z * Message) }.

Inductive step : ChannelMux * trace -> ChannelMux * trace -> Prop :=
  | step_send m sid s s' b t :
      send m sid s = (s', Ok b) ->
      step (s, t) (s', Trace (enqd t ++ (if b then [(match sid with Some i => i | None =>
          match stream_id m with Ok i => i | Err _ => 0 end end, m)] else [])) (popped t))
  | step_resume s s' sid m w t :
      waiting s = (sid, m) :: w -> resume s = Some s' ->
      step (s, t) (s', Trace (enqd t ++ [(sid, m)]) (popped t))
  | step_start s t : writer_task s = WNone -> step (s, t) (start_writer s, t)
  | step_wake s t : writer_task s = WWaiting -> wake s = true ->
      step (s, t) (with_writer_task WReady s, t)
  | step_turn s s' o t :
      writer_task s = WReady -> writer_turn s = (s', o) ->
      step (s, t) (s', Trace (enqd t) (popped t ++ option_list o))
  | step_sent s m ok t : writer_task s = WSending m -> step (s, t) (writer_sent ok s, t)
  | step_close s t : step (s, t) (close s, t)
  | step_received s t : step (s, t) (received s, t).

Definition reachable (max_queued : Z) (st : ChannelMux * trace) : Prop :=
  rtc step (ChannelMux_init max_queued, Trace [] []) st.

(** ** The invariant

    The rotation lists exactly the streams with something queued, each once,
    and every message queued or being sent holds one slot. *)

Definition in_flight (s : ChannelMux) : Z :=
  match writer_task s with WSending _ => 1 | _ => 0 end.

Record MInv (max_queued : Z) (s : ChannelMux) : Prop := {
  mi_order : NoDup (order s);
  mi_dom : forall sid, sid ∈ order s <-> is_Some (queues s !! sid);
  mi_nonempty : forall sid, queues s !! sid <> Some [];
  mi_slots : slots s + queued (queues s) + in_flight s = max_queued;
  mi_free : 0 <= slots s;
  mi_depth : max_queue_depth s <= max_queued
}.

Ltac msimpl := cbn [queues order wake slots waiting closed writer_task messages_sent
  messages_received max_queue_depth take_slot with_waiting with_writer_task with_wake with_queues
  start_writer received enqd popped fst snd].

Ltac msimpl_all := cbn [queues order wake slots waiting closed writer_task messages_sent
  messages_received max_queue_depth take_slot with_waiting with_writer_task with_wake with_queues
  start_writer received enqd popped fst snd] in *.

Lemma MInv_ext n s s' :
  MInv n s -> queues s' = queues s -> order s' = order s ->
  slots s' + in_flight s' = slots s + in_flight s -> 0 <= slots s' ->
  max_queue_depth s' = max_queue_depth s -> MInv n s'.
Proof. intros [H1 H2 H3 H4 H5 H6] E1 E2 E3 E4 E5. split; rewrite ?E1, ?E2, ?E5; try done. lia. Qed.

Lemma queued_nonneg q : 0 <= queued q.
Proof. apply msum_nonneg. intros. apply len_nonneg. Qed.

(** What [enqueue] does to the queues. *)
Lemma enqueue_queues sid m s :
  queues (enqueue sid m s) = <[sid := default [] (queues s !! sid) ++ [m]]> (queues s) /\
  order (enqueue sid m s) = order s ++ (match queues s !! sid with Some _ => [] | None => [sid] end) /\
  queued (queues (enqueue sid m s)) = queued (queues s) + 1 /\
  slots (enqueue sid m s) = slots s /\ waiting (enqueue sid m s) = waiting s /\
  writer_task (enqueue sid m s) = writer_task s /\
  max_queue_depth (enqueue sid m s) = Z.max (max_queue_depth s) (queued (queues s) + 1).
Proof.
  unfold enqueue, queued. destruct (queues s !! sid) as [q|] eqn:Hq; msimpl.
  - rewrite (msum_update _ _ _ _ _ Hq), len_snoc, app_nil_r. cbn [default from_option id].
    split_and!; try done; [lia|f_equal; lia].
  - rewrite msum_insert by done. change (len [m]) with 1. cbn [default from_option id].
    split_and!; try done; [lia|f_equal; lia].
Qed.

Lemma MInv_enqueue n sid m s : MInv n s -> 0 < slots s -> MInv n (enqueue sid m (take_slot s)).
Proof.
  intros [H1 H2 H3 H4 H5 H6] Hs.
  destruct (enqueue_queues sid m (take_slot s)) as (E1 & E2 & E3 & E4 & _ & E6 & E7). msimpl_all.
  assert (sid ∉ order s <-> queues s !! sid = None) as Hnew.
  { rewrite H2, eq_None_not_Some. done. }
  split; rewrite ?E1, ?E2, ?E4, ?E7.
  - destruct (queues s !! sid) eqn:Hq; [by rewrite app_nil_r|].
    apply NoDup_app. split_and!; [done| |apply NoDup_singleton]. intros x Hx ->%list_elem_of_singleton.
    by apply Hnew in Hx.
  - intros x. rewrite elem_of_app, H2. destruct (decide (sid = x)) as [->|Hne].
    + rewrite lookup_insert_eq. split; [done|]. intros _. destruct (queues s !! x); [by left|right; by left].
    + rewrite lookup_insert_ne by done. split; [|by left]. intros [?|Hx]; [done|].
      destruct (queues s !! sid); [by apply not_elem_of_nil in Hx|].
      apply list_elem_of_singleton in Hx. congruence.
  - intros x. destruct (decide (sid = x)) as [->|Hne].
    + rewrite lookup_insert_eq. intros [= Habs]. by destruct (default [] (queues s !! x)).
    + rewrite lookup_insert_ne by done. apply H3.
  - rewrite <-E1, E3. unfold in_flight in *. rewrite E6. lia.
  - lia.
  - pose proof (queued_nonneg (queues s)). unfold in_flight in *. destruct (writer_task s); lia.
Qed.

(** What a turn that sends does. *)
Lemma writer_turn_sends s s' sid m :
  writer_turn s = (s', Some (sid, m)) ->
  closed s = false /\ exists ord q, order s = sid :: ord /\ queues s !! sid = Some (m :: q) /\
    queues s' = (match q with [] => delete sid (queues s) | _ => <[sid := q]> (queues s) end) /\
    order s' = ord ++ (match q with [] => [] | _ => [sid] end) /\
    slots s' = slots s /\ waiting s' = waiting s /\ writer_task s' = WSending m /\
    max_queue_depth s' = max_queue_depth s.
Proof.
  unfold writer_turn. destruct (closed s); [done|]. destruct (order s) as [|k ord]; [done|].
  destruct (queues s !! k) as [[|m' q]|] eqn:Hq; try done. intros [= <- <- <-].
  split; [done|]. exists ord, q. destruct q; msimpl; rewrite ?app_nil_r; by split_and!.
Qed.

Lemma MInv_turn n s s' o : MInv n s -> writer_task s = WReady -> writer_turn s = (s', o) -> MInv n s'.
Proof.
  intros Hi Hw Ht. pose proof Hi as [H1 H2 H3 H4 H5 H6]. destruct o as [[sid m]|].
  - apply writer_turn_sends in Ht as (_ & ord & q & Ho & Hq & E1 & E2 & E3 & _ & E5 & E6).
    rewrite Ho in H1. apply NoDup_cons in H1 as [Hn Hnd].
    assert (forall x, x ∈ ord <-> x <> sid /\ is_Some (queues s !! x)) as Hord.
    { intros x. rewrite <-H2, Ho, elem_of_cons. naive_solver. }
    unfold in_flight in *. rewrite Hw in H4. split; rewrite ?E3, ?E5, ?E6; try done.
    + rewrite E2. destruct q; [by rewrite app_nil_r|].
      apply NoDup_app. split_and!; [done| |apply NoDup_singleton]. by intros x Hx ->%list_elem_of_singleton.
    + intros x. rewrite E1, E2, elem_of_app, Hord. destruct q as [|m' q].
      * rewrite lookup_delete_is_Some. split; [|naive_solver]. intros [?|Hx]; [naive_solver|].
        by apply not_elem_of_nil in Hx.
      * rewrite lookup_insert_is_Some, list_elem_of_singleton. destruct (decide (sid = x)); naive_solver.
    + intros x. rewrite E1. destruct q as [|m' q].
      * intros [_ Hx]%lookup_delete_Some. by apply (H3 x).
      * destruct (decide (sid = x)) as [->|Hne]; [by rewrite lookup_insert_eq|].
        rewrite lookup_insert_ne by done. apply H3.
    + rewrite E1. unfold in_flight. rewrite E5. unfold queued in *. destruct q as [|m' q].
      * rewrite (msum_delete _ _ _ _ Hq), len_cons, len_nil. lia.
      * rewrite (msum_update _ _ _ _ _ Hq), !len_cons. lia.
  - unfold writer_turn in Ht. destruct (closed s).
    { injection Ht as <-. apply (MInv_ext n s); try done. unfold in_flight. by rewrite Hw. }
    destruct (order s) as [|sid ord] eqn:Ho.
    { injection Ht as <-. apply (MInv_ext n s); try done. unfold in_flight. by rewrite Hw. }
    exfalso. assert (is_Some (queues s !! sid)) as [q Hq] by (apply H2; by left).
    rewrite Hq in Ht. destruct q; [by apply (H3 sid)|done].
Qed.

Lemma send_cases m sid s s' b :
  send m sid s = (s', Ok b) ->
  closed s = false /\ exists i, (match sid with Some i => Ok i | None => stream_id m end) = Ok i /\
    (if b then 0 < slots s /\ waiting s = [] /\ s' = enqueue i m (take_slot s)
     else s' = with_waiting (waiting s ++ [(i, m)]) s).
Proof.
  unfold send. destruct (closed s); [done|]. destruct (match sid with Some _ => _ | None => _ end) as [i|e];
    [|done].
  destruct (_ && _) eqn:Hc; intros [= <- <-]; (split; [done|]; exists i; split; [done|]); [|done].
  apply andb_true_iff in Hc as [H1%Z.ltb_lt H2%Z.eqb_eq]. split_and!; try done.
  apply nil_length_inv. unfold len in H2. lia.
Qed.

Lemma resume_cases s s' sid m w :
  waiting s = (sid, m) :: w -> resume s = Some s' ->
  0 < slots s /\ s' = enqueue sid m (take_slot (with_waiting w s)).
Proof. unfold resume. intros ->. zcase; [|done]. by intros [= <-]. Qed.

(** Closing changes no queue. *)
Lemma close_same s :
  queues (close s) = queues s /\ order (close s) = order s /\
  slots (close s) + in_flight (close s) = slots s + in_flight s /\
  max_queue_depth (close s) = max_queue_depth s /\ slots s <= slots (close s).
Proof.
  unfold close, cancel_writer, in_flight. destruct (closed s); [split_and!; (done || lia)|].
  destruct (writer_task s) eqn:Hw; msimpl; rewrite ?Hw; split_and!; (done || lia).
Qed.

Lemma step_MInv n s t s' t' : step (s, t) (s', t') -> MInv n s -> MInv n s'.
Proof.
  intros Hst Hi. inversion Hst as [m sid ? ? b ? Hs|? ? sid m w ? Hw Hr|? ? Hw|? ? Hw Hk|
    ? ? o ? Hw Ht|? m ok ? Hw| |]; subst.
  - apply send_cases in Hs as (_ & i & _ & Hb). destruct b.
    + destruct Hb as (Hsl & _ & ->). by apply MInv_enqueue.
    + subst. by apply (MInv_ext n s); try done; apply Hi.
  - destruct (resume_cases _ _ _ _ _ Hw Hr) as [Hsl ->]. apply MInv_enqueue; [|done].
    by apply (MInv_ext n s); try done; apply Hi.
  - apply (MInv_ext n s); try done; [unfold in_flight; by rewrite Hw|apply Hi].
  - apply (MInv_ext n s); try done; [unfold in_flight; by rewrite Hw|apply Hi].
  - by eapply MInv_turn.
  - pose proof (mi_free _ _ Hi). apply (MInv_ext n s); try done; msimpl; [|unfold writer_sent; msimpl; lia].
    unfold in_flight, writer_sent. msimpl. rewrite Hw. destruct ok; lia.
  - destruct (close_same s) as (E1 & E2 & E3 & E4 & E5). pose proof (mi_free _ _ Hi).
    apply (MInv_ext n s); try done. lia.
  - apply (MInv_ext n s); try done. apply Hi.
Qed.

Lemma MInv_init n : 0 <= n -> MInv n (ChannelMux_init n).
Proof.
  intros Hn. split; unfold ChannelMux_init, in_flight, queued; msimpl; rewrite ?msum_empty; try done;
    try lia; [apply NoDup_nil_2|].
  intros sid. rewrite lookup_empty. split; [by intros ?%not_elem_of_nil|by intros []].
Qed.

Lemma rtc_MInv n st st' : rtc step st st' -> MInv n st.1 -> MInv n st'.1.
Proof.
  induction 1 as [|[s t] [s1 t1] st' Hs _ IH]; [done|]. intros Hi. apply IH.
  by eapply step_MInv.
Qed.

(** ** Order within a stream *)

Definition on_stream (sid : Z) (l : list (Z * Message)) : list Message :=
  (filter (fun e => e.1 = sid) l).*2.

Lemma on_stream_app sid l1 l2 : on_stream sid (l1 ++ l2) = on_stream sid l1 ++ on_stream sid l2.
Proof. unfold on_stream. by rewrite filter_app, fmap_app. Qed.

Lemma on_stream_one sid k m : on_stream sid [(k, m)] = if decide (k = sid) then [m] else [].
Proof.
  unfold on_stream. destruct (decide (k = sid)); [by rewrite filter_cons_True|].
  by rewrite filter_cons_False.
Qed.

(** What was queued on a stream is what was sent of it followed by what is
    still in its queue. *)
Definition fifo (s : ChannelMux) (t : trace) : Prop :=
  forall sid, on_stream sid (enqd t) = on_stream sid (popped t) ++ default [] (queues s !! sid).

Lemma fifo_enqueue sid m s t :
  fifo s t -> fifo (enqueue sid m (take_slot s)) (Trace (enqd t ++ [(sid, m)]) (popped t)).
Proof.
  intros Hf k. msimpl. destruct (enqueue_queues sid m (take_slot s)) as (-> & _). msimpl.
  rewrite on_stream_app, on_stream_one, Hf. destruct (decide (sid = k)) as [->|Hne].
  - rewrite lookup_insert_eq. cbn [default from_option id]. by rewrite (assoc_L app).
  - by rewrite lookup_insert_ne, app_nil_r.
Qed.

Lemma fifo_turn s s' o t :
  fifo s t -> writer_turn s = (s', o) -> (o = None -> forall sid, queues s !! sid <> Some []) ->
  fifo s' (Trace (enqd t) (popped t ++ option_list o)).
Proof.
  intros Hf Ht Hne k. msimpl. rewrite Hf. destruct o as [[sid m]|].
  - change (option_list (Some (sid, m))) with [(sid, m)]. apply writer_turn_sends in Ht as (_ & ord & q & _ & Hq & E1 & _).
    rewrite on_stream_app, on_stream_one, E1, <-(assoc_L app). f_equal.
    destruct (decide (sid = k)) as [->|Hnk].
    + rewrite Hq. destruct q; [by rewrite lookup_delete_eq|by rewrite lookup_insert_eq].
    + destruct q; [by rewrite lookup_delete_ne|by rewrite lookup_insert_ne].
  - change (option_list None) with (@nil (Z * Message)). rewrite app_nil_r. f_equal.
    unfold writer_turn in Ht. destruct (closed s); [by injection Ht as <-|].
    destruct (order s) as [|sid ord]; [by injection Ht as <-|].
    destruct (queues s !! sid) as [[|m q]|] eqn:Hq; [by destruct (Hne eq_refl sid)|done|].
    injection Ht as <-. msimpl. by rewrite delete_id.
Qed.

Lemma step_fifo n s t s' t' : step (s, t) (s', t') -> MInv n s -> fifo s t -> fifo s' t'.
Proof.
  intros Hst Hi Hf. inversion Hst as [m sid ? ? b ? Hs|? ? sid m w ? Hw Hr|? ? Hw|? ? Hw Hk|
    ? ? o ? Hw Ht|? m ok ? Hw| |]; subst; try done.
  - apply send_cases in Hs as (_ & i & Hsid & Hb). destruct b.
    + destruct Hb as (_ & _ & ->).
      assert ((match sid with Some i => i | None => match stream_id m with Ok i => i | Err _ => 0 end end)
        = i) as -> by (destruct sid; [congruence|by rewrite Hsid]).
      by apply fifo_enqueue.
    + subst. intros k. msimpl. rewrite app_nil_r. apply Hf.
  - destruct (resume_cases _ _ _ _ _ Hw Hr) as [_ ->]. by apply fifo_enqueue.
  - eapply fifo_turn; [done..|]. intros _. apply Hi.
  - destruct (close_same s) as (E1 & _). intros k. rewrite E1. apply Hf.
Qed.

(** Every reachable state satisfies the invariant and keeps each stream's order. *)
Lemma reachable_fifo n s t : 0 <= n -> reachable n (s, t) -> fifo s t.
Proof.
  intros Hn Hr.
  assert (forall st, rtc step (ChannelMux_init n, Trace [] []) st -> MInv n st.1 /\ fifo st.1 st.2)
    as Hall; [|by apply (Hall (s, t))].
  apply rtc_ind_r; [split; [by apply MInv_init|done]|].
  intros [s1 t1] [s2 t2] _ Hs [Hi Hf]. split; [by eapply step_MInv|by eapply step_fifo].
Qed.

(** ** Rotation *)

(** The stream at position [j] of the rotation is served by the [j]-th message
    from now on, with the message at the head of its queue now. *)
Definition due (j : nat) (sid : Z) (m : Message) (s : ChannelMux) (new : list (Z * Message)) : Prop :=
  if decide (j < length new)%nat then new !! j = Some (sid, m)
  else order s !! (j - length new)%nat = Some sid /\ exists q, queues s !! sid = Some (m :: q).

Lemma due_ext j sid m s s' new :
  due j sid m s new -> queues s' = queues s -> order s' = order s -> due j sid m s' new.
Proof. unfold due. by intros H -> ->. Qed.

Lemma due_enqueue j sid m k x s new :
  due j sid m s new -> due j sid m (enqueue k x (take_slot s)) new.
Proof.
  destruct (enqueue_queues k x (take_slot s)) as (E1 & E2 & _). unfold due. rewrite E1, E2. msimpl.
  destruct (decide _); [done|]. intros [Ho [q Hq]]. split.
  - by apply lookup_app_l_Some.
  - destruct (decide (k = sid)) as [->|Hne].
    + rewrite lookup_insert_eq, Hq. by eexists.
    + rewrite lookup_insert_ne by done. by exists q.
Qed.

Lemma due_turn n j sid m s s' o new :
  MInv n s -> due j sid m s new -> writer_turn s = (s', o) -> due j sid m s' (new ++ option_list o).
Proof.
  intros Hi Hd Ht. destruct o as [[k x]|].
  - apply writer_turn_sends in Ht as (_ & ord & q & Ho & Hq & E1 & E2 & _).
    change (option_list (Some (k, x))) with [(k, x)]. unfold due in *. rewrite length_app. cbn [length].
    destruct (decide (j < length new)%nat) as [Hj|Hj].
    { rewrite decide_True by lia. by apply lookup_app_l_Some. }
    destruct Hd as [Hpos [q' Hq']]. rewrite Ho in Hpos.
    destruct (decide (j = length new)) as [->|Hne].
    { rewrite decide_True by lia. rewrite Nat.sub_diag in Hpos. cbn in Hpos. simplify_eq.
      rewrite lookup_app_r, Nat.sub_diag by lia. done. }
    rewrite decide_False by lia.
    replace (j - length new)%nat with (S (j - (length new + 1))) in Hpos by lia. cbn in Hpos.
    split; [rewrite E2; by apply lookup_app_l_Some|].
    assert (k <> sid) as Hks.
    { intros ->. pose proof (mi_order _ _ Hi) as Hnd. rewrite Ho in Hnd.
      apply NoDup_cons in Hnd as [Hn _]. by apply Hn, (list_elem_of_lookup_2 _ _ _ Hpos). }
    exists q'. rewrite E1. destruct q; [by rewrite lookup_delete_ne|by rewrite lookup_insert_ne].
  - change (option_list None) with (@nil (Z * Message)). rewrite app_nil_r. unfold writer_turn in Ht. destruct (closed s).
    { injection Ht as <-. by eapply due_ext. }
    destruct (order s) as [|k ord] eqn:Ho.
    { injection Ht as <-. by eapply due_ext. }
    exfalso. assert (is_Some (queues s !! k)) as [q Hq] by (apply (mi_dom _ _ Hi); rewrite Ho; by left).
    rewrite Hq in Ht. destruct q; [by apply (mi_nonempty _ _ Hi k)|done].
Qed.

Lemma step_due n j sid m s t s' t' new :
  step (s, t) (s', t') -> MInv n s -> due j sid m s new ->
  exists more, popped t' = popped t ++ more /\ due j sid m s' (new ++ more).
Proof.
  intros Hst Hi Hd. inversion Hst as [x k ? ? b ? Hs|? ? k x w ? Hw Hr|? ? Hw|? ? Hw Hk|
    ? ? o ? Hw Ht|? x ok ? Hw| |]; subst; msimpl.
  1,2,3,4,6,7,8: exists []; rewrite !app_nil_r; split; [done|].
  - apply send_cases in Hs as (_ & i & _ & Hb). destruct b; [|by subst; eapply due_ext].
    destruct Hb as (_ & _ & ->). by apply due_enqueue.
  - destruct (resume_cases _ _ _ _ _ Hw Hr) as [_ ->]. apply due_enqueue. by eapply due_ext.
  - by eapply due_ext.
  - by eapply due_ext.
  - by eapply due_ext.
  - destruct (close_same s) as (E1 & E2 & _). by eapply due_ext.
  - by eapply due_ext.
  - exists (option_list o). split; [done|]. by eapply due_turn.
Qed.

Lemma rtc_due n j sid m st st' new :
  rtc step st st' -> MInv n st.1 -> due j sid m st.1 new ->
  exists more, popped st'.2 = popped st.2 ++ more /\ due j sid m st'.1 (new ++ more).
Proof.
  intros Hr. revert new. induction Hr as [st|[s t] [s1 t1] st' Hs _ IH]; intros new Hi Hd.
  { exists []. by rewrite !app_nil_r. }
  destruct (step_due n _ _ _ _ _ _ _ _ Hs Hi Hd) as (more & Hp & Hd1).
  destruct (IH _ (step_MInv _ _ _ _ _ Hs Hi) Hd1) as (more' & Hp' & Hd').
  exists (more ++ more'). cbn in *. rewrite Hp', Hp, !(assoc_L app). split; [done|].
  done.
Qed.

(** ** Properties *)

(** Backpressure: in every reachable state the free slots, the queued
    messages and the message being sent add up to the semaphore's size, so no
    more than [max_queued] messages are ever held, and the rotation lists
    exactly the streams with something queued, each once. *)
Theorem mux_backpressure n s t :
  0 <= n -> reachable n (s, t) ->
  slots s + queued (queues s) + in_flight s = n /\ 0 <= slots s /\
  queued (queues s) <= n /\ max_queue_depth s <= n /\ NoDup (order s) /\
  (forall sid, sid ∈ order s <-> exists m q, queues s !! sid = Some (m :: q)).
Proof.
  intros Hn Hr. pose proof (rtc_MInv n _ _ Hr (MInv_init n Hn)) as [H1 H2 H3 H4 H5 H6]. cbn in *.
  assert (0 <= in_flight s) by (unfold in_flight; case_match; lia).
  split_and!; try done; [lia|]. intros sid. rewrite H2. split.
  - intros [[|m q] Hq]; [by destruct (H3 sid)|by exists m, q].
  - intros (m & q & Hq). by rewrite Hq.
Qed.

(** C36: messages of one stream are handed to the channel in the order they
    were queued: none is lost, duplicated or overtaken by another of its
    stream, and what has not been handed over yet is in the stream's queue. *)
Theorem mux_fifo n s t sid :
  0 <= n -> reachable n (s, t) ->
  on_stream sid (enqd t) = on_stream sid (popped t) ++ default [] (queues s !! sid).
Proof. intros Hn Hr. apply (reachable_fifo n s t Hn Hr). Qed.

(** C29: round-robin fairness: the stream at position [j] of the rotation has
    its head message sent as the [j]-th message from now, whatever is queued
    meanwhile: a message at the head of its stream waits for at most one
    message of every other open stream. *)
Theorem mux_fair n s t s' t' j sid m q new :
  0 <= n -> reachable n (s, t) -> rtc step (s, t) (s', t') ->
  order s !! j = Some sid -> queues s !! sid = Some (m :: q) ->
  popped t' = popped t ++ new -> (j < length new)%nat ->
  new !! j = Some (sid, m).
Proof.
  intros Hn Hr Hst Ho Hq Hp Hj.
  pose proof (rtc_MInv n _ _ Hr (MInv_init n Hn)) as Hi. cbn in Hi.
  destruct (rtc_due n j sid m (s, t) (s', t') [] Hst Hi) as (more & Hp' & Hd).
  { unfold due. cbn. rewrite Nat.sub_0_r. split; [done|by exists q]. }
  cbn in *. rewrite Hp in Hp'. apply app_inv_head in Hp' as <-.
  unfold due in Hd. by rewrite decide_True in Hd.
Qed.

(** A sender blocked on the semaphore when the multiplexer closes is
    blocked forever: once closed with no free slot and nothing being sent, no
    step ever resumes it, and nothing tells it that the connection is gone. *)
Theorem blocked_senders_stuck s t s' t' :
  closed s = true -> slots s = 0 -> in_flight s = 0 -> rtc step (s, t) (s', t') ->
  waiting s' = waiting s /\ closed s' = true.
Proof.
  intros Hc Hs Hf Hr.
  assert (forall st, rtc step (s, t) st -> waiting st.1 = waiting s /\ closed st.1 = true /\
            slots st.1 = 0 /\ in_flight st.1 = 0) as Hall.
  2:{ destruct (Hall _ Hr) as (? & ? & _). done. }
  apply rtc_ind_r; [done|]. intros [s1 t1] [s2 t2] _ Hst (Hw1 & Hc1 & Hs1 & Hf1). cbn in *.
  inversion Hst as [m sid ? ? b ? Hsend|? ? sid m w ? Hw Hres|? ? Hw|? ? Hw Hk|
    ? ? o ? Hw Ht|? m ok ? Hw| |]; subst.
  - apply send_cases in Hsend as [? _]. congruence.
  - apply (resume_cases _ _ _ _ _ Hw) in Hres as [? _]. lia.
  - done.
  - done.
  - unfold writer_turn in Ht. rewrite Hc1 in Ht. by injection Ht as <- _.
  - unfold in_flight in Hf1. by rewrite Hw in Hf1.
  - unfold close. rewrite Hc1. done.
  - done.
Qed.

(** The read loop gives every message that arrives to the handler, in
    order and once, also after handlers that raised, counts it, and when the
    channel ends it closes the multiplexer and passes the exception on. *)
Theorem mux_run_dispatches {H} (f : Message -> M H unit) incoming e s h :
  let '(s', h', e') := run (Some f) incoming e s h in
  e' = e /\ h' = foldl (fun h m => state_after (f m) h) h incoming /\
  messages_received s' = messages_received s + len incoming /\ closed s' = true.
Proof.
  unfold run. cut (forall s h, let '(s', h', e') := read_loop (Some f) incoming e s h in
    e' = e /\ h' = foldl (fun h m => state_after (f m) h) h incoming /\
    messages_received s' = messages_received s + len incoming /\ closed s' = true).
  { intros Hgen. apply (Hgen (start_writer s)). }
  clear s h. induction incoming as [|m incoming IH]; intros s h; cbn [read_loop].
  - split_and!; try done; rewrite ?len_nil; unfold close, cancel_writer;
      destruct (closed s) eqn:Hc; msimpl; try destruct (writer_task s); msimpl; (done || lia).
  - specialize (IH (received s) (dispatch (Some f) m h)).
    destruct (read_loop (Some f) incoming e (received s) (dispatch (Some f) m h)) as [[s' h'] e'].
    destruct IH as (-> & -> & H3 & ->). rewrite len_cons. unfold received in H3. msimpl_all.
    split_and!; try done. lia.
Qed.

(** ** Witnesses *)

Definition mk (n : Z) : Message := Msg PING (VDict [("n", VInt n)]).

(** Two streams: three messages of a transfer on stream 7, then a control
    message, with the writer serving them in turn. *)
Definition act (a : Z * Message + bool) (st : ChannelMux * trace) : ChannelMux * trace :=
  let '(s, t) := st in
  match a with
  | inl (sid, m) => (state_after (send m (Some sid)) s, Trace (enqd t ++ [(sid, m)]) (popped t))
  | inr true =>
      let '(s', o) := writer_turn s in (s', Trace (enqd t) (popped t ++ option_list o))
  | inr false => (writer_sent true s, t)
  end.

Definition act_ok (a : Z * Message + bool) (s : ChannelMux) : bool :=
  match a with
  | inl _ => negb (closed s) && (0 <? slots s) && (len (waiting s) =? 0)
  | inr true => match writer_task s with WReady => true | _ => false end
  | inr false => match writer_task s with WSending _ => true | _ => false end
  end.

Fixpoint acts (l : list (Z * Message + bool)) (st : ChannelMux * trace) : option (ChannelMux * trace) :=
  match l with
  | [] => Some st
  | a :: l => if act_ok a st.1 then acts l (act a st) else None
  end.

Lemma act_step a s t : act_ok a s = true -> step (s, t) (act a (s, t)).
Proof.
  destruct a as [[sid m]|[]]; cbn [act_ok act]; intros Hok.
  - apply andb_true_iff in Hok as [[Hc Hs]%andb_true_iff Hw]. apply negb_true_iff in Hc.
    eapply (step_send m (Some sid) s _ true). unfold state_after, send. by rewrite Hc, Hs, Hw.
  - destruct (writer_task s) eqn:Hw; try done. destruct (writer_turn s) as [s' o] eqn:Ht.
    by apply step_turn.
  - destruct (writer_task s) eqn:Hw; try done. by eapply step_sent.
Qed.

Lemma acts_rtc l s t st : acts l (s, t) = Some st -> rtc step (s, t) st.
Proof.
  revert s t. induction l as [|a l IH]; intros s t; cbn [acts fst]; [by intros [= <-]|].
  destruct (act_ok a s) eqn:Hok; [|done]. intros Hl. eapply rtc_l; [by apply act_step|].
  destruct (act a (s, t)). by apply IH.
Qed.

Definition load : list (Z * Message + bool) := [inl (7, mk 1); inl (7, mk 2); inl (7, mk 3); inl (0, mk 4)].
Definition serve : list (Z * Message + bool) := [inr true; inr false; inr true].

Definition loaded : ChannelMux * trace :=
  foldl (fun st a => act a st) (start_writer (ChannelMux_init 8), Trace [] []) load.

Definition served : ChannelMux * trace := foldl (fun st a => act a st) loaded serve.

Example served_order : (popped served.2) = [(7, mk 1); (0, mk 4)].
Proof. by vm_compute. Qed.

Lemma loaded_reachable : reachable 8 (loaded.1, loaded.2).
Proof.
  eapply rtc_l; [by apply step_start|]. apply (acts_rtc load). by vm_compute.
Qed.

Lemma served_after_loaded : rtc step (loaded.1, loaded.2) (served.1, served.2).
Proof. apply (acts_rtc serve). by vm_compute. Qed.

Lemma mux_backpressure_witness :
  slots loaded.1 + queued (queues loaded.1) + in_flight loaded.1 = 8 /\ queued (queues loaded.1) <= 8.
Proof.
  destruct (mux_backpressure 8 loaded.1 loaded.2 ltac:(lia) loaded_reachable) as (H1 & _ & H3 & _).
  by split.
Defined.

Lemma mux_fifo_witness :
  on_stream 7 (enqd loaded.2) = on_stream 7 (popped loaded.2) ++ default [] (queues loaded.1 !! 7).
Proof. apply (mux_fifo 8 loaded.1 loaded.2 7 ltac:(lia) loaded_reachable). Defined.

Lemma mux_fair_witness : [(7, mk 1); (0, mk 4)] !! 1%nat = Some (0, mk 4).
Proof.
  apply (mux_fair 8 loaded.1 loaded.2 served.1 served.2 1 0 (mk 4) []
           [(7, mk 1); (0, mk 4)] ltac:(lia) loaded_reachable served_after_loaded);
    [by vm_compute..|cbn; lia].
Defined.

(** One slot, taken; a second sender waits; then the connection closes. *)
Definition jammed : ChannelMux :=
  close (state_after (send (mk 2) (Some 0)) (state_after (send (mk 1) (Some 0)) (ChannelMux_init 1))).

Lemma blocked_senders_stuck_witness :
  waiting jammed = [(0, mk 2)] /\ waiting jammed = waiting jammed /\ closed jammed = true.
Proof.
  split; [by vm_compute|].
  apply (blocked_senders_stuck jammed (Trace [] []) jammed (Trace [] []));
    [by vm_compute..|apply rtc_refl].
Defined.
