(* ===== verification/Connection.v ===== *)
(** * A connection: multiplexer over encrypted channel ([memnode/mux.py] on
    [memnode/security.py])

    One end of a peer connection as the program puts it together: the senders
    queue messages on a [ChannelMux], its writer task takes them in rotation
    and gives each to [SecureChannel.send_msg], its read loop calls
    [SecureChannel.recv_msg] on the same channel.  A step is the code between
    two awaits of the tasks; every step projects onto a step of the
    multiplexer, so what is proved of the multiplexer holds of the connection,
    and the bytes on the wire are those of the channel.  The other end is a
    [ChannelMux.run] over its own channel, reading what arrived, which may stop
    at any byte. *)
From S2P Require Import Prelude Config PyVal Protocol Replay Channel ChannelFacts ChannelSpec Mux.

(** ** One end *)

Record Conn := CN {
  cn_mux : ChannelMux;
  cn_chan : SecureChannel;
  cn_pending : option (result unit)      (* how the [send_msg] in progress ends *)
}.

(** What was queued and taken ([cn_trace]), and the messages of it that the
    channel wrote. *)
Record conn_log := CLog { cn_trace : Mux.trace; cn_written : list (Z * Message) }.

Section connection.
Context (C : crypto) (msgpack : codec).

(** The writer's turn: [send_msg] runs up to its [drain] before it waits, so the
    frame of the message taken is written in the same step; the outcome is seen
    when [drain] returns. *)
Definition conn_turn (now1 now2 : Z) (n : Conn) : Conn * option (Z * Message) :=
  match writer_turn (cn_mux n) with
  | (s, None) => (CN s (cn_chan n) (cn_pending n), None)
  | (s, Some (sid, m)) =>
      let '(c, r) := send_msg C msgpack now1 now2 m (cn_chan n) in
      (CN s c (Some r), Some (sid, m))
  end.

(** [drain] returned or raised. *)
Definition conn_sent (r : result unit) (n : Conn) : Conn :=
  CN (writer_sent (match r with Ok _ => true | Err _ => false end) (cn_mux n)) (cn_chan n) None.

(** One turn of the read loop: a message was received and counted, or the loop
    ended and closed the multiplexer. *)
Definition conn_recv (n : Conn) : Conn * result Message :=
  let '(c, r) := recv_msg C msgpack (cn_chan n) in
  (CN (match r with Ok _ => received (cn_mux n) | Err _ => Mux.close (cn_mux n) end) c (cn_pending n), r).

Definition with_cn_mux (s : ChannelMux) (n : Conn) : Conn := CN s (cn_chan n) (cn_pending n).

Definition wrote (n : Conn) (o : option (Z * Message)) : list (Z * Message) :=
  match cn_pending n, o with Some (Ok _), Some e => [e] | _, _ => [] end.

Inductive conn_step : Conn * conn_log -> Conn * conn_log -> Prop :=
  | conn_step_send m sid n s b t w :
      Mux.send m sid (cn_mux n) = (s, Ok b) ->
      conn_step (n, CLog t w) (with_cn_mux s n, CLog (Trace (enqd t ++ (if b then
          [(match sid with Some i => i | None => match stream_id m with Ok i => i | Err _ => 0 end end, m)]
          else [])) (popped t)) w)
  | conn_step_resume n s sid m rest t w :
      waiting (cn_mux n) = (sid, m) :: rest -> resume (cn_mux n) = Some s ->
      conn_step (n, CLog t w) (with_cn_mux s n, CLog (Trace (enqd t ++ [(sid, m)]) (popped t)) w)
  | conn_step_start n t w :
      writer_task (cn_mux n) = WNone ->
      conn_step (n, CLog t w) (with_cn_mux (start_writer (cn_mux n)) n, CLog t w)
  | conn_step_wake n t w :
      writer_task (cn_mux n) = WWaiting -> wake (cn_mux n) = true ->
      conn_step (n, CLog t w) (with_cn_mux (with_writer_task WReady (cn_mux n)) n, CLog t w)
  | conn_step_turn now1 now2 n n' o t w :
      writer_task (cn_mux n) = WReady -> conn_turn now1 now2 n = (n', o) ->
      conn_step (n, CLog t w)
        (n', CLog (Trace (enqd t) (popped t ++ option_list o)) (w ++ wrote n' o))
  | conn_step_sent n m r t w :
      writer_task (cn_mux n) = WSending m -> cn_pending n = Some r ->
      conn_step (n, CLog t w) (conn_sent r n, CLog t w)
  | conn_step_recv n t w :
      conn_step (n, CLog t w) ((conn_recv n).1, CLog t w)
  | conn_step_close n t w :
      conn_step (n, CLog t w) (with_cn_mux (Mux.close (cn_mux n)) n, CLog t w).

Definition conn_start (max_queued : Z) (c : SecureChannel) : Conn * conn_log :=
  (CN (ChannelMux_init max_queued) c None, CLog (Trace [] []) []).

Definition conn_reachable (max_queued : Z) (c : SecureChannel) (st : Conn * conn_log) : Prop :=
  rtc conn_step (conn_start max_queued c) st.

(** ** The other end: [run] over a channel *)

(** What [recv_msg] gives until it raises; every message took bytes of the
    stream, so one turn per byte and one more is enough ([read_channel_enough]). *)
Fixpoint read_channel (fuel : nat) (c : SecureChannel) : list Message * exn * SecureChannel :=
  match fuel with
  | O => ([], lib_exn RuntimeError, c)
  | S fuel =>
      match recv_msg C msgpack c with
      | (c, Ok m) => let '(ms, e, c) := read_channel fuel c in (m :: ms, e, c)
      | (c, Err e) => ([], e, c)
      end
  end.

Definition run_channel {H} (on_message : option (Message -> M H unit)) (s : ChannelMux)
    (c : SecureChannel) (h : H) : ChannelMux * H * exn * SecureChannel :=
  let '(ms, e, c) := read_channel (S (length (rd_buf (sc_reader c)))) c in
  (Mux.run on_message ms e s h, c).
End connection.

(** ** The multiplexer's view *)

Section projection.
Context (C : crypto) (msgpack : codec).

(** Every step of the connection is a step of the multiplexer, or leaves it
    alone. *)
Lemma conn_step_mux n l n' l' :
  conn_step C msgpack (n, l) (n', l') ->
  Mux.step (cn_mux n, cn_trace l) (cn_mux n', cn_trace l').
Proof.
  intros Hst. inversion Hst as [m sid ? s b t w Hs|? s sid m rest t w Hw Hr|? t w Hw|? t w Hw Hk|
    now1 now2 ? ? o t w Hw Ht|? m r t w Hw Hp|? t w|? t w]; subst; cbn [cn_trace cn_mux with_cn_mux].
  - by apply step_send.
  - by eapply step_resume.
  - by apply step_start.
  - by apply step_wake.
  - unfold conn_turn in Ht. destruct (writer_turn (cn_mux n)) as [s [[sid m]|]] eqn:Hwt.
    + destruct (send_msg _ _ _ _ _ _) as [c r]. injection Ht as <- <-. by apply step_turn.
    + injection Ht as <- <-. by apply step_turn.
  - by eapply step_sent.
  - unfold conn_recv. destruct (recv_msg _ _ _) as [c [m|e]]; cbn; [apply step_received|apply step_close].
  - apply step_close.
Qed.

Lemma conn_rtc_mux st st' :
  rtc (conn_step C msgpack) st st' ->
  rtc Mux.step (cn_mux st.1, cn_trace st.2) (cn_mux st'.1, cn_trace st'.2).
Proof.
  induction 1 as [|[n l] [n1 l1] st' Hs _ IH]; [done|]. eapply rtc_l; [|done].
  by apply conn_step_mux.
Qed.

(** So the multiplexer of a connection is one of the reachable ones. *)
Lemma conn_mux_reachable max_queued c n l :
  conn_reachable C msgpack max_queued c (n, l) -> Mux.reachable max_queued (cn_mux n, cn_trace l).
Proof. apply conn_rtc_mux. Qed.
End projection.

(** ** The channel's view *)

(** A stream cut inside a frame ends the read with an error. *)
Lemma read_frame_cut (p buf x : bytes) req :
  frame p = buf ++ x -> x <> [] -> len p <= Config.MAX_FRAME_SIZE ->
  exists rd e, read_frame Config.MAX_FRAME_SIZE (Reader buf req) = (rd, Err e) /\
    (exn_cls e = IncompleteReadError \/ exn_cls e = ConnectionClosed).
Proof.
  intros Hf Hx Hp. destruct (decide (length buf < 4)%nat) as [Hs|Hs].
  { exists (Reader [] (req ++ [4])), (lib_exn IncompleteReadError). split; [|by left].
    unfold read_frame. erewrite bind_err; [done|]. apply readexactly_short. cbn. unfold len. lia. }
  assert (exists buf2, buf = be_bytes 4 (len p) ++ buf2 /\ p = buf2 ++ x) as (buf2 & -> & Hp2).
  { exists (drop 4 buf). unfold frame in Hf. pose proof (f_equal (take 4) Hf) as H1.
    pose proof (f_equal (drop 4) Hf) as H2. rewrite take_app_le, take_ge in H1
      by (rewrite length_be_bytes; lia). rewrite take_app_le in H1 by lia.
    rewrite drop_app_ge, length_be_bytes, drop_0 in H2 by (rewrite length_be_bytes; lia).
    rewrite drop_app_le in H2 by lia. rewrite H1. by rewrite take_drop. }
  unfold read_frame. erewrite bind_ok.
  2:{ pose proof (readexactly_app (be_bytes 4 (len p)) buf2 req) as H4.
      replace (len (be_bytes 4 (len p))) with 4 in H4 by (unfold len; by rewrite length_be_bytes).
      exact H4. }
  rewrite unpack_length_prefix by done. zcase; [lia|].
  assert (len buf2 < len p) as Hl.
  { rewrite Hp2, len_app. destruct x; [done|]. rewrite len_cons. pose proof (len_nonneg x). lia. }
  pose proof (len_nonneg buf2). zcase; [lia|].
  eexists _, _. unfold mtry. rewrite readexactly_short by (cbn; lia). cbn [exn_cls lib_exn].
  rewrite decide_True by done. split; [done|]. by right.
Qed.

Section channel_view.
Context (C : crypto) `{!CryptoLaws C}.

(** The half of a channel that sending uses; receiving leaves it alone. *)
Definition same_send_half (c c' : SecureChannel) : Prop :=
  sc_writer c' = sc_writer c /\ sc_transcript_hash c' = sc_transcript_hash c /\
  sc_send_key c' = sc_send_key c /\ sc_send_cipher c' = sc_send_cipher c /\
  sc_send_seq c' = sc_send_seq c /\ sc_send_epoch c' = sc_send_epoch c /\
  sc_rekey_messages c' = sc_rekey_messages c.

Lemma advance_recv_steps_half n c : same_send_half c (advance_recv_steps C n c).1.
Proof.
  revert c. induction n as [|n IH]; intros c; cbn [advance_recv_steps]; [by repeat split|].
  destruct (ChaCha20Poly1305 _) as [k|e]; [|by repeat split].
  destruct (IH (with_recv_keys (sc_recv_epoch c + 1) (_advance_key C (sc_recv_key c) (sc_transcript_hash c)
    (sc_recv_epoch c + 1) (bytes_of_string "send")) k (sc_rekeys_received c + 1) c))
    as (H1 & H2 & H3 & H4 & H5 & H6 & H7).
  by repeat split.
Qed.

Lemma same_send_half_trans c c1 c2 : same_send_half c c1 -> same_send_half c1 c2 -> same_send_half c c2.
Proof. unfold same_send_half. intuition congruence. Qed.

Lemma advance_recv_half c0 epoch : preserves (same_send_half c0) (_advance_recv_to C epoch).
Proof.
  intros c Hc. unfold state_after, _advance_recv_to. repeat case_match; try done.
  eapply same_send_half_trans; [done|apply advance_recv_steps_half].
Qed.

Lemma recv_turn_half c0 : preserves (same_send_half c0) (recv_turn C).
Proof.
  unfold recv_turn. pres.
  - intros c Hc. unfold state_after, on_reader. by destruct (read_frame _ _).
  - apply preserves_get. intros c Hc. destruct (check_and_update _ _) as [w []]; cbn [negb];
      apply (preserves_bind (same_send_half c0)); try done; try (by apply preserves_modify); intros _;
      [|apply preserves_ret].
    apply preserves_bind; [apply advance_recv_half|]. intros _. apply preserves_get.
    intros c1 Hc1. revert c1 Hc1.
    assert (forall c2 : SecureChannel, preserves (same_send_half c0) (mtry (nonce <- mlift (_nonce
      (unpack_be (take (Z.to_nat SEQ_LEN) a)));; p <- mlift (aead_decrypt C (sc_recv_cipher c2) nonce
      (drop (Z.to_nat SEQ_LEN) a) (take (Z.to_nat SEQ_LEN) a));; mret (Some p))
      (fun _ => Some (mraise (Exn HandshakeFailed "frame decryption/authentication failed"))))) as Hd.
    { intros c2. pres. simplify_eq. apply preserves_raise. }
    intros c1 Hc1. by apply (Hd c1).
Qed.

Lemma recv_half c c' r : recv C c = (c', r) -> same_send_half c c'.
Proof.
  assert (forall n c0, preserves (same_send_half c0) (recv_loop C n)) as Hn.
  { induction n as [|n IH]; intros c0; cbn [recv_loop]; pres; [apply recv_turn_half|].
    case_match; pres. apply IH. }
  intros Hr. pose proof (Hn (S (length (rd_buf (sc_reader c)))) c c) as H. unfold state_after in H.
  unfold recv in Hr. rewrite Hr in H. apply H. by repeat split.
Qed.

(** [carried c log c']: the end sent the byte strings [log], receiving in
    between, and [c] became [c']. *)
Inductive carried : SecureChannel -> list bytes -> SecureChannel -> Prop :=
  | carried_refl c : carried c [] c
  | carried_send now1 now2 p c c1 log c2 :
      Channel.send C now1 now2 p c = (c1, Ok tt) -> carried c1 log c2 -> carried c (p :: log) c2
  | carried_recv c c1 r log c2 :
      recv C c = (c1, r) -> carried c1 log c2 -> carried c log c2.

Lemma carried_app c l1 c1 l2 c2 : carried c l1 c1 -> carried c1 l2 c2 -> carried c (l1 ++ l2) c2.
Proof. induction 1; intros; [done|by eapply carried_send; eauto|by eapply carried_recv; eauto]. Qed.

Lemma half_SendInv base c c' : SendInv C base c -> same_send_half c c' -> SendInv C base c'.
Proof. intros [] (E1 & E2 & E3 & E4 & E5 & E6 & E7). split; by rewrite ?E2, ?E3, ?E4, ?E5, ?E6, ?E7. Qed.

Lemma carried_inv base c log c' :
  carried c log c' -> SendInv C base c -> wr_lost (sc_writer c) = false ->
  SendInv C base c' /\ wr_lost (sc_writer c') = false /\
  exists sent, wr_out (sc_writer c') = wr_out (sc_writer c) ++ sent.
Proof.
  induction 1 as [c|now1 now2 p c c1 log c2 Hs _ IH|c c1 r log c2 Hr _ IH]; intros Hi Hl.
  - split; [done|]. split; [done|]. exists []. by rewrite app_nil_r.
  - destruct (send_spec C base _ _ _ _ _ _ Hi Hl Hs)
      as (Hi1 & (_ & _ & El) & _ & seq & ct & _ & _ & _ & _ & _ & Hw & _).
    destruct (IH Hi1 ltac:(congruence)) as (Hi2 & Hl2 & sent & Hsent). split; [done|]. split; [done|].
    exists (wire seq ct ++ sent). by rewrite Hsent, Hw, (assoc_L app).
  - pose proof (recv_half _ _ _ Hr) as Hh. pose proof Hh as (Ew & _). rewrite <-Ew in Hl |- *.
    apply IH; [|done]. by eapply half_SendInv.
Qed.

Lemma half_Synced base acc s s1 r : Synced C base acc s r -> same_send_half s s1 -> Synced C base acc s1 r.
Proof.
  intros [H1 H2 H3 H4 H5 H6 H7 H8] Hh. pose proof Hh as (E1 & E2 & E3 & E4 & E5 & E6 & E7).
  split; rewrite ?E1, ?E2, ?E5, ?E6, ?E7; try done. by eapply half_SendInv.
Qed.

(** A channel whose stream ends inside a frame, or before one, raises. *)
Lemma recv_cut (p x : bytes) c :
  frame p = rd_buf (sc_reader c) ++ x -> x <> [] -> len p <= Config.MAX_FRAME_SIZE ->
  exists c' e, recv C c = (c', Err e) /\
    (exn_cls e = IncompleteReadError \/ exn_cls e = ConnectionClosed).
Proof.
  destruct (sc_reader c) as [buf req] eqn:Hrd. cbn. intros Hf Hx Hp.
  destruct (read_frame_cut p buf x req Hf Hx Hp) as (rd & e & He & Hcls).
  exists (with_reader rd c), e. split; [|done]. unfold recv. cbn [recv_loop].
  erewrite bind_err; [done|]. unfold recv_turn. erewrite bind_err; [done|].
  unfold on_reader. by rewrite Hrd, He.
Qed.
End channel_view.

(** ** Delivery, with the stream cut anywhere *)

Section delivery.
Context (C : crypto) `{!CryptoLaws C} (msgpack : codec) (ok : pyval -> Prop) `{!CodecLaws msgpack ok}.

(** [m] was encoded as [raw], from a value the codec represents. *)
Definition encodes (m : Message) (raw : bytes) : Prop :=
  encode msgpack m = Ok raw /\
  ok (VDict [("type", VStr (MsgType_value (msg_type m))); ("body", msg_body m)]).

Lemma recv_msg_ok m raw c c' : encodes m raw -> recv C c = (c', Ok raw) -> recv_msg C msgpack c = (c', Ok m).
Proof.
  intros [He Ho] Hr. unfold recv_msg. rewrite (bind_ok _ _ _ _ _ Hr). unfold mlift.
  by rewrite (decode_encode msgpack ok m raw Ho He).
Qed.

Lemma read_channel_cut fuel (p x : bytes) c :
  frame p = rd_buf (sc_reader c) ++ x -> x <> [] -> len p <= Config.MAX_FRAME_SIZE ->
  exists e c', read_channel C msgpack (S fuel) c = ([], e, c') /\
    (exn_cls e = IncompleteReadError \/ exn_cls e = ConnectionClosed).
Proof.
  intros Hf Hx Hp. destruct (recv_cut C p x c Hf Hx Hp) as (c' & e & He & Hcls).
  exists e, c'. split; [|done]. cbn [read_channel]. unfold recv_msg. by rewrite (bind_err _ _ _ _ _ He).
Qed.

Lemma deliver_cut base s log s' :
  carried C s log s' -> forall acc r sent buf ms fuel,
  Synced C base acc s r -> wr_out (sc_writer s') = wr_out (sc_writer s) ++ sent ->
  rd_buf (sc_reader r) = buf -> buf `prefix_of` sent -> Forall2 encodes ms log ->
  (length buf < fuel)%nat ->
  exists k e r', read_channel C msgpack fuel r = (take k ms, e, r') /\
    (exn_cls e = IncompleteReadError \/ exn_cls e = ConnectionClosed) /\
    (buf = sent -> k = length ms).
Proof.
  induction 1 as [s|now1 now2 p s s1 log s' Hs Hc IH|s s1 r0 log s' Hr Hc IH];
    intros acc r sent buf ms fuel Hsy Hout Hbuf [x Hx] Hms Hfuel; (destruct fuel as [|fuel]; [lia|]).
  - apply Forall2_nil_inv_r in Hms as ->. rewrite <-(app_nil_r (wr_out _)) in Hout at 1.
    apply app_inv_head in Hout as <-. symmetry in Hx. apply app_nil in Hx as [-> ->].
    destruct (read_channel_cut fuel [] (frame []) r) as (e & c' & He & Hcls); [by rewrite Hbuf|done..|].
    by exists 0%nat, e, c'.
  - apply Forall2_cons_inv_r in Hms as (m & ms' & Hm & Hms & ->).
    destruct (send_spec C base _ _ _ _ _ _ (sy_send _ _ _ _ _ Hsy) (sy_live _ _ _ _ _ Hsy) Hs)
      as (Hi1 & (_ & _ & El) & _ & seq & ct & _ & _ & _ & _ & Hlen & Hw & _).
    destruct (carried_inv C base _ _ _ Hc Hi1) as (_ & _ & tail & Htail);
      [rewrite El; apply (sy_live _ _ _ _ _ Hsy)|].
    assert (sent = wire seq ct ++ tail) as ->.
    { rewrite Htail, Hw, <-(assoc_L app) in Hout. by apply app_inv_head in Hout. }
    destruct (decide (length (wire seq ct) <= length buf)%nat) as [Hfull|Hcut].
    + assert (exists buf', buf = wire seq ct ++ buf' /\ tail = buf' ++ x) as (buf' & Hb & Ht).
      { apply app_eq_inv in Hx as [(k & E1 & E2)|(k & E1 & E2)].
        - rewrite E1, length_app in Hfull. destruct k; [|cbn in Hfull; lia].
          exists []. rewrite app_nil_r in *. by rewrite E1.
        - by exists k. }
      rewrite Hb in Hbuf.
      destruct (deliver_one C base acc s r now1 now2 p s1 (wire seq ct) buf' Hsy Hs Hw Hbuf)
        as (r1 & acc1 & Hr1 & Hb1 & Hsy1).
      assert (4 <= length (wire seq ct))%nat.
      { pose proof (len_frame (seq_bytes seq ++ ct)) as Hl. unfold wire, len in *. lia. }
      destruct (IH acc1 r1 tail buf' ms' fuel Hsy1 Htail Hb1) as (k & e & r' & Hread & Hcls & Hk);
        [by exists x|done|rewrite Hb, length_app in Hfuel; lia|].
      exists (S k), e, r'. cbn [read_channel]. rewrite (recv_msg_ok m p r r1 Hm Hr1), Hread.
      split; [done|]. split; [done|]. intros E. rewrite Hb in E. apply app_inv_head in E.
      cbn. by rewrite (Hk E).
    + apply app_eq_inv in Hx as [(k & E1 & E2)|(k & E1 & E2)].
      2:{ rewrite E1, length_app in Hcut. lia. }
      assert (k <> []) as Hk. { intros ->. rewrite app_nil_r in E1. rewrite E1 in Hcut. lia. }
      destruct (read_channel_cut fuel (seq_bytes seq ++ ct) k r) as (e & c' & He & Hcls);
        [by rewrite Hbuf|done..|].
      exists 0%nat, e, c'. split; [done|]. split; [done|]. intros E. rewrite E in Hcut.
      rewrite length_app in Hcut. lia.
  - pose proof (recv_half C _ _ _ Hr) as Hh. pose proof Hh as (Ew & _). rewrite <-Ew in Hout.
    apply (IH acc r sent buf ms (S fuel)); try done; [by eapply half_Synced|by exists x].
Qed.
End delivery.

(** ** The connection's invariant

    The channel wrote the encodings of [cn_written], in order; what the writer
    took is that, plus at most one message whose [send_msg] raised, after which
    nothing more is taken. *)

Section invariant.
Context (C : crypto) `{!CryptoLaws C} (msgpack : codec) (base : bytes) (c0 : SecureChannel).
Context (c0_inv : SendInv C base c0) (c0_live : wr_lost (sc_writer c0) = false).

Definition failed_send (n : Conn) : Prop :=
  (exists e m, cn_pending n = Some (Err e) /\ writer_task (cn_mux n) = WSending m) \/
  writer_task (cn_mux n) = WDone.

Definition CInv (n : Conn) (l : conn_log) : Prop :=
  exists raws c1, carried C c0 raws c1 /\
    Forall2 (fun m raw => encode msgpack m = Ok raw) (cn_written l).*2 raws /\
    ((cn_chan n = c1 /\ popped (cn_trace l) = cn_written l) \/
     (wr_out (sc_writer (cn_chan n)) = wr_out (sc_writer c1) /\ failed_send n /\
      exists e, popped (cn_trace l) = cn_written l ++ [e])).

Lemma CInv_same n n' l l' :
  CInv n l -> cn_chan n' = cn_chan n -> (failed_send n -> failed_send n') ->
  popped (cn_trace l') = popped (cn_trace l) -> cn_written l' = cn_written l -> CInv n' l'.
Proof.
  intros (raws & c1 & Hc & He & Hor) E1 Hf E3 E4. exists raws, c1. rewrite E1, E3, E4.
  split; [done|]. split; [done|]. destruct Hor as [?|(? & ? & ?)]; [by left|right; auto].
Qed.

Lemma enqueue_writer sid m s : writer_task (enqueue sid m s) = writer_task s.
Proof. unfold enqueue. by destruct (queues s !! sid). Qed.

Lemma failed_writer n s :
  writer_task s = writer_task (cn_mux n) -> failed_send n -> failed_send (with_cn_mux s n).
Proof. unfold failed_send. cbn. by intros ->. Qed.

Lemma close_writer s : (Mux.close s).(writer_task) = writer_task s \/ writer_task (Mux.close s) = WDone.
Proof.
  unfold Mux.close, cancel_writer. destruct (closed s); [by left|].
  destruct (writer_task s) eqn:Hw; msimpl; rewrite ?Hw; auto.
Qed.

Lemma failed_close n s : s = Mux.close (cn_mux n) -> failed_send n -> failed_send (with_cn_mux s n).
Proof.
  intros -> Hf. destruct (close_writer (cn_mux n)) as [Hw|Hw]; [by apply failed_writer|by right].
Qed.

(** The writer's turn. *)
Lemma CInv_turn now1 now2 n n' o t w :
  CInv n (CLog t w) -> writer_task (cn_mux n) = WReady -> conn_turn C msgpack now1 now2 n = (n', o) ->
  CInv n' (CLog (Trace (enqd t) (popped t ++ option_list o)) (w ++ wrote n' o)).
Proof.
  intros (raws & c1 & Hc & He & Hor) Hw Ht.
  assert (cn_chan n = c1 /\ popped t = w) as [Hch Hp].
  { destruct Hor as [?|(_ & [(e & m & _ & Hm)|Hd] & _)]; [done|congruence..]. }
  unfold conn_turn in Ht. destruct (writer_turn (cn_mux n)) as [s [[sid m]|]] eqn:Hwt.
  2:{ injection Ht as <- <-. unfold wrote. cbn. exists raws, c1. cbn. rewrite !app_nil_r.
      assert (forall A (x : option (result A)), match x with Some (Ok _) => @nil (Z * Message) | _ => [] end = [])
        as Hnil by (by intros A [[?|?]|]).
      rewrite Hnil, app_nil_r. split; [done|]. split; [done|]. by left. }
  destruct (send_msg C msgpack now1 now2 m (cn_chan n)) as [c r] eqn:Hsend. injection Ht as <- <-.
  apply writer_turn_sends in Hwt as (_ & ord & q & _ & _ & _ & _ & _ & _ & Hwr & _).
  destruct (carried_inv C base _ _ _ Hc c0_inv c0_live) as (Hi1 & Hl1 & _).
  unfold send_msg in Hsend. destruct (encode msgpack m) as [raw|e] eqn:Henc.
  2:{ injection Hsend as <- <-. unfold wrote. cbn. exists raws, c1. rewrite app_nil_r. cbn [cn_trace cn_written].
      split; [done|]. split; [done|]. right. cbn. rewrite Hch. split; [done|].
      split; [left; by exists e, m|]. exists (sid, m). by rewrite Hp. }
  rewrite bind_lift_ok in Hsend. rewrite Hch in Hsend.
  destruct r as [[]|e]; unfold wrote; cbn [cn_pending cn_trace cn_written].
  - exists (raws ++ [raw]), c. split; [eapply carried_app; [done|by eapply carried_send, carried_refl]|].
    cbn [cn_trace cn_written popped]. rewrite fmap_app.
    split; [apply Forall2_app; [done|by constructor]|]. left. by rewrite Hp.
  - exists raws, c1. cbn [cn_trace cn_written popped]. rewrite app_nil_r.
    split; [done|]. split; [done|]. right. cbn.
    destruct (send_spec C base _ _ _ _ _ _ Hi1 Hl1 Hsend) as (_ & _ & _ & Hout).
    split; [done|]. split; [left; by exists e, m|]. exists (sid, m). by rewrite Hp.
Qed.

Lemma CInv_recv n l : CInv n l -> CInv (conn_recv C msgpack n).1 l.
Proof.
  intros (raws & c1 & Hc & He & Hor). unfold conn_recv.
  destruct (recv_msg C msgpack (cn_chan n)) as [c r] eqn:Hr. cbn [fst].
  assert (exists r', recv C (cn_chan n) = (c, r')) as [r' Hrecv].
  { unfold recv_msg, mbind_m in Hr. destruct (recv C (cn_chan n)) as [c' [raw|e]]; injection Hr as <- _; eauto. }
  pose proof (recv_half C _ _ _ Hrecv) as (Ew & _). exists raws.
  destruct Hor as [[Hch Hp]|(Hout & Hf & Hp)].
  - exists c. split; [|split; [done|by left]]. rewrite <-(app_nil_r raws). eapply carried_app; [done|].
    rewrite <-Hch. by eapply carried_recv, carried_refl.
  - exists c1. split; [done|]. split; [done|]. right. cbn. rewrite Ew. split; [done|]. split; [|done].
    destruct r as [m|e]; [by apply (failed_writer n)|by apply (failed_close n)].
Qed.

Lemma conn_step_CInv n l n' l' : conn_step C msgpack (n, l) (n', l') -> CInv n l -> CInv n' l'.
Proof.
  intros Hst Hi. inversion Hst as [m sid ? s b t w Hs|? s sid m rest t w Hw Hr|? t w Hw|? t w Hw Hk|
    now1 now2 ? ? o t w Hw Ht|? m r t w Hw Hp|? t w|? t w]; subst.
  - eapply CInv_same; [done|done| |done|done]. apply failed_writer.
    apply send_cases in Hs as (_ & i & _ & Hb). destruct b; [|by subst].
    destruct Hb as (_ & _ & ->). by rewrite enqueue_writer.
  - eapply CInv_same; [done|done| |done|done]. apply failed_writer.
    destruct (resume_cases _ _ _ _ _ Hw Hr) as [_ ->]. by rewrite enqueue_writer.
  - eapply CInv_same; [done|done| |done|done].
    intros [(e & m & _ & Hm)|Hd]; congruence.
  - eapply CInv_same; [done|done| |done|done]. intros [(e & m & _ & Hm)|Hd]; congruence.
  - by eapply CInv_turn.
  - eapply CInv_same; [done|done| |done|done]. intros [(e & m' & He & _)|Hd]; [|congruence].
    right. rewrite Hp in He. by injection He as ->.
  - by apply CInv_recv.
  - eapply CInv_same; [done|done| |done|done]. by apply failed_close.
Qed.

Lemma conn_reachable_CInv max_queued n l :
  conn_reachable C msgpack max_queued c0 (n, l) -> CInv n l.
Proof.
  intros Hr. assert (forall st, conn_reachable C msgpack max_queued c0 st -> CInv st.1 st.2) as Hall;
    [|by apply (Hall (n, l))].
  apply rtc_ind_r.
  - exists [], c0. split; [apply carried_refl|]. split; [constructor|by left].
  - intros [n1 l1] [n2 l2] _ Hs. by apply conn_step_CInv.
Qed.
End invariant.

(** ** Properties *)

Section claims.
Context (C : crypto) `{!CryptoLaws C} (msgpack : codec) (ok : pyval -> Prop) `{!CodecLaws msgpack ok}.

Lemma prefix_on_stream sid l1 l2 : l1 `prefix_of` l2 -> on_stream sid l1 `prefix_of` on_stream sid l2.
Proof. intros [k ->]. rewrite on_stream_app. by eexists. Qed.

(** What the channel wrote is what the writer took, up to one message whose
    send raised. *)
Lemma written_prefix c0 n l :
  CInv C msgpack c0 n l ->
  cn_written l `prefix_of` popped (cn_trace l) /\
  (len (popped (cn_trace l)) <= len (cn_written l) + 1) /\
  (writer_task (cn_mux n) = WWaiting -> cn_written l = popped (cn_trace l)).
Proof.
  intros (raws & c1 & _ & _ & [[_ ->]|(_ & Hf & e & ->)]).
  - split_and!; [done|lia|done].
  - rewrite len_snoc. split_and!; [by eexists|lia|].
    intros Hw. destruct Hf as [(? & ? & _ & Hm)|Hd]; congruence.
Qed.

Lemma deliver_run {H} (f : Message -> M H unit) mx h q rd out closed wr req ka kb kb' th win win' nr
    secs secs' skip skip' now now' s r n l sent buf :
  SecureChannel_init rd (Writer out false closed) ka kb th win nr secs skip now = Ok s ->
  SecureChannel_init (Reader buf req) wr kb' ka th win' nr secs' skip' now' = Ok r -> 1 <= skip' ->
  0 <= q -> conn_reachable C msgpack q s (n, l) ->
  wr_out (sc_writer (cn_chan n)) = out ++ sent -> buf `prefix_of` sent ->
  Forall (fun e : Z * Message =>
    ok (VDict [("type", VStr (MsgType_value (msg_type e.2))); ("body", msg_body e.2)])) (cn_written l) ->
  exists k mx' e r', let got := take k (cn_written l) in
    run_channel C msgpack (Some f) mx r h
      = (mx', foldl (fun h m => state_after (f m) h) h got.*2, e, r') /\
    (exn_cls e = IncompleteReadError \/ exn_cls e = ConnectionClosed) /\
    Mux.closed mx' = true /\ messages_received mx' = messages_received mx + len got /\
    cn_written l `prefix_of` popped (cn_trace l) /\
    (forall sid, on_stream sid got `prefix_of` on_stream sid (enqd (cn_trace l))) /\
    (buf = sent -> got = cn_written l /\
      (writer_task (cn_mux n) = WWaiting -> queues (cn_mux n) = ∅ ->
       forall sid, on_stream sid got = on_stream sid (enqd (cn_trace l)))).
Proof.
  intros Hs Hr Hskip Hq Hn Hsent Hbuf Hok.
  destruct (init_inv C _ _ _ _ _ _ _ _ _ _ _ Hs) as (Is & _ & _ & Hw & Ht & Hi & _ & Es & _ & _).
  destruct (init_inv C _ _ _ _ _ _ _ _ _ _ _ Hr) as (_ & Ir & Hrd & _ & Ht' & Hi' & Hk & _ & Er & _).
  assert (Synced C ka ∅ s r) as Hsy by (split; try done; try congruence; try lia; by rewrite Hw).
  assert (wr_lost (sc_writer s) = false) as Hlive by by rewrite Hw.
  pose proof (conn_reachable_CInv C msgpack ka s Is Hlive q n l Hn) as Hci.
  destruct (written_prefix _ _ _ Hci) as (Hpre & _ & Hidle).
  pose proof (reachable_fifo q _ _ Hq (conn_mux_reachable _ _ _ _ _ _ Hn)) as Hfifo.
  destruct Hci as (raws & c1 & Hc & Henc & Hor).
  assert (wr_out (sc_writer (cn_chan n)) = wr_out (sc_writer c1)) as Hout
    by (destruct Hor as [[-> _]|[? _]]; done).
  assert (Forall2 (encodes msgpack ok) (cn_written l).*2 raws) as Hms.
  { apply Forall2_fmap_l. apply Forall2_fmap_l in Henc.
    revert Hok. clear -Henc. induction Henc as [|e raw l1 l2 He _ IH]; [by constructor|].
    intros [Hk Hl]%Forall_cons. constructor; [by split|by apply IH]. }
  rewrite Hsent in Hout.
  destruct (deliver_cut C msgpack ok ka s raws c1 Hc ∅ r sent buf (cn_written l).*2
    (S (length (rd_buf (sc_reader r)))) Hsy) as (k & e & r' & Hread & Hcls & Hall);
    [by rewrite Hw, <-Hout|by rewrite Hrd|done|done|rewrite Hrd; cbn; lia|].
  rewrite <-fmap_take in Hread.
  pose proof (mux_run_dispatches f (take k (cn_written l)).*2 e mx h) as Hrun.
  destruct (Mux.run (Some f) (take k (cn_written l)).*2 e mx h) as [[mx' h'] e'] eqn:Hmx.
  destruct Hrun as (-> & -> & Hrec & Hcl).
  exists k, mx', e, r'. cbn zeta.
  assert (take k (cn_written l) `prefix_of` popped (cn_trace l)) as Hgot
    by (etrans; [apply prefix_take|done]).
  split_and!; try done.
  - unfold run_channel. by rewrite Hread, Hmx.
  - rewrite Hrec. unfold len. by rewrite length_fmap.
  - intros sid. etrans; [by apply prefix_on_stream|]. rewrite (Hfifo sid). by eexists.
  - intros Eb. specialize (Hall Eb). rewrite length_fmap in Hall.
    assert (take k (cn_written l) = cn_written l) as Eg by (rewrite take_ge; [done|lia]).
    split; [done|]. intros Hww Hqe sid. rewrite Eg, (Hidle Hww), (Hfifo sid), Hqe, lookup_empty.
    cbn. by rewrite app_nil_r.
Qed.

(** C6: a connection delivers: whatever the senders queue and however the tasks
    of one end interleave with each other and with its own read loop, the other
    end's [run] gives its handler, in order, unchanged and once each, the
    messages of which all bytes arrived (all that were written when the whole
    stream arrived), then closes; of every stream they are the first ones
    queued, and all of them once the writer is idle with nothing queued. *)
Theorem connection_delivers {H} (f : Message -> M H unit) mx h q rd out closed wr req ka kb kb' th win win' nr
    secs secs' skip skip' now now' s r n l sent buf :
  SecureChannel_init rd (Writer out false closed) ka kb th win nr secs skip now = Ok s ->
  SecureChannel_init (Reader buf req) wr kb' ka th win' nr secs' skip' now' = Ok r -> 1 <= skip' ->
  0 <= q -> conn_reachable C msgpack q s (n, l) ->
  wr_out (sc_writer (cn_chan n)) = out ++ sent -> buf `prefix_of` sent ->
  Forall (fun e : Z * Message =>
    ok (VDict [("type", VStr (MsgType_value (msg_type e.2))); ("body", msg_body e.2)])) (cn_written l) ->
  exists k mx' e r', let got := take k (cn_written l) in
    run_channel C msgpack (Some f) mx r h
      = (mx', foldl (fun h m => state_after (f m) h) h got.*2, e, r') /\
    (exn_cls e = IncompleteReadError \/ exn_cls e = ConnectionClosed) /\
    Mux.closed mx' = true /\ messages_received mx' = messages_received mx + len got /\
    cn_written l `prefix_of` popped (cn_trace l) /\
    (forall sid, on_stream sid got `prefix_of` on_stream sid (enqd (cn_trace l))) /\
    (buf = sent -> got = cn_written l /\
      (writer_task (cn_mux n) = WWaiting -> queues (cn_mux n) = ∅ ->
       forall sid, on_stream sid got = on_stream sid (enqd (cn_trace l)))).
Proof. apply deliver_run. Qed.
End claims.

(** ** Termination of the read loop *)

Section read_channel.
Context (C : crypto) (msgpack : codec).

Lemma turn_body_reader rd0 f : preserves (fun c => sc_reader c = rd0) (turn_body C f).
Proof.
  assert (forall epoch, preserves (fun c => sc_reader c = rd0) (_advance_recv_to C epoch)) as Ha.
  { intros epoch c Hc. unfold state_after, _advance_recv_to. repeat case_match; try done.
    assert (forall n c1, sc_reader (advance_recv_steps C n c1).1 = sc_reader c1) as ->; [|done].
    induction n as [|n IH]; intros c1; cbn [advance_recv_steps]; [done|].
    destruct (ChaCha20Poly1305 _); [by rewrite IH|done]. }
  unfold turn_body. pres. apply preserves_get. intros c Hc. destruct (check_and_update _ _) as [w []];
    cbn [negb]; (apply (preserves_bind (fun c => sc_reader c = rd0));
      [by apply preserves_modify| |done]); intros _; [|apply preserves_ret].
  apply preserves_bind; [apply Ha|]. intros _ c1 Hc1. rewrite <-Hc1. unfold state_after.
  unfold mbind_m, mtry, mget, mlift, mret, mraise. by repeat case_match; simplify_eq.
Qed.

Lemma recv_turn_takes c c' o :
  recv_turn C c = (c', Ok o) -> (length (rd_buf (sc_reader c')) + 4 <= length (rd_buf (sc_reader c)))%nat.
Proof.
  rewrite recv_turn_split. intros (c1 & f & (rd & Hrd & ->)%on_reader_inv & Ht)%bind_ok_inv.
  pose proof (turn_body_reader rd f (with_reader rd c) eq_refl) as Hr. unfold state_after in Hr.
  rewrite Ht in Hr. cbn in Hr. rewrite Hr. by apply read_frame_consumes in Hrd.
Qed.

Lemma recv_takes c c' p :
  recv C c = (c', Ok p) -> (length (rd_buf (sc_reader c')) < length (rd_buf (sc_reader c)))%nat.
Proof.
  assert (forall n c, recv_loop C n c = (c', Ok p) ->
    (length (rd_buf (sc_reader c')) < length (rd_buf (sc_reader c)))%nat) as Hn; [|apply Hn].
  induction n as [|n IH]; intros c1; [done|]. cbn [recv_loop].
  intros (c2 & [q|] & Ht%recv_turn_takes & Hr)%bind_ok_inv.
  - injection Hr as <- _. lia.
  - apply IH in Hr. lia.
Qed.

(** Whatever bytes arrive, the read loop ends, after at most one message per
    buffered byte: more turns than the bound of [run_channel] give the same
    messages and the same exception. *)
Theorem read_channel_enough fuel c :
  (length (rd_buf (sc_reader c)) < fuel)%nat ->
  read_channel C msgpack fuel c = read_channel C msgpack (S (length (rd_buf (sc_reader c)))) c.
Proof.
  assert (forall n m c, (length (rd_buf (sc_reader c)) < n)%nat -> (length (rd_buf (sc_reader c)) < m)%nat ->
    read_channel C msgpack n c = read_channel C msgpack m c) as Hnm; [|intros; apply Hnm; lia].
  clear. induction n as [|n IH]; intros [|m] c Hn Hm; try lia. cbn [read_channel].
  destruct (recv_msg C msgpack c) as [c' [msg|e]] eqn:Hr; [|done].
  unfold recv_msg in Hr. apply bind_ok_inv in Hr as (c1 & raw & Hrecv%recv_takes & Hd).
  apply lift_inv in Hd as [-> _]. rewrite (IH m c1) by lia. done.
Qed.
End read_channel.

(** ** Witnesses: a transfer and a control message over one connection *)

Definition link_docs : list pyval :=
  (fun z => VDict [("type", VStr "Ping"); ("body", VDict [("n", VInt z)])]) <$> [1; 2; 3; 4].
Definition link_codec : codec := table_codec link_docs.

#[global] Instance link_codec_laws : CodecLaws link_codec (fun _ => True).
Proof. apply table_codec_laws. by vm_compute. Qed.

(** Queue a message, take a turn, or see a send end; [None] where the task is
    not at that point. *)
Inductive conn_act := CSend (sid : Z) (m : Message) | CTurn (now : Z) | CSent.

Definition conn_do (a : conn_act) (st : Conn * conn_log) : option (Conn * conn_log) :=
  let '(n, CLog t w) := st in
  match a with
  | CSend sid m =>
      match Mux.send m (Some sid) (cn_mux n) with
      | (s, Ok true) => Some (with_cn_mux s n, CLog (Trace (enqd t ++ [(sid, m)]) (popped t)) w)
      | _ => None
      end
  | CTurn now =>
      match writer_task (cn_mux n) with
      | WReady =>
          let '(n', o) := conn_turn toy_crypto link_codec now now n in
          Some (n', CLog (Trace (enqd t) (popped t ++ option_list o)) (w ++ wrote n' o))
      | _ => None
      end
  | CSent =>
      match writer_task (cn_mux n), cn_pending n with
      | WSending _, Some r => Some (conn_sent r n, CLog t w)
      | _, _ => None
      end
  end.

Fixpoint conn_run (l : list conn_act) (st : Conn * conn_log) : option (Conn * conn_log) :=
  match l with
  | [] => Some st
  | a :: l => match conn_do a st with Some st => conn_run l st | None => None end
  end.

Lemma conn_do_step a st st' : conn_do a st = Some st' -> conn_step toy_crypto link_codec st st'.
Proof.
  destruct st as [n [t w]], a as [sid m|now|]; cbn [conn_do].
  - destruct (Mux.send m (Some sid) (cn_mux n)) as [s [[]|e]] eqn:Hs; try done. intros [= <-].
    by apply (conn_step_send _ _ m (Some sid) n s true t w).
  - destruct (writer_task (cn_mux n)) eqn:Hw; try done.
    destruct (conn_turn _ _ _ _ _) as [n' o] eqn:Ht. intros [= <-]. by eapply conn_step_turn.
  - destruct (writer_task (cn_mux n)) eqn:Hw; try done. destruct (cn_pending n) eqn:Hp; [|done].
    intros [= <-]. by eapply conn_step_sent.
Qed.

Lemma conn_run_rtc l st st' : conn_run l st = Some st' -> rtc (conn_step toy_crypto link_codec) st st'.
Proof.
  revert st. induction l as [|a l IH]; intros st; cbn [conn_run]; [by intros [= <-]|].
  destruct (conn_do a st) as [st1|] eqn:Hd; [|done]. intros Hl.
  eapply rtc_l; [by apply (conn_do_step a)|by apply IH].
Qed.

(** Three pieces on stream 7, a control message between; everything is served. *)
Definition link_acts : list conn_act :=
  [CSend 7 (mk 1); CSend 7 (mk 2); CSend 7 (mk 3); CTurn 0; CSend 0 (mk 4); CSent;
   CTurn 1; CSent; CTurn 2; CSent; CTurn 30; CSent; CTurn 31].

Definition link_start : Conn * conn_log :=
  (with_cn_mux (start_writer (ChannelMux_init 8)) (conn_start 8 demo_sender).1, CLog (Trace [] []) []).

Definition link_end : Conn * conn_log := default link_start (conn_run link_acts link_start).

Lemma link_end_reachable : conn_reachable toy_crypto link_codec 8 demo_sender (link_end.1, link_end.2).
Proof.
  eapply rtc_l; [by apply (conn_step_start _ _ (conn_start 8 demo_sender).1 (Trace [] []) [])|].
  apply (conn_run_rtc link_acts). by vm_compute.
Qed.

Definition link_wire : bytes := wr_out (sc_writer (cn_chan link_end.1)).

(** The handler of the other end keeps what it was given; the stream stops in
    the middle of the fourth frame. *)
Definition collect (m : Message) : M (list Message) unit := mmodify (fun l => l ++ [m]).

Example link_cut :
  run_channel toy_crypto link_codec (Some collect) (ChannelMux_init 8)
    (demo_chan (take (length link_wire - 3) link_wire) key_b key_a) []
  = (received (received (received (Mux ∅ [] true 8 [] true WDone 0 0 0))), [mk 1; mk 2; mk 4],
     Exn ConnectionClosed "peer closed connection mid-frame",
     (run_channel toy_crypto link_codec (Some collect) (ChannelMux_init 8)
        (demo_chan (take (length link_wire - 3) link_wire) key_b key_a) []).2).
Proof. by vm_compute. Qed.

Lemma connection_delivers_witness :
  exists k mx' e r', let got := take k (cn_written link_end.2) in
    run_channel toy_crypto link_codec (Some collect) (ChannelMux_init 8) (demo_chan link_wire key_b key_a) []
      = (mx', foldl (fun h m => state_after (collect m) h) [] got.*2, e, r') /\
    got = cn_written link_end.2 /\
    (forall sid, on_stream sid got = on_stream sid (enqd (cn_trace link_end.2))).
Proof.
  destruct (connection_delivers toy_crypto link_codec (fun _ => True) collect (ChannelMux_init 8) [] 8
    (Reader [] []) [] false (Writer [] false false) [] key_a key_b key_b t_hash0 8 8 2 10 10 4 4 0 0
    demo_sender (demo_chan link_wire key_b key_a) link_end.1 link_end.2 link_wire link_wire)
    as (k & mx' & e & r' & Hrun & _ & _ & _ & _ & _ & Hall);
    [by vm_compute|by vm_compute|lia|lia|apply link_end_reachable|done|done|by vm_compute; repeat constructor|].
  destruct (Hall eq_refl) as [Hgot Hidle]. exists k, mx', e, r'. split; [exact Hrun|]. split; [exact Hgot|].
  apply Hidle; by vm_compute.
Defined.

Lemma read_channel_enough_witness :
  read_channel toy_crypto link_codec 1000 (demo_chan link_wire key_b key_a)
    = read_channel toy_crypto link_codec (S (length link_wire)) (demo_chan link_wire key_b key_a).
Proof.
  apply (read_channel_enough toy_crypto link_codec 1000 (demo_chan link_wire key_b key_a)).
  vm_compute. lia.
Defined.
