(* ===== verification/BenchMux.v ===== *)
(** * The head-of-line benchmark ([bench/bench_hol.py])

    The benchmark counts, on the real multiplexer over a channel that only
    records, the bytes a control message waits behind.  [measure] is modelled
    whole: the sends (with no writer running, so a full queue blocks for ever),
    the run of the writer loop, and the count. *)
From S2P Require Import Prelude Config PyVal Protocol Mux.

(** ** [_CountingChannel] *)

(** [len(v)]; the characters of a text are the bytes that do not continue one. *)
Definition py_len (v : pyval) : result Z :=
  match v with
  | VBytes b => Ok (len b)
  | VStr s => Ok (len (filter (fun x => ~ (128 <= Z_of_byte x <= 191)) (String.list_byte_of_string s)))
  | VList l => Ok (len l)
  | VDict d => Ok (len d)
  | _ => Err (lib_exn TypeError)
  end.

(** The channel is its [order] list: stream and payload bytes of each send. *)
Definition send_msg (m : Message) : M (list (Z * Z)) unit :=
  chunk <- mlift (vget "chunk" (msg_body m));;
  n <- mlift (if truthy chunk then py_len chunk else Ok 0);;
  sid <- mlift (stream_id m);;
  mmodify (fun order => order ++ [(sid, n)]).

(** ** [_flush] *)

(** The writer task from its head until it waits for [_wake] or ends: the
    channel's [send_msg] never suspends, so nothing runs in between. *)
Fixpoint writer_burst (fuel : nat) (st : ChannelMux * list (Z * Z)) : ChannelMux * list (Z * Z) :=
  match fuel with
  | O => st
  | S fuel =>
      let '(s, ch) := st in
      match writer_task s with
      | WReady =>
          match writer_turn s with
          | (s, Some (_, m)) =>
              let '(ch, r) := send_msg m ch in
              writer_burst fuel (writer_sent (match r with Ok _ => true | Err _ => false end) s, ch)
          | (s, None) => writer_burst fuel (s, ch)
          end
      | _ => st
      end
  end.

(** The task runs at the first [sleep(0)], unless enough was sent already; then
    it is cancelled.  Every turn but the last takes a message, so one turn per
    queued message and two more are enough ([burst_ends]). *)
Definition _flush (expected : Z) (st : ChannelMux * list (Z * Z)) : ChannelMux * list (Z * Z) :=
  let '(s, ch) := st in
  let s := start_writer s in
  if expected <=? len ch then (cancel_writer s, ch)
  else
    let '(s, ch) := writer_burst (Z.to_nat (queued (queues s)) + 2) (s, ch) in
    (cancel_writer s, ch).

(** ** [measure] *)

Definition chunks (block_bytes chunk_size : Z) : list Z :=
  replicate (Z.to_nat (block_bytes / chunk_size)) chunk_size ++
  (if block_bytes mod chunk_size =? 0 then [] else [block_bytes mod chunk_size]).

(** The message of the chunk at position [i]. *)
Definition chunk_msg (i size : Z) : Message :=
  Msg BLOCK_CHUNK (VDict [("stream_id", VInt 1); ("chunk", VBytes (replicate (Z.to_nat size) Byte.x00));
                          ("seq", VInt i)]).
Definition ping_msg : Message := Msg PING (VDict [("stream_id", VInt Config.CONTROL_STREAM_ID)]).

(** The [await mux.send(...)]s, one after the other; [None] when one of them
    blocks: nobody will release a slot. *)
Fixpoint send_all (ms : list Message) (s : ChannelMux) : option (result ChannelMux) :=
  match ms with
  | [] => Some (Ok s)
  | m :: ms =>
      match Mux.send m None s with
      | (s, Ok true) => send_all ms s
      | (_, Ok false) => None
      | (_, Err e) => Some (Err e)
      end
  end.

(** The bytes and frames before the first control frame. *)
Fixpoint ahead (order : list (Z * Z)) : Z * Z :=
  match order with
  | [] => (0, 0)
  | (sid, size) :: order =>
      if sid =? Config.CONTROL_STREAM_ID then (0, 0)
      else let '(b, f) := ahead order in (size + b, 1 + f)
  end.

(** The semaphore of the benchmark's multiplexer. *)
Definition MAX_QUEUED : Z := 100000.

Definition measure (block_bytes chunk_size : Z) : option (result (Z * Z)) :=
  if chunk_size =? 0 then Some (Err (lib_exn ZeroDivisionError))
  else
    let cs := chunks block_bytes chunk_size in
    match send_all (imap (fun i => chunk_msg (Z.of_nat i)) cs ++ [ping_msg]) (ChannelMux_init MAX_QUEUED) with
    | None => None
    | Some (Err e) => Some (Err e)
    | Some (Ok s) =>
        let '(s, ch) := _flush (len cs + 1) (s, []) in
        Some (Ok (ahead ch))
    end.

(** [main]: the rows of the report, one frame on one queue and the measured one. *)
Definition rows (block_mb : Z) : option (result (list (Z * Z))) :=
  let block_bytes := block_mb * 1024 * 1024 in
  match measure block_bytes Config.PEER_CHUNK_SIZE with
  | Some (Ok r) => Some (Ok [(block_bytes, 1); r])
  | Some (Err e) => Some (Err e)
  | None => None
  end.

Example small_measure : measure 10 4 = Some (Ok (4, 1)) /\ measure 3 4 = Some (Ok (3, 1)) /\
  measure 0 4 = Some (Ok (0, 0)).
Proof. by vm_compute. Qed.

(** ** The sends *)

(** A multiplexer nobody serves yet. *)
Definition loaded (qs : gmap Z (list Message)) (ord : list Z) (free : Z) (s : ChannelMux) : Prop :=
  queues s = qs /\ order s = ord /\ slots s = free /\ closed s = false /\ waiting s = [].

Lemma send_loaded m sid qs ord free s :
  loaded qs ord free s -> stream_id m = Ok sid -> 0 < free ->
  exists s', Mux.send m None s = (s', Ok true) /\
    loaded (<[sid := default [] (qs !! sid) ++ [m]]> qs)
      (ord ++ (match qs !! sid with Some _ => [] | None => [sid] end)) (free - 1) s'.
Proof.
  intros (Hq & Ho & Hf & Hc & Hw) Hsid Hfree.
  exists (enqueue sid m (take_slot s)). unfold Mux.send. rewrite Hc, Hsid, Hw, Hf.
  rewrite (proj2 (Z.ltb_lt _ _) Hfree). cbn [andb len length Z.of_nat Z.eqb]. split; [done|].
  destruct (enqueue_queues sid m (take_slot s)) as (E1 & E2 & _ & E4 & E5 & _).
  unfold loaded. rewrite E1, E2, E4, E5. msimpl. rewrite Hq, Ho, Hf. split_and!; try done.
  unfold enqueue. msimpl. by destruct (queues s !! sid).
Qed.

Lemma send_full m sid qs ord free s :
  loaded qs ord free s -> stream_id m = Ok sid -> free <= 0 -> exists s', Mux.send m None s = (s', Ok false).
Proof.
  intros (Hq & Ho & Hf & Hc & Hw) Hsid Hfree. eexists. unfold Mux.send. rewrite Hc, Hsid, Hf.
  by rewrite (proj2 (Z.ltb_ge _ _) Hfree).
Qed.

(** The chunks of one stream: they queue as long as there is room. *)
Lemma send_stream sid ms q s free :
  Forall (fun m => stream_id m = Ok sid) ms -> q <> [] -> loaded {[sid := q]} [sid] free s -> 0 <= free ->
  forall rest,
  (len ms <= free -> exists s', loaded {[sid := q ++ ms]} [sid] (free - len ms) s' /\
     send_all (ms ++ rest) s = send_all rest s') /\
  (free < len ms -> send_all (ms ++ rest) s = None).
Proof.
  intros Hms. revert q s free. induction Hms as [|m ms Hm Hms IH]; intros q s free Hq Hl Hfree rest.
  - rewrite len_nil, Z.sub_0_r, app_nil_r. split; [intros _; by exists s|lia].
  - rewrite len_cons. pose proof (len_nonneg ms). cbn [send_all app].
    destruct (decide (0 < free)) as [Hpos|Hzero].
    + destruct (send_loaded m sid _ _ free s Hl Hm Hpos) as (s1 & Hs & Hl1). rewrite Hs.
      rewrite lookup_singleton_eq, insert_singleton_eq in Hl1. cbn [default from_option id] in Hl1.
      rewrite app_nil_r in Hl1.
      destruct (IH (q ++ [m]) s1 (free - 1) ltac:(by destruct q) Hl1 ltac:(lia) rest) as [H1 H2].
      split; intros Hlen; [|apply H2; lia]. destruct (H1 ltac:(lia)) as (s' & Hl' & Hs').
      exists s'. rewrite <-(assoc_L app) in Hl'.
      by replace (free - (1 + len ms)) with (free - 1 - len ms) by lia.
    + destruct (send_full m sid _ _ free s Hl Hm ltac:(lia)) as [s1 Hs]. rewrite Hs.
      split; [lia|done].
Qed.

(** ** The writer's run *)

(** A multiplexer whose writer is at the head of its loop. *)
Definition serving (qs : gmap Z (list Message)) (ord : list Z) (s : ChannelMux) : Prop :=
  queues s = qs /\ order s = ord /\ closed s = false /\ writer_task s = WReady.

(** What the channel records of a message. *)
Definition records (m : Message) (e : Z * Z) : Prop := forall ch, send_msg m ch = (ch ++ [e], Ok tt).

Lemma burst_step fuel sid m q qs ord e s ch :
  serving qs (sid :: ord) s -> qs !! sid = Some (m :: q) -> records m e ->
  exists s', writer_burst (S fuel) (s, ch) = writer_burst fuel (s', ch ++ [e]) /\
    serving (match q with [] => delete sid qs | _ => <[sid := q]> qs end)
      (ord ++ (match q with [] => [] | _ => [sid] end)) s'.
Proof.
  intros (Hq & Ho & Hc & Hw) Hm He. cbn [writer_burst]. rewrite Hw. unfold writer_turn.
  rewrite Hc, Ho, Hq, Hm. destruct q as [|m' q]; rewrite (He ch); (eexists; split; [done|]);
    unfold serving, writer_sent; msimpl; by rewrite ?Hq, ?app_nil_r.
Qed.

Lemma burst_idle fuel s ch :
  serving ∅ [] s -> exists s', writer_burst (S (S fuel)) (s, ch) = (s', ch).
Proof.
  intros (Hq & Ho & Hc & Hw). cbn [writer_burst]. rewrite Hw. unfold writer_turn. rewrite Hc, Ho.
  cbn [with_writer_task writer_task]. by eexists.
Qed.

(** One stream left: its messages in order, then the writer waits. *)
Lemma burst_ends sid ms es s ch fuel :
  Forall2 records ms es -> ms <> [] -> serving {[sid := ms]} [sid] s ->
  (length ms + 1 < fuel)%nat -> exists s', writer_burst fuel (s, ch) = (s', ch ++ es).
Proof.
  intros He. revert s ch fuel. induction He as [|m e ms es Hm He IH]; intros s ch fuel Hne Hs Hf; [done|].
  cbn [length] in Hf. destruct fuel as [|fuel]; [lia|].
  destruct (burst_step fuel sid m ms _ [] e s ch Hs (lookup_singleton_eq _ _) Hm) as (s1 & -> & Hs1).
  destruct ms as [|m' ms].
  - apply Forall2_nil_inv_l in He as ->. rewrite delete_singleton_eq, app_nil_r in Hs1.
    destruct fuel as [|[|fuel]]; [cbn in Hf; lia..|]. by apply burst_idle.
  - rewrite insert_singleton_eq in Hs1.
    destruct (IH s1 (ch ++ [e]) fuel ltac:(done) Hs1 ltac:(cbn in *; lia)) as [s' Hs'].
    exists s'. by rewrite Hs', <-(assoc_L app).
Qed.

(** A transfer and a control message behind it: the control message is the
    second one sent. *)
Lemma burst_control m ms e es p pe s ch fuel :
  records m e -> Forall2 records ms es -> records p pe ->
  serving (<[0 := [p]]> {[1 := m :: ms]}) [1; 0] s -> (length ms + 3 < fuel)%nat ->
  exists s', writer_burst fuel (s, ch) = (s', ch ++ [e; pe] ++ es).
Proof.
  intros Hm Hms Hp Hs Hf. destruct fuel as [|[|fuel]]; [lia..|].
  destruct (burst_step (S fuel) 1 m ms _ [0] e s ch Hs) as (s1 & -> & Hs1); [done|done|].
  assert (exists s2, writer_burst (S fuel) (s1, ch ++ [e]) = writer_burst fuel (s2, (ch ++ [e]) ++ [pe]) /\
    match ms with [] => serving ∅ [] s2 | _ => serving {[1 := ms]} [1] s2 end) as (s2 & -> & Hs2).
  { destruct ms as [|m' ms].
    - destruct (burst_step fuel 0 p [] _ [] pe s1 (ch ++ [e]) Hs1) as (s2 & H2 & Hs2); [done|done|].
      exists s2. split; [done|]. replace (delete 0 (delete 1 (<[0:=[p]]> {[1 := [m]]})))
        with (∅ : gmap Z (list Message)) in Hs2; [done|]. symmetry. apply map_eq. intros i.
      rewrite !lookup_delete. destruct (decide (0 = i)); [done|]. case_decide; [done|].
      by rewrite lookup_insert_ne, lookup_singleton_ne.
    - destruct (burst_step fuel 0 p [] _ [1] pe s1 (ch ++ [e]) Hs1) as (s2 & H2 & Hs2); [|done|].
      { rewrite lookup_insert_ne, lookup_insert_eq by done. done. }
      exists s2. split; [done|]. rewrite app_nil_r in Hs2.
      replace (delete 0 (<[1:=m' :: ms]> (<[0:=[p]]> {[1 := m :: m' :: ms]})))
        with ({[1 := m' :: ms]} : gmap Z (list Message)) in Hs2; [done|]. symmetry. apply map_eq. intros i.
      rewrite lookup_delete, !lookup_insert. destruct (decide (0 = i)) as [<-|]; [done|].
      destruct (decide (1 = i)) as [<-|]; [by rewrite lookup_singleton_eq|].
      by rewrite !lookup_singleton_ne. }
  destruct ms as [|m' ms].
  - apply Forall2_nil_inv_l in Hms as ->. destruct fuel as [|[|fuel]]; [cbn in Hf; lia..|].
    destruct (burst_idle fuel s2 ((ch ++ [e]) ++ [pe]) Hs2) as [s' ->]. exists s'. by rewrite <-(assoc_L app).
  - destruct (burst_ends 1 (m' :: ms) es s2 ((ch ++ [e]) ++ [pe]) fuel Hms ltac:(done) Hs2) as [s' ->];
      [cbn in *; lia|]. exists s'. by rewrite <-!(assoc_L app).
Qed.

(** ** The chunks *)

Lemma chunks_split block chunk :
  0 < chunk -> 0 < block ->
  exists rest, chunks block chunk = Z.min chunk block :: rest /\ Forall (fun c => 0 < c) rest /\
    len (chunks block chunk) = (block + chunk - 1) / chunk.
Proof.
  intros Hc Hb. unfold chunks. pose proof (Z.div_mod block chunk ltac:(lia)) as Hdm.
  pose proof (Z.mod_pos_bound block chunk Hc) as Hmod. assert (0 <= block / chunk) as Hq by (apply Z.div_pos; lia).
  set (d := block / chunk) in *. set (x := block mod chunk) in *. clearbody d x.
  assert (len (replicate (Z.to_nat d) chunk ++ (if x =? 0 then [] else [x])) = (block + chunk - 1) / chunk) as Hlen.
  { rewrite len_app. unfold len at 1. rewrite length_replicate, Z2Nat.id by done.
    destruct (Z.eqb_spec x 0) as [Hx|Hx]; unfold len; cbn [length].
    - rewrite Z.add_0_r. apply Z.div_unique with (chunk - 1); lia.
    - change (Z.of_nat 1) with 1. apply Z.div_unique with (x - 1); nia. }
  destruct (decide (0 < d)) as [Hd|Hd].
  - exists (replicate (Z.to_nat (d - 1)) chunk ++ (if x =? 0 then [] else [x])). split_and!; [| |done].
    + replace (Z.to_nat d) with (S (Z.to_nat (d - 1))) by lia. cbn [replicate app]. f_equal. nia.
    + apply Forall_app. split; [by apply Forall_replicate|].
      destruct (Z.eqb_spec x 0); [constructor|constructor; [lia|constructor]].
  - exists []. assert (d = 0) as Hd0 by lia. subst d. split_and!; [|constructor|done].
    destruct (Z.eqb_spec x 0); [lia|]. change (replicate (Z.to_nat 0) chunk) with (@nil Z). cbn [app].
    f_equal. lia.
Qed.

Lemma chunk_records i size : 0 < size -> records (chunk_msg i size) (1, size).
Proof.
  intros Hs ch. unfold send_msg, chunk_msg. cbn [msg_body].
  change (vget "chunk" _) with (Ok (VBytes (replicate (Z.to_nat size) Byte.x00)) : result pyval).
  rewrite bind_lift_ok.
  assert (truthy (VBytes (replicate (Z.to_nat size) Byte.x00)) = true) as ->.
  { cbn. destruct (Z.to_nat size) eqn:E; [lia|done]. }
  cbn [py_len]. rewrite bind_lift_ok. unfold len. rewrite length_replicate, Z2Nat.id by lia. done.
Qed.

Lemma ping_records : records ping_msg (Config.CONTROL_STREAM_ID, 0).
Proof. done. Qed.

(** The messages of the chunks from position [i] on. *)
Definition chunk_msgs (i : nat) (cs : list Z) : list Message := imap (fun k => chunk_msg (Z.of_nat (i + k))) cs.

Lemma chunk_msgs_cons i c cs : chunk_msgs i (c :: cs) = chunk_msg (Z.of_nat i) c :: chunk_msgs (S i) cs.
Proof.
  unfold chunk_msgs. rewrite imap_cons, Nat.add_0_r. f_equal. apply imap_ext. intros k x _. cbn. do 2 f_equal. lia.
Qed.

Lemma chunk_msgs_stream i cs : Forall (fun m => stream_id m = Ok 1) (chunk_msgs i cs).
Proof. revert i. induction cs as [|c cs IH]; intros i; [constructor|]. rewrite chunk_msgs_cons. by constructor. Qed.

Lemma chunk_msgs_records i cs :
  Forall (fun c => 0 < c) cs -> Forall2 records (chunk_msgs i cs) ((fun c => (1, c)) <$> cs).
Proof.
  intros Hc. revert i. induction Hc as [|c cs Hc Hcs IH]; intros i; [constructor|].
  rewrite chunk_msgs_cons. constructor; [by apply chunk_records|apply IH].
Qed.

Lemma length_chunk_msgs i cs : length (chunk_msgs i cs) = length cs.
Proof. apply length_imap. Qed.

(** ** Properties *)

Lemma control_waits block_bytes chunk_size :
  0 < chunk_size -> 0 < block_bytes ->
  measure block_bytes chunk_size
    = if (block_bytes + chunk_size - 1) / chunk_size <? MAX_QUEUED
      then Some (Ok (Z.min chunk_size block_bytes, 1)) else None.
Proof.
  intros Hc Hb. destruct (chunks_split block_bytes chunk_size Hc Hb) as (rest & Hcs & Hpos & Hlen).
  unfold measure. rewrite (proj2 (Z.eqb_neq _ _)) by lia.
  change (imap (fun i => chunk_msg (Z.of_nat i)) (chunks block_bytes chunk_size))
    with (chunk_msgs 0 (chunks block_bytes chunk_size)).
  rewrite <-Hlen, Hcs, chunk_msgs_cons, len_cons. set (c0 := Z.min chunk_size block_bytes).
  assert (0 < c0) as Hc0 by (unfold c0; lia). cbn [app send_all].
  destruct (send_loaded (chunk_msg (Z.of_nat 0) c0) 1 ∅ [] MAX_QUEUED (ChannelMux_init MAX_QUEUED))
    as (s1 & -> & Hl1); [by repeat split|done|done|].
  rewrite lookup_empty in Hl1. cbn [default from_option id app] in Hl1.
  change (<[1:=[chunk_msg (Z.of_nat 0) c0]]> (∅ : gmap Z (list Message)))
    with ({[1 := [chunk_msg (Z.of_nat 0) c0]]} : gmap Z (list Message)) in Hl1.
  pose proof (length_chunk_msgs 1 rest) as Hlm.
  destruct (send_stream 1 (chunk_msgs 1 rest) [chunk_msg (Z.of_nat 0) c0] s1 (MAX_QUEUED - 1)
    (chunk_msgs_stream 1 rest) ltac:(done) Hl1 ltac:(done) [ping_msg]) as [Hfits Hfull].
  assert (len (chunk_msgs 1 rest) = len rest) as Hlr by (unfold len; by rewrite Hlm).
  destruct (Z.ltb_spec (1 + len rest) MAX_QUEUED) as [Hroom|Hover].
  - destruct Hfits as (s2 & Hl2 & ->); [lia|]. cbn [send_all app] in *.
    destruct (send_loaded ping_msg 0 _ _ _ s2 Hl2) as (s3 & -> & Hl3); [done|lia|].
    rewrite lookup_singleton_ne in Hl3 by done. cbn [default from_option id app] in Hl3.
    destruct Hl3 as (E1 & E2 & E3 & E4 & E5).
    pose proof (len_nonneg rest) as Hnn. unfold _flush. rewrite (proj2 (Z.leb_gt _ _)) by (rewrite len_nil; lia).
    assert (queued (queues (start_writer s3)) = 2 + len rest) as Hqd.
    { cbn [start_writer with_writer_task queues]. rewrite E1. unfold queued.
      rewrite msum_insert by (by rewrite lookup_singleton_ne). rewrite <-insert_empty, msum_insert by done.
      rewrite msum_empty. unfold len. cbn [length app]. rewrite Hlm. lia. }
    rewrite Hqd.
    destruct (burst_control (chunk_msg (Z.of_nat 0) c0) (chunk_msgs 1 rest) (1, c0) ((fun c => (1, c)) <$> rest)
      ping_msg (Config.CONTROL_STREAM_ID, 0) (start_writer s3) [] (Z.to_nat (2 + len rest) + 2)) as [s4 ->];
      [by apply chunk_records|by apply chunk_msgs_records|apply ping_records|by repeat split|
       rewrite Hlm; unfold len; lia|].
    cbn. do 3 f_equal. lia.
  - destruct (decide (MAX_QUEUED - 1 < len rest)) as [Hmore|Hexact]; [by rewrite Hfull by lia|].
    destruct Hfits as (s2 & Hl2 & ->); [lia|]. cbn [send_all].
    by destruct (send_full ping_msg 0 _ _ _ s2 Hl2 eq_refl ltac:(lia)) as [s3 ->].
Qed.

(** A control message queued behind a whole transfer waits for one chunk:
    for every block and chunk size the benchmark's multiplexer sends one chunk
    (or the whole block, when it is smaller) before it.  The measurement ends
    exactly when all frames fit the semaphore, since no writer runs while they
    are queued; a block with [MAX_QUEUED] chunks or more blocks for ever. *)
Theorem control_waits_one_chunk block_bytes chunk_size :
  0 < chunk_size -> 0 < block_bytes ->
  measure block_bytes chunk_size
    = if (block_bytes + chunk_size - 1) / chunk_size <? MAX_QUEUED
      then Some (Ok (Z.min chunk_size block_bytes, 1)) else None.
Proof. apply control_waits. Qed.

(** With the configured chunk size every block of a whole number of mebibytes
    (up to 24999) leaves a control message 256 KiB of queueing instead of the
    whole block. *)
Theorem report_rows block_mb :
  1 <= block_mb <= 24999 ->
  rows block_mb = Some (Ok [(block_mb * 1048576, 1); (Config.PEER_CHUNK_SIZE, 1)]).
Proof.
  intros Hmb. unfold rows. rewrite control_waits by (unfold Config.PEER_CHUNK_SIZE; lia).
  replace (block_mb * 1024 * 1024) with (block_mb * 1048576) by lia.
  unfold Config.PEER_CHUNK_SIZE, MAX_QUEUED.
  replace ((block_mb * 1048576 + 256 * 1024 - 1) / (256 * 1024)) with (4 * block_mb)
    by (apply Z.div_unique with (256 * 1024 - 1); lia).
  rewrite (proj2 (Z.ltb_lt _ _)) by lia. rewrite Z.min_l by lia. done.
Qed.

(** ** Witnesses *)

Lemma control_waits_one_chunk_witness : measure 1000 300 = Some (Ok (300, 1)).
Proof. apply (control_waits_one_chunk 1000 300); lia. Defined.

Lemma report_rows_witness : rows 16 = Some (Ok [(16777216, 1); (262144, 1)]).
Proof. apply (report_rows 16). lia. Defined.
