(* ===== verification/Trust.v ===== *)
(** * The trust store ([TrustStore] of [memnode/peers.py])

    Entries are the dictionaries the code keeps and writes to disk, which may
    come from a file and so hold anything.  The file is modelled here by the JSON
    document in it, and in [TrustDisk] by its text; [now] is the float
    [time.time()] returned. *)
From S2P Require Import Prelude Config PyVal.

(** ** State *)

Inductive file_state :=
  | NoFile
  | Unreadable                          (* not JSON, or the read failed *)
  | Doc (v : pyval).

Record TrustStore := Store {
  ts_peers : list (string * pydict);
  ts_file : file_state
}.

(** What [json.dumps] takes: everything but bytes, which a peer that speaks
    msgpack can put in its name. *)
Fixpoint json_ok (v : pyval) : bool :=
  match v with
  | VBytes _ => false
  | VList l => (fix go l := match l with [] => true | x :: l => json_ok x && go l end) l
  | VDict d => (fix go d := match d with [] => true | (_, x) :: d => json_ok x && go d end) d
  | _ => true
  end.

(** [_save]: the document is written to a side file that replaces the file. *)
Definition payload (peers : list (string * pydict)) : pyval :=
  VDict [("version", VInt Config.TRUST_STORE_VERSION);
         ("peers", VDict ((fun kv => (kv.1, VDict kv.2)) <$> peers))].

Definition saved (s : TrustStore) : TrustStore := Store (ts_peers s) (Doc (payload (ts_peers s))).

Definition _save : M TrustStore unit := fun s =>
  if json_ok (payload (ts_peers s)) then (saved s, Ok tt) else (s, Err (lib_exn TypeError)).

(** ** Loading *)

(** [{k: v for k, v in peers.items() if isinstance(v, dict)}] *)
Definition dict_entries (d : pydict) : list (string * pydict) :=
  omap (fun kv => match kv.2 with VDict e => Some (kv.1, e) | _ => None end) d.

Definition migrate_entry (now : pyval) (name : string) : pydict :=
  [("name", VStr name); ("first_seen", now); ("last_seen", now); ("verified", VBool false);
   ("method", VStr "tofu"); ("addresses", VList [])].

Definition migrate (now : pyval) (d : pydict) : list (string * pydict) :=
  omap (fun kv => match kv.2 with VStr name => Some (kv.1, migrate_entry now name) | _ => None end) d.

Definition _load (now : pyval) (file : file_state) : result TrustStore :=
  match file with
  | NoFile => Ok (Store [] NoFile)
  | Unreadable => Ok (Store [] Unreadable)
  | Doc (VDict d) =>
      if eq_int (default VNone (dget "version" d)) Config.TRUST_STORE_VERSION then
        match default (VDict []) (dget "peers" d) with
        | VDict peers => Ok (Store (dict_entries peers) file)
        | _ => Err (lib_exn AttributeError)
        end
      else
        match _save (Store (migrate now d) file) with
        | (s, Ok _) => Ok s
        | (_, Err e) => Err e
        end
  | Doc _ => Ok (Store [] file)
  end.

(** ** Queries *)

Definition is_trusted (key : string) (s : TrustStore) : bool := dmem key (ts_peers s).

(** The truth of a field of an entry. *)
Definition flag (k : string) (e : pydict) : bool := truthy (default VNone (dget k e)).

Definition is_verified (key : string) (s : TrustStore) : bool :=
  flag "verified" (default [] (dget key (ts_peers s))).

(** [get]: an empty entry counts as none. *)
Definition get (key : string) (s : TrustStore) : option pydict :=
  match dget key (ts_peers s) with
  | Some e => if len e =? 0 then None else Some e
  | None => None
  end.

Definition all (s : TrustStore) : list (string * pydict) := ts_peers s.

Section conflicts.
Context (py_repr : pyval -> string).

Definition identity_conflicts (key : string) (name : pyval) (s : TrustStore) : list string :=
  omap (fun kv =>
    if decide (kv.1 = key) then None
    else if py_eq (default VNone (dget "name" kv.2)) name
    then Some ("display name " +:+ py_repr name +:+ " is already pinned to a different identity ("
                 +:+ String.substring 0 16 kv.1 +:+ "...)")
    else None) (ts_peers s)
  ++
  match get key s with
  | Some e =>
      let old := default VNone (dget "name" e) in
      if is_none old || py_eq old name then []
      else ["known identity " +:+ String.substring 0 16 key +:+ "... previously called itself "
              +:+ py_repr old +:+ ", now " +:+ py_repr name]
  | None => []
  end.
End conflicts.

(** ** Mutations *)

(** [x in addrs] for whatever the entry has under ["addresses"]. *)
Definition contains_str (x : string) (v : pyval) : result bool :=
  match v with
  | VList l => Ok (existsb (fun y => py_eq (VStr x) y) l)
  | VStr s => Ok (match String.index 0 x s with Some _ => true | None => false end)
  | VDict d => Ok (dmem x d)
  | _ => Err (lib_exn TypeError)
  end.

(** [addrs.append(addr); del addrs[:-8]] *)
Definition append_recent (addr : string) (v : pyval) : result pyval :=
  match v with
  | VList l => let l' := l ++ [VStr addr] in Ok (VList (drop (length l' - 8) l'))
  | _ => Err (lib_exn AttributeError)
  end.

(** Recording an observed address in an entry. *)
Definition note_address (addr : string) (e : pydict) : pydict * result unit :=
  let addrs := default (VList []) (dget "addresses" e) in
  let e := match dget "addresses" e with Some _ => e | None => dset "addresses" (VList []) e end in
  match contains_str addr addrs with
  | Err ex => (e, Err ex)
  | Ok true => (e, Ok tt)
  | Ok false =>
      match append_recent addr addrs with
      | Ok v => (dset "addresses" v e, Ok tt)
      | Err ex => (e, Err ex)
      end
  end.

(** The fields [trust] sets before it looks at the address. *)
Definition refresh (now name : pyval) (verified : bool) (method : string) (e : pydict) : pydict :=
  let e := dset "name" name e in
  let e := dset "last_seen" now e in
  let e := dset "verified" (VBool (flag "verified" e || verified)) e in
  if verified || negb (dmem "method" e) then dset "method" (VStr method) e else e.

(** [trust] up to [_save]: the entry as it is left, and whether it got there. *)
Definition trust_entry (now : pyval) (key : string) (name : pyval) (verified : bool) (method : string)
    (addr : option string) (peers : list (string * pydict)) : pydict * result unit :=
  let e := default [("name", name); ("first_seen", now); ("addresses", VList [])] (dget key peers) in
  let e := refresh now name verified method e in
  match addr with
  | Some a => if String.eqb a "" then (e, Ok tt) else note_address a e
  | None => (e, Ok tt)
  end.

Definition trust (now : pyval) (key : string) (name : pyval) (verified : bool) (method : string)
    (addr : option string) : M TrustStore unit := fun s =>
  let '(e, r) := trust_entry now key name verified method addr (ts_peers s) in
  let s := Store (dset key e (ts_peers s)) (ts_file s) in
  match r with
  | Ok _ => _save s
  | Err ex => (s, Err ex)
  end.

Definition verified_entry (method : pyval) (e : pydict) : pydict := dset "method" method (dset "verified" (VBool true) e).

Definition mark_verified (key : string) (method : pyval) : M TrustStore bool := fun s =>
  match dget key (ts_peers s) with
  | None => (s, Ok false)
  | Some e => (_save;;; mret true) (Store (dset key (verified_entry method e) (ts_peers s)) (ts_file s))
  end.

Definition revoke (key : string) : M TrustStore bool := fun s =>
  match dget key (ts_peers s) with
  | None => (s, Ok false)
  | Some _ => (_save;;; mret true) (Store (ddel key (ts_peers s)) (ts_file s))
  end.

(** ** Facts *)

Lemma dget_dset_other {V} k k' (v : V) d :
  k <> k' -> dget (K := string) k' (dset k v d) = dget k' d.
Proof. apply dget_dset_ne. Qed.

Lemma flag_dset_ne k k' v e : k <> k' -> flag k' (dset k v e) = flag k' e.
Proof. intros. unfold flag. by rewrite dget_dset_ne. Qed.

Lemma refresh_verified now name verified method e :
  flag "verified" (refresh now name verified method e) = flag "verified" e || verified.
Proof.
  unfold refresh. set (e1 := dset "last_seen" now (dset "name" name e)).
  assert (flag "verified" e1 = flag "verified" e) as -> by (unfold e1; by rewrite !flag_dset_ne).
  case_match; [rewrite flag_dset_ne by done|]; unfold flag; rewrite dget_dset_eq; done.
Qed.

Lemma note_address_flag addr e k :
  k <> "addresses" -> flag k (note_address addr e).1 = flag k e.
Proof.
  intros Hk. unfold note_address.
  assert (flag k (match dget "addresses" e with Some _ => e | None => dset "addresses" (VList []) e end)
          = flag k e) as Hd by (case_match; [done|by rewrite flag_dset_ne]).
  repeat case_match; cbn [fst]; rewrite ?flag_dset_ne by done; done.
Qed.

Lemma save_peers s : ts_peers (state_after _save s) = ts_peers s.
Proof. unfold state_after, _save. by destruct (json_ok _). Qed.

Lemma save_then_peers {A} (a : A) s : ts_peers (state_after (_save;;; mret a) s) = ts_peers s.
Proof. unfold state_after, mbind_m, _save. by destruct (json_ok _). Qed.

Lemma save_inv s s' : _save s = (s', Ok tt) -> s' = saved s.
Proof. unfold _save. destruct (json_ok _); [|done]. by intros [= <-]. Qed.

Lemma trust_spec now key name verified method addr s s' r :
  trust now key name verified method addr s = (s', r) ->
  exists e, ts_peers s' = dset key e (ts_peers s) /\
    flag "verified" e = is_verified key s || verified.
Proof.
  unfold trust, trust_entry. set (e0 := refresh _ _ _ _ _).
  assert (flag "verified" e0 = is_verified key s || verified) as Hv.
  { unfold e0. rewrite refresh_verified. unfold is_verified. destruct (dget key (ts_peers s)); done. }
  destruct (match addr with Some _ => _ | None => _ end) as [e r0] eqn:He.
  assert (flag "verified" e = flag "verified" e0) as Hf.
  { destruct addr as [a|]; [|by injection He as <- _]. destruct (String.eqb a ""); [by injection He as <- _|].
    pose proof (note_address_flag a e0 "verified" ltac:(done)) as Hn. by rewrite He in Hn. }
  intros Hr. exists e. split; [|congruence]. destruct r0; [|by injection Hr as <- _].
  pose proof (save_peers (Store (dset key e (ts_peers s)) (ts_file s))) as Hs. unfold state_after in Hs.
  by rewrite Hr in Hs.
Qed.

Lemma dict_entries_payload peers :
  dict_entries ((fun kv => (kv.1, VDict kv.2)) <$> peers) = peers.
Proof.
  unfold dict_entries. induction peers as [|[k e] peers IH]; [done|]. cbn in *. by rewrite IH.
Qed.

(** The two fields of the document on disk. *)
Lemma dget_version (a b : pyval) : dget "version" [("version", a); ("peers", b)] = Some a.
Proof. done. Qed.

Lemma dget_peers (a b : pyval) : dget "peers" [("version", a); ("peers", b)] = Some b.
Proof. done. Qed.

Lemma load_save now s : _load now (ts_file (saved s)) = Ok (saved s).
Proof.
  unfold saved, _load, payload. cbn [ts_file ts_peers]. rewrite dget_version, dget_peers.
  cbn [default from_option id eq_int]. rewrite Z.eqb_refl. by rewrite dict_entries_payload.
Qed.

(** ** Requests, and what they mean

    The abstract store says of a key whether it is trusted and, if so, whether
    it was verified. *)

Inductive request :=
  | RTrust (now : pyval) (key : string) (name : pyval) (verified : bool) (method : string)
           (addr : option string)
  | RMark (key : string) (method : pyval)
  | RRevoke (key : string).

Definition serve (r : request) (s : TrustStore) : TrustStore :=
  match r with
  | RTrust now key name verified method addr => state_after (trust now key name verified method addr) s
  | RMark key method => state_after (mark_verified key method) s
  | RRevoke key => state_after (revoke key) s
  end.

Definition status (key : string) (s : TrustStore) : option bool :=
  match dget key (ts_peers s) with
  | Some e => Some (flag "verified" e)
  | None => None
  end.

Definition status_after (r : request) (key : string) (old : option bool) : option bool :=
  match r with
  | RTrust _ k _ verified _ _ => if decide (key = k) then Some (default false old || verified) else old
  | RMark k _ => if decide (key = k) then match old with Some _ => Some true | None => None end else old
  | RRevoke k => if decide (key = k) then None else old
  end.

Lemma serve_status r key s : status key (serve r s) = status_after r key (status key s).
Proof.
  destruct r as [now k name verified method addr|k method|k]; cbn [serve status_after].
  - unfold state_after. destruct (trust _ _ _ _ _ _ s) as [s' r] eqn:Ht.
    apply trust_spec in Ht as (e & Hp & Hv). cbn [fst]. unfold status. rewrite Hp, dget_dset.
    destruct (decide (key = k)) as [->|Hne]; [|done]. rewrite Hv. unfold is_verified.
    by destruct (dget k (ts_peers s)).
  - unfold state_after, mark_verified, verified_entry. destruct (dget k (ts_peers s)) as [e|] eqn:Hk.
    + change (fst ((_save;;; mret true) ?x)) with (state_after (_save;;; mret true) x).
      unfold status. rewrite save_then_peers. cbn [ts_peers]. rewrite dget_dset.
      destruct (decide (key = k)) as [->|Hne]; [|done]. rewrite Hk.
      rewrite flag_dset_ne by done. unfold flag. by rewrite dget_dset_eq.
    + unfold status. cbn [fst]. destruct (decide (key = k)) as [->|Hne]; [|done]. by rewrite Hk.
  - unfold state_after, revoke. destruct (dget k (ts_peers s)) as [e|] eqn:Hk.
    + change (fst ((_save;;; mret true) ?x)) with (state_after (_save;;; mret true) x).
      unfold status. rewrite save_then_peers. cbn [ts_peers]. rewrite dget_ddel. by destruct (decide (key = k)).
    + unfold status. cbn [fst]. destruct (decide (key = k)) as [->|Hne]; [by rewrite Hk|done].
Qed.

(** *** Addresses *)

Definition addresses_ok (e : pydict) : Prop :=
  match dget "addresses" e with
  | Some (VList l) => (length l <= 8)%nat
  | _ => True
  end.

Definition store_ok (s : TrustStore) : Prop := Forall (fun kv => addresses_ok kv.2) (ts_peers s).

Lemma addresses_dset_ne k v e : k <> "addresses" -> addresses_ok e -> addresses_ok (dset k v e).
Proof. intros Hk. unfold addresses_ok. by rewrite dget_dset_ne. Qed.

Lemma refresh_addresses now name verified method e :
  addresses_ok e -> addresses_ok (refresh now name verified method e).
Proof. intros He. unfold refresh. case_match; by repeat (apply addresses_dset_ne; [done|]). Qed.

Lemma note_address_ok addr e : addresses_ok e -> addresses_ok (note_address addr e).1.
Proof.
  intros He. unfold note_address. set (e1 := match dget "addresses" e with Some _ => e | None => _ end).
  assert (addresses_ok e1) as H1.
  { unfold e1. destruct (dget "addresses" e); [done|]. unfold addresses_ok. rewrite dget_dset_eq. cbn. lia. }
  destruct (contains_str _ _) as [[]|]; [done| |done]. unfold append_recent.
  destruct (default _ _); try done. cbn [fst]. unfold addresses_ok. rewrite dget_dset_eq.
  rewrite length_drop. lia.
Qed.

Lemma serve_store_ok r s : store_ok s -> store_ok (serve r s).
Proof.
  unfold store_ok. intros Hs. destruct r as [now k name verified method addr|k method|k]; cbn [serve].
  - unfold state_after, trust, trust_entry. set (e0 := refresh _ _ _ _ _).
    assert (addresses_ok e0) as H0.
    { apply refresh_addresses. destruct (dget k (ts_peers s)) eqn:Hk; [|change (0 <= 8)%nat; lia].
      by apply (Forall_dget _ _ _ _ Hs Hk). }
    destruct (match addr with Some _ => _ | None => _ end) as [e r] eqn:He.
    assert (addresses_ok e) as H1.
    { destruct addr as [a|]; [|by injection He as <- _].
      destruct (String.eqb a ""); [by injection He as <- _|].
      pose proof (note_address_ok a e0 H0) as Hn. by rewrite He in Hn. }
    destruct r; [|by apply Forall_dset].
    change (fst (_save ?x)) with (state_after _save x). rewrite save_peers. by apply Forall_dset.
  - unfold state_after, mark_verified, verified_entry. destruct (dget k (ts_peers s)) as [e|] eqn:Hk; [|done].
    change (fst ((_save;;; mret true) ?x)) with (state_after (_save;;; mret true) x).
    rewrite save_then_peers. apply Forall_dset; [done|]. intros k'. cbn. repeat apply addresses_dset_ne; try done.
    by apply (Forall_dget _ _ _ _ Hs Hk).
  - unfold state_after, revoke. destruct (dget k (ts_peers s)) as [e|] eqn:Hk; [|done].
    change (fst ((_save;;; mret true) ?x)) with (state_after (_save;;; mret true) x).
    rewrite save_then_peers. by apply Forall_ddel.
Qed.

(** *** What cannot be written *)

Lemma json_ok_dict k v (e : pydict) : json_ok (VDict e) = true -> dget k e = Some v -> json_ok v = true.
Proof.
  induction e as [|[k' v'] e IH]; cbn; [done|]. rewrite andb_true_iff. intros [Hv He].
  case_decide; [by intros [= <-]|by apply IH].
Qed.

Lemma json_ok_payload peers : json_ok (payload peers) = forallb (fun kv => json_ok (VDict kv.2)) peers.
Proof.
  unfold payload. cbn. rewrite andb_true_r. induction peers as [|[k e] peers IH]; [done|]. cbn. by rewrite IH.
Qed.

(** An entry that JSON cannot represent. *)
Definition unwritable (key : string) (s : TrustStore) : Prop :=
  exists e, dget key (ts_peers s) = Some e /\ json_ok (VDict e) = false.

Lemma unwritable_save key s : unwritable key s -> _save s = (s, Err (lib_exn TypeError)).
Proof.
  intros (e & Hk & He). unfold _save. destruct (json_ok (payload (ts_peers s))) eqn:Hj; [|done].
  rewrite json_ok_payload, forallb_forall in Hj. apply dget_Some_elem, list_elem_of_In in Hk.
  specialize (Hj _ Hk). cbn [snd] in Hj. congruence.
Qed.

Lemma trust_name now key name verified method addr s :
  exists e, ts_peers (state_after (trust now key name verified method addr) s) = dset key e (ts_peers s) /\
    dget "name" e = Some name.
Proof.
  unfold state_after, trust, trust_entry. set (e0 := refresh _ _ _ _ _).
  assert (dget "name" e0 = Some name) as H0.
  { unfold e0, refresh. case_match; repeat (rewrite dget_dset_ne by done); apply dget_dset_eq. }
  destruct (match addr with Some _ => _ | None => _ end) as [e r0] eqn:He. exists e.
  split.
  - destruct r0; [|done]. change (fst (_save ?x)) with (state_after _save x). by rewrite save_peers.
  - destruct addr as [a|]; [|by injection He as <- _]. destruct (String.eqb a ""); [by injection He as <- _|].
    unfold note_address in He.
    assert (dget "name" (match dget "addresses" e0 with Some _ => e0 | None => dset "addresses" (VList []) e0 end)
            = Some name) as H1 by (destruct (dget "addresses" e0); [done|rewrite dget_dset_ne by done; done]).
    repeat case_match; injection He as <- _; rewrite ?dget_dset_ne by done; done.
Qed.

Definition request_key (r : request) : string :=
  match r with RTrust _ k _ _ _ _ | RMark k _ | RRevoke k => k end.

Lemma unwritable_kept key e d k' :
  k' <> key -> unwritable key (Store d NoFile) ->
  unwritable key (Store (dset k' e d) NoFile) /\ unwritable key (Store (ddel k' d) NoFile).
Proof.
  intros Hne (e0 & Hk & He). split; exists e0; cbn in *; by rewrite ?dget_dset_ne, ?dget_ddel_ne.
Qed.

(** A request for another key finds the store unwritable and leaves it so. *)
Lemma serve_unwritable key r s :
  unwritable key s -> request_key r <> key ->
  unwritable key (serve r s) /\ ts_file (serve r s) = ts_file s.
Proof.
  intros Hu Hne. destruct r as [now k name verified method addr|k method|k];
    cbn [serve request_key] in *; unfold state_after.
  - unfold trust, trust_entry. destruct (match addr with Some _ => _ | None => _ end) as [e r0].
    destruct (unwritable_kept key e (ts_peers s) k Hne Hu) as [Hd _].
    destruct r0; [|done]. by rewrite (unwritable_save key).
  - unfold mark_verified, verified_entry. destruct (dget k (ts_peers s)) as [e|]; [|done].
    set (e' := dset "method" _ _). destruct (unwritable_kept key e' (ts_peers s) k Hne Hu) as [Hd _].
    erewrite bind_err by (by apply (unwritable_save key)). done.
  - unfold revoke. destruct (dget k (ts_peers s)) as [e|]; [|done].
    destruct (unwritable_kept key e (ts_peers s) k Hne Hu) as [_ Hd].
    erewrite bind_err by (by apply (unwritable_save key)). done.
Qed.

(** ** Properties *)

(** C32: the trust store refines the abstract one: a request changes only its
    own key; [trust] adds the key and can only raise its verified mark,
    [mark_verified] marks a key that is there and nothing else, [revoke]
    removes it. *)
Theorem trust_store_refines r key s : status key (serve r s) = status_after r key (status key s).
Proof. apply serve_status. Qed.

(** Verification is sticky: once a key is verified, no sequence of requests
    that does not revoke it takes the mark away. *)
Theorem verified_is_sticky key s rs :
  is_verified key s = true -> RRevoke key ∉ rs ->
  is_verified key (foldl (fun s r => serve r s) s rs) = true.
Proof.
  assert (forall s, is_verified key s = true <-> status key s = Some true) as Hst.
  { intros s0. unfold is_verified, status. destruct (dget key (ts_peers s0)); cbn; [|done].
    split; [by intros ->|by intros [= ->]]. }
  revert s. induction rs as [|r rs IH]; intros s Hv Hn; [done|]. cbn [foldl].
  apply not_elem_of_cons in Hn as [Hr Hn]. apply IH; [|done]. apply Hst. rewrite serve_status.
  apply Hst in Hv. rewrite Hv. destruct r; cbn [status_after]; case_decide; subst; done.
Qed.

(** No entry ever lists more than eight addresses. *)
Theorem addresses_bounded file rs :
  Forall (fun kv => addresses_ok kv.2) (ts_peers (foldl (fun s r => serve r s) (Store [] file) rs)).
Proof.
  change (store_ok (foldl (fun s r => serve r s) (Store [] file) rs)).
  assert (store_ok (Store [] file)) as H0 by constructor. revert H0.
  generalize (Store [] file). induction rs as [|r rs IH]; intros s Hs; [done|].
  cbn [foldl]. apply IH. by apply serve_store_ok.
Qed.

(** A trust file of any other version that keeps its entries under
    ["peers"] is taken for the flat first format: every entry is dropped and
    the file is overwritten with an empty store. *)
Theorem other_version_wiped now v peers :
  v <> Config.TRUST_STORE_VERSION ->
  _load now (Doc (VDict [("version", VInt v); ("peers", VDict peers)]))
    = Ok (Store [] (Doc (payload []))).
Proof.
  intros Hv. unfold _load. rewrite dget_version.
  cbn [default from_option id eq_int]. apply Z.eqb_neq in Hv. by rewrite Hv.
Qed.

(** A peer whose name is bytes stops the trust store from being saved: its
    record stays in memory, and until it is replaced no later request (a new
    trust, a verification, a revocation) reaches the file. *)
Theorem bytes_name_blocks_saving now key b verified method addr s rs :
  Forall (fun r => request_key r <> key) rs ->
  let s1 := state_after (trust now key (VBytes b) verified method addr) s in
  let s2 := foldl (fun s r => serve r s) s1 rs in
  is_trusted key s2 = true /\ ts_file s2 = ts_file s.
Proof.
  intros Hrs. cbv zeta. destruct (trust_name now key (VBytes b) verified method addr s) as (e & Hp & Hn).
  set (s1 := state_after _ s) in *.
  assert (json_ok (VDict e) = false) as Hj
    by (destruct (json_ok (VDict e)) eqn:Hj; [by apply (json_ok_dict "name" (VBytes b)) in Hj|done]).
  assert (unwritable key s1) as Hu by (exists e; by rewrite Hp, dget_dset_eq).
  assert (ts_file s1 = ts_file s) as <-.
  { unfold s1, state_after, trust, trust_entry in Hp |- *. destruct (match addr with Some _ => _ | None => _ end) as [e1 r1].
    destruct r1; [|done]. rewrite (unwritable_save key); [done|]. exists e. split; [|done].
    pose proof (save_peers (Store (dset key e1 (ts_peers s)) (ts_file s))) as Hs. unfold state_after in Hs.
    rewrite Hs in Hp. cbn in *. by rewrite Hp, dget_dset_eq. }
  clearbody s1. clear Hp. revert s1 Hu. induction Hrs as [|r rs Hr Hrs IH]; intros s1 Hu; cbn [foldl].
  - split; [|done]. destruct Hu as (e0 & Hk & _). unfold is_trusted, dmem. by rewrite Hk.
  - destruct (serve_unwritable key r s1 Hu Hr) as [Hu' Hf]. rewrite <-Hf. by apply IH.
Qed.

(** ** Witnesses *)

Lemma bytes_name_blocks_saving_witness :
  let s1 := state_after (trust (VInt 0) "ab" (VBytes []) false "tofu" None) (Store [] NoFile) in
  let s2 := serve (RTrust (VInt 1) "cd" (VStr "desktop") true "sas" None) s1 in
  is_trusted "ab" s2 = true /\ ts_file s2 = NoFile.
Proof.
  apply (bytes_name_blocks_saving (VInt 0) "ab" [] false "tofu" None (Store [] NoFile)
    [RTrust (VInt 1) "cd" (VStr "desktop") true "sas" None]).
  repeat constructor. done.
Defined.

Definition noon : pyval := VFloat 1 30.

Definition known : TrustStore :=
  state_after (trust noon "ab12" (VStr "laptop") true "sas" (Some "10.0.0.5:9000")) (Store [] NoFile).

Lemma verified_is_sticky_witness :
  is_verified "ab12" (serve (RTrust noon "ab12" (VStr "renamed") false "tofu" (Some "10.0.0.9:9000"))
    (serve (RRevoke "ffff") known)) = true.
Proof.
  apply (verified_is_sticky "ab12" known
           [RRevoke "ffff"; RTrust noon "ab12" (VStr "renamed") false "tofu" (Some "10.0.0.9:9000")]).
  - by vm_compute.
  - rewrite !not_elem_of_cons. split_and!; try done. apply not_elem_of_nil.
Defined.

Lemma other_version_wiped_witness :
  _load noon (Doc (VDict [("version", VInt 3);
    ("peers", VDict [("ab12", VDict [("verified", VBool true)])])])) = Ok (Store [] (Doc (payload []))).
Proof. apply other_version_wiped. done. Defined.
