(* ===== verification/TlsMode.v ===== *)
(** * The optional TLS layer ([memnode/tlsmode.py], and the settings
    [memnode/main.py] builds from the command line)

    Certificate pinning and the choice of contexts.  SHA-256 and the loading of
    certificate files are parameters. *)
From Stdlib Require Import Strings.Ascii.
From S2P Require Import Prelude Config PyVal.

Record TlsSettings := Tls {
  tls_enabled : bool;
  certfile : option string;
  keyfile : option string;
  cafile : option string;
  require_client_cert : bool;
  pinned_sha256 : list string
}.

(** [not x] for an optional path. *)
Definition missing (x : option string) : bool :=
  match x with Some s => String.eqb s "" | None => true end.

Definition validate (t : TlsSettings) : result unit :=
  if negb (tls_enabled t) then Ok tt
  else if missing (certfile t) || missing (keyfile t)
  then Err (Exn TlsConfigError "TLS enabled but --tls-cert/--tls-key were not supplied")
  else if require_client_cert t && missing (cafile t)
  then Err (Exn TlsConfigError "mTLS requires --tls-ca (the CA that signs peer client certificates)")
  else Ok tt.

(** What the program sets on an [ssl.SSLContext]. *)
Record SSLContext := Ssl {
  server_side : bool;
  tls13_only : bool;
  cert_chain : option string * option string;
  cert_required : bool;
  verify_locations : option string;
  check_hostname : bool
}.

Section contexts.
Context (load_cert_chain : option string -> option string -> result unit)
        (load_verify_locations : option string -> result unit).

Definition build_server_context (t : TlsSettings) : result (option SSLContext) :=
  if negb (tls_enabled t) then Ok None
  else
    let? _ := validate t in
    let? _ := load_cert_chain (certfile t) (keyfile t) in
    if require_client_cert t then
      let? _ := load_verify_locations (cafile t) in
      Ok (Some (Ssl true true (certfile t, keyfile t) true (cafile t) false))
    else Ok (Some (Ssl true true (certfile t, keyfile t) false None false)).

(** A client context requires a certificate from the start. *)
Definition build_client_context (t : TlsSettings) : result (option SSLContext) :=
  if negb (tls_enabled t) then Ok None
  else
    let? _ := validate t in
    let? _ := load_cert_chain (certfile t) (keyfile t) in
    if negb (missing (cafile t)) then
      let? _ := load_verify_locations (cafile t) in
      Ok (Some (Ssl false true (certfile t, keyfile t) true (cafile t) false))
    else Ok (Some (Ssl false true (certfile t, keyfile t) true None false)).
End contexts.

(** [s.lower()] on characters below 256. *)
Definition lower_char (c : ascii) : ascii :=
  let n := nat_of_ascii c in
  if (65 <=? n)%nat && (n <=? 90)%nat || ((192 <=? n)%nat && (n <=? 222)%nat && negb (n =? 215)%nat)
  then ascii_of_nat (n + 32) else c.

Fixpoint lower (s : string) : string :=
  match s with
  | String.EmptyString => String.EmptyString
  | String.String c s => String.String (lower_char c) (lower s)
  end.

Section pin.
Context (sha256 : bytes -> bytes).

Definition fingerprint_der (der : bytes) : string := bytes_hex (sha256 der).

(** The transport of a connection: no TLS, or TLS with the peer's certificate,
    empty when it sent none. *)
Definition peer_cert_fingerprint (ssl_object : option bytes) : option string :=
  match ssl_object with
  | None => None
  | Some der => if len der =? 0 then None else Some (fingerprint_der der)
  end.

Definition enforce_pin (ssl_object : option bytes) (t : TlsSettings) : result (option string) :=
  if negb (tls_enabled t) || (len (pinned_sha256 t) =? 0) then Ok None
  else
    match peer_cert_fingerprint ssl_object with
    | None => Err (Exn TlsPinMismatch
                "certificate pinning is configured but the peer sent no certificate")
    | Some observed =>
        if bool_decide (lower observed ∈ lower <$> pinned_sha256 t) then Ok (Some observed)
        else Err (Exn TlsPinMismatch ("peer certificate " +:+ String.substring 0 16 observed
               +:+ "... is not in the pin set (" +:+ pretty (len (pinned_sha256 t))
               +:+ " pins configured)"))
    end.

(** With TLS and pins configured, a connection passes only when the peer
    sent a certificate whose SHA-256 fingerprint is one of the pins, letter
    case aside, and every other connection is refused with [TlsPinMismatch]. *)
Theorem pin_enforced ssl_object t :
  tls_enabled t = true -> pinned_sha256 t <> [] ->
  match enforce_pin ssl_object t with
  | Ok r => exists der pin, ssl_object = Some der /\ der <> [] /\ r = Some (fingerprint_der der) /\
      pin ∈ pinned_sha256 t /\ lower pin = lower (fingerprint_der der)
  | Err e => exn_cls e = TlsPinMismatch /\
      (forall der pin, ssl_object = Some der -> der <> [] -> pin ∈ pinned_sha256 t ->
         lower pin <> lower (fingerprint_der der))
  end.
Proof.
  intros Hen Hne. unfold enforce_pin. rewrite Hen. cbn [negb orb].
  assert ((len (pinned_sha256 t) =? 0) = false) as ->.
  { apply Z.eqb_neq. destruct (pinned_sha256 t); [done|]. rewrite len_cons. pose proof (len_nonneg l). lia. }
  unfold peer_cert_fingerprint. destruct ssl_object as [der|]; [|done].
  destruct (Z.eqb_spec (len der) 0) as [Hz|Hz].
  { split; [done|]. intros der' pin [= <-] Hd. exfalso. apply Hd. apply nil_length_inv. unfold len in Hz. lia. }
  assert (der <> []) as Hd by (by intros ->).
  destruct (bool_decide_reflect (lower (fingerprint_der der) ∈ lower <$> pinned_sha256 t)) as [Hin|Hin].
  - apply list_elem_of_fmap in Hin as (pin & Heq & Hin). by exists der, pin.
  - split; [done|]. intros der' pin [= <-] _ Hpin Heq. apply Hin. apply list_elem_of_fmap. by exists pin.
Qed.
End pin.

(** ** The settings [main.run] builds *)

Record args := Args {
  arg_tls_cert : option string; arg_tls_key : option string; arg_tls_ca : option string;
  arg_tls_no_client_cert : bool; arg_tls_pin : list string
}.

Definition settings_of (a : args) : TlsSettings :=
  Tls (negb (missing (arg_tls_cert a)) && negb (missing (arg_tls_key a)))
    (arg_tls_cert a) (arg_tls_key a) (arg_tls_ca a) (negb (arg_tls_no_client_cert a)) (arg_tls_pin a).

(** Pins given on the command line without both a certificate and a key are
    dropped without a word: the settings validate and every connection passes
    the pin check. *)
Theorem pins_need_certificate sha a ssl_object :
  missing (arg_tls_cert a) || missing (arg_tls_key a) = true ->
  validate (settings_of a) = Ok tt /\ enforce_pin sha ssl_object (settings_of a) = Ok None.
Proof.
  intros H. unfold validate, enforce_pin, settings_of. cbn [tls_enabled].
  rewrite <-negb_orb, H. done.
Qed.

(** ** Witnesses *)

Definition sha0 (b : bytes) : bytes := b.
Definition pinned : TlsSettings := Tls true (Some "c") (Some "k") (Some "ca") true ["0A0b"].

Lemma pin_enforced_witness :
  exists der pin, Some [Byte.x0a; Byte.x0b] = Some der /\ der <> [] /\
    Some "0a0b" = Some (fingerprint_der sha0 der) /\
    pin ∈ pinned_sha256 pinned /\ lower pin = lower (fingerprint_der sha0 der).
Proof. exact (pin_enforced sha0 (Some [Byte.x0a; Byte.x0b]) pinned eq_refl ltac:(done)). Defined.

Lemma pins_need_certificate_witness :
  validate (settings_of (Args None (Some "k") None false ["0a0b"])) = Ok tt /\
  enforce_pin sha0 None (settings_of (Args None (Some "k") None false ["0a0b"])) = Ok None.
Proof. by apply (pins_need_certificate sha0). Defined.
