(* ===== verification/Peers.v ===== *)
(** * The peer registry ([PeerManager] of [memnode/peers.py])

    Admission, consent, registration and the end of a connection.  A
    connection's channel and multiplexer are one object named by a number;
    every method is cut at its awaits, and what it awaits (the handshake, the
    TLS pin check, the consent callback) comes in as a value.  The registry
    lock is never held across an await, so taking it never waits. *)
From Stdlib Require Import Strings.Ascii.
From S2P Require Import Prelude Config PyVal Protocol RateLimit Mux Trust.

(** ** State *)

Record PeerInfo := Peer {
  pubkey_hex : string;
  p_name : pyval;
  p_addr : string;
  p_conn : nat;                         (* the channel and its multiplexer *)
  remote_quota : pyval;
  p_sas : string;
  p_verified : bool
}.

Record PeerManager := PM {
  require_sas_verification : bool;
  trust_store : TrustStore;
  peers : list (string * PeerInfo);
  handshake_guard : HandshakeGuard;
  muxes : gmap nat ChannelMux;
  closed_conns : gset nat
}.

Definition with_trust (t : TrustStore) (p : PeerManager) : PeerManager :=
  PM (require_sas_verification p) t (peers p) (handshake_guard p) (muxes p) (closed_conns p).
Definition with_peers (l : list (string * PeerInfo)) (p : PeerManager) : PeerManager :=
  PM (require_sas_verification p) (trust_store p) l (handshake_guard p) (muxes p) (closed_conns p).
Definition with_guard (g : HandshakeGuard) (p : PeerManager) : PeerManager :=
  PM (require_sas_verification p) (trust_store p) (peers p) g (muxes p) (closed_conns p).
Definition with_mux (c : nat) (m : ChannelMux) (p : PeerManager) : PeerManager :=
  PM (require_sas_verification p) (trust_store p) (peers p) (handshake_guard p)
    (<[c := m]> (muxes p)) (closed_conns p).

(** [writer.close()] and [channel.close()] *)
Definition close_conn (c : nat) (p : PeerManager) : PeerManager :=
  PM (require_sas_verification p) (trust_store p) (peers p) (handshake_guard p) (muxes p)
    ({[c]} ∪ closed_conns p).

(** ** Pairing URI *)

(** [urllib.parse.quote]: letters, digits and [_.-~/] stand for themselves,
    every other byte of the UTF-8 text becomes [%XX]. *)
Definition safe_char (c : Ascii.ascii) : bool :=
  let n := Ascii.nat_of_ascii c in
  ((48 <=? n) && (n <=? 57) || (65 <=? n) && (n <=? 90) || (97 <=? n) && (n <=? 122) ||
   (n =? 95) || (n =? 46) || (n =? 45) || (n =? 126) || (n =? 47))%nat.

Definition upper_hex (z : Z) : Ascii.ascii :=
  Ascii.ascii_of_N (Z.to_N (if z <? 10 then z + 48 else z + 55)).

Fixpoint quote (s : string) : string :=
  match s with
  | String.EmptyString => String.EmptyString
  | String.String c s =>
      if safe_char c then String.String c (quote s)
      else
        let n := Z.of_nat (Ascii.nat_of_ascii c) in
        String.String "%"%char (String.String (upper_hex (n / 16)) (String.String (upper_hex (n mod 16)) (quote s)))
  end.

(** The name is what the peer called itself: [quote] takes text and bytes. *)
Definition pairing_uri (pubkey sas : string) (name : pyval) : result string :=
  let uri := "memcloud://pair?pk=" +:+ pubkey +:+ (if String.eqb sas "" then "" else "&sas=" +:+ sas) in
  if negb (truthy name) then Ok uri
  else
    match name with
    | VStr n => Ok (uri +:+ "&name=" +:+ quote n)
    | VBytes b => Ok (uri +:+ "&name=" +:+ quote (String.string_of_list_byte b))
    | _ => Err (lib_exn TypeError)
    end.

(** [qrcode], the optional package: absent, or what it draws. *)
Definition render_qr_ascii (qrcode : option (string -> result string)) (text : string) : option string :=
  match qrcode with
  | None => None
  | Some draw => match draw text with Ok s => Some s | Err _ => None end
  end.

(** ** Consent *)

(** A consent callback: what [inspect.signature] says of it (whether it takes
    varargs, and how many positional parameters; [None] when it cannot be
    inspected), and its answer. *)
Record callback := Callback {
  cb_signature : option (bool * Z);
  cb_call : list pyval -> result pyval
}.

(** [lambda *_a, **_k: True], the default. *)
Definition auto_approve : callback := Callback (Some (true, 0)) (fun _ => Ok (VBool true)).

Definition _invoke_consent (cb : callback) (key : string) (name : pyval) (addr sas : string)
    : result pyval :=
  let '(takes_varargs, positional) := default (true, 4) (cb_signature cb) in
  if takes_varargs || (4 <=? positional)
  then cb_call cb [VStr key; name; VStr addr; VStr sas]
  else cb_call cb [VStr key; name; VStr addr].

Definition on_trust {A} (m : M TrustStore A) : M PeerManager A := fun p =>
  let '(t, r) := m (trust_store p) in (with_trust t p, r).

(** Whether a known peer passes without a prompt. *)
Definition passes (key : string) (p : PeerManager) : bool :=
  match get key (trust_store p) with
  | Some e => negb (require_sas_verification p && negb (flag "verified" e))
  | None => false
  end.

(** The log line of a first contact builds its pairing URI. *)
Definition contact_line (key : string) (name : pyval) (sas : string) : result unit :=
  if decide (sas = "") then Ok tt
  else let? _ := pairing_uri key sas name in Ok tt.

Definition _check_consent (cb : callback) (now : pyval) (key : string) (name : pyval)
    (addr sas : string) : M PeerManager bool := fun p =>
  if passes key p then
    (on_trust (trust now key name false "tofu" (Some addr));;; mret true) p
  else
    (mlift (contact_line key name sas);;;
     answer <- mlift (_invoke_consent cb key name addr sas);;
     if truthy answer then
       on_trust (trust now key name (require_sas_verification p)
                   (if require_sas_verification p then "sas" else "tofu") (Some addr));;;
       mret true
     else mret false) p.

Definition verify_peer (key : string) (method : pyval) : M PeerManager bool :=
  ok <- on_trust (mark_verified key method);;
  p <- mget;;
  match dget key (peers p) with
  | Some i =>
      if ok : bool then
        mmodify (with_peers (dset key (Peer (pubkey_hex i) (p_name i) (p_addr i) (p_conn i)
                                         (remote_quota i) (p_sas i) true) (peers p)));;;
        mret ok
      else mret ok
  | None => mret ok
  end.

(** ** Registry *)

Definition _register (key : string) (name : pyval) (addr : string) (conn : nat)
    (quota : pyval) (sas : string) (p : PeerManager) : PeerManager :=
  let info := Peer key name addr conn quota sas (is_verified key (trust_store p)) in
  with_peers (dset key info (peers p))
    (with_mux conn (ChannelMux_init Config.MUX_MAX_QUEUED_MESSAGES) p).

(** The start of [_read_loop]: the registration it will drive. *)
Definition read_loop_target (key : string) (p : PeerManager) : option PeerInfo := dget key (peers p).

(** Its end ([finally]): the multiplexer is closed and the key dropped. *)
Definition read_loop_end (key : string) (info : PeerInfo) (p : PeerManager) : PeerManager :=
  let p := match muxes p !! p_conn info with
           | Some m => with_mux (p_conn info) (Mux.close m) p
           | None => p
           end in
  with_peers (ddel key (peers p)) p.

(** [send_to]: [Some answer], or [None] while the caller is blocked on the
    multiplexer's backpressure.  Every registration made its multiplexer
    ([peers_have_mux]), so the branch without one does not occur. *)
Definition send_to (key : string) (m : Message) (sid : option Z) : M PeerManager (option bool) := fun p =>
  match dget key (peers p) with
  | None => (p, Ok (Some false))
  | Some i =>
      match muxes p !! p_conn i with
      | None => (p, Ok (Some false))
      | Some mx =>
          match Mux.send m sid mx with
          | (mx', Ok true) => (with_mux (p_conn i) mx' p, Ok (Some true))
          | (mx', Ok false) => (with_mux (p_conn i) mx' p, Ok None)
          | (mx', Err e) =>
              if decide (exn_cls e = ConnectionError) then (with_mux (p_conn i) mx' p, Ok (Some false))
              else (with_mux (p_conn i) mx' p, Err e)
          end
      end
  end.

(** The peers with room, with their quotas as numbers. *)
Fixpoint candidates (size : Z) (l : list (string * PeerInfo)) : result (list (string * (Z * Z))) :=
  match l with
  | [] => Ok []
  | (key, i) :: l =>
      let? fits := ge_int (remote_quota i) size in
      let? rest := candidates size l in
      match as_num (remote_quota i) with
      | Some q => Ok (if fits then (key, q) :: rest else rest)
      | None => Ok rest
      end
  end.

(** [max(candidates, key=...)]: the first of the largest. *)
Fixpoint first_max (best : string * (Z * Z)) (l : list (string * (Z * Z))) : string * (Z * Z) :=
  match l with
  | [] => best
  | c :: l => first_max (match num_compare c.2 best.2 with Gt => c | _ => best end) l
  end.

Definition best_peer_for_store (size : Z) (p : PeerManager) : result (option string) :=
  let? c := candidates size (peers p) in
  match c with
  | [] => Ok None
  | b :: l => Ok (Some (first_max b l).1)
  end.

Definition list_peers (p : PeerManager) : list pyval :=
  (fun kv => let i := kv.2 in
     VDict [("pubkey", VStr (String.substring 0 8 (pubkey_hex i))); ("name", p_name i);
            ("addr", VStr (p_addr i)); ("remote_quota", remote_quota i);
            ("verified", VBool (p_verified i)); ("sas", VStr (p_sas i))]) <$> peers p.

(** ** Incoming connections *)

(** How [asyncio.wait_for(perform_handshake(...))] ended. *)
Inductive hs_outcome :=
  | HsOk (pubkey : bytes) (name quota : pyval) (sas : string)
  | HsTimeout
  | HsFailed (e : exn).

Section incoming.
Context (fmt_g : Z -> string) (cb : callback).

(** Up to the handshake: [true] when it may start; a refused connection is
    closed before any cryptography. *)
Definition incoming_begin (now : Z) (ip : string) (conn : nat) (pin : result (option string))
    : PeerManager -> PeerManager * bool := fun p =>
  match acquire fmt_g now ip (handshake_guard p) with
  | (g, Err _) => (close_conn conn (with_guard g p), false)
  | (g, Ok _) =>
      let p := with_guard g p in
      match pin with
      | Ok _ => (p, true)
      | Err _ => (with_guard (release ip (handshake_guard p)) (close_conn conn p), false)
      end
  end.

(** When the handshake ended: the slot is given back in every case; then
    consent and registration. The answer is the key under which the read loop
    will run. *)
Definition incoming_finish (now : pyval) (ip addr : string) (conn : nat) (hs : hs_outcome)
    : PeerManager -> PeerManager * option string := fun p =>
  let released p := with_guard (release ip (handshake_guard p)) p in
  match hs with
  | HsTimeout | HsFailed _ => (released (close_conn conn p), None)
  | HsOk pubkey name quota sas =>
      let p := released p in
      let key := bytes_hex pubkey in
      match _check_consent cb now key name addr sas p with
      | (p, Ok true) => (_register key name addr conn quota sas p, Some key)
      | (p, _) => (close_conn conn p, None)
      end
  end.

(** [connect_to] up to the handshake: a pin mismatch closes and is passed on. *)
Definition connect_begin (conn : nat) (pin : result (option string)) : M PeerManager unit := fun p =>
  match pin with
  | Ok _ => (p, Ok tt)
  | Err e => (close_conn conn p, Err e)
  end.

(** [connect_to] after the handshake; [timeout] is the limit as printed. *)
Definition connect_finish (timeout : string) (now : pyval) (addr : string) (conn : nat) (hs : hs_outcome)
    : M PeerManager string := fun p =>
  match hs with
  | HsTimeout => (close_conn conn p, Err (Exn TimeoutError
      ("handshake with " +:+ addr +:+ " timed out after " +:+ timeout +:+ "s")))
  | HsFailed e => (p, Err e)
  | HsOk pubkey name quota sas =>
      let key := bytes_hex pubkey in
      match _check_consent cb now key name addr sas p with
      | (p, Ok true) => (_register key name addr conn quota sas p, Ok key)
      | (p, Ok false) =>
          (close_conn conn p, Err (Exn PermissionError
             ("outbound connection to " +:+ String.substring 0 8 key +:+ " denied by consent policy")))
      | (p, Err e) => (p, Err e)
      end
  end.
End incoming.

(** ** Facts *)

(** Every registered peer has its multiplexer. *)
Definition peers_have_mux (p : PeerManager) : Prop :=
  forall key i, dget key (peers p) = Some i -> is_Some (muxes p !! p_conn i).

Lemma register_has_mux key name addr conn quota sas p :
  peers_have_mux p -> peers_have_mux (_register key name addr conn quota sas p).
Proof.
  intros Hp k i. cbn. rewrite dget_dset. intros Hk. apply lookup_insert_is_Some'.
  destruct (decide (k = key)); [left; by simplify_eq/=|right; by apply (Hp k)].
Qed.

Lemma read_loop_end_has_mux key info p : peers_have_mux p -> peers_have_mux (read_loop_end key info p).
Proof.
  intros Hp k i. unfold read_loop_end. destruct (muxes p !! p_conn info) eqn:Hm; cbn; rewrite dget_ddel;
    destruct (decide (k = key)); try done; intros Hk; specialize (Hp k i Hk).
  - apply lookup_insert_is_Some'. by right.
  - done.
Qed.

Lemma trust_entry_nonempty now key name verified method addr s s' r :
  trust now key name verified method addr s = (s', r) ->
  exists e, get key s' = Some e /\ flag "verified" e = is_verified key s || verified.
Proof.
  intros Ht. pose proof Ht as Ht'. apply trust_spec in Ht as (e & Hp & Hv). exists e. split; [|done].
  unfold get. rewrite Hp, dget_dset_eq.
  destruct (Z.eqb_spec (len e) 0) as [Hz|]; [|done]. exfalso.
  assert (e = []) as -> by (apply nil_length_inv; unfold len in Hz; lia).
  revert Ht'. unfold trust, trust_entry. set (e0 := refresh _ _ _ _ _).
  assert (is_Some (dget "name" e0)) as Hn.
  { unfold e0, refresh. case_match; repeat (rewrite dget_dset_ne by done); rewrite dget_dset_eq; done. }
  assert (forall x e1 r1, note_address x e0 = (e1, r1) -> e1 <> []) as Hna.
  { intros x e1 r1 Hx ->. revert Hx. unfold note_address.
    assert (forall k v (d : pydict), dset k v d <> []) as Hds
      by (intros k v [|[k' v'] d]; cbn; [done|by case_decide]).
    assert (e0 <> []) as H0 by (intros H0; rewrite H0 in Hn; by destruct Hn).
    repeat case_match; intros [= Hx _]; try done; by eapply Hds. }
  assert (e0 <> []) as H0 by (intros H0; rewrite H0 in Hn; by destruct Hn).
  destruct (match addr with Some _ => _ | None => _ end) as [e1 r1] eqn:He.
  assert (e1 <> []) as H1.
  { destruct addr as [a|]; [|by injection He as <- _]. destruct (String.eqb a ""); [by injection He as <- _|].
    by eapply Hna. }
  intros Hr. assert (ts_peers s' = dset key e1 (ts_peers s)) as Hp'.
  { destruct r1; [|by injection Hr as <- _].
    pose proof (save_peers (Store (dset key e1 (ts_peers s)) (ts_file s))) as Hs. unfold state_after in Hs.
    by rewrite Hr in Hs. }
  rewrite Hp in Hp'. apply (f_equal (dget key)) in Hp'. rewrite !dget_dset_eq in Hp'. congruence.
Qed.

Lemma on_trust_inv {A} (m : M TrustStore A) p p' r :
  on_trust m p = (p', r) -> exists t, m (trust_store p) = (t, r) /\ p' = with_trust t p.
Proof. unfold on_trust. destruct (m (trust_store p)) as [t r']. intros [= <- <-]. by eexists. Qed.

(** A consent check changes at most the trust store. *)
Lemma check_consent_frame cb now key name addr sas p p' r :
  _check_consent cb now key name addr sas p = (p', r) -> exists t, p' = with_trust t p.
Proof.
  assert (forall m : M TrustStore unit, exists t, state_after (on_trust m;;; mret true) p = with_trust t p) as Hm.
  { intros m. unfold state_after, mbind_m, on_trust. destruct (m (trust_store p)) as [t [[]|e]]; by exists t. }
  assert (p = with_trust (trust_store p) p) as Hp by by destruct p.
  unfold _check_consent. destruct (passes key p).
  - intros H. destruct (Hm (trust now key name false "tofu" (Some addr))) as [t Ht].
    unfold state_after in Ht. rewrite H in Ht. by exists t.
  - destruct (contact_line key name sas) as [[]|e]; mrun; [|intros [= <- _]; by eexists].
    destruct (_invoke_consent cb key name addr sas) as [v|e]; mrun; [|intros [= <- _]; by eexists].
    destruct (truthy v); [|intros [= <- _]; by eexists].
    intros H. destruct (Hm (trust now key name (require_sas_verification p)
      (if require_sas_verification p then "sas" else "tofu") (Some addr))) as [t Ht].
    unfold state_after in Ht. rewrite H in Ht. by exists t.
Qed.

(** What a consent check that ends well did. *)
Lemma check_consent_true cb now key name addr sas p p' :
  _check_consent cb now key name addr sas p = (p', Ok true) ->
  (passes key p = true \/ exists v, _invoke_consent cb key name addr sas = Ok v /\ truthy v = true) /\
  exists t e, p' = with_trust t p /\ get key t = Some e /\
    flag "verified" e = is_verified key (trust_store p)
      || (negb (passes key p) && require_sas_verification p).
Proof.
  unfold _check_consent. destruct (passes key p) eqn:Hp.
  - intros H. apply bind_ok_inv in H as (p1 & [] & H & Hret). injection Hret as <-.
    apply on_trust_inv in H as (t & Ht & ->). split; [by left|].
    destruct (trust_entry_nonempty _ _ _ _ _ _ _ _ _ Ht) as (e & He & Hv). by exists t, e.
  - intros H. apply bind_ok_inv in H as (p0 & [] & Hl & H). apply lift_inv in Hl as [-> _].
    apply bind_ok_inv in H as (p1 & v & Hv & H). apply lift_inv in Hv as [-> Hv].
    destruct (truthy v) eqn:Htv; [|done].
    apply bind_ok_inv in H as (p2 & [] & H & Hret). injection Hret as <-.
    apply on_trust_inv in H as (t & Ht & ->). split; [right; by exists v|].
    destruct (trust_entry_nonempty _ _ _ _ _ _ _ _ _ Ht) as (e & He & Hf). by exists t, e.
Qed.

Lemma get_verified key s e : get key s = Some e -> is_verified key s = flag "verified" e.
Proof. unfold get, is_verified. destruct (dget key (ts_peers s)); [|done]. zcase; [done|]. by intros [= ->]. Qed.

(** *** Ordering of quotas *)

Lemma num_compare_scale x y e :
  e <= x.2 -> e <= y.2 -> num_compare x y = Z.compare (x.1 * 2 ^ (x.2 - e)) (y.1 * 2 ^ (y.2 - e)).
Proof.
  intros Hx Hy. unfold num_compare. set (m := Z.min x.2 y.2).
  assert (e <= m) by (unfold m; lia).
  replace (x.2 - e) with ((x.2 - m) + (m - e)) by lia.
  replace (y.2 - e) with ((y.2 - m) + (m - e)) by lia.
  rewrite !Z.pow_add_r by (unfold m; lia). rewrite !Z.mul_assoc.
  assert (0 < 2 ^ (m - e)) by (apply Z.pow_pos_nonneg; lia).
  rewrite !(Z.mul_comm _ (2 ^ (m - e))). apply Zmult_compare_compat_l. lia.
Qed.

Definition num_le (x y : Z * Z) : Prop := num_compare x y <> Gt.

Lemma num_le_refl x : num_le x x.
Proof. unfold num_le, num_compare. by rewrite Z.compare_refl. Qed.

Lemma num_le_trans x y z : num_le x y -> num_le y z -> num_le x z.
Proof.
  set (e := Z.min x.2 (Z.min y.2 z.2)). unfold num_le.
  rewrite (num_compare_scale x y e), (num_compare_scale y z e), (num_compare_scale x z e)
    by (unfold e; lia).
  apply Z.le_trans.
Qed.

Lemma num_gt_le x y : num_compare x y = Gt -> num_le y x.
Proof.
  unfold num_le. rewrite (num_compare_scale x y (Z.min x.2 y.2)), (num_compare_scale y x (Z.min x.2 y.2)) by lia.
  intros H%Z.compare_gt_iff. apply Z.lt_le_incl, H.
Qed.

Lemma first_max_spec best l :
  first_max best l ∈ best :: l /\ forall c, c ∈ best :: l -> num_le c.2 (first_max best l).2.
Proof.
  revert best. induction l as [|x l IH]; intros best; cbn [first_max].
  { split; [by left|]. intros c ->%list_elem_of_singleton. apply num_le_refl. }
  destruct (num_compare x.2 best.2) eqn:Hc.
  1,2: destruct (IH best) as [H1 H2]; (split; [set_solver|]);
    intros c Hin; apply elem_of_cons in Hin as [->|Hin]; [apply H2; by left|];
    apply elem_of_cons in Hin as [->|Hin]; [|apply H2; by right];
    apply (num_le_trans _ best.2); [unfold num_le; by rewrite Hc|apply H2; by left].
  destruct (IH x) as [H1 H2]. split; [set_solver|].
  intros c Hin. apply elem_of_cons in Hin as [->|Hin]; [|by apply H2].
  apply (num_le_trans _ x.2); [by apply num_gt_le|apply H2; by left].
Qed.

(** A peer fits when its quota is a number of at least [size]. *)
Definition fits (size : Z) (i : PeerInfo) (q : Z * Z) : Prop :=
  as_num (remote_quota i) = Some q /\ num_compare q (size, 0) <> Lt.

Lemma candidates_spec size l c :
  candidates size l = Ok c ->
  forall key q, (key, q) ∈ c <-> exists i, (key, i) ∈ l /\ fits size i q.
Proof.
  revert c. induction l as [|[k i] l IH]; intros c; cbn [candidates].
  { intros [= <-] key q. split; [by intros ?%not_elem_of_nil|by intros (i & ?%not_elem_of_nil & _)]. }
  unfold ge_int, fits in *. destruct (as_num (remote_quota i)) as [q0|] eqn:Hq; cbn [result_bind]; [|done].
  destruct (candidates size l) as [rest|]; cbn [result_bind]; [|done]. specialize (IH rest eq_refl).
  intros [= <-] key q. setoid_rewrite elem_of_cons.
  assert ((key, q) ∈ (if match num_compare q0 (size, 0) with Lt => false | _ => true end
                      then (k, q0) :: rest else rest) <->
          ((key = k /\ q = q0 /\ num_compare q0 (size, 0) <> Lt) \/ (key, q) ∈ rest)) as ->.
  { destruct (num_compare q0 (size, 0)); rewrite ?elem_of_cons; naive_solver. }
  rewrite IH. split.
  - intros [(-> & -> & Hlt)|(i' & Hin & Hf)]; [exists i|exists i']; naive_solver.
  - intros (i' & [[= -> ->]|Hin] & Hqi & Hlt); [left; naive_solver|right; by exists i'].
Qed.

Lemma best_peer_spec size p answer :
  best_peer_for_store size p = Ok answer ->
  match answer with
  | Some key => exists i q, (key, i) ∈ peers p /\ fits size i q /\
      forall key' i' q', (key', i') ∈ peers p -> fits size i' q' -> num_le q' q
  | None => forall key i q, (key, i) ∈ peers p -> ~ fits size i q
  end.
Proof.
  unfold best_peer_for_store. destruct (candidates size (peers p)) as [[|b l]|] eqn:Hc; cbn [result_bind];
    [..|done]; intros [= <-]; pose proof (candidates_spec _ _ _ Hc) as Hspec.
  - intros key i q Hin Hf. assert ((key, q) ∈ []) as Habs by (apply Hspec; by exists i).
    by apply not_elem_of_nil in Habs.
  - destruct (first_max_spec b l) as [Hin Hmax]. destruct (first_max b l) as [key q] eqn:Hm.
    apply Hspec in Hin as (i & Hin & Hf). exists i, q. split_and!; [done|apply Hf..|].
    intros key' i' q' Hin' Hf'. apply (Hmax (key', q')). apply Hspec. by exists i'.
Qed.

(** ** Properties *)

Section claims.
Context (fmt_g : Z -> string) (cb : callback).

(** An incoming connection becomes a registered peer only with consent:
    its handshake succeeded, and the peer was known (and verified, when
    verification is required) or the callback approved it; then it is trusted
    and registered under its identity key with this connection.  Otherwise the
    registry is unchanged and the connection is closed. *)
Theorem registration_needs_consent now ip addr conn hs p p' answer :
  incoming_finish cb now ip addr conn hs p = (p', answer) ->
  match answer with
  | Some key => exists pubkey name quota sas, hs = HsOk pubkey name quota sas /\
      key = bytes_hex pubkey /\
      (passes key p = true \/
       exists v, _invoke_consent cb key name addr sas = Ok v /\ truthy v = true) /\
      is_trusted key (trust_store p') = true /\
      exists i, dget key (peers p') = Some i /\ p_conn i = conn /\ pubkey_hex i = key
  | None => peers p' = peers p /\ conn ∈ closed_conns p'
  end.
Proof.
  unfold incoming_finish. destruct hs as [pubkey name quota sas| |e].
  2,3: intros [= <- <-]; cbn; split; [done|set_solver].
  set (p0 := with_guard _ p). destruct (_check_consent cb now (bytes_hex pubkey) name addr sas p0)
    as [p1 [[]|e]] eqn:Hc.
  - intros [= <- <-]. apply check_consent_true in Hc as (Hok & t & e & -> & Hg & _).
    exists pubkey, name, quota, sas. split_and!; try done.
    + cbn. unfold is_trusted, dmem. unfold get in Hg. by destruct (dget _ (ts_peers t)).
    + cbn. rewrite dget_dset_eq. by eexists.
  - intros [= <- <-]. apply check_consent_frame in Hc as [t ->]. cbn. split; [done|set_solver].
  - intros [= <- <-]. apply check_consent_frame in Hc as [t ->]. cbn. split; [done|set_solver].
Qed.

(** Trust on first use works: after an approval the same peer passes
    without a prompt, whatever callback is asked, as long as nothing changes
    its record. *)
Theorem consent_is_remembered cb' now now' key name name' addr addr' sas sas' p p' :
  _check_consent cb now key name addr sas p = (p', Ok true) ->
  passes key p' = true /\
  _check_consent cb' now' key name' addr' sas' p' = _check_consent cb now' key name' addr' sas' p'.
Proof.
  intros (_ & t & e & -> & Hg & Hv)%check_consent_true.
  assert (passes key (with_trust t p) = true) as Hpass.
  { unfold passes. cbn. rewrite Hg. destruct (require_sas_verification p) eqn:Hr; [|done].
    cbn. rewrite Hv. destruct (passes key p) eqn:Hp; [|by rewrite orb_true_r].
    revert Hp. unfold passes. destruct (get key (trust_store p)) as [e0|] eqn:Hg0; [|done].
    rewrite Hr. cbn. rewrite (get_verified _ _ _ Hg0). by destruct (flag "verified" e0). }
  split; [done|]. unfold _check_consent. by rewrite Hpass.
Qed.

(** A connection gives back exactly the handshake slot it took: after an
    admission and the end of its handshake, however it ended, every address
    and the total have the load they had before. *)
Theorem incoming_releases_slot now ip addr conn pin hs t p p1 started :
  GInv (handshake_guard p) ->
  incoming_begin fmt_g now ip conn pin p = (p1, started) ->
  let p2 := if started then (incoming_finish cb t ip addr conn hs p1).1 else p1 in
  inflight_total (handshake_guard p2) = inflight_total (handshake_guard p) /\
  forall k, load_of k (handshake_guard p2) = load_of k (handshake_guard p).
Proof.
  intros HG. unfold incoming_begin.
  destruct (acquire fmt_g now ip (handshake_guard p)) as [g [[]|e]] eqn:Ha.
  - pose proof (acquire_release_load fmt_g now ip _ _ HG Ha) as Hrel.
    destruct pin; intros [= <- <-]; [|done].
    cbv zeta. assert (handshake_guard (incoming_finish cb t ip addr conn hs (with_guard g p)).1
      = release ip g) as ->; [|done].
    unfold incoming_finish. destruct hs as [pubkey name quota sas| |]; try done.
    destruct (_check_consent _ _ _ _ _ _ _) as [p1 [[]|e]] eqn:Hc;
      by apply check_consent_frame in Hc as [t' ->].
  - intros [= <- <-]. by eapply acquire_err_load.
Qed.

(** With verification required and the default callback, a peer nobody
    confirmed is recorded as verified by its short authentication string on
    first contact. *)
Theorem auto_approve_marks_verified now ip addr conn pubkey name quota sas p :
  require_sas_verification p = true -> get (bytes_hex pubkey) (trust_store p) = None ->
  let '(p', answer) := incoming_finish auto_approve now ip addr conn (HsOk pubkey name quota sas) p in
  match answer with
  | Some key => is_verified key (trust_store p') = true
  | None => True
  end.
Proof.
  intros Hr Hg. unfold incoming_finish. set (p0 := with_guard _ p).
  destruct (_check_consent auto_approve now (bytes_hex pubkey) name addr sas p0) as [p1 [[]|e]] eqn:Hc; try done.
  apply check_consent_true in Hc as (_ & t & e & -> & He & Hv). cbn.
  rewrite (get_verified _ _ _ He), Hv. unfold passes. cbn. rewrite Hg, Hr. apply orb_true_r.
Qed.

(** Placement picks a connected peer with room and the largest advertised
    quota, and answers [None] exactly when no connected peer has room. *)
Theorem best_peer_is_best size p answer :
  best_peer_for_store size p = Ok answer ->
  match answer with
  | Some key => exists i q, (key, i) ∈ peers p /\ fits size i q /\
      forall key' i' q', (key', i') ∈ peers p -> fits size i' q' -> num_le q' q
  | None => forall key i q, (key, i) ∈ peers p -> ~ fits size i q
  end.
Proof. apply best_peer_spec. Qed.

(** One connected peer that advertises a quota that is not a number makes
    automatic placement fail for every request. *)
Theorem bad_quota_breaks_placement size p key i :
  (key, i) ∈ peers p -> as_num (remote_quota i) = None ->
  best_peer_for_store size p = Err (lib_exn TypeError).
Proof.
  unfold best_peer_for_store. intros Hin Hq.
  assert (candidates size (peers p) = Err (lib_exn TypeError)) as ->; [|done].
  induction (peers p) as [|[k j] l IH]; [by apply not_elem_of_nil in Hin|]. cbn [candidates].
  unfold ge_int. destruct (as_num (remote_quota j)) eqn:Hj; cbn [result_bind]; [|done].
  apply elem_of_cons in Hin as [[= -> ->]|Hin]; [congruence|]. by rewrite (IH Hin).
Qed.

(** When a peer reconnects before its old connection's read loop has
    ended, the end of the old loop drops the new registration: the peer is
    then unreachable although its new connection is up. *)
Theorem stale_loop_drops_new_registration key name1 name2 addr1 addr2 c1 c2 quota1 quota2 sas1 sas2 p m sid :
  let p1 := _register key name1 addr1 c1 quota1 sas1 p in
  let p2 := _register key name2 addr2 c2 quota2 sas2 p1 in
  forall info, read_loop_target key p1 = Some info -> c1 <> c2 ->
  let p3 := read_loop_end key info p2 in
  muxes p3 !! c2 = Some (ChannelMux_init Config.MUX_MAX_QUEUED_MESSAGES) /\
  closed (ChannelMux_init Config.MUX_MAX_QUEUED_MESSAGES) = false /\
  dget key (peers p3) = None /\ outcome (send_to key m sid) p3 = Ok (Some false).
Proof.
  intros p1 p2 info Hinfo Hne p3.
  assert (p_conn info = c1) as Hconn.
  { unfold read_loop_target, p1, _register in Hinfo. cbn in Hinfo. rewrite dget_dset_eq in Hinfo. by simplify_eq/=. }
  assert (dget key (peers p3) = None) as Hgone.
  { unfold p3, read_loop_end. destruct (muxes p2 !! p_conn info); cbn [with_peers peers]; apply dget_ddel_eq. }
  split_and!; [|done|done|].
  - unfold p3, read_loop_end. rewrite Hconn. destruct (muxes p2 !! c1);
      cbn [with_peers muxes with_mux]; rewrite ?lookup_insert_ne by done; apply lookup_insert_eq.
  - unfold outcome, send_to. by rewrite Hgone.
Qed.
End claims.

(** ** Witnesses *)

Definition pm0 (sas_required : bool) : PeerManager :=
  PM sas_required (Store [] NoFile) [] guard0 ∅ ∅.

Definition alice_key : bytes := [Byte.xab; Byte.xcd].

Definition joined (sas_required : bool) : PeerManager * option string :=
  incoming_finish auto_approve noon "10.0.0.7" "10.0.0.7:9000" 1
    (HsOk alice_key (VStr "alice") (VInt 1000) "123456") (pm0 sas_required).

Lemma registration_needs_consent_witness :
  exists pubkey name quota sas, HsOk alice_key (VStr "alice") (VInt 1000) "123456" = HsOk pubkey name quota sas /\
    "abcd" = bytes_hex pubkey /\
    (passes "abcd" (pm0 false) = true \/
     exists v, _invoke_consent auto_approve "abcd" name "10.0.0.7:9000" sas = Ok v /\ truthy v = true) /\
    is_trusted "abcd" (trust_store (joined false).1) = true /\
    exists i, dget "abcd" (peers (joined false).1) = Some i /\ p_conn i = 1%nat /\ pubkey_hex i = "abcd".
Proof.
  apply (registration_needs_consent auto_approve noon "10.0.0.7" "10.0.0.7:9000" 1
           (HsOk alice_key (VStr "alice") (VInt 1000) "123456") (pm0 false) (joined false).1 (Some "abcd")).
  by vm_compute.
Defined.

Definition consented : PeerManager :=
  state_after (_check_consent auto_approve noon "abcd" (VStr "alice") "10.0.0.7:9000" "123456") (pm0 true).

Lemma consent_is_remembered_witness :
  passes "abcd" consented = true /\
  _check_consent (Callback None (fun _ => Ok (VBool false))) noon "abcd" VNone "x" "" consented
    = _check_consent auto_approve noon "abcd" VNone "x" "" consented.
Proof.
  apply (consent_is_remembered auto_approve (Callback None (fun _ => Ok (VBool false))) noon noon "abcd"
           (VStr "alice") VNone "10.0.0.7:9000" "x" "123456" "" (pm0 true)).
  by vm_compute.
Defined.

Lemma incoming_releases_slot_witness :
  let p1 := (incoming_begin fmt0 1 "10.0.0.7" 1 (Ok None) (pm0 false)).1 in
  let p2 := (incoming_finish auto_approve noon "10.0.0.7" "a" 1 HsTimeout p1).1 in
  inflight_total (handshake_guard p1) = 1 /\
  inflight_total (handshake_guard p2) = inflight_total (handshake_guard (pm0 false)) /\
  forall k, load_of k (handshake_guard p2) = load_of k (handshake_guard (pm0 false)).
Proof.
  split; [by vm_compute|].
  apply (incoming_releases_slot fmt0 auto_approve 1 "10.0.0.7" "a" 1 (Ok None) HsTimeout noon (pm0 false)
           (incoming_begin fmt0 1 "10.0.0.7" 1 (Ok None) (pm0 false)).1 true).
  - apply GInv_init.
  - by vm_compute.
Defined.

Lemma auto_approve_marks_verified_witness :
  let '(p', answer) := joined true in
  match answer with Some key => is_verified key (trust_store p') = true | None => True end.
Proof.
  exact (auto_approve_marks_verified noon "10.0.0.7" "10.0.0.7:9000" 1 alice_key (VStr "alice") (VInt 1000)
           "123456" (pm0 true) eq_refl eq_refl).
Defined.

(** Three peers: the second and the third advertise the most. *)
Definition three_peers : PeerManager :=
  _register "c" (VStr "c") "x" 3 (VInt 900) "" (_register "b" (VStr "b") "x" 2 (VFloat 225 2) ""
    (_register "a" (VStr "a") "x" 1 (VInt 100) "" (pm0 false))).

Example three_peers_best : best_peer_for_store 50 three_peers = Ok (Some "b").
Proof. by vm_compute. Qed.

Lemma best_peer_is_best_witness :
  exists i q, ("b", i) ∈ peers three_peers /\ fits 50 i q /\
    forall key' i' q', (key', i') ∈ peers three_peers -> fits 50 i' q' -> num_le q' q.
Proof. apply (best_peer_is_best 50 three_peers (Some "b")). by vm_compute. Defined.

Definition bad_peer : PeerManager := _register "m" (VStr "m") "x" 4 (VStr "lots") "" three_peers.

Lemma bad_quota_breaks_placement_witness : best_peer_for_store 50 bad_peer = Err (lib_exn TypeError).
Proof.
  apply (bad_quota_breaks_placement 50 bad_peer "m" (Peer "m" (VStr "m") "x" 4 (VStr "lots") "" false)).
  - apply (list_elem_of_lookup_2 _ 3). by vm_compute.
  - done.
Defined.

Lemma stale_loop_drops_new_registration_witness :
  let p1 := _register "k" VNone "x" 1 (VInt 0) "" (pm0 false) in
  let p2 := _register "k" VNone "y" 2 (VInt 0) "" p1 in
  let p3 := read_loop_end "k" (Peer "k" VNone "x" 1 (VInt 0) "" false) p2 in
  muxes p3 !! 2%nat = Some (ChannelMux_init Config.MUX_MAX_QUEUED_MESSAGES) /\
  closed (ChannelMux_init Config.MUX_MAX_QUEUED_MESSAGES) = false /\
  dget "k" (peers p3) = None /\ outcome (send_to "k" (mk 1) None) p3 = Ok (Some false).
Proof.
  apply (stale_loop_drops_new_registration "k" VNone VNone "x" "y" 1 2 (VInt 0) (VInt 0) "" "" (pm0 false)
           (mk 1) None (Peer "k" VNone "x" 1 (VInt 0) "" false)); [by vm_compute|done].
Defined.
