(* ===== verification/Meeting.v ===== *)
(** * Two nodes meet ([handle_incoming] and [connect_to] of [memnode/peers.py])

    The two handlers as a whole: admission, the TLS pin check, the handshake
    with its deadline, consent, registration.  They are put together from the
    parts of [Peers], [TlsMode], [RateLimit] and [Handshake]; what a new
    transport brings (its streams, addresses and certificate, the clock
    readings, whether the deadline passed first) comes in as values. *)
From S2P Require Import Prelude Config PyVal Protocol Replay Channel ChannelFacts ChannelSpec Handshake.
From S2P Require Import RateLimit Mux Trust TlsMode Peers Connection.

(** ** The handlers *)

(** A new transport: its streams, how the other side is called, its number,
    the certificate of the other side, and whether [wait_for] gave up. *)
Record transport := Transport {
  tr_conn : conn;
  tr_ip : string;
  tr_addr : string;
  tr_id : nat;
  tr_ssl_object : option bytes;
  tr_timed_out : bool
}.

(** Clock readings: the guard's, the trust store's, the channel's. *)
Record clocks := Clocks { ck_guard : Z; ck_trust : pyval; ck_channel : Z }.

(** What [wait_for(perform_handshake(...))] gives the handlers; [peer_info] has
    every key they look up. *)
Definition hs_of (timed_out : bool) (r : result (SecureChannel * bytes * Handshake.PeerInfo)) : hs_outcome :=
  if timed_out then HsTimeout
  else match r with
       | Ok (_, pubkey, info) => HsOk pubkey (pi_name info) (pi_ram_quota info) (pi_sas info)
       | Err e => HsFailed e
       end.

Section handlers.
Context (C : crypto) (K : asym) (msgpack : codec) (py_str : pyval -> string) (fmt_g : Z -> string).
Context (load_cert_chain : option string -> option string -> result unit)
        (load_verify_locations : option string -> result unit).
Context (cb : callback) (tls : TlsSettings).

(** The key under which the peer is registered and its channel, when the
    connection became one; the read loop runs next. *)
Definition handle_incoming (me : party) (ck : clocks) (tr : transport) (p : PeerManager)
    : PeerManager * option (string * SecureChannel) :=
  let pin := enforce_pin (sha256 K) (tr_ssl_object tr) tls in
  let '(p, started) := incoming_begin fmt_g (ck_guard ck) (tr_ip tr) (tr_id tr) pin p in
  if started then
    let r := outcome (Handshake.run C K msgpack py_str me false (ck_channel ck)) (tr_conn tr) in
    match incoming_finish cb (ck_trust ck) (tr_ip tr) (tr_addr tr) (tr_id tr) (hs_of (tr_timed_out tr) r) p, r with
    | (p, Some key), Ok (ch, _, _) => (p, Some (key, ch))
    | (p, _), _ => (p, None)
    end
  else (p, None).

(** [opened] is what [asyncio.open_connection] did; [timeout] the deadline as
    printed. *)
Definition connect_to (me : party) (timeout : string) (ck : clocks) (opened : result transport)
    : M PeerManager (string * SecureChannel) :=
  mlift (build_client_context load_cert_chain load_verify_locations tls);;;
  tr <- mlift opened;;
  connect_begin (tr_id tr) (enforce_pin (sha256 K) (tr_ssl_object tr) tls);;;
  let r := outcome (Handshake.run C K msgpack py_str me true (ck_channel ck)) (tr_conn tr) in
  key <- connect_finish cb timeout (ck_trust ck) (tr_addr tr) (tr_id tr) (hs_of (tr_timed_out tr) r);;
  match r with
  | Ok (ch, _, _) => mret (key, ch)
  | Err e => mraise e
  end.
End handlers.

(** ** First contact *)

Lemma json_ok_forallb d : json_ok (VDict d) = forallb (fun kv => json_ok kv.2) d.
Proof. cbn. induction d as [|[k x] d IH]; [done|]. cbn. by rewrite IH. Qed.

Lemma forallb_dset {V} (f : V -> bool) (k : string) v d :
  f v = true -> forallb (fun kv => f kv.2) d = true -> forallb (fun kv => f kv.2) (dset k v d) = true.
Proof.
  intros Hv. induction d as [|[k' x] d IH]; cbn; [by rewrite Hv|].
  intros [Hx Hd]%andb_true_iff. case_decide; cbn; [by rewrite Hv|]. rewrite Hx. by apply IH.
Qed.

Lemma json_ok_dset k v d : json_ok v = true -> json_ok (VDict d) = true -> json_ok (VDict (dset k v d)) = true.
Proof. rewrite !json_ok_forallb. apply forallb_dset. Qed.

(** The entry of a peer never seen: writable, and its address is noted. *)
Lemma first_entry now name verified method addr :
  json_ok now = true -> json_ok name = true ->
  let e := refresh now name verified method
             [("name", name); ("first_seen", now); ("addresses", VList [])] in
  exists e', note_address addr e = (e', Ok tt) /\ json_ok (VDict e) = true /\ json_ok (VDict e') = true.
Proof.
  intros Hn Hm e.
  assert (json_ok (VDict e) = true) as He.
  { unfold e, refresh. case_match; repeat apply json_ok_dset; try done; cbn; by rewrite Hn, Hm. }
  assert (dget "addresses" e = Some (VList [])) as Ha.
  { unfold e, refresh. case_match; repeat (rewrite dget_dset_ne by done); done. }
  unfold note_address. rewrite Ha. eexists. split; [done|]. split; [done|]. by apply json_ok_dset.
Qed.

(** A peer never seen is recorded when its fields can be written as JSON. *)
Lemma trust_first now key name verified method addr s :
  dget key (ts_peers s) = None -> json_ok (payload (ts_peers s)) = true ->
  json_ok now = true -> json_ok name = true ->
  outcome (trust now key name verified method (Some addr)) s = Ok tt.
Proof.
  intros Hk Hs Hn Hm. unfold trust, trust_entry, outcome. rewrite Hk. cbn [default from_option id].
  destruct (first_entry now name verified method addr Hn Hm) as (e' & Hnote & He & He').
  assert (forall e, json_ok (VDict e) = true ->
    (_save (Store (dset key e (ts_peers s)) (ts_file s))).2 = Ok tt) as Hsave.
  { intros e Hj. unfold _save. cbn [ts_peers]. rewrite json_ok_payload in Hs |- *.
    by rewrite (forallb_dset (fun d => json_ok (VDict d)) key e _ Hj Hs). }
  destruct (String.eqb addr ""); [by apply Hsave|]. rewrite Hnote. by apply Hsave.
Qed.

(** A policy that approves everyone. *)
Definition approves (cb : callback) : Prop :=
  forall key name addr sas, exists v, _invoke_consent cb key name addr sas = Ok v /\ truthy v = true.

Lemma consent_first cb now key name addr sas p :
  approves cb -> dget key (ts_peers (trust_store p)) = None ->
  json_ok (payload (ts_peers (trust_store p))) = true -> json_ok now = true ->
  exists p', _check_consent cb now key (VStr name) addr sas p = (p', Ok true).
Proof.
  intros Hcb Hk Hs Hn. unfold _check_consent.
  assert (passes key p = false) as -> by (unfold passes, get; by rewrite Hk).
  assert (contact_line key (VStr name) sas = Ok tt) as ->.
  { unfold contact_line. case_decide; [done|]. unfold pairing_uri. by destruct (truthy (VStr name)). }
  rewrite bind_lift_ok. destruct (Hcb key (VStr name) addr sas) as (v & -> & Hv).
  rewrite bind_lift_ok, Hv. unfold mbind_m, on_trust.
  pose proof (trust_first now key (VStr name) (require_sas_verification p)
    (if require_sas_verification p then "sas" else "tofu") addr (trust_store p) Hk Hs Hn eq_refl) as Ht.
  unfold outcome in Ht. destruct (trust _ _ _ _ _ _ _) as [t r]. cbn in Ht. subst r. by eexists.
Qed.

(** ** The channel a handshake returns is a fresh one *)

Lemma run_fresh C K msgpack py_str me init now c c' ch pk info :
  Handshake.run C K msgpack py_str me init now c = (c', Ok (ch, pk, info)) ->
  SecureChannel_init (cn_reader c') (cn_writer c') (sc_send_key ch) (sc_recv_key ch) (sc_transcript_hash ch)
    Config.REPLAY_WINDOW_SIZE Config.REKEY_INTERVAL_MESSAGES Config.REKEY_INTERVAL_SECONDS
    Config.MAX_REKEY_EPOCH_SKIP now = Ok ch.
Proof.
  unfold Handshake.run, perform_handshake. intros H.
  apply bind_ok_inv in H as (c1 & [[[hello raw] ph] peer_eph] & _ & H).
  cbv zeta in H. apply bind_ok_inv in H as (c2 & [pk' pa] & _ & H).
  apply bind_ok_inv in H as (c3 & [ch' info'] & H3 & H). injection H as <- <- _ _.
  unfold establish in H3.
  apply bind_ok_inv in H3 as (c4 & secret & H1 & H3). apply lift_inv in H1 as [-> _].
  destruct (_derive_traffic_keys C secret _) as [ka kb].
  destruct (if init then (ka, kb) else (kb, ka)) as [ks kr].
  rewrite bind_get in H3. apply bind_ok_inv in H3 as (c5 & chan & Hc & H3). apply lift_inv in Hc as [-> Hc].
  apply bind_ok_inv in H3 as (c6 & nm & H4 & H3). apply lift_inv in H4 as [-> _].
  apply bind_ok_inv in H3 as (c7 & q & H4 & H3). apply lift_inv in H4 as [-> _].
  apply bind_ok_inv in H3 as (c8 & sas & H4 & H3). apply lift_inv in H4 as [-> _].
  injection H3 as <- <- _.
  pose proof Hc as (-> & _)%SecureChannel_init_inv. exact Hc.
Qed.

(** ** Properties *)

Section claims.
Context (C : crypto) (K : asym) (msgpack : codec) (py_str : pyval -> string) (ok : pyval -> Prop).
Context `{!CryptoLaws C, !AsymLaws K, !CodecLaws msgpack ok}.
Context (fmt_g : Z -> string) (load_cert_chain : option string -> option string -> result unit)
        (load_verify_locations : option string -> result unit).

(** A node that would take in a peer it has never seen. *)
Record welcoming (cb : callback) (now : pyval) (key : string) (p : PeerManager) : Prop := {
  we_policy : approves cb;
  we_now : json_ok now = true;
  we_new : dget key (ts_peers (trust_store p)) = None;
  we_file : json_ok (payload (ts_peers (trust_store p))) = true
}.

Lemma welcoming_guard cb now key p g : welcoming cb now key p -> welcoming cb now key (with_guard g p).
Proof. by intros []. Qed.

(** The transport's pin check lets it through. *)
Definition pin_passes (tls : TlsSettings) (tr : transport) : Prop :=
  exists o, enforce_pin (sha256 K) (tr_ssl_object tr) tls = Ok o.

(** What the node knows of a peer after a meeting. *)
Definition knows (p : PeerManager) (key : string) (name : string) (quota : Z) (sas : string) (tr : transport) : Prop :=
  is_trusted key (trust_store p) = true /\
  exists v, dget key (peers p) = Some (Peer key (VStr name) (tr_addr tr) (tr_id tr) (VInt quota) sas v) /\
    muxes p !! tr_id tr = Some (ChannelMux_init Config.MUX_MAX_QUEUED_MESSAGES).

Lemma registered_knows cb now key name quota sas tr p p' :
  _check_consent cb now key (VStr name) (tr_addr tr) sas p = (p', Ok true) ->
  knows (_register key (VStr name) (tr_addr tr) (tr_id tr) (VInt quota) sas p') key name quota sas tr.
Proof.
  intros (_ & t & e & -> & Hg & _)%check_consent_true. split.
  - cbn. unfold is_trusted, dmem. unfold get in Hg. by destruct (dget _ (ts_peers t)).
  - eexists. cbn. by rewrite dget_dset_eq, lookup_insert_eq.
Qed.

(** One side each, given how its handshake ended. *)
Lemma connect_ok cb tls me timeout ck tr p ch pk name quota sas th ctx :
  build_client_context load_cert_chain load_verify_locations tls = Ok ctx -> pin_passes tls tr ->
  tr_timed_out tr = false -> welcoming cb (ck_trust ck) (bytes_hex pk) p ->
  outcome (Handshake.run C K msgpack py_str me true (ck_channel ck)) (tr_conn tr)
    = Ok (ch, pk, Info (VStr name) (VInt quota) th sas) ->
  exists p', connect_to C K msgpack py_str load_cert_chain load_verify_locations cb tls me timeout ck (Ok tr) p
      = (p', Ok (bytes_hex pk, ch)) /\ knows p' (bytes_hex pk) name quota sas tr.
Proof.
  intros Hctx [o Hpin] Hto [H1 H2 H3 H4] Hrun.
  destruct (consent_first cb (ck_trust ck) (bytes_hex pk) name (tr_addr tr) sas p H1 H3 H4 H2) as [p1 Hc].
  exists (_register (bytes_hex pk) (VStr name) (tr_addr tr) (tr_id tr) (VInt quota) sas p1).
  split; [|by eapply registered_knows]. unfold connect_to.
  rewrite Hctx, !bind_lift_ok, Hpin. erewrite bind_ok by done. rewrite Hrun, Hto. cbn [hs_of].
  erewrite bind_ok; [done|]. cbn [connect_finish pi_name pi_sas pi_ram_quota]. by rewrite Hc.
Qed.

Lemma incoming_ok cb tls me ck tr p ch pk name quota sas th g :
  acquire fmt_g (ck_guard ck) (tr_ip tr) (handshake_guard p) = (g, Ok tt) -> pin_passes tls tr ->
  tr_timed_out tr = false -> welcoming cb (ck_trust ck) (bytes_hex pk) p ->
  outcome (Handshake.run C K msgpack py_str me false (ck_channel ck)) (tr_conn tr)
    = Ok (ch, pk, Info (VStr name) (VInt quota) th sas) ->
  exists p', handle_incoming C K msgpack py_str fmt_g cb tls me ck tr p = (p', Some (bytes_hex pk, ch)) /\
    knows p' (bytes_hex pk) name quota sas tr /\ handshake_guard p' = release (tr_ip tr) g.
Proof.
  intros Hg [o Hpin] Hto Hw Hrun.
  set (p0 := with_guard (release (tr_ip tr) g) (with_guard g p)).
  assert (welcoming cb (ck_trust ck) (bytes_hex pk) p0) as [H1 H2 H3 H4] by (by do 2 apply welcoming_guard).
  destruct (consent_first cb (ck_trust ck) (bytes_hex pk) name (tr_addr tr) sas p0 H1 H3 H4 H2) as [p1 Hc].
  exists (_register (bytes_hex pk) (VStr name) (tr_addr tr) (tr_id tr) (VInt quota) sas p1).
  split; [|split; [by eapply registered_knows|apply check_consent_frame in Hc as [t ->]; done]].
  unfold handle_incoming, incoming_begin. rewrite Hg, Hpin, Hrun, Hto. cbn [hs_of].
  unfold incoming_finish. cbn [pi_name pi_sas pi_ram_quota handshake_guard with_guard]. fold p0. by rewrite Hc.
Qed.

(** The channel [s], whose writer had written [out], carries to [r], whose
    stream still holds [rest]: what the multiplexer over [s] writes, the read
    loop over [r] gives to its handler, as far as it arrived. *)
Definition delivers_to (out rest : bytes) (s r : SecureChannel) : Prop :=
  forall H (f : Message -> M H unit) mx h q n l sent,
  0 <= q -> conn_reachable C msgpack q s (n, l) ->
  wr_out (sc_writer (cn_chan n)) = out ++ sent -> rest `prefix_of` sent ->
  Forall (fun e : Z * Message =>
    ok (VDict [("type", VStr (MsgType_value (msg_type e.2))); ("body", msg_body e.2)])) (cn_written l) ->
  exists k mx' e r', let got := take k (cn_written l) in
    run_channel C msgpack (Some f) mx r h
      = (mx', foldl (fun h m => state_after (f m) h) h got.*2, e, r') /\
    (forall sid, on_stream sid got `prefix_of` on_stream sid (enqd (cn_trace l))) /\
    (rest = sent -> got = cn_written l).

(** Channels of two handshakes that agree carry to each other. *)
Lemma crossed_deliver a b init_a init_b now_a now_b c_a c_b c_a' c_b' ch_a ch_b pk_a pk_b i_a i_b out rest :
  Handshake.run C K msgpack py_str a init_a now_a c_a = (c_a', Ok (ch_a, pk_a, i_a)) ->
  Handshake.run C K msgpack py_str b init_b now_b c_b = (c_b', Ok (ch_b, pk_b, i_b)) ->
  sc_transcript_hash ch_a = sc_transcript_hash ch_b -> sc_send_key ch_a = sc_recv_key ch_b ->
  wr_out (cn_writer c_a') = out -> wr_lost (cn_writer c_a') = false -> rd_buf (cn_reader c_b') = rest ->
  delivers_to out rest ch_a ch_b.
Proof.
  intros Ha%run_fresh Hb%run_fresh Hth Hk Hout Hlive Hrest H f mx h q n l sent Hq Hn Hsent Hpre Hok.
  destruct (cn_writer c_a') as [o lost closed], (cn_reader c_b') as [buf req]. cbn in Hout, Hlive, Hrest.
  subst o lost buf. rewrite <-Hth, <-Hk in Hb.
  destruct (deliver_run C msgpack ok f mx h q _ _ _ _ _ _ _ _ _ _ _ _ _ _ _ _ _ _ ch_a ch_b n l sent rest
    Ha Hb) as (k & mx' & e & r' & Hrun & _ & _ & _ & _ & Hs & Hall); try done.
  exists k, mx', e, r'. cbn zeta. split; [done|]. split; [done|]. intros E. by apply Hall.
Qed.

(** C9: two nodes meet: an honest initiator's [connect_to] and an honest
    responder's [handle_incoming], each reading what the other writes, end with
    each node registered and trusted at the other under its identity key, with
    its own name and quota, and the same short authentication string on both
    sides; the responder's handshake slot is given back; and from then on what
    either multiplexer writes reaches the other's handler in order and
    unchanged, as far as the bytes arrive. *)
Theorem peers_meet a b ha hb aa ab secret rest_a rest_b req_a req_b
    cb_a cb_b tls_a tls_b timeout ck_a ck_b tr_a tr_b pa pb ctx g :
  let t_hash := transcript K true ha hb in
  let key_a := bytes_hex (ed_public K (p_key a)) in
  let key_b := bytes_hex (ed_public K (p_key b)) in
  distinct K a b ->
  Handshake.encodes msgpack ok (hello_of K a) ha -> Handshake.encodes msgpack ok (hello_of K b) hb ->
  Handshake.encodes msgpack ok (auth_of K a t_hash) aa -> Handshake.encodes msgpack ok (auth_of K b t_hash) ab ->
  x_exchange K (p_eph a) (x_public K (p_eph b)) = Ok secret ->
  tr_conn tr_a = Handshake.Conn (Reader (frame hb ++ frame ab ++ rest_a) req_a) (Writer [] false false) ->
  tr_conn tr_b = Handshake.Conn (Reader (frame ha ++ frame aa ++ rest_b) req_b) (Writer [] false false) ->
  build_client_context load_cert_chain load_verify_locations tls_a = Ok ctx ->
  pin_passes tls_a tr_a -> pin_passes tls_b tr_b ->
  tr_timed_out tr_a = false -> tr_timed_out tr_b = false ->
  welcoming cb_a (ck_trust ck_a) key_b pa -> welcoming cb_b (ck_trust ck_b) key_a pb ->
  GInv (handshake_guard pb) -> acquire fmt_g (ck_guard ck_b) (tr_ip tr_b) (handshake_guard pb) = (g, Ok tt) ->
  exists pa' pb' ch_a ch_b sas,
    connect_to C K msgpack py_str load_cert_chain load_verify_locations cb_a tls_a a timeout ck_a (Ok tr_a) pa
      = (pa', Ok (key_b, ch_a)) /\
    handle_incoming C K msgpack py_str fmt_g cb_b tls_b b ck_b tr_b pb = (pb', Some (key_a, ch_b)) /\
    knows pa' key_b (Handshake.p_name b) (p_quota b) sas tr_a /\ knows pb' key_a (Handshake.p_name a) (p_quota a) sas tr_b /\
    (forall ip, load_of ip (handshake_guard pb') = load_of ip (handshake_guard pb)) /\
    delivers_to (frame ha ++ frame aa) rest_b ch_a ch_b /\
    delivers_to (frame hb ++ frame ab) rest_a ch_b ch_a.
Proof.
  intros t_hash key_a key_b Hd Hha Hhb Haa Hab Hx Hca Hcb Hctx Hpa Hpb Hta Htb Hwa Hwb HG Hacq.
  destruct (run_ok C K msgpack py_str ok a b true (ck_channel ck_a) ha hb aa ab secret rest_a req_a Hd
    Hha Hhb Haa Hab Hx) as (ca & ch_a & sas & Hra & Hwra & Hrda & Hsa & Htha & Era & Ewa & Hka).
  rewrite x_exchange_sym in Hx.
  destruct (run_ok C K msgpack py_str ok b a false (ck_channel ck_b) hb ha ab aa secret rest_b req_b
    (distinct_sym _ _ _ Hd) Hhb Hha Hab Haa Hx)
    as (cb & ch_b & sas' & Hrb & Hwrb & Hrdb & Hsb & Hthb & Erb & Ewb & Hkb).
  change (transcript K false hb ha) with t_hash in Hrb, Hsb, Hthb, Hkb.
  change (transcript K true ha hb) with t_hash in Hra, Hsa, Htha, Hka.
  assert (sas' = sas) as -> by congruence.
  destruct (connect_ok cb_a tls_a a timeout ck_a tr_a pa ch_a (ed_public K (p_key b)) (Handshake.p_name b) (p_quota b)
    sas t_hash ctx Hctx Hpa Hta Hwa) as (pa' & Hconn & Hknow_a); [by rewrite Hca; unfold outcome; rewrite Hra|].
  destruct (incoming_ok cb_b tls_b b ck_b tr_b pb ch_b (ed_public K (p_key a)) (Handshake.p_name a) (p_quota a)
    sas t_hash g Hacq Hpb Htb Hwb) as (pb' & Hinc & Hknow_b & Hguard);
    [by rewrite Hcb; unfold outcome; rewrite Hrb|].
  destruct (_derive_traffic_keys C secret t_hash) as [k1 k2]. cbn [fst snd] in Hka, Hkb.
  injection Hka as Hka1 Hka2. injection Hkb as Hkb1 Hkb2.
  exists pa', pb', ch_a, ch_b, sas. split_and!; try done.
  - intros ip. rewrite Hguard. by apply (acquire_release_load fmt_g (ck_guard ck_b)).
  - eapply (crossed_deliver a b); [exact Hra|exact Hrb|congruence|congruence|by rewrite Hwra|by rewrite Hwra|done].
  - eapply (crossed_deliver b a); [exact Hrb|exact Hra|congruence|congruence|by rewrite Hwrb|by rewrite Hwrb|done].
Qed.
End claims.

Section guarded.
Context (C : crypto) (K : asym) (msgpack : codec) (py_str : pyval -> string) (fmt_g : Z -> string).

(** C10: whatever connects and whatever it sends, [handle_incoming] registers
    only an authenticated and admitted peer: the guard let it in, the pin check
    passed, the handshake ended in time, the key it is registered under (not
    ours) verified a signature over the hash of exactly the two hellos, to which
    the returned channel is bound, and consent was given or remembered.
    Otherwise the registry is unchanged and the connection closed.  Either way
    the handshake slots are as before. *)
Theorem incoming_guarded cb tls me ck tr p p' answer :
  GInv (handshake_guard p) ->
  handle_incoming C K msgpack py_str fmt_g cb tls me ck tr p = (p', answer) ->
  inflight_total (handshake_guard p') = inflight_total (handshake_guard p) /\
  (forall ip, load_of ip (handshake_guard p') = load_of ip (handshake_guard p)) /\
  match answer with
  | Some (key, ch) => exists pk pub sig hello raw name sas g,
      acquire fmt_g (ck_guard ck) (tr_ip tr) (handshake_guard p) = (g, Ok tt) /\
      pin_passes K tls tr /\ tr_timed_out tr = false /\
      key = bytes_hex pk /\ pk <> ed_public K (p_key me) /\ ed_from_public K pk = Ok pub /\
      c_enc msgpack (hello_of K me) = Ok hello /\
      ed_verify K pub sig (transcript K false hello raw) = true /\
      sc_transcript_hash ch = transcript K false hello raw /\
      (passes key p = true \/
       exists v, _invoke_consent cb key name (tr_addr tr) sas = Ok v /\ truthy v = true) /\
      is_trusted key (trust_store p') = true /\
      exists i, dget key (peers p') = Some i /\ p_conn i = tr_id tr
  | None => peers p' = peers p /\ tr_id tr ∈ closed_conns p'
  end.
Proof.
  intros HG. unfold handle_incoming, incoming_begin.
  destruct (acquire fmt_g (ck_guard ck) (tr_ip tr) (handshake_guard p)) as [g [[]|e]] eqn:Ha.
  2:{ intros [= <- <-]. destruct (acquire_err_load _ _ _ _ _ _ HG Ha) as [H1 H2]. cbn.
      split_and!; [done..|set_solver]. }
  destruct (acquire_release_load fmt_g _ _ _ _ HG Ha) as [Hl1 Hl2].
  destruct (enforce_pin (sha256 K) (tr_ssl_object tr) tls) as [o|e] eqn:Hpin.
  2:{ intros [= <- <-]. cbn. split_and!; [done..|set_solver]. }
  set (hs := hs_of _ _).
  destruct (incoming_finish cb (ck_trust ck) (tr_ip tr) (tr_addr tr) (tr_id tr) hs (with_guard g p))
    as [p1 fin] eqn:Hfin.
  assert (handshake_guard p1 = release (tr_ip tr) g) as Hg1.
  { revert Hfin. unfold incoming_finish. destruct hs as [pk name quota sas| |e]; [|by intros [= <- _]..].
    destruct (_check_consent _ _ _ _ _ _ _) as [p2 [[]|e]] eqn:Hc; intros [= <- _];
      by apply check_consent_frame in Hc as [t' ->]. }
  apply registration_needs_consent in Hfin. destruct fin as [key|].
  2:{ intros Hret. assert (p' = p1 /\ answer = None) as [-> ->] by (split; [|]; by (repeat case_match; congruence)).
      rewrite Hg1. split_and!; [done..|apply Hfin|apply Hfin]. }
  destruct Hfin as (pk & name & quota & sas & Hhs & -> & Hcons & Htr & i & Hi & Hci & _).
  unfold hs, hs_of in Hhs. destruct (tr_timed_out tr); [done|]. revert Hhs. unfold outcome.
  destruct (Handshake.run _ _ _ _ _ _ _ _) as [c' [[[ch pk'] info]|e]] eqn:Hrun; cbn [snd]; [|done].
  intros [= -> <- <- <-] [= <- <-]. rewrite Hg1. split; [done|]. split; [done|].
  destruct (run_authenticates C K msgpack py_str me false (ck_channel ck) (tr_conn tr) _ _ _ _ Hrun)
    as (hello & raw & ph & pn & pe & pub & sig & secret & He & _ & _ & _ & _ & _ & _ & _ & _ & _ & Hne
        & Hpub & Hver & _ & Hth & _).
  exists pk, pub, sig, hello, raw, (pi_name info), (pi_sas info), g.
  split_and!; try done; [by exists o|]. by exists i.
Qed.
End guarded.

(** ** Witnesses: alice connects to bob *)

Definition alice_tr : transport :=
  Transport (Handshake.Conn (Reader (frame hello_b ++ frame (be_bytes 2 3) ++ []) []) (Writer [] false false))
    "10.0.0.8" "10.0.0.8:9000" 1 None false.
Definition bob_tr : transport :=
  Transport (Handshake.Conn (Reader (frame hello_a ++ frame (be_bytes 2 2) ++ []) []) (Writer [] false false))
    "10.0.0.7" "10.0.0.7:51234" 2 None false.

Definition no_tls : TlsSettings := Tls false None None None false [].
Definition clocks0 : clocks := Clocks 1 noon 0.

Lemma auto_approves : approves auto_approve.
Proof. intros key name addr sas. by exists (VBool true). Qed.

Lemma pm0_welcoming b key : welcoming auto_approve noon key (pm0 b).
Proof. split; [apply auto_approves|by vm_compute..]. Qed.

Definition bob_guard : HandshakeGuard := (acquire fmt0 1 "10.0.0.7" (handshake_guard (pm0 false))).1.

Lemma peers_meet_witness :
  exists pa' pb' ch_a ch_b sas,
    connect_to toy_crypto toy_asym (table_codec docs) show (fun _ _ => Ok tt) (fun _ => Ok tt) auto_approve no_tls
      alice "5" clocks0 (Ok alice_tr) (pm0 false) = (pa', Ok (bytes_hex (toy_public [Byte.xb1]), ch_a)) /\
    handle_incoming toy_crypto toy_asym (table_codec docs) show fmt0 auto_approve no_tls bob clocks0 bob_tr
      (pm0 false) = (pb', Some (bytes_hex (toy_public [Byte.xa1]), ch_b)) /\
    knows pa' (bytes_hex (toy_public [Byte.xb1])) "bob" 2000 sas alice_tr /\
    knows pb' (bytes_hex (toy_public [Byte.xa1])) "alice" 1000 sas bob_tr.
Proof.
  destruct (peers_meet toy_crypto toy_asym (table_codec docs) show (fun _ => True) fmt0 (fun _ _ => Ok tt)
    (fun _ => Ok tt) alice bob hello_a hello_b (be_bytes 2 2) (be_bytes 2 3) secret_ab [] [] [] []
    auto_approve auto_approve no_tls no_tls "5" clocks0 clocks0 alice_tr bob_tr (pm0 false) (pm0 false)
    None bob_guard) as (pa' & pb' & ch_a & ch_b & sas & H1 & H2 & H3 & H4 & _).
  - apply alice_bob_distinct.
  - apply docs_encodes. by vm_compute.
  - apply docs_encodes. by vm_compute.
  - apply docs_encodes. by vm_compute.
  - apply docs_encodes. by vm_compute.
  - by vm_compute.
  - done.
  - done.
  - done.
  - by exists None.
  - by exists None.
  - done.
  - done.
  - apply pm0_welcoming.
  - apply pm0_welcoming.
  - apply GInv_init.
  - by vm_compute.
  - by exists pa', pb', ch_a, ch_b, sas.
Defined.

Lemma incoming_guarded_witness :
  let '(p', answer) := handle_incoming toy_crypto toy_asym (table_codec docs) show fmt0 auto_approve no_tls
    bob clocks0 bob_tr (pm0 false) in
  inflight_total (handshake_guard p') = 0 /\
  match answer with
  | Some (key, ch) => exists pk, key = bytes_hex pk /\ pk <> ed_public toy_asym (p_key bob)
  | None => False
  end.
Proof.
  destruct (handle_incoming toy_crypto toy_asym (table_codec docs) show fmt0 auto_approve no_tls
    bob clocks0 bob_tr (pm0 false)) as [p' answer] eqn:E.
  destruct (incoming_guarded toy_crypto toy_asym (table_codec docs) show fmt0 auto_approve no_tls bob clocks0 bob_tr
    (pm0 false) p' answer (GInv_init _ _ _ _ _) E) as (H1 & _ & H3).
  assert (exists r, answer = Some r) as [[key ch] ->].
  { apply (f_equal snd) in E. cbn [snd] in E. rewrite <-E. vm_compute. by eexists. }
  split; [exact H1|]. destruct H3 as (pk & ? & ? & ? & ? & ? & ? & ? & _ & _ & _ & -> & Hne & _).
  by exists pk.
Defined.
