(* ===== verification/StoreInterface.v ===== *)
(** * What the block store promises its clients

    The operations the replication and RPC layers call on the local block
    store, the laws they rely on, and the instance the block manager provides:
    a manager together with its supply of clock readings and shuffles. *)
From S2P Require Import Prelude Config PyVal Blocks BlocksFacts.

Class BlockStore (B : Type) := {
  bs_store : bytes -> Durability -> option string -> M B Z;
  bs_load : Z -> M B (option bytes);
  bs_load_by_key : string -> M B (option bytes);
  bs_free : Z -> M B bool;
  bs_free_by_key : string -> M B bool;
  bs_stats : B -> Stats
}.

(** Under an invariant every operation keeps: an accepted block loads again,
    unchanged, by the id that was returned and by its key; a store is refused
    only as too large or for lack of memory; reading never fails and changes
    nothing that reading shows; freeing says whether there was a block, which
    is gone. *)
Class BlockStoreLaws (B : Type) `{BlockStore B} (I : B -> Prop) : Prop := {
  bs_store_ok : forall data d key b b' id, I b -> bs_store data d key b = (b', Ok id) ->
    I b' /\ outcome (bs_load id) b' = Ok (Some data) /\
    (forall k, key = Some k -> outcome (bs_load_by_key k) b' = Ok (Some data));
  bs_store_err : forall data d key b b' e, I b -> bs_store data d key b = (b', Err e) ->
    I b' /\ (exn_cls e = BlockTooLarge \/ exn_cls e = OutOfMemory);
  bs_load_ok : forall id b, I b -> exists b' o, bs_load id b = (b', Ok o) /\ I b';
  bs_load_keeps : forall id id' b b' o, I b -> bs_load id b = (b', Ok o) ->
    outcome (bs_load id') b' = outcome (bs_load id') b;
  bs_load_by_key_ok : forall k b, I b -> exists b' o, bs_load_by_key k b = (b', Ok o) /\ I b';
  bs_free_ok : forall id b, I b -> exists b' f, bs_free id b = (b', Ok f) /\ I b' /\
    outcome (bs_load id) b' = Ok None /\ (outcome (bs_load id) b = Ok None \/ f = true);
  bs_free_by_key_ok : forall k b, I b -> exists b' f, bs_free_by_key k b = (b', Ok f) /\ I b'
}.

(** ** The block manager *)

Record managed := Managed { mg_blocks : BlockManager; mg_tick : nat }.

Section managed.
Context (py_hash : string -> Z) (env : nat -> rng * Z).

(** Run a manager operation in the environment of this moment. *)
Definition ticking {A} (m : rng * Z -> M BlockManager A) : M managed A := fun g =>
  let '(b, r) := m (env (mg_tick g)) (mg_blocks g) in (Managed b (S (mg_tick g)), r).

#[global] Instance managed_store : BlockStore managed := {
  bs_store := fun data d key => ticking (fun e => Blocks.store py_hash e.1 e.2 data d key);
  bs_load := fun id => ticking (fun e => Blocks.load e.2 id);
  bs_load_by_key := fun k => ticking (fun e => Blocks.load_by_key py_hash e.2 k);
  bs_free := fun id => ticking (fun _ => Blocks.free py_hash id true);
  bs_free_by_key := fun k => ticking (fun _ => Blocks.free_by_key py_hash k);
  bs_stats := fun g => Blocks.stats (mg_blocks g)
}.

(** *** The laws *)

Definition managed_inv (g : managed) : Prop := Inv py_hash (mg_blocks g).

Lemma store_found r now data d key bm bm1 id :
  RngOk r -> Inv py_hash bm -> Blocks.store py_hash r now data d key bm = (bm1, Ok id) ->
  Inv py_hash bm1 /\ lookup_block bm1 id = Some (mkEntry data d now key) /\
  (forall k, key = Some k -> lookup_key py_hash bm1 k = Some id).
Proof.
  intros Hr HI Hst. destruct (decide (len data <= Config.MAX_BLOCK_SIZE)) as [Hle|Hgt].
  2:{ destruct (store_too_large py_hash r bm now data d key) as [msg Hx]; [lia|congruence]. }
  destruct (store_spec py_hash r bm now data d key Hr HI Hle)
    as (bm0 & vs & _ & Hev & _ & [(_ & bm' & Hst' & HI' & Hsd)|(_ & _ & msg & Hst')]);
    rewrite Hst in Hst'; simplify_eq.
  destruct (ev_shape _ _ _ _ Hev) as (_ & _ & Hn). split; [done|]. split.
  - rewrite (sd_blocks _ _ _ _ Hsd), <-Hn. by rewrite decide_True.
  - intros k ->. rewrite (sd_keys _ _ _ _ Hsd). rewrite decide_True by done. by rewrite Hn.
Qed.

Lemma ticking_run {A} (m : rng * Z -> M BlockManager A) g b r :
  m (env (mg_tick g)) (mg_blocks g) = (b, r) -> ticking m g = (Managed b (S (mg_tick g)), r).
Proof. intros H. unfold ticking. by rewrite H. Qed.

Lemma ticking_inv {A} (m : rng * Z -> M BlockManager A) g g' r :
  ticking m g = (g', r) ->
  exists b, m (env (mg_tick g)) (mg_blocks g) = (b, r) /\ g' = Managed b (S (mg_tick g)).
Proof.
  unfold ticking. destruct (m _ _) as [b r']. intros [= <- <-]. by exists b.
Qed.

Lemma load_outcome g id :
  managed_inv g -> outcome (ticking (fun e => Blocks.load e.2 id)) g = Ok (e_data <$> lookup_block (mg_blocks g) id).
Proof.
  intros HI. destruct (load_spec py_hash (mg_blocks g) (env (mg_tick g)).2 id HI) as (b & Hl & _).
  unfold outcome. by erewrite ticking_run by apply Hl.
Qed.

Context (env_ok : forall n, RngOk (env n).1).

#[global] Instance managed_laws : BlockStoreLaws managed managed_inv.
Proof.
  split; cbn [bs_store bs_load bs_load_by_key bs_free bs_free_by_key managed_store].
  - intros data d key g g' id HI H. apply ticking_inv in H as (b & H & ->).
    apply store_found in H as (HI' & Hblk & Hkey); [|apply env_ok|done]. split; [done|]. split.
    + rewrite load_outcome by done. cbn. by rewrite Hblk.
    + intros k Hk. specialize (Hkey k Hk). unfold outcome.
      destruct (load_spec py_hash b (env (S (mg_tick g))).2 id HI') as (b' & Hl & _). cbn.
      erewrite ticking_run by (cbn; rewrite load_by_key_spec, Hkey by done; apply Hl). by rewrite Hblk.
  - intros data d key g g' e HI H. apply ticking_inv in H as (b & H & ->).
    destruct (decide (len data <= Config.MAX_BLOCK_SIZE)) as [Hle|Hgt].
    + destruct (store_spec py_hash (env (mg_tick g)).1 (mg_blocks g) (env (mg_tick g)).2 data d key
        (env_ok _) HI Hle) as (bm0 & vs & HI0 & _ & _ & [(_ & bm' & Hst & _)|(_ & _ & msg & Hst)]);
        rewrite H in Hst; simplify_eq. split; [done|by right].
    + destruct (store_too_large py_hash (env (mg_tick g)).1 (mg_blocks g) (env (mg_tick g)).2 data d key)
        as [msg Hx]; [lia|]. rewrite H in Hx. simplify_eq. split; [done|by left].
  - intros id g HI. destruct (load_spec py_hash (mg_blocks g) (env (mg_tick g)).2 id HI) as (b & Hl & HI' & _).
    eexists _, _. split; [by apply ticking_run, Hl|done].
  - intros id id' g g' o HI H. apply ticking_inv in H as (b & H & ->).
    destruct (load_spec py_hash (mg_blocks g) (env (mg_tick g)).2 id HI) as (b' & Hl & HI' & _ & _ & Hb & _).
    rewrite H in Hl. injection Hl as <- _. rewrite !load_outcome by done. cbn. rewrite Hb. case_decide; [|done].
    subst. by destruct (lookup_block _ _).
  - intros k g HI. destruct (lookup_key py_hash (mg_blocks g) k) as [id|] eqn:Hk.
    + destruct (load_spec py_hash (mg_blocks g) (env (mg_tick g)).2 id HI) as (b & Hl & HI' & _).
      eexists _, _. split; [apply ticking_run; cbn; rewrite load_by_key_spec, Hk by done; apply Hl|done].
    + eexists _, _. split; [apply ticking_run; cbn; rewrite load_by_key_spec, Hk by done; done|done].
  - intros id g HI. destruct (free_Inv py_hash (mg_blocks g) id HI) as (b & Hf & HI' & _ & _ & Hb & _).
    eexists _, _. split; [by apply ticking_run, Hf|]. split; [done|]. rewrite !load_outcome by done. cbn.
    rewrite Hb, decide_True by done. split; [done|]. destruct (lookup_block _ id); [right|by left].
    by apply bool_decide_eq_true.
  - intros k g HI. destruct (lookup_key py_hash (mg_blocks g) k) as [id|] eqn:Hk.
    + destruct (free_Inv py_hash (mg_blocks g) id HI) as (b & Hf & HI' & _).
      eexists _, _. split; [apply ticking_run; cbn; rewrite free_by_key_spec, Hk by done; apply Hf|done].
    + eexists _, _. split; [apply ticking_run; cbn; rewrite free_by_key_spec, Hk by done; done|done].
Qed.
End managed.
