(* ===== verification/Replication.v ===== *)
(** * Replication between nodes ([memnode/replication.py])

    Serving block requests of peers, chunked transfers and their reassembly,
    and the requests this node makes.  The block store is any instance of the
    [BlockStore] interface; the peer manager is the set of connected peers and
    the messages queued for them.  A handler is cut only where it waits for a
    reply: [handle_message] runs to its end, since [send_to] and the block
    store never suspend it with state half changed.

    Request ids are what the peer put in the message: any value, compared as a
    whole; a list or dictionary cannot be a dictionary key and raises. *)
From S2P Require Import Prelude Config PyVal Protocol Blocks StoreInterface.

(** ** Payload fields *)

Fixpoint extract_payload (body : pyval) (keys : list string) : result (option bytes) :=
  match keys with
  | [] => Ok None
  | key :: keys =>
      let? value := vget key body in
      match value with
      | VBytes b => Ok (Some b)
      | _ =>
          let? hex_value := vget (key +:+ "_hex") body in
          match hex_value with
          | VStr s =>
              match bytes_fromhex s with
              | Ok b => Ok (Some b)
              | Err _ => Ok None
              end
          | _ => extract_payload body keys
          end
      end
  end.

(** [Durability(v)] *)
Definition Durability_of (v : pyval) : result Durability :=
  match v with
  | VStr s =>
      if decide (s = Durability_value PINNED) then Ok PINNED
      else if decide (s = Durability_value CACHE) then Ok CACHE
      else Err (lib_exn ValueError)
  | _ => Err (lib_exn ValueError)
  end.

(** Values that cannot be dictionary keys, and values with no [[:8]]. *)
Definition hashable (v : pyval) : bool :=
  match v with VList _ | VDict _ => false | _ => true end.

Definition sliceable (v : pyval) : bool :=
  match v with VStr _ | VBytes _ | VList _ => true | _ => false end.

(** [n > v] *)
Definition int_gt (n : Z) (v : pyval) : result bool :=
  match as_num v with
  | Some a => Ok (match num_compare a (n, 0) with Lt => true | _ => false end)
  | None => Err (lib_exn TypeError)
  end.

(** ** State *)

Inductive buffer_mode := StoreMode | PullMode.

#[global] Instance buffer_mode_eq_dec : EqDecision buffer_mode.
Proof. solve_decision. Defined.

(** [_ChunkBuffer]; [cb_future] names the future of a pull. *)
Record ChunkBuffer := Buf {
  cb_mode : buffer_mode;
  cb_total_size : pyval;
  cb_parts : list bytes;
  cb_received : Z;
  cb_durability : pyval;
  cb_key : pyval;
  cb_future : option nat;
  cb_started_at : Z;
  cb_peer : string
}.

(** A future: waiting, resolved (a reply, or the bytes of a pull) or failed.
    A wait that times out cancels its future, which nothing refers to after the
    clean-up that follows. *)
Inductive fut :=
  | FWaiting
  | FReply (m : Message)
  | FBytes (b : bytes)
  | FFailed (e : exn).

Record Replicator (B : Type) := Rep {
  rc_blocks : B;
  rc_connected : gset string;
  rc_out : list (string * Message * option Z);
  rc_chunk_size : Z;
  rc_chunk_threshold : Z;
  rc_pending : list (pyval * nat);
  rc_buffers : list (pyval * ChunkBuffer);
  rc_pull_futures : list (pyval * nat);
  rc_futures : gmap nat fut;
  rc_next_future : nat;
  rc_next_stream : Z
}.
Arguments Rep {B}.
Arguments rc_blocks {B}.
Arguments rc_connected {B}.
Arguments rc_out {B}.
Arguments rc_chunk_size {B}.
Arguments rc_chunk_threshold {B}.
Arguments rc_pending {B}.
Arguments rc_buffers {B}.
Arguments rc_pull_futures {B}.
Arguments rc_futures {B}.
Arguments rc_next_future {B}.
Arguments rc_next_stream {B}.

(** A coordinator over a block store and its connected peers. *)
Definition ReplicationCoordinator_init {B} (blocks : B) (connected : gset string)
    (chunk_size chunk_threshold : Z) : Replicator B :=
  Rep blocks connected [] chunk_size chunk_threshold [] [] [] ∅ 0 1.

Section updates.
Context {B : Type}.
Implicit Types (r : Replicator B).

Definition with_blocks (b : B) r := Rep b (rc_connected r) (rc_out r) (rc_chunk_size r)
  (rc_chunk_threshold r) (rc_pending r) (rc_buffers r) (rc_pull_futures r) (rc_futures r)
  (rc_next_future r) (rc_next_stream r).
Definition with_out o r := Rep (rc_blocks r) (rc_connected r) o (rc_chunk_size r)
  (rc_chunk_threshold r) (rc_pending r) (rc_buffers r) (rc_pull_futures r) (rc_futures r)
  (rc_next_future r) (rc_next_stream r).
Definition with_pending p r := Rep (rc_blocks r) (rc_connected r) (rc_out r) (rc_chunk_size r)
  (rc_chunk_threshold r) p (rc_buffers r) (rc_pull_futures r) (rc_futures r)
  (rc_next_future r) (rc_next_stream r).
Definition with_buffers b r := Rep (rc_blocks r) (rc_connected r) (rc_out r) (rc_chunk_size r)
  (rc_chunk_threshold r) (rc_pending r) b (rc_pull_futures r) (rc_futures r)
  (rc_next_future r) (rc_next_stream r).
Definition with_pulls p r := Rep (rc_blocks r) (rc_connected r) (rc_out r) (rc_chunk_size r)
  (rc_chunk_threshold r) (rc_pending r) (rc_buffers r) p (rc_futures r)
  (rc_next_future r) (rc_next_stream r).
Definition with_futures f n r := Rep (rc_blocks r) (rc_connected r) (rc_out r) (rc_chunk_size r)
  (rc_chunk_threshold r) (rc_pending r) (rc_buffers r) (rc_pull_futures r) f
  n (rc_next_stream r).
Definition with_next_stream n r := Rep (rc_blocks r) (rc_connected r) (rc_out r) (rc_chunk_size r)
  (rc_chunk_threshold r) (rc_pending r) (rc_buffers r) (rc_pull_futures r) (rc_futures r)
  (rc_next_future r) n.
End updates.

Section replication.
Context {B : Type} `{BlockStore B} (py_str : pyval -> string) (other_key : pyval -> string).

Abbreviation rep := (Replicator B).
Abbreviation MR := (M (Replicator B)).

Definition _next_stream : MR Z := fun r =>
  (with_next_stream (rc_next_stream r + 1) r, Ok (rc_next_stream r)).

(** [peer_manager.send_to] *)
Definition send_to (peer : string) (m : Message) (sid : option Z) : MR bool := fun r =>
  if bool_decide (peer ∈ rc_connected r)
  then (with_out (rc_out r ++ [(peer, m, sid)]) r, Ok true)
  else (r, Ok false).

Definition on_blocks {A} (m : M B A) : MR A := fun r =>
  let '(b, res) := m (rc_blocks r) in (with_blocks b r, res).

(** [create_future()] *)
Definition new_future : MR nat := fun r =>
  (with_futures (<[rc_next_future r := FWaiting]> (rc_futures r)) (S (rc_next_future r)) r,
   Ok (rc_next_future r)).

(** [if not fut.done(): fut.set_result / set_exception] *)
Definition settle (f : nat) (v : fut) : MR unit := mmodify (fun r =>
  match rc_futures r !! f with
  | Some FWaiting => with_futures (<[f := v]> (rc_futures r)) (rc_next_future r) r
  | _ => r
  end).

Definition settle_opt (f : option nat) (v : fut) : MR unit :=
  match f with Some f => settle f v | None => mret tt end.

Definition require_hashable (v : pyval) : MR unit :=
  if hashable v then mret tt else mraise (lib_exn TypeError).

(** [rid[:8]], evaluated for a log line. *)
Definition require_sliceable (v : pyval) : MR unit :=
  if sliceable v then mret tt else mraise (lib_exn TypeError).

(** ** The block store called with values from a message *)

(** A key from a message: [None], a string, or another value, which the index
    also takes when it can be hashed. *)
Definition key_arg (v : pyval) : option string :=
  match v with
  | VNone => None
  | VStr s => Some s
  | _ => Some (other_key v)
  end.

(** [block_manager.store]: a key that cannot be hashed raises after the block
    is in its stripe. *)
Definition store_value (data : bytes) (d : Durability) (key : pyval) : MR Z :=
  if hashable key then on_blocks (bs_store data d (key_arg key))
  else on_blocks (bs_store data d None);;; mraise (lib_exn TypeError).

(** [block_manager.load] and [free]: only an integer selects a stripe. *)
Definition load_value (block_id : pyval) : MR (option bytes) :=
  match as_int block_id with
  | Some id => on_blocks (bs_load id)
  | None => mraise (lib_exn TypeError)
  end.

Definition load_key_value (key : pyval) : MR (option bytes) :=
  if hashable key then
    match key_arg key with
    | Some k => on_blocks (bs_load_by_key k)
    | None => mret None                 (* no block is bound to [None] *)
    end
  else mraise (lib_exn TypeError).

Definition free_value (block_id : pyval) : MR bool :=
  match as_int block_id with
  | Some id => on_blocks (bs_free id)
  | None => mraise (lib_exn TypeError)
  end.

(** ** Chunk plumbing *)

Definition stale_buffers (now : Z) (bufs : list (pyval * ChunkBuffer)) : list (pyval * ChunkBuffer) :=
  filter (fun kb => Config.INBOUND_STREAM_TIMEOUT < now - cb_started_at kb.2) bufs.

Fixpoint drop_stale (stale : list (pyval * ChunkBuffer)) : MR unit :=
  match stale with
  | [] => mret tt
  | (rid, buf) :: stale =>
      mmodify (fun r => with_buffers (ddel rid (rc_buffers r)) r);;;
      require_sliceable rid;;;
      settle_opt (cb_future buf) (FFailed (Exn RemoteOperationFailed "transfer stalled"));;;
      drop_stale stale
  end.

Definition _gc_buffers (now : Z) : MR unit :=
  r <- mget;; drop_stale (stale_buffers now (rc_buffers r)).

Definition _open_pull_buffer (now : Z) (peer : string) (rid total_size : pyval) : MR unit :=
  _gc_buffers now;;;
  f <- new_future;;
  mmodify (fun r => with_buffers
    (dset rid (Buf PullMode total_size [] 0 VNone VNone (Some f) now peer) (rc_buffers r)) r);;;
  mmodify (fun r => with_pulls (dset rid f (rc_pull_futures r)) r).

Definition _abort_buffer (rid reason : pyval) : MR unit :=
  if is_none rid then mret tt
  else
    require_hashable rid;;;
    r <- mget;;
    match dget rid (rc_buffers r) with
    | None => mret tt
    | Some buf =>
        mmodify (fun r => with_buffers (ddel rid (rc_buffers r)) r);;;
        require_sliceable rid;;;
        settle_opt (cb_future buf) (FFailed (Exn RemoteOperationFailed (py_str reason)))
    end.

(** [buf.add(chunk)] *)
Definition cb_add (chunk : bytes) (b : ChunkBuffer) : ChunkBuffer :=
  Buf (cb_mode b) (cb_total_size b) (cb_parts b ++ [chunk]) (cb_received b + len chunk)
    (cb_durability b) (cb_key b) (cb_future b) (cb_started_at b) (cb_peer b).

Definition overrun (b : ChunkBuffer) : result bool := int_gt (cb_received b) (cb_total_size b).

Definition assemble (b : ChunkBuffer) : bytes := concat (cb_parts b).

Definition reply (peer : string) (t : MsgType) (body : pydict) : MR unit :=
  send_to peer (Msg t (VDict body)) None;;; mret tt.

(** The commit of a completed push. *)
Definition commit_store (peer : string) (rid : pyval) (buf : ChunkBuffer) (data : bytes) : MR unit :=
  d <- mlift (Durability_of (cb_durability buf));;
  mtry
    (block_id <- store_value data d (cb_key buf);;
     reply peer BLOCK_DATA [("req_id", rid); ("block_id", VInt block_id)])
    (fun e =>
       if decide (exn_cls e = BlockTooLarge \/ exn_cls e = OutOfMemory)
       then Some (reply peer NACK [("req_id", rid); ("error", VStr (exn_msg e))])
       else None).

Definition _handle_chunk (peer : string) (m : Message) : MR unit :=
  rid <- mlift (vget "req_id" (msg_body m));;
  r <- mget;;
  (if truthy rid then require_hashable rid else mret tt);;;
  match (if truthy rid then dget rid (rc_buffers r) else None) with
  | None => mret tt
  | Some buf =>
      chunk <- mlift (extract_payload (msg_body m) ["chunk"]);;
      match chunk with
      | None => _abort_buffer rid (VStr "malformed chunk")
      | Some chunk =>
          let buf := cb_add chunk buf in
          mmodify (fun r => with_buffers (dset rid buf (rc_buffers r)) r);;;
          over <- mlift (overrun buf);;
          if over : bool then
            mmodify (fun r => with_buffers (ddel rid (rc_buffers r)) r);;;
            require_sliceable rid;;;
            match cb_mode buf with
            | StoreMode => reply peer NACK [("req_id", rid); ("error", VStr "chunk overrun")]
            | PullMode => settle_opt (cb_future buf)
                (FFailed (Exn RemoteOperationFailed "peer overran declared size"))
            end
          else
            final <- mlift (vget "final" (msg_body m));;
            if negb (truthy final) then mret tt
            else
              mmodify (fun r => with_buffers (ddel rid (rc_buffers r)) r);;;
              let data := assemble buf in
              match cb_mode buf with
              | PullMode => settle_opt (cb_future buf) (FBytes data)
              | StoreMode => commit_store peer rid buf data
              end
      end
  end.

(** The messages of a chunked payload; [seq] numbers them. *)
Definition chunk_message (rid : pyval) (sid seq : Z) (piece : bytes) (final : bool) : Message :=
  Msg BLOCK_CHUNK (VDict [("req_id", rid); ("stream_id", VInt sid); ("seq", VInt seq);
                          ("chunk", VBytes piece); ("final", VBool final)]).

(** [for offset in range(0, total, chunk_size)]: [offset] bytes are out. *)
Fixpoint send_pieces (peer : string) (rid : pyval) (sid total seq offset : Z)
    (ps : list bytes) : MR unit :=
  match ps with
  | [] => mret tt
  | piece :: ps =>
      let final := total <=? offset + len piece in
      ok <- send_to peer (chunk_message rid sid seq piece final) (Some sid);;
      if ok : bool then send_pieces peer rid sid total (seq + 1) (offset + len piece) ps
      else mraise (Exn RemoteOperationFailed
             ("peer " +:+ String.substring 0 8 peer +:+ " disconnected mid-transfer"))
  end.

(** A chunk size below one is not a step [range] can take. *)
Definition _send_chunks (peer : string) (rid : pyval) (sid : Z) (data : bytes) : MR unit := fun r =>
  if rc_chunk_size r =? 0 then (r, Err (lib_exn ValueError))
  else if rc_chunk_size r <? 0 then (r, Ok tt)
  else send_pieces peer rid sid (len data) 0 0 (pieces (Z.to_nat (rc_chunk_size r)) data) r.

(** ** Serving a peer's requests *)

(** [Durability.CACHE.value] unless the message says otherwise. *)
Definition durability_field (body : pyval) : result pyval :=
  vget_default "durability" (VStr (Durability_value CACHE)) body.

Definition acceptable_size (v : pyval) : bool :=
  match as_int v with
  | Some n => negb (n <=? 0) && negb (Config.MAX_BLOCK_SIZE <? n)
  | None => false
  end.

Definition serve_store_chunked (now : Z) (peer : string) (rid body : pyval) : MR unit :=
  total_size <- mlift (vget_default "total_size" (VInt 0) body);;
  if negb (acceptable_size total_size) then
    reply peer NACK [("req_id", rid);
      ("error", VStr ("declared transfer size " +:+ py_str total_size +:+ " is not acceptable"))]
  else
    _gc_buffers now;;;
    r <- mget;;
    if Config.MAX_INBOUND_STREAMS <=? len (rc_buffers r) then
      reply peer NACK [("req_id", rid); ("error", VStr "too many concurrent transfers")]
    else
      durability <- mlift (durability_field body);;
      key <- mlift (vget "key" body);;
      require_hashable rid;;;
      mmodify (fun r => with_buffers
        (dset rid (Buf StoreMode total_size [] 0 durability key None now peer) (rc_buffers r)) r).

Definition serve_store_whole (peer : string) (rid body : pyval) : MR unit :=
  mtry
    (data <- mlift (extract_payload body ["data"]);;
     match data with
     | None => mraise (Exn ValueError "missing payload")
     | Some data =>
         dv <- mlift (durability_field body);;
         d <- mlift (Durability_of dv);;
         key <- mlift (vget "key" body);;
         block_id <- store_value data d key;;
         reply peer BLOCK_DATA [("req_id", rid); ("block_id", VInt block_id)]
     end)
    (fun e =>
       if decide (exn_cls e = BlockTooLarge \/ exn_cls e = OutOfMemory)
       then Some (reply peer NACK [("req_id", rid); ("error", VStr (exn_msg e))])
       else Some (reply peer NACK [("req_id", rid); ("error", VStr ("bad request: " +:+ exn_msg e))])).

Definition _serve_store_block (now : Z) (peer : string) (m : Message) : MR unit :=
  rid <- mlift (vget "req_id" (msg_body m));;
  chunked <- mlift (vget "chunked" (msg_body m));;
  if truthy chunked then serve_store_chunked now peer rid (msg_body m)
  else serve_store_whole peer rid (msg_body m).

(** [except Exception: data = None] *)
Definition or_none {A} (m : MR (option A)) : MR (option A) := mtry m (fun _ => Some (mret None)).

Definition _serve_request_block (peer : string) (m : Message) : MR unit :=
  rid <- mlift (vget "req_id" (msg_body m));;
  block_id <- mlift (vget "block_id" (msg_body m));;
  key <- mlift (vget "key" (msg_body m));;
  data <- or_none (if is_none block_id then load_key_value key else load_value block_id);;
  match data with
  | None => reply peer BLOCK_NOT_FOUND [("req_id", rid)]
  | Some data =>
      r <- mget;;
      if len data <=? rc_chunk_threshold r then
        reply peer BLOCK_DATA [("req_id", rid); ("data", VBytes data)]
      else
        sid <- _next_stream;;
        ok <- send_to peer (Msg BLOCK_DATA (VDict [("req_id", rid); ("chunked", VBool true);
                ("total_size", VInt (len data)); ("stream_id", VInt sid)])) (Some sid);;
        if negb ok then mret tt
        else
          mtry (_send_chunks peer rid sid data)
            (fun e => if decide (exn_cls e = RemoteOperationFailed) then Some (mret tt) else None)
  end.

Definition _serve_free_block (peer : string) (m : Message) : MR unit :=
  rid <- mlift (vget "req_id" (msg_body m));;
  block_id <- mlift (vget "block_id" (msg_body m));;
  freed <- mtry (free_value block_id) (fun _ => Some (mret false));;
  reply peer FREED [("req_id", rid); ("freed", VBool freed)].

(** [fut = self._pending.pop(req_id); if not fut.done(): fut.set_result(msg)] *)
Definition resolve_pending (rid : pyval) (m : Message) : MR unit :=
  r <- mget;;
  match dget rid (rc_pending r) with
  | None => mraise (lib_exn KeyError)
  | Some f =>
      mmodify (fun r => with_pending (ddel rid (rc_pending r)) r);;;
      settle f (FReply m)
  end.

Definition handle_message (now : Z) (peer : string) (m : Message) : MR unit :=
  rid <- mlift (vget "req_id" (msg_body m));;
  match msg_type m with
  | BLOCK_CHUNK => _handle_chunk peer m
  | STREAM_ABORT =>
      reason <- mlift (vget_default "error" (VStr "peer aborted the transfer") (msg_body m));;
      _abort_buffer rid reason
  | t =>
      (if is_none rid then mret tt else require_hashable rid);;;
      r <- mget;;
      if negb (is_none rid) && dmem rid (rc_pending r) then
        (if decide (t = BLOCK_DATA) then
           chunked <- mlift (vget "chunked" (msg_body m));;
           if truthy chunked then
             total_size <- mlift (vget_default "total_size" (VInt 0) (msg_body m));;
             _open_pull_buffer now peer rid total_size
           else mret tt
         else mret tt);;;
        resolve_pending rid m
      else
        match t with
        | STORE_BLOCK => _serve_store_block now peer m
        | REQUEST_BLOCK => _serve_request_block peer m
        | FREE_BLOCK => _serve_free_block peer m
        | PING => reply peer PONG [("req_id", rid)]
        | _ => mret tt                    (* a stale reply, or not for us *)
        end
  end.

(** ** Requests to a peer

    [rid] is the fresh [uuid4().hex].  Each request is the part up to its wait
    for the reply, and the part that runs when the wait ends: with the future's
    state, [None] standing for the timeout. *)

Definition _register_pending (rid : pyval) : MR nat :=
  f <- new_future;;
  mmodify (fun r => with_pending (dset rid f (rc_pending r)) r);;;
  mret f.

Definition pop_pending (rid : pyval) (r : Replicator B) : Replicator B :=
  with_pending (ddel rid (rc_pending r)) r.

(** [try ... finally: self._pending.pop(req_id, None)] around the first part:
    its exceptions end the request. *)
Definition or_cleanup {A} (cleanup : Replicator B -> Replicator B) (m : MR A) : MR A := fun r =>
  match m r with
  | (r', Ok a) => (r', Ok a)
  | (r', Err e) => (cleanup r', Err e)
  end.

Definition not_connected (peer : string) : exn :=
  Exn RemoteOperationFailed ("peer " +:+ String.substring 0 8 peer +:+ " is not connected").

Definition timed_out (timeout : string) : exn :=
  Exn RemoteOperationFailed ("peer did not respond within " +:+ timeout +:+ "s").

Definition store_remote_begin (peer rid : string) (data : bytes) (d : Durability)
    (key : pyval) : MR nat :=
  r <- mget;;
  let chunked := rc_chunk_threshold r <? len data in
  sid <- (if chunked then _next_stream else mret Config.CONTROL_STREAM_ID);;
  let body :=
    [("req_id", VStr rid); ("durability", VStr (Durability_value d))]
    ++ (if is_none key then [] else [("key", key)])
    ++ (if chunked then [("chunked", VBool true); ("total_size", VInt (len data)); ("stream_id", VInt sid)]
        else [("data", VBytes data)]) in
  f <- _register_pending (VStr rid);;
  or_cleanup (pop_pending (VStr rid))
    (ok <- send_to peer (Msg STORE_BLOCK (VDict body)) (Some sid);;
     if negb ok then mraise (not_connected peer)
     else if chunked then _send_chunks peer (VStr rid) sid data else mret tt);;;
  mret f.

Definition store_remote_end (rid timeout : string) (f : option fut) : MR pyval :=
  mmodify (pop_pending (VStr rid));;;
  match f with
  | Some (FReply m) =>
      if decide (msg_type m = NACK) then
        err <- mlift (vget_default "error" (VStr "remote store failed") (msg_body m));;
        mraise (Exn OutOfMemory (py_str err))
      else mlift (vindex "block_id" (msg_body m))
  | Some (FFailed e) => mraise e
  | _ => mraise (timed_out timeout)
  end.

Definition load_remote_begin (peer rid : string) (block_id key : pyval) : MR nat :=
  let body := [("req_id", VStr rid)]
    ++ (if is_none block_id then [] else [("block_id", block_id)])
    ++ (if is_none key then [] else [("key", key)]) in
  f <- _register_pending (VStr rid);;
  or_cleanup (fun r => with_pulls (ddel (VStr rid) (rc_pull_futures r))
                (with_buffers (ddel (VStr rid) (rc_buffers r)) (pop_pending (VStr rid) r)))
    (ok <- send_to peer (Msg REQUEST_BLOCK (VDict body)) None;;
     if negb ok then mraise (not_connected peer) else mret tt);;;
  mret f.

(** The reply of a load: the answer, or the future of the pull to wait for. *)
Inductive load_reply := LDone (data : option bytes) | LPull (collector : nat).

Definition load_remote_reply (rid timeout : string) (f : option fut) : MR load_reply :=
  match f with
  | Some (FReply m) =>
      if decide (msg_type m = BLOCK_NOT_FOUND) then mret (LDone None)
      else if decide (msg_type m = NACK) then
        err <- mlift (vget_default "error" (VStr "remote load failed") (msg_body m));;
        mraise (Exn RemoteOperationFailed (py_str err))
      else
        chunked <- mlift (vget "chunked" (msg_body m));;
        if truthy chunked then
          r <- mget;;
          match dget (VStr rid) (rc_pull_futures r) with
          | None => mraise (Exn RemoteOperationFailed "chunked reply arrived without a collector")
          | Some c => mret (LPull c)
          end
        else
          data <- mlift (extract_payload (msg_body m) ["data"]);;
          match data with
          | None => mraise (Exn RemoteOperationFailed "reply carried no payload")
          | Some d => mret (LDone (Some d))
          end
  | Some (FFailed e) => mraise e
  | _ => mraise (timed_out timeout)
  end.

Definition load_remote_pull (timeout : string) (f : option fut) : result bytes :=
  match f with
  | Some (FBytes b) => Ok b
  | Some (FFailed e) => Err e
  | _ => Err (Exn RemoteOperationFailed ("chunked transfer did not complete within " +:+ timeout +:+ "s"))
  end.

(** The [finally] of [load_remote]. *)
Definition load_remote_cleanup (rid : string) (r : Replicator B) : Replicator B :=
  with_pulls (ddel (VStr rid) (rc_pull_futures r))
    (with_buffers (ddel (VStr rid) (rc_buffers r)) (pop_pending (VStr rid) r)).

(** The fan-out by key over the peers connected now: [answers] is what
    [load_remote] gave for each peer in turn. *)
Fixpoint first_hit (answers : list (result (option bytes))) : result (option bytes) :=
  match answers with
  | [] => Ok None
  | Ok (Some data) :: _ => Ok (Some data)
  | Ok None :: answers => first_hit answers
  | Err e :: answers =>
      if decide (exn_cls e = RemoteOperationFailed) then first_hit answers else Err e
  end.

Definition free_remote_begin (peer rid : string) (block_id : pyval) : MR nat :=
  f <- _register_pending (VStr rid);;
  ok <- send_to peer (Msg FREE_BLOCK (VDict [("req_id", VStr rid); ("block_id", block_id)])) None;;
  if negb ok then mmodify (pop_pending (VStr rid));;; mraise (not_connected peer)
  else mret f.

Definition free_remote_end (rid timeout : string) (f : option fut) : MR bool :=
  mmodify (pop_pending (VStr rid));;;
  match f with
  | Some (FReply m) =>
      v <- mlift (vget_default "freed" (VBool false) (msg_body m));; mret (truthy v)
  | Some (FFailed e) => mraise e
  | _ => mraise (timed_out timeout)
  end.

Definition stats (r : Replicator B) : list (string * Z) :=
  [("pending_requests", len (rc_pending r)); ("active_transfers", len (rc_buffers r));
   ("pending_pulls", len (rc_pull_futures r)); ("chunk_size", rc_chunk_size r);
   ("chunk_threshold", rc_chunk_threshold r)].
End replication.
