(* ===== verification/ReplicationFacts.v ===== *)
(** * Facts about replication: one step of each kind *)
From S2P Require Import Prelude Config PyVal Protocol Blocks StoreInterface Replication.

(** Handling a list of messages one after the other; the multiplexer goes on
    after a handler that raised. *)
Section facts.
Context {B : Type} `{!BlockStore B} (py_str : pyval -> string) (other_key : pyval -> string).

Abbreviation MR := (M (Replicator B)).

Definition handle_all (now : Z) (peer : string) (ms : list Message) (r : Replicator B) : Replicator B :=
  foldl (fun r m => state_after (handle_message py_str other_key now peer m) r) r ms.

Lemma handle_all_nil now peer r : handle_all now peer [] r = r.
Proof. done. Qed.

Lemma handle_all_cons now peer m ms r :
  handle_all now peer (m :: ms) r
    = handle_all now peer ms (state_after (handle_message py_str other_key now peer m) r).
Proof. done. Qed.

(** Compute the fields of an updated replicator, and nothing else. *)
Ltac rsimpl := cbn [with_blocks with_out with_pending with_buffers with_pulls with_futures
  with_next_stream rc_blocks rc_connected rc_out rc_chunk_size rc_chunk_threshold rc_pending
  rc_buffers rc_pull_futures rc_futures rc_next_future rc_next_stream fst snd].

(** ** Sending *)

(** The messages [send_pieces] queues. *)
Fixpoint piece_messages (rid : pyval) (sid total seq offset : Z) (ps : list bytes) : list Message :=
  match ps with
  | [] => []
  | piece :: ps =>
      chunk_message rid sid seq piece (total <=? offset + len piece)
      :: piece_messages rid sid total (seq + 1) (offset + len piece) ps
  end.

Lemma send_to_ok peer m sid (r : Replicator B) :
  peer ∈ rc_connected r -> send_to peer m sid r = (with_out (rc_out r ++ [(peer, m, sid)]) r, Ok true).
Proof. intros Hp. unfold send_to. by rewrite bool_decide_eq_true_2. Qed.

Lemma with_out_out o o' (r : Replicator B) : with_out o (with_out o' r) = with_out o r.
Proof. done. Qed.

Lemma send_pieces_ok peer rid sid total ps seq offset (r : Replicator B) :
  peer ∈ rc_connected r ->
  send_pieces peer rid sid total seq offset ps r
    = (with_out (rc_out r ++ ((fun m => (peer, m, Some sid)) <$> piece_messages rid sid total seq offset ps)) r,
       Ok tt).
Proof.
  revert seq offset r. induction ps as [|p ps IH]; intros seq offset r Hp; cbn [send_pieces piece_messages].
  { cbn. rewrite app_nil_r. by destruct r. }
  rewrite (bind_ok _ _ _ _ _ (send_to_ok _ _ _ _ Hp)). rewrite IH by done. rsimpl.
  rewrite with_out_out. by rewrite <-(assoc_L app).
Qed.

(** ** Futures *)

Lemma settle_waiting f v (r : Replicator B) :
  rc_futures r !! f = Some FWaiting ->
  settle f v r = (with_futures (<[f := v]> (rc_futures r)) (rc_next_future r) r, Ok tt).
Proof. intros Hf. unfold settle, mmodify. by rewrite Hf. Qed.

(** ** Chunks *)

Lemma num_compare_int a b : num_compare (a, 0) (b, 0) = Z.compare a b.
Proof. unfold num_compare. cbn. by rewrite !Z.mul_1_r. Qed.

Lemma int_gt_int n z : int_gt n (VInt z) = Ok (z <? n).
Proof. unfold int_gt. cbn [as_num]. rewrite num_compare_int. unfold Z.ltb. by destruct (z ?= n). Qed.

Lemma chunk_fields rid sid seq piece final :
  let body := msg_body (chunk_message rid sid seq piece final) in
  vget "req_id" body = Ok rid /\ extract_payload body ["chunk"] = Ok (Some piece) /\
  vget "final" body = Ok (VBool final).
Proof. done. Qed.

Lemma handle_message_chunk now peer rid sid seq piece final (r : Replicator B) :
  handle_message py_str other_key now peer (chunk_message rid sid seq piece final) r
    = _handle_chunk py_str other_key peer (chunk_message rid sid seq piece final) r.
Proof. done. Qed.

(** A chunk that fits: kept, or the transfer completed. *)
Lemma handle_chunk_fits peer rid sid seq piece final buf n (r : Replicator B) :
  truthy rid = true -> hashable rid = true -> dget rid (rc_buffers r) = Some buf ->
  cb_total_size buf = VInt n -> cb_received buf + len piece <= n ->
  _handle_chunk py_str other_key peer (chunk_message rid sid seq piece final) r =
    if final then
      (match cb_mode buf with
       | PullMode => settle_opt (cb_future buf) (FBytes (assemble (cb_add piece buf)))
       | StoreMode => commit_store other_key peer rid (cb_add piece buf) (assemble (cb_add piece buf))
       end) (with_buffers (ddel rid (rc_buffers r)) r)
    else (with_buffers (dset rid (cb_add piece buf) (rc_buffers r)) r, Ok tt).
Proof.
  intros Ht Hh Hb Hn Hle. destruct (chunk_fields rid sid seq piece final) as (F1 & F2 & F3).
  unfold _handle_chunk. rewrite F1. mrun. rewrite Ht. unfold require_hashable. rewrite Hh. mrun.
  rewrite Hb, F2. mrun. cbv zeta. unfold overrun. cbn [cb_add cb_total_size cb_received].
  rewrite Hn, int_gt_int. rewrite (proj2 (Z.ltb_ge _ _)) by lia. mrun. rewrite F3. mrun.
  destruct final; cbn [truthy negb]; [|done]. mrun. cbn [cb_add cb_mode cb_future].
  unfold with_buffers at 2. rsimpl. rewrite ddel_dset. by destruct (cb_mode buf).
Qed.

Definition add_all (ps : list bytes) (b : ChunkBuffer) : ChunkBuffer := foldl (fun b p => cb_add p b) b ps.

Lemma add_all_fields ps b :
  cb_mode (add_all ps b) = cb_mode b /\ cb_total_size (add_all ps b) = cb_total_size b /\
  cb_parts (add_all ps b) = cb_parts b ++ ps /\ cb_durability (add_all ps b) = cb_durability b /\
  cb_key (add_all ps b) = cb_key b /\ cb_future (add_all ps b) = cb_future b.
Proof.
  revert b. induction ps as [|p ps IH]; intros b; [by rewrite app_nil_r|].
  change (add_all (p :: ps) b) with (add_all ps (cb_add p b)).
  destruct (IH (cb_add p b)) as (-> & -> & -> & -> & -> & ->). cbn. by rewrite <-(assoc_L app).
Qed.

(** All the chunks of a payload, in order: only the last one is final, so the
    transfer completes exactly once, with the payload put together again. *)
Lemma handle_pieces now peer rid sid ps : forall seq offset buf n (r : Replicator B),
  truthy rid = true -> hashable rid = true -> dget rid (rc_buffers r) = Some buf ->
  cb_total_size buf = VInt n -> cb_received buf = offset -> ps <> [] ->
  Forall (fun p : bytes => p <> []) ps -> offset + len (concat ps) = n ->
  handle_all now peer (piece_messages rid sid n seq offset ps) r =
    state_after
      (match cb_mode buf with
       | PullMode => settle_opt (cb_future buf) (FBytes (concat (cb_parts buf) ++ concat ps))
       | StoreMode => commit_store other_key peer rid (add_all ps buf) (concat (cb_parts buf) ++ concat ps)
       end) (with_buffers (ddel rid (rc_buffers r)) r).
Proof.
  induction ps as [|p ps IH]; intros seq offset buf n r Ht Hh Hb Hn Hrec Hne Hall Hsum; [done|].
  apply Forall_cons in Hall as [Hp Hps]. cbn [concat] in *. rewrite len_app in Hsum.
  pose proof (len_nonneg (concat ps)). cbn [piece_messages]. rewrite handle_all_cons.
  unfold state_after at 1. rewrite handle_message_chunk.
  rewrite (handle_chunk_fits _ _ _ _ _ _ buf n) by (done || lia).
  destruct ps as [|p' ps].
  - cbn [concat] in *. rewrite len_nil in Hsum. rewrite (proj2 (Z.leb_le _ _)) by lia.
    cbn [piece_messages]. rewrite handle_all_nil. unfold assemble. cbn [cb_add cb_parts]. rewrite concat_app.
    cbn [concat]. rewrite !app_nil_r. done.
  - assert (0 < len (concat (p' :: ps))) as Hpos.
    { cbn [concat]. rewrite len_app. apply Forall_cons in Hps as [Hp' _]. destruct p'; [done|].
      rewrite len_cons. pose proof (len_nonneg p'). pose proof (len_nonneg (concat ps)). lia. }
    rewrite (proj2 (Z.leb_gt _ _)) by lia. cbn [fst].
    rewrite (IH _ _ (cb_add p buf) n);
      [|done|done|apply dget_dset_eq|done|cbn [cb_add cb_received]; lia|done|done|lia].
    cbn [cb_add cb_mode cb_future cb_parts]. rsimpl. rewrite ddel_dset, concat_app. cbn [concat].
    rewrite app_nil_r, <-!(assoc_L app). done.
Qed.
End facts.
