(* ===== verification/ReplicationSpec.v ===== *)
(** * What replication promises

    Storing on and loading from another node end to end, over whole and chunked
    transfers; the bounds of reassembly; and what the wire format lets a peer
    do. *)
From S2P Require Import Prelude Config PyVal Protocol Blocks BlocksFacts BlocksSpec StoreInterface.
From S2P Require Import Replication ReplicationFacts.

Ltac rsimpl := cbn [with_blocks with_out with_pending with_buffers with_pulls with_futures
  with_next_stream pop_pending rc_blocks rc_connected rc_out rc_chunk_size rc_chunk_threshold rc_pending
  rc_buffers rc_pull_futures rc_futures rc_next_future rc_next_stream fst snd].

Section spec.
Context {B : Type} `{!BlockStore B} (I : B -> Prop) `{!BlockStoreLaws B I}.
Context (py_str : pyval -> string) (other_key : pyval -> string).

Abbreviation handle := (handle_message py_str other_key).

(** ** Serving a store *)

Definition key_value (key : option string) : pyval :=
  match key with Some k => VStr k | None => VNone end.

(** The answer to a store request, from the outcome of the block store. *)
Definition store_reply (rid : pyval) (res : result Z) : Message :=
  match res with
  | Ok id => Msg BLOCK_DATA (VDict [("req_id", rid); ("block_id", VInt id)])
  | Err e => Msg NACK (VDict [("req_id", rid); ("error", VStr (exn_msg e))])
  end.

(** The replicator after a store was served: the block store moved, the answer
    is queued. *)
Definition served (peer : string) (rid : pyval) (data : bytes) (d : Durability) (key : option string)
    (r : Replicator B) : Replicator B :=
  let '(b, res) := bs_store data d key (rc_blocks r) in
  with_out (rc_out r ++ [(peer, store_reply rid res, None)]) (with_blocks b r).

Lemma store_value_key data d key (r : Replicator B) :
  store_value other_key data d (key_value key) r = on_blocks (bs_store data d key) r.
Proof. unfold store_value. by destruct key. Qed.

Lemma on_blocks_run {A} (m : M B A) (r : Replicator B) b res :
  m (rc_blocks r) = (b, res) -> on_blocks m r = (with_blocks b r, res).
Proof. intros H. unfold on_blocks. by rewrite H. Qed.

Lemma reply_run peer t body (r : Replicator B) :
  peer ∈ rc_connected r ->
  reply peer t body r = (with_out (rc_out r ++ [(peer, Msg t (VDict body), None)]) r, Ok tt).
Proof. intros Hp. unfold reply. by rewrite (bind_ok _ _ _ _ _ (send_to_ok _ _ _ _ Hp)). Qed.

Lemma commit_store_run peer rid buf data d key (r : Replicator B) :
  I (rc_blocks r) -> peer ∈ rc_connected r ->
  Durability_of (cb_durability buf) = Ok d -> cb_key buf = key_value key ->
  commit_store other_key peer rid buf data r = (served peer rid data d key r, Ok tt).
Proof.
  intros HI Hp Hd Hk. unfold commit_store, served. rewrite Hd, Hk. mrun. unfold mtry, mbind_m.
  rewrite store_value_key. destruct (bs_store data d key (rc_blocks r)) as [b res] eqn:Hs.
  rewrite (on_blocks_run _ _ _ _ Hs). destruct res as [id|e].
  - by rewrite reply_run.
  - destruct (bs_store_err _ _ _ _ _ _ HI Hs) as [_ He]. rewrite decide_True by done.
    by rewrite reply_run.
Qed.

Lemma serve_whole_run peer rid data d key body (r : Replicator B) :
  I (rc_blocks r) -> peer ∈ rc_connected r ->
  extract_payload body ["data"] = Ok (Some data) ->
  durability_field body = Ok (VStr (Durability_value d)) -> vget "key" body = Ok (key_value key) ->
  serve_store_whole other_key peer rid body r = (served peer rid data d key r, Ok tt).
Proof.
  intros HI Hp Hdata Hdur Hkey. unfold serve_store_whole, served. rewrite Hdata, Hdur, Hkey.
  unfold mtry. mrun.
  assert (Durability_of (VStr (Durability_value d)) = Ok d) as -> by by destruct d.
  mrun. unfold mbind_m. rewrite store_value_key.
  destruct (bs_store data d key (rc_blocks r)) as [b res] eqn:Hs.
  rewrite (on_blocks_run _ _ _ _ Hs). destruct res as [id|e].
  - by rewrite reply_run.
  - destruct (bs_store_err _ _ _ _ _ _ HI Hs) as [_ He]. rewrite decide_True by done.
    by rewrite reply_run.
Qed.

(** ** The sender's messages *)

Definition key_field (key : option string) : pydict :=
  match key with Some k => [("key", VStr k)] | None => [] end.

Definition store_body (rid : string) (d : Durability) (key : option string) (rest : pydict) : pyval :=
  VDict ([("req_id", VStr rid); ("durability", VStr (Durability_value d))] ++ key_field key ++ rest).

Definition store_messages (rid : string) (data : bytes) (d : Durability) (key : option string)
    (s : Replicator B) : list Message :=
  if rc_chunk_threshold s <? len data then
    Msg STORE_BLOCK (store_body rid d key [("chunked", VBool true); ("total_size", VInt (len data));
      ("stream_id", VInt (rc_next_stream s))])
    :: piece_messages (VStr rid) (rc_next_stream s) (len data) 0 0
         (pieces (Z.to_nat (rc_chunk_size s)) data)
  else [Msg STORE_BLOCK (store_body rid d key [("data", VBytes data)])].

(** The replicator while it waits for the reply to [rid]. *)
Definition awaiting (dst rid : string) (sid : option Z) (next : Z) (ms : list Message) (s : Replicator B) : Replicator B :=
  Rep (rc_blocks s) (rc_connected s) (rc_out s ++ ((fun m => (dst, m, sid)) <$> ms))
    (rc_chunk_size s) (rc_chunk_threshold s) (dset (VStr rid) (rc_next_future s) (rc_pending s))
    (rc_buffers s) (rc_pull_futures s) (<[rc_next_future s := FWaiting]> (rc_futures s))
    (S (rc_next_future s)) next.

Lemma store_remote_begin_run dst rid data d key (s : Replicator B) :
  dst ∈ rc_connected s -> 0 < rc_chunk_size s ->
  exists sid next, store_remote_begin dst rid data d (key_value key) s
    = (awaiting dst rid sid next (store_messages rid data d key s) s, Ok (rc_next_future s)).
Proof.
  intros Hc Hsz. unfold store_remote_begin, store_messages. rewrite bind_get.
  assert ((if is_none (key_value key) then [] else [("key", key_value key)]) = key_field key) as ->
    by by destruct key.
  destruct (rc_chunk_threshold s <? len data) eqn:Hth.
  - exists (Some (rc_next_stream s)), (rc_next_stream s + 1). unfold _next_stream at 1. unfold mbind_m at 1.
    unfold _register_pending, new_future. rewrite bind_assoc. unfold mbind_m at 1. rsimpl.
    rewrite bind_assoc. rewrite bind_modify. rewrite bind_ret. rsimpl.
    erewrite bind_ok; [reflexivity|]. unfold or_cleanup.
    erewrite bind_ok by (by apply send_to_ok). cbn [negb]. unfold _send_chunks. rsimpl.
    rewrite (proj2 (Z.eqb_neq _ _)) by lia. rewrite (proj2 (Z.ltb_ge _ _)) by lia.
    rewrite send_pieces_ok by done. rsimpl. unfold awaiting, with_out. rsimpl.
    rewrite <-(assoc_L app). done.
  - exists (Some Config.CONTROL_STREAM_ID), (rc_next_stream s). rewrite bind_ret.
    unfold _register_pending, new_future. rewrite bind_assoc. unfold mbind_m at 1. rsimpl.
    rewrite bind_assoc. rewrite bind_modify. rewrite bind_ret. rsimpl.
    erewrite bind_ok; [reflexivity|]. unfold or_cleanup.
    erewrite bind_ok by (by apply send_to_ok). cbn [negb]. done.
Qed.

(** ** The receiver *)

Lemma store_body_fields rid d key rest :
  vget "req_id" (store_body rid d key rest) = Ok (VStr rid) /\
  durability_field (store_body rid d key rest) = Ok (VStr (Durability_value d)) /\
  (dget "key" rest = None -> vget "key" (store_body rid d key rest) = Ok (key_value key)) /\
  (forall k, k <> "req_id" -> k <> "durability" -> k <> "key" ->
     vget k (store_body rid d key rest) = Ok (default VNone (dget k rest))).
Proof.
  split_and!; [done|done|by intros Hr; destruct key; cbn; rewrite ?Hr|].
  intros k H1 H2 H3. unfold store_body, vget. cbn [app dget].
  rewrite !decide_False by done. destruct key; cbn [key_field app dget]; [|done].
  by rewrite decide_False.
Qed.

(** A fresh request reaches the server for its type. *)
Lemma handle_store now peer rid d key rest (r : Replicator B) :
  dget (VStr rid) (rc_pending r) = None ->
  handle now peer (Msg STORE_BLOCK (store_body rid d key rest)) r
    = _serve_store_block py_str other_key now peer (Msg STORE_BLOCK (store_body rid d key rest)) r.
Proof.
  intros Hp. unfold handle_message. cbn [msg_body msg_type].
  rewrite (proj1 (store_body_fields rid d key rest)). mrun. cbn [is_none]. unfold require_hashable.
  cbn [hashable]. mrun. unfold dmem. rewrite Hp. done.
Qed.

Lemma gc_nothing now (r : Replicator B) :
  stale_buffers now (rc_buffers r) = [] -> _gc_buffers now r = (r, Ok tt).
Proof. intros Hs. unfold _gc_buffers. rewrite bind_get, Hs. done. Qed.

(** Room for another transfer under this id. *)
Record ready (now : Z) (peer : string) (rid : string) (r : Replicator B) : Prop := {
  rd_inv : I (rc_blocks r);
  rd_connected : peer ∈ rc_connected r;
  rd_pending : dget (VStr rid) (rc_pending r) = None;
  rd_buffers : dget (VStr rid) (rc_buffers r) = None;
  rd_stale : stale_buffers now (rc_buffers r) = [];
  rd_room : len (rc_buffers r) < Config.MAX_INBOUND_STREAMS
}.

Lemma pieces_nonempty n (data : bytes) :
  (0 < n)%nat -> Forall (fun p : bytes => p <> []) (pieces n data).
Proof.
  intros Hn. eapply Forall_impl; [apply pieces_fuel_bound|]. cbn.
  intros p [Hp| ->]; [|lia]. by intros ->; cbn in Hp; lia.
Qed.

(** The transfer a chunked store opens. *)
Definition push_buffer (now : Z) (peer : string) (total : Z) (d : Durability) (key : option string) : ChunkBuffer :=
  Buf StoreMode (VInt total) [] 0 (VStr (Durability_value d)) (key_value key) None now peer.

Lemma handle_store_header now peer rid d key total sid (r : Replicator B) :
  ready now peer rid r -> 0 < total <= Config.MAX_BLOCK_SIZE ->
  handle now peer (Msg STORE_BLOCK (store_body rid d key
      [("chunked", VBool true); ("total_size", VInt total); ("stream_id", VInt sid)])) r
    = (with_buffers (dset (VStr rid) (push_buffer now peer total d key) (rc_buffers r)) r, Ok tt).
Proof.
  intros [HI Hc Hp Hb Hst Hroom] Htot. set (rest := [_; _; _]).
  destruct (store_body_fields rid d key rest) as (F1 & F2 & F3 & F4).
  rewrite handle_store by done. unfold _serve_store_block. cbn [msg_body]. rewrite F1, (F4 "chunked") by done.
  mrun. assert (truthy (default VNone (dget "chunked" rest)) = true) as -> by done. unfold serve_store_chunked.
  assert (vget_default "total_size" (VInt 0) (store_body rid d key rest) = Ok (VInt total)) as ->
    by by destruct key.
  mrun. unfold acceptable_size. cbn [as_int].
  rewrite (proj2 (Z.leb_gt _ _)), (proj2 (Z.ltb_ge _ _)) by lia. cbn [negb andb].
  rewrite (bind_ok _ _ _ _ _ (gc_nothing now r Hst)). rewrite bind_get.
  rewrite (proj2 (Z.leb_gt _ _)) by lia. rewrite F2, F3 by done. mrun. done.
Qed.

(** The whole of a store request, in whichever form it comes. *)
Lemma handle_store_messages now peer rid data d key (s r : Replicator B) :
  ready now peer rid r -> rid <> "" -> 0 < rc_chunk_size s -> 0 <= rc_chunk_threshold s ->
  len data <= Config.MAX_BLOCK_SIZE ->
  handle_all py_str other_key now peer (store_messages rid data d key s) r
    = served peer (VStr rid) data d key r.
Proof.
  intros Hready Hrid Hsz Hth Hmax. unfold store_messages.
  destruct (Z.ltb_spec (rc_chunk_threshold s) (len data)) as [Hbig|Hsmall].
  - rewrite handle_all_cons. unfold state_after.
    rewrite handle_store_header by (done || lia). destruct Hready as [HI Hc Hp Hb Hst Hroom].
    set (buf := push_buffer now peer (len data) d key).
    set (r1 := with_buffers (dset (VStr rid) buf (rc_buffers r)) r). cbn [fst].
    rewrite (handle_pieces py_str other_key now peer (VStr rid) _ _ _ _ buf (len data) r1).
    + cbn [buf push_buffer cb_mode cb_parts concat app].
      assert (ddel (VStr rid) (rc_buffers r1) = rc_buffers r) as Hdel
        by (unfold r1; rsimpl; by rewrite ddel_dset, ddel_id).
      assert (with_buffers (ddel (VStr rid) (rc_buffers r1)) r1 = r) as ->
        by (rewrite Hdel; unfold r1; by destruct r).
      rewrite pieces_concat by lia. unfold state_after.
      destruct (add_all_fields (pieces (Z.to_nat (rc_chunk_size s)) data) buf) as (_ & _ & _ & A4 & A5 & _).
      by rewrite (commit_store_run peer (VStr rid) _ data d key)
        by (done || (rewrite A4; by destruct d) || by rewrite A5).
    + cbn. by destruct rid.
    + done.
    + unfold r1. rsimpl. apply dget_dset_eq.
    + done.
    + done.
    + intros Hnil. apply (f_equal (@concat _)) in Hnil. rewrite pieces_concat in Hnil by lia.
      cbn in Hnil. subst. rewrite len_nil in Hbig. lia.
    + apply pieces_nonempty. lia.
    + by rewrite pieces_concat by lia.
  - destruct Hready as [HI Hc Hp Hb Hst Hroom]. rewrite handle_all_cons, handle_all_nil.
    destruct (store_body_fields rid d key [("data", VBytes data)]) as (F1 & F2 & F3 & F4).
    unfold state_after. rewrite handle_store by done. unfold _serve_store_block. cbn [msg_body].
    rewrite F1, (F4 "chunked") by done. mrun.
    assert (truthy (default VNone (dget "chunked" [("data", VBytes data)])) = false) as -> by done.
    rewrite (serve_whole_run peer (VStr rid) data d key); try done; [|by apply F3].
    cbn [extract_payload]. rewrite (F4 "data") by done. done.
Qed.

(** ** Back at the requester *)

(** A future is resolved once its reply is in. *)
Definition resolved (rid : string) (f : nat) (m : Message) (s : Replicator B) : Replicator B :=
  with_futures (<[f := FReply m]> (rc_futures s)) (rc_next_future s)
    (with_pending (ddel (VStr rid) (rc_pending s)) s).

Lemma resolve_pending_run rid f m (s : Replicator B) :
  dget (VStr rid) (rc_pending s) = Some f -> rc_futures s !! f = Some FWaiting ->
  resolve_pending (VStr rid) m s = (resolved rid f m s, Ok tt).
Proof.
  intros Hp Hf. unfold resolve_pending. rewrite bind_get, Hp, bind_modify. by rewrite settle_waiting.
Qed.

(** Reaching the point where a message is matched against the pending requests. *)
Lemma handle_pending now peer rid f m (s : Replicator B) :
  msg_type m <> BLOCK_CHUNK -> msg_type m <> STREAM_ABORT ->
  vget "req_id" (msg_body m) = Ok (VStr rid) -> dget (VStr rid) (rc_pending s) = Some f ->
  handle now peer m s
    = ((if decide (msg_type m = BLOCK_DATA) then
          chunked <- mlift (vget "chunked" (msg_body m));;
          if truthy chunked then
            total_size <- mlift (vget_default "total_size" (VInt 0) (msg_body m));;
            _open_pull_buffer now peer (VStr rid) total_size
          else mret tt
        else mret tt);;;
       resolve_pending (VStr rid) m) s.
Proof.
  intros Hc Ha Hr Hp. unfold handle_message. rewrite Hr. mrun. cbn [is_none negb]. unfold require_hashable.
  cbn [hashable].
  destruct (msg_type m); try done; mrun; unfold dmem; rewrite Hp; done.
Qed.

Lemma handle_reply now peer rid f m (s : Replicator B) :
  msg_type m <> BLOCK_CHUNK -> msg_type m <> STREAM_ABORT ->
  vget "req_id" (msg_body m) = Ok (VStr rid) -> vget "chunked" (msg_body m) = Ok VNone ->
  dget (VStr rid) (rc_pending s) = Some f -> rc_futures s !! f = Some FWaiting ->
  handle now peer m s = (resolved rid f m s, Ok tt).
Proof.
  intros Hc Ha Hr Hch Hp Hf. rewrite (handle_pending _ _ rid f) by done. rewrite Hch.
  destruct (decide (msg_type m = BLOCK_DATA)); rewrite ?bind_assoc; mrun; cbn [truthy]; mrun;
    by apply resolve_pending_run.
Qed.

Lemma awaiting_reply now dst rid sid next ms m (s : Replicator B) :
  msg_type m <> BLOCK_CHUNK -> msg_type m <> STREAM_ABORT ->
  vget "req_id" (msg_body m) = Ok (VStr rid) -> vget "chunked" (msg_body m) = Ok VNone ->
  handle now dst m (awaiting dst rid sid next ms s)
    = (resolved rid (rc_next_future s) m (awaiting dst rid sid next ms s), Ok tt).
Proof.
  intros. apply handle_reply; try done.
  - apply dget_dset_eq.
  - apply lookup_insert_eq.
Qed.

(** ** A store, end to end *)

(** The messages queued for [peer] between two states. *)
Definition sent (peer : string) (before after : Replicator B) : list Message :=
  (fun x => x.1.2) <$> filter (fun x => x.1.1 = peer) (drop (length (rc_out before)) (rc_out after)).

Lemma sent_app peer sid ms (s s' : Replicator B) :
  rc_out s' = rc_out s ++ ((fun m => (peer, m, sid)) <$> ms) -> sent peer s s' = ms.
Proof.
  intros H. unfold sent. rewrite H, drop_app_length. clear H.
  induction ms as [|m ms IH]; [done|]. rewrite fmap_cons, filter_cons_True by done. cbn. by rewrite IH.
Qed.

Lemma store_reply_fields rid res :
  msg_type (store_reply (VStr rid) res) <> BLOCK_CHUNK /\
  msg_type (store_reply (VStr rid) res) <> STREAM_ABORT /\
  vget "req_id" (msg_body (store_reply (VStr rid) res)) = Ok (VStr rid) /\
  vget "chunked" (msg_body (store_reply (VStr rid) res)) = Ok VNone.
Proof. by destruct res. Qed.

Lemma served_fields peer rid data d key (r : Replicator B) b res :
  bs_store data d key (rc_blocks r) = (b, res) ->
  rc_blocks (served peer rid data d key r) = b /\
  sent peer r (served peer rid data d key r) = [store_reply rid res] /\
  rc_buffers (served peer rid data d key r) = rc_buffers r.
Proof.
  intros H. unfold served. rewrite H. split_and!; [done| |done].
  by apply (sent_app _ None [store_reply rid res]).
Qed.

(** What the caller of [store_remote] gets for the outcome of the peer's store. *)
Definition store_outcome (res : result Z) : result pyval :=
  match res with Ok id => Ok (VInt id) | Err e => Err (Exn OutOfMemory (exn_msg e)) end.

Lemma store_end_resolved rid timeout res (s : Replicator B) :
  (forall x, py_str (VStr x) = x) ->
  outcome (store_remote_end py_str rid timeout (Some (FReply (store_reply (VStr rid) res)))) s
    = store_outcome res.
Proof.
  intros Hs. unfold outcome, store_remote_end. rewrite bind_modify. destruct res as [id|e].
  - rewrite decide_False by done. done.
  - rewrite decide_True by done. cbn [store_reply msg_body].
    change (vget_default "error" ?x (VDict [("req_id", ?y); ("error", ?z)])) with (Ok z). mrun.
    cbn. by rewrite Hs.
Qed.

(** C11: a block stored on a peer.  The request goes out in one message or in
    chunks, the peer puts it together and stores it, and its answer reaches the
    caller: what [store_remote] returns is the outcome of the peer's block
    store on exactly the bytes, durability and key that were given; an accepted
    block is then readable there by its id and by its key; nothing is left
    behind in the tables of either node. *)
Theorem remote_store me dst rid data d key timeout now now' (s r : Replicator B) :
  (forall x, py_str (VStr x) = x) ->
  dst ∈ rc_connected s -> 0 < rc_chunk_size s -> 0 <= rc_chunk_threshold s ->
  len data <= Config.MAX_BLOCK_SIZE -> rid <> "" -> ready now me rid r ->
  exists s1 f, store_remote_begin dst rid data d (key_value key) s = (s1, Ok f) /\
    let r1 := handle_all py_str other_key now me (sent dst s s1) r in
    let s2 := handle_all py_str other_key now' dst (sent me r r1) s1 in
    let '(b, res) := bs_store data d key (rc_blocks r) in
    rc_blocks r1 = b /\ rc_buffers r1 = rc_buffers r /\ rc_pending s2 = ddel (VStr rid) (rc_pending s) /\
    outcome (store_remote_end py_str rid timeout (rc_futures s2 !! f)) s2 = store_outcome res /\
    (forall id, res = Ok id -> outcome (bs_load id) (rc_blocks r1) = Ok (Some data) /\
       forall k, key = Some k -> outcome (bs_load_by_key k) (rc_blocks r1) = Ok (Some data)).
Proof.
  intros Hs Hc Hsz Hth Hmax Hrid Hready.
  destruct (store_remote_begin_run dst rid data d key s Hc Hsz) as (sid & next & Hb).
  set (s1 := awaiting _ _ _ _ _ _) in Hb. exists s1, (rc_next_future s). split; [done|]. cbv zeta.
  rewrite (sent_app dst sid (store_messages rid data d key s)) by done.
  rewrite handle_store_messages by done.
  destruct (bs_store data d key (rc_blocks r)) as [b res] eqn:Hst.
  destruct (served_fields me (VStr rid) data d key r b res Hst) as (Hblk & Hsent & Hbuf).
  rewrite Hsent, handle_all_cons, handle_all_nil, Hblk, Hbuf.
  destruct (store_reply_fields rid res) as (T1 & T2 & T3 & T4).
  unfold state_after, s1. rewrite awaiting_reply by done. cbn [fst].
  split_and!; [done|done|cbn; apply ddel_dset| |].
  - rewrite <-(store_end_resolved rid timeout res (resolved rid (rc_next_future s) (store_reply (VStr rid) res) s1)) by done.
    unfold s1. cbn [resolved with_futures rc_futures]. by rewrite lookup_insert_eq.
  - intros id ->. apply bs_store_ok in Hst as (_ & Hl & Hk); [done|apply Hready].
Qed.

(** ** A load, end to end *)

Definition id_value (bid : option Z) : pyval := match bid with Some i => VInt i | None => VNone end.

Definition request_message (rid : string) (bid : option Z) (key : option string) : Message :=
  Msg REQUEST_BLOCK (VDict ([("req_id", VStr rid)]
    ++ (match bid with Some i => [("block_id", VInt i)] | None => [] end)
    ++ (match key with Some k => [("key", VStr k)] | None => [] end))).

Lemma load_remote_begin_run dst rid bid key (s : Replicator B) :
  dst ∈ rc_connected s ->
  load_remote_begin dst rid (id_value bid) (key_value key) s
    = (awaiting dst rid None (rc_next_stream s) [request_message rid bid key] s, Ok (rc_next_future s)).
Proof.
  intros Hc. unfold load_remote_begin, _register_pending, new_future. rewrite bind_assoc.
  unfold mbind_m at 1. rsimpl. rewrite bind_assoc, bind_modify, bind_ret. rsimpl.
  erewrite bind_ok; [reflexivity|]. unfold or_cleanup.
  erewrite bind_ok by (by apply send_to_ok). by destruct bid, key.
Qed.

(** What the peer looks up, and the messages it answers with. *)
Definition asked (bid : option Z) (key : option string) : M B (option bytes) :=
  match bid, key with
  | Some id, _ => bs_load id
  | None, Some k => bs_load_by_key k
  | None, None => mret None
  end.

Definition load_messages (rid : string) (o : option bytes) (r : Replicator B) : list Message :=
  match o with
  | None => [Msg BLOCK_NOT_FOUND (VDict [("req_id", VStr rid)])]
  | Some data =>
      if len data <=? rc_chunk_threshold r
      then [Msg BLOCK_DATA (VDict [("req_id", VStr rid); ("data", VBytes data)])]
      else Msg BLOCK_DATA (VDict [("req_id", VStr rid); ("chunked", VBool true);
             ("total_size", VInt (len data)); ("stream_id", VInt (rc_next_stream r))])
           :: piece_messages (VStr rid) (rc_next_stream r) (len data) 0 0
                (pieces (Z.to_nat (rc_chunk_size r)) data)
  end.

Lemma asked_ok bid key b : I b -> exists b' o, asked bid key b = (b', Ok o) /\ I b'.
Proof.
  intros HI. unfold asked. destruct bid as [id|]; [by apply bs_load_ok|].
  destruct key as [k|]; [by apply bs_load_by_key_ok|by exists b, None].
Qed.

Lemma or_none_asked bid key (r : Replicator B) b o :
  asked bid key (rc_blocks r) = (b, Ok o) ->
  or_none (if is_none (match bid with Some i => VInt i | None => VNone end)
           then load_key_value other_key (key_value key)
           else load_value (match bid with Some i => VInt i | None => VNone end)) r
    = (with_blocks b r, Ok o).
Proof.
  intros Ha. unfold or_none, mtry, load_key_value, load_value, asked in *.
  destruct bid as [id|]; cbn [is_none as_int].
  - by rewrite (on_blocks_run _ _ _ _ Ha).
  - destruct key as [k|]; cbn [key_value hashable key_arg].
    + by rewrite (on_blocks_run _ _ _ _ Ha).
    + injection Ha as <- <-. by destruct r.
Qed.

(** What transfers do not touch. *)
Definition same_base (s s' : Replicator B) : Prop :=
  rc_connected s' = rc_connected s /\ rc_chunk_size s' = rc_chunk_size s /\
  rc_chunk_threshold s' = rc_chunk_threshold s.

Lemma serve_request_run now me rid bid key (r : Replicator B) b o :
  me ∈ rc_connected r -> 0 < rc_chunk_size r -> dget (VStr rid) (rc_pending r) = None ->
  asked bid key (rc_blocks r) = (b, Ok o) ->
  exists r1, handle now me (request_message rid bid key) r = (r1, Ok tt) /\
    rc_blocks r1 = b /\ rc_buffers r1 = rc_buffers r /\ rc_pending r1 = rc_pending r /\ same_base r r1 /\
    sent me r r1 = load_messages rid o r.
Proof.
  intros Hc Hsz Hp Ha. set (m := request_message rid bid key).
  assert (vget "req_id" (msg_body m) = Ok (VStr rid)) as F1 by done.
  assert (vget "block_id" (msg_body m) = Ok (match bid with Some i => VInt i | None => VNone end)) as F2
    by by destruct bid, key.
  assert (vget "key" (msg_body m) = Ok (key_value key)) as F3 by by destruct bid, key.
  assert (handle now me m r = _serve_request_block other_key me m r) as ->.
  { unfold handle_message. rewrite F1. mrun. cbn [is_none]. unfold require_hashable. cbn [hashable].
    cbn [m request_message msg_type]. mrun. unfold dmem. rewrite Hp. done. }
  unfold _serve_request_block. rewrite F1, F2, F3. mrun.
  rewrite (bind_ok _ _ _ _ _ (or_none_asked _ _ _ _ _ Ha)). unfold load_messages. destruct o as [data|].
  2:{ eexists. split; [by apply reply_run|]. split_and!; [done..|].
      by apply (sent_app _ None [_]). }
  rewrite bind_get. rsimpl. destruct (len data <=? rc_chunk_threshold r).
  - eexists. split; [by apply reply_run|]. split_and!; [done..|]. by apply (sent_app _ None [_]).
  - unfold _next_stream, mbind_m at 1. rsimpl. erewrite bind_ok by (by apply send_to_ok). cbn [negb].
    unfold mtry, _send_chunks. rsimpl. rewrite (proj2 (Z.eqb_neq _ _)), (proj2 (Z.ltb_ge _ _)) by lia.
    rewrite send_pieces_ok by done. eexists. split; [reflexivity|]. split_and!; [done..|].
    eapply (sent_app _ (Some (rc_next_stream r)) (_ :: _)). rsimpl. by rewrite <-(assoc_L app).
Qed.

(** What [load_remote] returns once its futures are as in [s]. *)
Definition load_result (rid timeout : string) (f : nat) (s : Replicator B) : result (option bytes) :=
  match outcome (load_remote_reply py_str rid timeout (rc_futures s !! f)) s with
  | Ok (LDone o) => Ok o
  | Ok (LPull c) => let? data := load_remote_pull timeout (rc_futures s !! c) in Ok (Some data)
  | Err e => Err e
  end.

(** The tables of requests and transfers, without one request. *)
Definition tables_without (rid : string) (s s' : Replicator B) : Prop :=
  rc_pending s' = ddel (VStr rid) (rc_pending s) /\
  rc_buffers s' = ddel (VStr rid) (rc_buffers s) /\
  rc_pull_futures s' = ddel (VStr rid) (rc_pull_futures s).

Lemma ddel_ddel {V} k (l : list (pyval * V)) : ddel k (ddel k l) = ddel k l.
Proof. apply ddel_id, dget_ddel_eq. Qed.

Lemma load_resolved rid timeout f m (s : Replicator B) o :
  outcome (load_remote_reply py_str rid timeout (Some (FReply m))) (resolved rid f m s) = Ok (LDone o) ->
  load_result rid timeout f (resolved rid f m s) = Ok o /\
  tables_without rid s (load_remote_cleanup rid (resolved rid f m s)).
Proof.
  intros H. split.
  - unfold load_result. replace (rc_futures (resolved rid f m s) !! f) with (Some (FReply m)).
    + by rewrite H.
    + cbn [resolved with_futures rc_futures]. by rewrite lookup_insert_eq.
  - split_and!; try done. cbn. apply ddel_ddel.
Qed.

(** The requester once the header of a chunked answer is in: a collector waits
    for the bytes. *)
Definition pulling (now : Z) (peer rid : string) (total : Z) (f : nat) (m : Message) (s : Replicator B) :
    Replicator B :=
  let c := rc_next_future s in
  resolved rid f m
    (with_pulls (dset (VStr rid) c (rc_pull_futures s))
      (with_buffers (dset (VStr rid) (Buf PullMode (VInt total) [] 0 VNone VNone (Some c) now peer) (rc_buffers s))
        (with_futures (<[c := FWaiting]> (rc_futures s)) (S c) s))).

Lemma handle_header now peer rid f total sid (s : Replicator B) :
  let m := Msg BLOCK_DATA (VDict [("req_id", VStr rid); ("chunked", VBool true);
             ("total_size", VInt total); ("stream_id", VInt sid)]) in
  dget (VStr rid) (rc_pending s) = Some f -> rc_futures s !! f = Some FWaiting -> f <> rc_next_future s ->
  stale_buffers now (rc_buffers s) = [] ->
  handle now peer m s = (pulling now peer rid total f m s, Ok tt).
Proof.
  intros m Hp Hf Hne Hst. rewrite (handle_pending _ _ rid f) by done. rewrite decide_True by done.
  change (vget "chunked" (msg_body m)) with (Ok (VBool true)).
  change (vget_default "total_size" (VInt 0) (msg_body m)) with (Ok (VInt total)).
  rewrite !bind_assoc. mrun. cbn [truthy]. rewrite ?bind_assoc. mrun. unfold _open_pull_buffer.
  rewrite !bind_assoc. rewrite (bind_ok _ _ _ _ _ (gc_nothing now s Hst)).
  unfold new_future. rewrite !bind_assoc. unfold mbind_m at 1. rewrite !bind_assoc, !bind_modify. rsimpl.
  apply resolve_pending_run; [done|]. rsimpl. by rewrite lookup_insert_ne.
Qed.

Lemma handle_load_messages now peer rid timeout f o (s r : Replicator B) :
  rid <> "" -> 0 < rc_chunk_size r -> 0 <= rc_chunk_threshold r ->
  dget (VStr rid) (rc_pending s) = Some f -> rc_futures s !! f = Some FWaiting -> f <> rc_next_future s ->
  stale_buffers now (rc_buffers s) = [] ->
  let s' := handle_all py_str other_key now peer (load_messages rid o r) s in
  load_result rid timeout f s' = Ok o /\ tables_without rid s (load_remote_cleanup rid s') /\
  same_base s s' /\ rc_blocks s' = rc_blocks s.
Proof.
  intros Hrid Hsz Hth Hp Hf Hne Hst. cbv zeta. unfold load_messages. destruct o as [data|].
  2:{ rewrite handle_all_cons, handle_all_nil. unfold state_after. rewrite (handle_reply _ _ rid f) by done.
      destruct (load_resolved rid timeout f (Msg BLOCK_NOT_FOUND (VDict [("req_id", VStr rid)])) s None); done. }
  destruct (Z.leb_spec (len data) (rc_chunk_threshold r)) as [Hle|Hgt].
  { rewrite handle_all_cons, handle_all_nil. unfold state_after. rewrite (handle_reply _ _ rid f) by done.
    match goal with |- context [resolved rid f ?m s] =>
      destruct (load_resolved rid timeout f m s (Some data)); done end. }
  rewrite handle_all_cons. unfold state_after. rewrite handle_header with (f := f) by done. cbn [fst].
  set (m := Msg BLOCK_DATA _). set (c := rc_next_future s).
  set (buf := Buf PullMode (VInt (len data)) [] 0 VNone VNone (Some c) now peer).
  rewrite (handle_pieces py_str other_key now peer (VStr rid) _ _ _ _ buf (len data)).
  - cbn [buf cb_mode cb_parts concat app settle_opt cb_future]. rewrite pieces_concat by lia.
    unfold state_after. rewrite settle_waiting.
    2:{ cbn. by rewrite lookup_insert_ne, lookup_insert_eq. }
    cbn [fst]. split; [|split; [|done]].
    + unfold load_result. cbn [with_futures with_buffers rc_futures pulling resolved].
      fold c. rewrite (lookup_insert_ne _ c f), lookup_insert_eq by done.
      unfold outcome, load_remote_reply. rewrite !decide_False by done.
      change (vget "chunked" (msg_body m)) with (Ok (VBool true)). mrun. cbn [truthy]. mrun.
      cbn [with_futures with_buffers with_pulls with_pending rc_pull_futures pulling resolved].
      rewrite dget_dset_eq. cbn [mret snd]. by rewrite lookup_insert_eq.
    + split_and!; cbn; rewrite ?ddel_ddel, ?ddel_dset; done.
  - cbn. by destruct rid.
  - done.
  - cbn. apply dget_dset_eq.
  - done.
  - done.
  - intros Hnil. apply (f_equal (@concat _)) in Hnil. rewrite pieces_concat in Hnil by lia.
    cbn in Hnil. subst. rewrite len_nil in Hgt. lia.
  - apply pieces_nonempty. lia.
  - by rewrite pieces_concat by lia.
Qed.

(** C12: a block read from a peer.  Whatever the peer's block store answers for
    the id (or else the key) asked for is what [load_remote] returns, missing
    block included, whether the bytes come in the reply or in chunks after it;
    its clean-up leaves no trace of the request. *)
Theorem remote_load me dst rid bid key timeout now now' (s r : Replicator B) :
  rid <> "" -> dst ∈ rc_connected s -> me ∈ rc_connected r ->
  0 < rc_chunk_size r -> 0 <= rc_chunk_threshold r ->
  I (rc_blocks r) -> dget (VStr rid) (rc_pending r) = None -> stale_buffers now' (rc_buffers s) = [] ->
  exists s1 f b o, load_remote_begin dst rid (id_value bid) (key_value key) s = (s1, Ok f) /\
    asked bid key (rc_blocks r) = (b, Ok o) /\
    let r1 := handle_all py_str other_key now me (sent dst s s1) r in
    let s2 := handle_all py_str other_key now' dst (sent me r r1) s1 in
    rc_blocks r1 = b /\ rc_buffers r1 = rc_buffers r /\
    load_result rid timeout f s2 = Ok o /\ tables_without rid s (load_remote_cleanup rid s2).
Proof.
  intros Hrid Hd Hm Hsz Hth HI Hp Hst. destruct (asked_ok bid key _ HI) as (b & o & Ha & _).
  rewrite load_remote_begin_run by done. set (s1 := awaiting _ _ _ _ _ _).
  exists s1, (rc_next_future s), b, o. split; [done|]. split; [done|]. cbv zeta.
  rewrite (sent_app dst None [request_message rid bid key]) by done.
  destruct (serve_request_run now me rid bid key r b o Hm Hsz Hp Ha) as (r1 & Hh & Hb & Hbuf & _ & _ & Hsent).
  rewrite handle_all_cons, handle_all_nil. unfold state_after. rewrite Hh. cbn [fst]. rewrite Hsent.
  split; [done|]. split; [done|].
  destruct (handle_load_messages now' dst rid timeout (rc_next_future s) o s1 r) as (Hl & (T1 & T2 & T3) & _);
    [done|done|done|apply dget_dset_eq|apply lookup_insert_eq|cbn; lia|done|].
  split; [done|]. split_and!; [|by rewrite T2|by rewrite T3]. rewrite T1. cbn. apply ddel_dset.
Qed.

(** ** What the wire format lets a peer do *)

(** The final chunk ends a push however few bytes have come, and whichever
    peer sends it: a push that declared [n] bytes and got fewer is stored, cut
    short, and acknowledged like a complete one; the peer of the transfer is
    recorded and never compared. *)
Theorem short_push_is_stored now peer rid sid seq piece buf n d key (r : Replicator B) :
  I (rc_blocks r) -> peer ∈ rc_connected r -> rid <> "" ->
  dget (VStr rid) (rc_buffers r) = Some buf -> cb_mode buf = StoreMode -> cb_total_size buf = VInt n ->
  Durability_of (cb_durability buf) = Ok d -> cb_key buf = key_value key ->
  cb_received buf + len piece < n ->
  handle now peer (chunk_message (VStr rid) sid seq piece true) r
    = (served peer (VStr rid) (assemble buf ++ piece) d key
         (with_buffers (ddel (VStr rid) (rc_buffers r)) r), Ok tt).
Proof.
  intros HI Hc Hrid Hb Hm Hn Hd Hk Hlt. rewrite handle_message_chunk.
  rewrite (handle_chunk_fits _ _ _ _ _ _ _ _ buf n); try done; [|by destruct rid|lia]. rewrite Hm.
  rewrite (commit_store_run peer (VStr rid) _ _ d key) by done.
  unfold assemble. cbn [cb_add cb_parts]. rewrite concat_app. cbn. by rewrite app_nil_r.
Qed.

(** The size a peer declares for a block this node asked for is not
    checked: a header may announce more than [MAX_BLOCK_SIZE], and the chunks
    after it are kept up to that size. *)
Theorem pull_size_unchecked now peer rid f total sid seq piece (r : Replicator B) :
  Config.MAX_BLOCK_SIZE < total -> rid <> "" -> len piece <= total ->
  dget (VStr rid) (rc_pending r) = Some f -> rc_futures r !! f = Some FWaiting -> f <> rc_next_future r ->
  stale_buffers now (rc_buffers r) = [] ->
  exists buf,
    dget (VStr rid) (rc_buffers (handle_all py_str other_key now peer
      [Msg BLOCK_DATA (VDict [("req_id", VStr rid); ("chunked", VBool true);
         ("total_size", VInt total); ("stream_id", VInt sid)]);
       chunk_message (VStr rid) sid seq piece false] r)) = Some buf /\
    cb_total_size buf = VInt total /\ assemble buf = piece.
Proof.
  intros Hbig Hrid Hlen Hp Hf Hne Hst. rewrite !handle_all_cons, handle_all_nil. unfold state_after.
  rewrite handle_header with (f := f) by done. cbn [fst]. rewrite handle_message_chunk.
  set (buf := Buf PullMode (VInt total) [] 0 VNone VNone (Some (rc_next_future r)) now peer).
  rewrite (handle_chunk_fits _ _ _ _ _ _ _ _ buf total); try done; [|by destruct rid|cbn; apply dget_dset_eq].
  exists (cb_add piece buf). split; [cbn [fst with_buffers rc_buffers]; apply dget_dset_eq|].
  split; [done|]. unfold assemble. cbn. by rewrite app_nil_r.
Qed.

(** A store request whose key is a list (or a dictionary) is refused with a
    NACK, and yet its block stays in the store: the key is only looked at after
    the block was put in. *)
Theorem bad_key_leaks_block now peer rid data d l b id (r : Replicator B) :
  I (rc_blocks r) -> peer ∈ rc_connected r -> dget (VStr rid) (rc_pending r) = None ->
  bs_store data d None (rc_blocks r) = (b, Ok id) ->
  exists r1 err,
    handle now peer (Msg STORE_BLOCK (VDict [("req_id", VStr rid); ("durability", VStr (Durability_value d));
      ("key", VList l); ("data", VBytes data)])) r = (r1, Ok tt) /\
    sent peer r r1 = [Msg NACK (VDict [("req_id", VStr rid); ("error", VStr err)])] /\
    outcome (bs_load id) (rc_blocks r1) = Ok (Some data).
Proof.
  intros HI Hc Hp Hst. set (m := Msg STORE_BLOCK _).
  assert (handle now peer m r = serve_store_whole other_key peer (VStr rid) (msg_body m) r) as ->.
  { unfold handle_message. change (vget "req_id" (msg_body m)) with (Ok (VStr rid)). mrun. cbn [is_none].
    unfold require_hashable. cbn [hashable]. cbn [m msg_type]. mrun. unfold dmem.
    rewrite Hp. done. }
  unfold serve_store_whole, mtry. change (extract_payload (msg_body m) ["data"]) with (Ok (Some data)).
  change (durability_field (msg_body m)) with (Ok (VStr (Durability_value d))).
  change (vget "key" (msg_body m)) with (Ok (VList l)). mrun.
  assert (Durability_of (VStr (Durability_value d)) = Ok d) as -> by by destruct d.
  mrun. unfold store_value. cbn [hashable]. rewrite bind_assoc.
  rewrite (bind_ok _ _ _ _ _ (on_blocks_run _ _ _ _ Hst)). mrun. rewrite decide_False by (cbn; naive_solver).
  eexists _, _. split; [by apply reply_run|]. split; [by apply (sent_app _ None [_])|].
  by apply bs_store_ok in Hst as (_ & Hl & _).
Qed.
End spec.

(** ** Witnesses

    Two nodes with a block manager of sixteen bytes in two stripes each, and
    chunks of two bytes. *)

Definition demo_env (_ : nat) : rng * Z := (rng_id, 0).

#[local] Instance demo_store : BlockStore managed := managed_store hash0 demo_env.
#[local] Instance demo_laws : BlockStoreLaws managed (managed_inv hash0) :=
  managed_laws hash0 demo_env (fun _ => rng_id_ok).

Definition str_of (v : pyval) : string := match v with VStr s => s | _ => "" end.

Definition demo_node (peer : string) : Replicator managed :=
  ReplicationCoordinator_init (Managed demo_manager 0) {[peer]} 2 2.

Lemma demo_ready now peer rid : ready (managed_inv hash0) now peer rid (demo_node peer).
Proof. split; try done; [apply demo_Inv|set_solver]. Qed.

Lemma remote_store_witness :
  exists s1 f, store_remote_begin "b" "q" (payload 5) CACHE (VStr "k") (demo_node "b") = (s1, Ok f) /\
    let r1 := handle_all str_of str_of 7 "a" (sent "b" (demo_node "b") s1) (demo_node "a") in
    let s2 := handle_all str_of str_of 8 "b" (sent "a" (demo_node "a") r1) s1 in
    outcome (store_remote_end str_of "q" "30" (rc_futures s2 !! f)) s2 = Ok (VInt 4) /\
    outcome (bs_load_by_key "k") (rc_blocks r1) = Ok (Some (payload 5)).
Proof.
  destruct (remote_store (managed_inv hash0) str_of str_of "a" "b" "q" (payload 5) CACHE (Some "k") "30" 7 8
    (demo_node "b") (demo_node "a")) as (s1 & f & Hb & H);
    [done|set_solver|done|done|done|done|apply demo_ready|].
  exists s1, f. split; [exact Hb|]. cbv zeta in H |- *.
  destruct (bs_store (payload 5) CACHE (Some "k") (rc_blocks (demo_node "a"))) as [b res] eqn:Hs.
  assert (res = Ok 4) as -> by (vm_compute in Hs; congruence).
  destruct H as (_ & _ & _ & Hout & Hl). split; [exact Hout|]. by apply (Hl 4).
Defined.

Lemma remote_load_witness :
  exists s1 f, load_remote_begin "b" "q" (VInt 1) VNone (demo_node "b") = (s1, Ok f) /\
    let r1 := handle_all str_of str_of 7 "a" (sent "b" (demo_node "b") s1) (demo_node "a") in
    let s2 := handle_all str_of str_of 8 "b" (sent "a" (demo_node "a") r1) s1 in
    load_result str_of "q" "30" f s2 = Ok (Some (payload 3)).
Proof.
  destruct (remote_load (managed_inv hash0) str_of str_of "a" "b" "q" (Some 1) None "30" 7 8
    (demo_node "b") (demo_node "a")) as (s1 & f & b & o & Hb & Ha & _ & _ & Hl & _);
    [done|set_solver|set_solver|done|done|apply demo_Inv|done|done|].
  exists s1, f. split; [exact Hb|]. cbv zeta. rewrite Hl. vm_compute in Ha. injection Ha as _ <-. reflexivity.
Defined.

Definition short_node : Replicator managed :=
  with_buffers [(VStr "q", Buf StoreMode (VInt 9) [] 0 (VStr "cache") VNone None 0 "somebody")] (demo_node "b").

Lemma short_push_is_stored_witness :
  rc_buffers short_node <> [] /\
  handle_message str_of str_of 7 "b" (chunk_message (VStr "q") 3 0 (payload 2) true) short_node
    = (served "b" (VStr "q") (payload 2) CACHE None (demo_node "b"), Ok tt).
Proof.
  split; [done|].
  rewrite (short_push_is_stored (managed_inv hash0) str_of str_of 7 "b" "q" 3 0 (payload 2)
    (Buf StoreMode (VInt 9) [] 0 (VStr "cache") VNone None 0 "somebody") 9 CACHE None short_node);
    [reflexivity|apply demo_Inv|set_solver|done..].
Defined.

Definition pulling_node : Replicator managed :=
  Rep (Managed demo_manager 0) {["b"]} [] 2 2 [(VStr "q", O)] [] [] {[O := FWaiting]} 1 2.

Lemma pull_size_unchecked_witness :
  exists buf, dget (VStr "q") (rc_buffers (handle_all str_of str_of 7 "b"
      [Msg BLOCK_DATA (VDict [("req_id", VStr "q"); ("chunked", VBool true);
         ("total_size", VInt (2 * Config.MAX_BLOCK_SIZE)); ("stream_id", VInt 3)]);
       chunk_message (VStr "q") 3 0 (payload 2) false] pulling_node)) = Some buf /\
    cb_total_size buf = VInt (2 * Config.MAX_BLOCK_SIZE) /\ assemble buf = payload 2.
Proof.
  apply (pull_size_unchecked str_of str_of 7 "b" "q" O (2 * Config.MAX_BLOCK_SIZE) 3 0 (payload 2) pulling_node);
    done.
Defined.

Lemma bad_key_leaks_block_witness :
  exists r1 err,
    handle_message str_of str_of 7 "b" (Msg STORE_BLOCK (VDict [("req_id", VStr "q");
      ("durability", VStr (Durability_value PINNED)); ("key", VList []); ("data", VBytes (payload 5))]))
      (demo_node "b") = (r1, Ok tt) /\
    sent "b" (demo_node "b") r1 = [Msg NACK (VDict [("req_id", VStr "q"); ("error", VStr err)])] /\
    outcome (bs_load 4) (rc_blocks r1) = Ok (Some (payload 5)).
Proof.
  destruct (bs_store (payload 5) PINNED None (rc_blocks (demo_node "b"))) as [b res] eqn:Hs.
  assert (res = Ok 4) as -> by (vm_compute in Hs; congruence).
  apply (bad_key_leaks_block (managed_inv hash0) str_of str_of 7 "b" "q" (payload 5) PINNED [] b 4);
    [apply demo_Inv|set_solver|done|exact Hs].
Defined.
