(* ===== verification/ReplicationBounds.v ===== *)
(** * Bounds on reassembly

    Whatever peers send, in whatever order, the transfers a node is putting
    together for its own store stay within what it agreed to: their number,
    the size of each, and so the memory they can hold. *)
From S2P Require Import Prelude Config PyVal Protocol Blocks StoreInterface Replication.
From S2P Require Import ReplicationFacts BlocksFacts BlocksSpec ReplicationSpec.

(** ** The transfer table *)

Abbreviation buffers := (list (pyval * ChunkBuffer)).

Definition is_store (b : ChunkBuffer) : bool :=
  match cb_mode b with StoreMode => true | PullMode => false end.

(** A push that was agreed to, and what has come of it. *)
Definition sound_buffer (b : ChunkBuffer) : Prop :=
  is_store b = true ->
  exists n, as_int (cb_total_size b) = Some n /\ 0 < n <= Config.MAX_BLOCK_SIZE /\
    cb_received b = len (assemble b) /\ cb_received b <= n.

Fixpoint store_count (l : buffers) : Z :=
  match l with
  | [] => 0
  | (_, b) :: l => (if is_store b then 1 else 0) + store_count l
  end.

(** The bytes held for pushes that are not complete. *)
Fixpoint staged (l : buffers) : Z :=
  match l with
  | [] => 0
  | (_, b) :: l => (if is_store b then len (assemble b) else 0) + staged l
  end.

Record Bounded (l : buffers) : Prop := {
  bd_sound : Forall (fun kb => sound_buffer kb.2) l;
  bd_count : store_count l <= Config.MAX_INBOUND_STREAMS
}.

Lemma store_count_nonneg l : 0 <= store_count l.
Proof. induction l as [|[k b] l IH]; cbn; [done|]. destruct (is_store b); lia. Qed.

Lemma store_count_len l : store_count l <= len l.
Proof.
  induction l as [|[k b] l IH]; cbn; [done|]. rewrite len_cons. destruct (is_store b); lia.
Qed.

Lemma store_count_ddel k l : store_count (ddel k l) <= store_count l.
Proof.
  induction l as [|[k' b] l IH]; cbn; [done|]. case_decide; cbn; destruct (is_store b); lia.
Qed.

(** A store takes one more place at most, and none where the entry it replaces
    was a store; a pull never takes one. *)
Lemma store_count_dset k v l :
  store_count (dset k v l) <= store_count l + (if is_store v then 1 else 0) /\
  (forall b, dget k l = Some b -> is_store b = is_store v -> store_count (dset k v l) = store_count l).
Proof.
  induction l as [|[k' b] l [IH1 IH2]]; cbn; [split; [lia|done]|]. case_decide; cbn.
  - split; [destruct (is_store b), (is_store v); lia|]. intros ? [= <-] ->. lia.
  - split; [lia|]. intros b' Hb' Heq. by rewrite (IH2 b').
Qed.

Lemma Bounded_ddel k l : Bounded l -> Bounded (ddel k l).
Proof.
  intros [Hs Hc]. split; [by apply Forall_ddel|]. pose proof (store_count_ddel k l). lia.
Qed.

Lemma Bounded_dset_same k b v l :
  Bounded l -> dget k l = Some b -> is_store b = is_store v -> sound_buffer v -> Bounded (dset k v l).
Proof.
  intros [Hs Hc] Hg He Hv. split; [by apply Forall_dset|].
  by rewrite (proj2 (store_count_dset k v l) b).
Qed.

Lemma Bounded_dset_pull k v l : Bounded l -> is_store v = false -> Bounded (dset k v l).
Proof.
  intros [Hs Hc] Hv. split; [apply Forall_dset; [done|]; by intros k'; unfold sound_buffer; cbn; rewrite Hv|].
  pose proof (proj1 (store_count_dset k v l)). rewrite Hv in *. lia.
Qed.

Lemma Bounded_dset_new k v l :
  Bounded l -> len l < Config.MAX_INBOUND_STREAMS -> sound_buffer v -> Bounded (dset k v l).
Proof.
  intros [Hs Hc] Hl Hv. split; [by apply Forall_dset|].
  pose proof (proj1 (store_count_dset k v l)). pose proof (store_count_len l).
  destruct (is_store v); lia.
Qed.

(** The memory bound follows from the two others. *)
Lemma staged_le l : Forall (fun kb => sound_buffer kb.2) l -> staged l <= store_count l * Config.MAX_BLOCK_SIZE.
Proof.
  induction 1 as [|[k b] l Hb Hl IH]; [done|]. cbn [staged store_count].
  destruct (is_store b) eqn:Hm; [|rewrite !Z.add_0_l; done]. destruct (Hb Hm) as (n & _ & Hn & Hr & Hle).
  rewrite Z.mul_add_distr_r, Z.mul_1_l. cbn in *. lia.
Qed.

(** ** Every operation keeps the bounds *)

Section bounds.
Context {B : Type} `{!BlockStore B} (py_str : pyval -> string) (other_key : pyval -> string).

Abbreviation rep := (Replicator B).

Definition RB (r : rep) : Prop := Bounded (rc_buffers r).

(** Most computations leave the table alone, whatever their outcome. *)
Definition untouched {A} (m : M rep A) : Prop := forall l, preserves (fun r => rc_buffers r = l) m.

Lemma untouched_RB {A} (m : M rep A) : untouched m -> preserves RB m.
Proof. intros Hm r Hr. unfold RB. by rewrite (Hm (rc_buffers r) r). Qed.

Lemma send_to_untouched peer m sid : untouched (send_to peer m sid).
Proof. intros l r Hr. unfold state_after, send_to. by case_bool_decide. Qed.

Lemma reply_untouched peer t body : untouched (reply peer t body).
Proof. intros l. unfold reply. pres. apply send_to_untouched. Qed.

Lemma settle_untouched f v : untouched (settle f v).
Proof. intros l. apply preserves_modify. intros r Hr. by destruct (rc_futures r !! f) as [[]|]. Qed.

Lemma settle_opt_untouched f v : untouched (settle_opt f v).
Proof. intros l. destruct f; [apply settle_untouched|apply preserves_ret]. Qed.

Lemma on_blocks_untouched {A} (m : M B A) : untouched (on_blocks m).
Proof. intros l r Hr. unfold state_after, on_blocks. by destruct (m (rc_blocks r)). Qed.

Lemma new_future_untouched : untouched new_future.
Proof. by intros l r Hr. Qed.

Lemma next_stream_untouched : untouched _next_stream.
Proof. by intros l r Hr. Qed.

Lemma require_hashable_untouched v : untouched (require_hashable v).
Proof. intros l. unfold require_hashable. pres. Qed.

Lemma require_sliceable_untouched v : untouched (require_sliceable v).
Proof. intros l. unfold require_sliceable. pres. Qed.

Lemma store_value_untouched data d key : untouched (store_value other_key data d key).
Proof. intros l. unfold store_value. pres; apply on_blocks_untouched. Qed.

Lemma load_value_untouched v : untouched (load_value v).
Proof. intros l. unfold load_value. destruct (as_int v); pres; apply on_blocks_untouched. Qed.

Lemma load_key_value_untouched v : untouched (load_key_value other_key v).
Proof.
  intros l. unfold load_key_value. pres. destruct (key_arg other_key v); pres; apply on_blocks_untouched.
Qed.

Lemma free_value_untouched v : untouched (free_value v).
Proof. intros l. unfold free_value. destruct (as_int v); pres; apply on_blocks_untouched. Qed.

Lemma commit_store_untouched peer rid buf data : untouched (commit_store other_key peer rid buf data).
Proof.
  intros l. unfold commit_store. pres.
  - apply store_value_untouched.
  - apply reply_untouched.
  - case_decide; [|done]. simplify_eq. apply reply_untouched.
Qed.

Lemma send_pieces_untouched peer rid sid total ps : forall seq offset,
  untouched (send_pieces peer rid sid total seq offset ps).
Proof.
  induction ps as [|p ps IH]; intros seq offset l; cbn [send_pieces]; pres; [apply send_to_untouched|apply IH].
Qed.

Lemma send_chunks_untouched peer rid sid data : untouched (_send_chunks peer rid sid data).
Proof.
  intros l r Hr. unfold state_after, _send_chunks. repeat case_match; try done.
  by apply send_pieces_untouched.
Qed.

Lemma serve_store_whole_untouched peer rid body : untouched (serve_store_whole other_key peer rid body).
Proof.
  intros l. unfold serve_store_whole. pres.
  - destruct a as [data|]; pres; [apply store_value_untouched|apply reply_untouched].
  - case_decide; simplify_eq; apply reply_untouched.
Qed.

Lemma serve_request_untouched peer m : untouched (_serve_request_block other_key peer m).
Proof.
  intros l. unfold _serve_request_block, or_none. pres.
  - apply load_key_value_untouched.
  - apply load_value_untouched.
  - simplify_eq. pres.
  - destruct a2 as [data|]; [|apply reply_untouched]. apply preserves_get. intros r Hr.
    destruct (len data <=? rc_chunk_threshold r); [by apply reply_untouched|].
    match goal with |- rc_buffers (state_after ?c _) = _ =>
      enough (preserves (fun r => rc_buffers r = l) c) as Hc by by apply Hc end.
    apply preserves_bind; [apply next_stream_untouched|]. pres.
    + apply send_to_untouched.
    + apply send_chunks_untouched.
    + case_decide; simplify_eq. pres.
Qed.

Lemma serve_free_untouched peer m : untouched (_serve_free_block peer m).
Proof.
  intros l. unfold _serve_free_block. pres; simplify_eq; pres.
  - apply free_value_untouched.
  - apply reply_untouched.
Qed.

Lemma resolve_pending_untouched rid m : untouched (resolve_pending rid m).
Proof.
  intros l. unfold resolve_pending. apply preserves_get. intros r Hr.
  destruct (dget rid (rc_pending r)) as [f|]; [|done]. unfold state_after. rewrite bind_modify.
  by apply settle_untouched.
Qed.

(** *** The operations that touch the table *)

Lemma drop_entry rid : preserves RB (mmodify (fun r : rep => with_buffers (ddel rid (rc_buffers r)) r)).
Proof. apply preserves_modify. intros r Hr. by apply Bounded_ddel. Qed.

Lemma drop_stale_RB stale : preserves RB (drop_stale stale).
Proof.
  induction stale as [|[rid buf] stale IH]; cbn [drop_stale]; pres.
  - apply drop_entry.
  - apply untouched_RB, require_sliceable_untouched.
  - apply untouched_RB, settle_opt_untouched.
  - done.
Qed.

Lemma gc_RB now : preserves RB (_gc_buffers now).
Proof. apply preserves_get. intros r Hr. by apply drop_stale_RB. Qed.

Lemma open_pull_RB now peer rid total : preserves RB (_open_pull_buffer now peer rid total).
Proof.
  unfold _open_pull_buffer. pres; [apply gc_RB|apply untouched_RB, new_future_untouched| |].
  - apply preserves_modify. intros r Hr. by apply Bounded_dset_pull.
  - by apply preserves_modify.
Qed.

Lemma abort_RB rid reason : preserves RB (_abort_buffer py_str rid reason).
Proof.
  unfold _abort_buffer. pres; [apply untouched_RB, require_hashable_untouched|].
  apply preserves_get. intros r Hr. destruct (dget rid (rc_buffers r)) as [buf|]; [|done].
  match goal with |- RB (state_after ?c _) => enough (preserves RB c) as Hc by by apply Hc end. pres.
  - apply drop_entry.
  - apply untouched_RB, require_sliceable_untouched.
  - apply untouched_RB, settle_opt_untouched.
Qed.

Lemma acceptable_inv v : acceptable_size v = true -> exists n, as_int v = Some n /\ 0 < n <= Config.MAX_BLOCK_SIZE.
Proof.
  unfold acceptable_size. destruct (as_int v) as [n|]; [|done].
  rewrite andb_true_iff, !negb_true_iff, Z.leb_gt, Z.ltb_ge. intros. by exists n.
Qed.

Lemma serve_store_chunked_RB now peer rid body : preserves RB (serve_store_chunked py_str now peer rid body).
Proof.
  unfold serve_store_chunked. apply preserves_bind; [apply preserves_lift|]. intros total.
  destruct (acceptable_size total) eqn:Hacc; cbn [negb]; [|apply untouched_RB, reply_untouched].
  apply preserves_bind; [apply gc_RB|]. intros _. apply preserves_get. intros r Hr.
  destruct (Z.leb_spec Config.MAX_INBOUND_STREAMS (len (rc_buffers r))); [by apply untouched_RB; [apply reply_untouched|]|].
  unfold state_after. destruct (durability_field body) as [dur|e]; mrun; [|done].
  destruct (vget "key" body) as [key|e]; mrun; [|done].
  unfold require_hashable. destruct (hashable rid); mrun; [|done].
  apply Bounded_dset_new; [done|done|]. intros _. apply acceptable_inv in Hacc as (n & Hn & Hle).
  exists n. cbn. split_and!; try done; lia.
Qed.

Lemma int_gt_as_int v n k : as_int v = Some n -> int_gt k v = Ok (n <? k).
Proof.
  intros Hv. unfold int_gt. assert (as_num v = Some (n, 0)) as ->
    by (destruct v as [|[]| | | | | |]; cbn in *; congruence).
  unfold num_compare. cbn. rewrite !Z.mul_1_r. unfold Z.ltb. by destruct (n ?= k).
Qed.

Lemma sound_add chunk buf n :
  sound_buffer buf -> as_int (cb_total_size buf) = Some n -> cb_received buf + len chunk <= n ->
  sound_buffer (cb_add chunk buf).
Proof.
  intros Hs Hn Hle Hm. destruct (Hs Hm) as (n' & Hn' & Hb & Hr & _). exists n. cbn [cb_add cb_total_size cb_received].
  simplify_eq. split; [done|]. split; [done|]. split; [|done].
  rewrite Hr. unfold assemble. cbn [cb_add cb_parts]. rewrite concat_app, len_app. cbn. by rewrite app_nil_r.
Qed.

(** A chunk is counted before it is kept: past the declared size the transfer
    goes. *)
Lemma handle_chunk_RB peer m : preserves RB (_handle_chunk py_str other_key peer m).
Proof.
  intros r Hr. unfold state_after, _handle_chunk. destruct (vget "req_id" (msg_body m)) as [rid|e]; mrun; [|done].
  destruct (truthy rid).
  2:{ mrun. done. }
  unfold require_hashable. destruct (hashable rid); mrun; [|done].
  destruct (dget rid (rc_buffers r)) as [buf|] eqn:Hb; [|done].
  destruct (extract_payload (msg_body m) ["chunk"]) as [[chunk|]|e]; mrun; [|by apply abort_RB|done].
  cbv zeta. set (r1 := with_buffers _ r).
  assert (RB (with_buffers (ddel rid (rc_buffers r1)) r1)) as Hdel
    by (unfold RB, r1; cbn; rewrite ddel_dset; by apply Bounded_ddel).
  pose proof (Forall_dget _ _ _ _ (bd_sound _ Hr) Hb) as Hs. cbn in Hs.
  assert (overrun (cb_add chunk buf) <> Ok true -> RB r1) as Hkeep.
  { intros Ho. destruct (is_store buf) eqn:Hm.
    - destruct (Hs Hm) as (n & Hn & _). unfold overrun in Ho. cbn [cb_add cb_total_size cb_received] in Ho.
      rewrite (int_gt_as_int _ n) in Ho by done. apply (Bounded_dset_same _ buf); [done|done|done|].
      apply (sound_add _ _ n); [done|done|]. destruct (Z.ltb_spec n (cb_received buf + len chunk)); [done|lia].
    - by apply Bounded_dset_pull. }
  destruct (overrun (cb_add chunk buf)) as [[]|e]; mrun.
  - match goal with |- RB (fst (?c _)) => enough (preserves RB c) as Hc by by apply Hc end. pres.
    + apply untouched_RB, require_sliceable_untouched.
    + apply untouched_RB, reply_untouched.
    + apply untouched_RB, settle_opt_untouched.
  - destruct (vget "final" (msg_body m)) as [final|e]; mrun; [|by apply Hkeep].
    destruct (negb (truthy final)); [by apply Hkeep|]. mrun.
    cbn [cb_add cb_mode]; destruct (cb_mode buf); [by apply untouched_RB; [apply commit_store_untouched|]|].
    by apply untouched_RB; [apply settle_opt_untouched|].
  - by apply Hkeep.
Qed.

Lemma handle_message_RB now peer m : preserves RB (handle_message py_str other_key now peer m).
Proof.
  unfold handle_message. apply preserves_bind; [apply preserves_lift|]. intros rid.
  assert (forall t, preserves RB (if decide (t = BLOCK_DATA) then
     chunked <- mlift (vget "chunked" (msg_body m));;
     if truthy chunked then
       total_size <- mlift (vget_default "total_size" (VInt 0) (msg_body m));;
       _open_pull_buffer now peer rid total_size
     else mret tt else mret tt)) as Hopen by (intros t; pres; apply open_pull_RB).
  assert (preserves RB (_serve_store_block py_str other_key now peer m)) as Hstore
    by (unfold _serve_store_block; pres;
        [apply serve_store_chunked_RB|apply untouched_RB, serve_store_whole_untouched]).
  destruct (msg_type m);
    try (apply handle_chunk_RB);
    try (pres; apply abort_RB);
    (apply preserves_bind; [pres; apply untouched_RB, require_hashable_untouched|]; intros _;
     apply preserves_get; intros r Hr;
     match goal with |- RB (state_after ?c _) => enough (preserves RB c) as Hc by by apply Hc end;
     destruct (negb (is_none rid) && dmem rid (rc_pending r));
     [apply preserves_bind; [apply Hopen|intros _; apply untouched_RB, resolve_pending_untouched]|]);
    first [ done | apply preserves_ret | apply untouched_RB, reply_untouched
          | apply untouched_RB, serve_request_untouched | apply untouched_RB, serve_free_untouched ].
Qed.

(** *** Requests of this node *)

Lemma or_cleanup_RB {A} c (m : M rep A) :
  (forall r, RB r -> RB (c r)) -> preserves RB m -> preserves RB (or_cleanup c m).
Proof.
  intros Hc Hm r Hr. specialize (Hm r Hr). unfold state_after, or_cleanup in *.
  destruct (m r) as [r' [a|e]]; [done|by apply Hc].
Qed.

Lemma register_RB rid : preserves RB (_register_pending rid).
Proof.
  unfold _register_pending. pres; [apply untouched_RB, new_future_untouched|by apply preserves_modify].
Qed.

Lemma store_begin_RB peer rid data d key : preserves RB (store_remote_begin peer rid data d key).
Proof.
  apply preserves_get. intros r Hr.
  match goal with |- RB (state_after ?c _) => enough (preserves RB c) as Hc by by apply Hc end. cbv zeta.
  apply preserves_bind; [destruct (_ <? _); [apply untouched_RB, next_stream_untouched|apply preserves_ret]|].
  intros sid. apply preserves_bind; [apply register_RB|]. intros f.
  apply preserves_bind; [|pres]. apply or_cleanup_RB; [done|]. pres.
  - apply untouched_RB, send_to_untouched.
  - apply untouched_RB, send_chunks_untouched.
Qed.

Lemma load_begin_RB peer rid bid key : preserves RB (load_remote_begin peer rid bid key).
Proof.
  unfold load_remote_begin. apply preserves_bind; [apply register_RB|]. intros f.
  apply preserves_bind; [|pres]. apply or_cleanup_RB; [by intros r Hr; apply Bounded_ddel|]. pres.
  apply untouched_RB, send_to_untouched.
Qed.

Lemma free_begin_RB peer rid bid : preserves RB (free_remote_begin peer rid bid).
Proof.
  unfold free_remote_begin. pres; [apply register_RB|apply untouched_RB, send_to_untouched|].
  by apply preserves_modify.
Qed.

(** ** Runs *)

(** One step of a node: a message of a peer handled, one of its own requests
    begun or ended, peers or local clients at work. *)
Inductive rstep : rep -> rep -> Prop :=
  | step_handle now peer m r : rstep r (state_after (handle_message py_str other_key now peer m) r)
  | step_store_begin peer rid data d key r : rstep r (state_after (store_remote_begin peer rid data d key) r)
  | step_store_end rid timeout f r : rstep r (state_after (store_remote_end py_str rid timeout f) r)
  | step_load_begin peer rid bid key r : rstep r (state_after (load_remote_begin peer rid bid key) r)
  | step_load_cleanup rid r : rstep r (load_remote_cleanup rid r)
  | step_free_begin peer rid bid r : rstep r (state_after (free_remote_begin peer rid bid) r)
  | step_free_end rid timeout f r : rstep r (state_after (free_remote_end rid timeout f) r)
  | step_peers c r : rstep r (Rep (rc_blocks r) c (rc_out r) (rc_chunk_size r) (rc_chunk_threshold r)
      (rc_pending r) (rc_buffers r) (rc_pull_futures r) (rc_futures r) (rc_next_future r) (rc_next_stream r))
  | step_blocks b r : rstep r (with_blocks b r).

Lemma end_RB {A} rid (m : M rep A) : untouched m -> preserves RB (mmodify (pop_pending rid);;; m).
Proof. intros Hm. apply preserves_bind; [by apply preserves_modify|]. intros _. by apply untouched_RB. Qed.

Lemma rstep_RB r r' : rstep r r' -> RB r -> RB r'.
Proof.
  destruct 1; intros Hr; try done.
  - by apply handle_message_RB.
  - by apply store_begin_RB.
  - unfold store_remote_end. apply end_RB; [|done]. intros l. destruct f as [[]|]; pres.
  - by apply load_begin_RB.
  - by apply Bounded_ddel.
  - by apply free_begin_RB.
  - unfold free_remote_end. apply end_RB; [|done]. intros l. destruct f as [[]|]; pres.
Qed.

(** C18: whatever peers send, in whatever order, and whatever this node is doing
    besides, the pushes it is putting together are within what it agreed to:
    each declared between one byte and the largest block and never holds more
    than it declared, there are never more than [MAX_INBOUND_STREAMS], and so
    the memory they hold together is bounded. *)
Theorem reassembly_bounded (r0 r : rep) :
  rc_buffers r0 = [] -> rtc rstep r0 r ->
  Forall (fun kb => sound_buffer kb.2) (rc_buffers r) /\
  store_count (rc_buffers r) <= Config.MAX_INBOUND_STREAMS /\
  staged (rc_buffers r) <= Config.MAX_INBOUND_STREAMS * Config.MAX_BLOCK_SIZE.
Proof.
  intros H0 Hrun. assert (RB r) as [Hs Hc].
  { assert (RB r0) as Hr0 by (unfold RB; rewrite H0; by split).
    clear H0. induction Hrun as [|r1 r2 r3 Hstep _ IH]; [done|]. by apply IH, (rstep_RB r1). }
  split; [done|]. split; [done|]. pose proof (staged_le _ Hs). pose proof (store_count_nonneg (rc_buffers r)).
  assert (0 <= Config.MAX_BLOCK_SIZE) by done. nia.
Qed.
End bounds.

#[local] Existing Instance demo_store.

Lemma reassembly_bounded_witness :
  let r := state_after (handle_message str_of str_of 7 "b" (Msg STORE_BLOCK (VDict [("req_id", VStr "q");
      ("durability", VStr "cache"); ("chunked", VBool true); ("total_size", VInt 9)]))) (demo_node "b") in
  store_count (rc_buffers r) = 1 /\ 1 <= Config.MAX_INBOUND_STREAMS.
Proof.
  set (m := Msg STORE_BLOCK _). intros r. split; [reflexivity|].
  apply (reassembly_bounded str_of str_of (demo_node "b") r); [done|].
  apply rtc_once. constructor.
Defined.
