(* ===== verification/Interleave.v ===== *)
(** * Transfers that interleave ([memnode/replication.py])

    The multiplexer of every sender serves its streams in turn, and a node hears
    several peers at once: chunks of different transfers arrive mixed.  The
    receiver is nevertheless equivalent to one that serves whole stores, one
    after the other, in the order in which the transfers complete. *)
From S2P Require Import Prelude Config PyVal Protocol Blocks BlocksFacts BlocksSpec StoreInterface.
From S2P Require Import Replication ReplicationFacts ReplicationSpec.

(** ** Dictionaries that grow behind a part that stays *)

Section dicts.
Context {K V : Type} `{!EqDecision K}.

Lemma dget_app_r k (l l' : list (K * V)) : dget k l = None -> dget k (l ++ l') = dget k l'.
Proof. induction l as [|[k' v] l IH]; cbn; [done|]. by case_decide. Qed.

Lemma dset_app_r k v (l l' : list (K * V)) : dget k l = None -> dset k v (l ++ l') = l ++ dset k v l'.
Proof. induction l as [|[k' v'] l IH]; cbn; [done|]. case_decide; [done|]. intros Hk. by rewrite IH. Qed.

Lemma ddel_app_r k (l l' : list (K * V)) : dget k l = None -> ddel k (l ++ l') = l ++ ddel k l'.
Proof. induction l as [|[k' v'] l IH]; cbn; [done|]. case_decide; [done|]. intros Hk. by rewrite IH. Qed.

Lemma Forall_dset_at (P : K * V -> Prop) k v l : Forall P l -> P (k, v) -> Forall P (dset k v l).
Proof.
  intros Hl Hv. induction Hl as [|[k' v'] l Hk Hl IH]; cbn; [by constructor|].
  case_decide; [subst; by constructor|by constructor].
Qed.

Lemma filter_none {A} (P : A -> Prop) `{!forall x, Decision (P x)} (l : list A) :
  Forall (fun x => ~ P x) l -> filter P l = [].
Proof. induction 1 as [|x l Hx _ IH]; [done|]. by rewrite filter_cons_False. Qed.
End dicts.

Section interleave.
Context {B : Type} `{!BlockStore B} (I : B -> Prop) `{!BlockStoreLaws B I}.
Context (py_str : pyval -> string) (other_key : pyval -> string).
Abbreviation rep := (Replicator B).
Abbreviation handle := (handle_message py_str other_key).

(** ** Arrivals *)

(** A message of a peer, when it is handled. *)
Record arrival := Arr { ar_now : Z; ar_peer : string; ar_msg : Message }.

(** [run] of every connection calls the handler on what it reads and goes on
    after one that raised. *)
Definition handle_arrivals (es : list arrival) (r : rep) : rep :=
  foldl (fun r e => state_after (handle (ar_now e) (ar_peer e) (ar_msg e)) r) r es.

(** A store that a peer pushes: what it is, and the peer's replicator, which
    decides the stream, the size of the chunks and when to use them. *)
Record push := Push {
  pu_peer : string;
  pu_rid : string;
  pu_data : bytes;
  pu_durability : Durability;
  pu_key : option string;
  pu_sender : rep
}.

Definition pu_messages (p : push) : list Message :=
  store_messages (pu_rid p) (pu_data p) (pu_durability p) (pu_key p) (pu_sender p).

Definition names (rid : string) (m : Message) : bool :=
  match vget "req_id" (msg_body m) with Ok v => bool_decide (v = VStr rid) | Err _ => false end.

Definition of_push (p : push) (e : arrival) : bool :=
  bool_decide (ar_peer e = pu_peer p) && names (pu_rid p) (ar_msg e).

(** The part of the arrivals that belongs to a push. *)
Definition arrivals_of (p : push) (es : list arrival) : list Message :=
  ar_msg <$> filter (fun e => of_push p e = true) es.

(** The pushes in the order of their last arrivals. *)
Fixpoint completed (ps : list push) (es : list arrival) : list push :=
  match es with
  | [] => []
  | e :: es => filter (fun p => of_push p e && negb (existsb (of_push p) es) = true) ps ++ completed ps es
  end.

(** The store served whole. *)
Definition serve (r : rep) (p : push) : rep :=
  served (pu_peer p) (VStr (pu_rid p)) (pu_data p) (pu_durability p) (pu_key p) r.

Record sendable (p : push) : Prop := {
  se_rid : pu_rid p <> "";
  se_chunk : 0 < rc_chunk_size (pu_sender p);
  se_threshold : 0 <= rc_chunk_threshold (pu_sender p);
  se_size : len (pu_data p) <= Config.MAX_BLOCK_SIZE
}.

(** A node with room for these pushes until [t0] and the timeout. *)
Record listening (t0 : Z) (ps : list push) (r : rep) : Prop := {
  li_inv : I (rc_blocks r);
  li_connected : forall p, p ∈ ps -> pu_peer p ∈ rc_connected r;
  li_pending : forall p, p ∈ ps -> dget (VStr (pu_rid p)) (rc_pending r) = None;
  li_fresh : forall p, p ∈ ps -> dget (VStr (pu_rid p)) (rc_buffers r) = None;
  li_recent : forall now, now <= t0 + Config.INBOUND_STREAM_TIMEOUT -> stale_buffers now (rc_buffers r) = [];
  li_room : len (rc_buffers r) + len ps <= Config.MAX_INBOUND_STREAMS
}.

Lemma served_parts peer rid data d key r :
  I (rc_blocks r) -> I (rc_blocks (served peer rid data d key r)) /\
  rc_connected (served peer rid data d key r) = rc_connected r /\
  rc_pending (served peer rid data d key r) = rc_pending r /\
  rc_buffers (served peer rid data d key r) = rc_buffers r.
Proof.
  intros HI. unfold served. destruct (bs_store data d key (rc_blocks r)) as [b [id|e]] eqn:Hs; rsimpl;
    split_and!; try done.
  - by apply (bs_store_ok (I := I) _ _ _ _ _ _ HI Hs).
  - by apply (bs_store_err (I := I) _ _ _ _ _ _ HI Hs).
Qed.

Lemma served_buffers peer rid data d key bufs r :
  with_buffers bufs (served peer rid data d key r) = served peer rid data d key (with_buffers bufs r).
Proof. unfold served. rsimpl. by destruct (bs_store data d key (rc_blocks r)). Qed.

(** ** One transfer among others *)

(** What is still to come of a push, and the buffer it has so far. *)
Inductive underway (t0 : Z) (p : push) (o : option ChunkBuffer) : list Message -> Prop :=
  | not_begun : o = None -> underway t0 p o (pu_messages p)
  | in_progress seq got todo started :
      rc_chunk_threshold (pu_sender p) < len (pu_data p) ->
      t0 <= started -> todo <> [] -> Forall (fun c : bytes => c <> []) todo ->
      concat got ++ concat todo = pu_data p ->
      o = Some (add_all got (push_buffer started (pu_peer p) (len (pu_data p)) (pu_durability p) (pu_key p))) ->
      underway t0 p o (piece_messages (VStr (pu_rid p)) (rc_next_stream (pu_sender p)) (len (pu_data p)) seq
                         (len (concat got)) todo).

Lemma add_all_received got b : cb_received (add_all got b) = cb_received b + len (concat got).
Proof.
  revert b. induction got as [|c got IH]; intros b; [cbn [concat]; rewrite len_nil, Z.add_0_r; done|].
  change (add_all (c :: got) b) with (add_all got (cb_add c b)). rewrite IH. cbn [concat cb_add cb_received].
  rewrite len_app. lia.
Qed.

Lemma add_all_snoc got c b : add_all (got ++ [c]) b = cb_add c (add_all got b).
Proof. unfold add_all. by rewrite foldl_app. Qed.

Lemma add_all_started got b : cb_started_at (add_all got b) = cb_started_at b.
Proof. revert b. induction got as [|c got IH]; intros b; [done|]. apply (IH (cb_add c b)). Qed.

Lemma concat_pos (todo : list bytes) : todo <> [] -> Forall (fun c : bytes => c <> []) todo -> 0 < len (concat todo).
Proof.
  destruct todo as [|[|x c] todo]; [done|by intros _ [? _]%Forall_cons|]. intros _ _. cbn. rewrite len_cons, len_app.
  pose proof (len_nonneg c). pose proof (len_nonneg (concat todo)). lia.
Qed.

(** The buffers of the node: those it had, and those of pushes underway. *)
Record mixed (t0 : Z) (base : list (pyval * ChunkBuffer)) (todo : list push) (open : list (pyval * ChunkBuffer))
    (r : rep) : Prop := {
  mi_buffers : rc_buffers r = base ++ open;
  mi_listen : listening t0 todo (with_buffers base r);
  mi_keys : dict_ok open;
  mi_open : Forall (fun kb => (exists p, p ∈ todo /\ kb.1 = VStr (pu_rid p)) /\ t0 <= cb_started_at kb.2) open
}.

Lemma mixed_get t0 base todo open r p :
  mixed t0 base todo open r -> p ∈ todo -> dget (VStr (pu_rid p)) (rc_buffers r) = dget (VStr (pu_rid p)) open.
Proof. intros H Hp. rewrite (mi_buffers _ _ _ _ _ H). apply dget_app_r. by apply (mi_listen _ _ _ _ _ H). Qed.

Lemma mixed_ready t0 base todo open r p now :
  mixed t0 base todo open r -> p ∈ todo -> dget (VStr (pu_rid p)) open = None ->
  t0 <= now <= t0 + Config.INBOUND_STREAM_TIMEOUT -> ready I now (pu_peer p) (pu_rid p) r.
Proof.
  intros Hm Hp Hnone Hnow. pose proof Hm as [Hb [HI Hc Hpend Hf Hrec Hroom] Hk Ho].
  cbn [with_buffers rc_buffers rc_blocks rc_connected rc_pending] in *. split; try by auto.
  - by rewrite (mixed_get _ _ _ _ _ _ Hm Hp).
  - rewrite Hb. unfold stale_buffers. rewrite filter_app. fold (stale_buffers now base).
    rewrite Hrec by lia. cbn [app]. apply filter_none. eapply Forall_impl; [exact Ho|]. cbn. intros kb [_ Hs]. lia.
  - rewrite Hb, len_app. assert (length open < length todo)%nat as Hlt; [|unfold len in *; lia].
    assert (NoDup (VStr (pu_rid p) :: open.*1)) as Hnd.
    { apply NoDup_cons. split; [by apply dget_None_not_in|done]. }
    apply (NoDup_submseteq _ ((fun q => VStr (pu_rid q)) <$> todo)) in Hnd.
    + apply submseteq_length in Hnd. rewrite length_fmap in Hnd. cbn in Hnd. rewrite length_fmap in Hnd. lia.
    + intros k [->|Hin]%elem_of_cons; [apply list_elem_of_fmap; by exists p|].
      apply list_elem_of_fmap in Hin as ([k' b] & -> & Hin). rewrite Forall_forall in Ho.
      destruct (Ho _ Hin) as [(q & Hq & Hkq) _]. cbn in *. apply list_elem_of_fmap. by exists q.
Qed.

(** The transfer goes on with another buffer. *)
Lemma mixed_set t0 base todo open r p b :
  mixed t0 base todo open r -> p ∈ todo -> t0 <= cb_started_at b ->
  mixed t0 base todo (dset (VStr (pu_rid p)) b open)
    (with_buffers (dset (VStr (pu_rid p)) b (rc_buffers r)) r).
Proof.
  intros [Hb Hl Hk Ho] Hp Hs. split; [|done|by apply dict_ok_dset|apply Forall_dset_at; [done|split; [by exists p|done]]].
  rsimpl. rewrite Hb. apply dset_app_r. by apply Hl.
Qed.

(** One message of a push: the transfer goes on, or it is served. *)
Lemma arrival_step t0 base todo open r p now m ms :
  mixed t0 base todo open r -> p ∈ todo -> sendable p ->
  t0 <= now <= t0 + Config.INBOUND_STREAM_TIMEOUT ->
  underway t0 p (dget (VStr (pu_rid p)) open) (m :: ms) ->
  let r' := state_after (handle now (pu_peer p) m) r in
  (exists b, t0 <= cb_started_at b /\
     r' = with_buffers (dset (VStr (pu_rid p)) b (rc_buffers r)) r /\ underway t0 p (Some b) ms) \/
  (ms = [] /\ r' = serve (with_buffers (ddel (VStr (pu_rid p)) (rc_buffers r)) r) p).
Proof.
  intros Hm Hp [Hrid Hsz Hth Hmax] Hnow Hu r'. inversion Hu as [Hnone Hms|seq got todo' started Hbig Hst Hne Hall Hcat Hsome Hms].
  - pose proof (mixed_ready t0 base todo open r p now Hm Hp Hnone Hnow) as Hready.
    unfold pu_messages, store_messages in Hms.
    destruct (Z.ltb_spec (rc_chunk_threshold (pu_sender p)) (len (pu_data p))) as [Hbig|Hsmall].
    + injection Hms as <- <-. left.
      exists (push_buffer now (pu_peer p) (len (pu_data p)) (pu_durability p) (pu_key p)). split; [cbn; lia|].
      split; [unfold r', state_after; by rewrite (handle_store_header I) by (done || lia)|].
      assert (pieces (Z.to_nat (rc_chunk_size (pu_sender p))) (pu_data p) <> []) as Hps.
      { intros H0%(f_equal (@concat _)). rewrite pieces_concat in H0 by lia. cbn in H0. rewrite H0, len_nil in Hbig. lia. }
      apply (in_progress t0 p _ 0 [] _ now); try done; [lia|apply pieces_nonempty; lia|].
      by rewrite pieces_concat by lia.
    + injection Hms as <- <-. right. split; [done|].
      assert (ddel (VStr (pu_rid p)) (rc_buffers r) = rc_buffers r) as ->
        by (apply ddel_id; apply Hready). replace (with_buffers (rc_buffers r) r) with r by by destruct r.
      pose proof (handle_store_messages I py_str other_key now (pu_peer p) (pu_rid p) (pu_data p) (pu_durability p)
        (pu_key p) (pu_sender p) r Hready Hrid Hsz Hth Hmax) as H. unfold store_messages in H.
      rewrite (proj2 (Z.ltb_ge _ _) Hsmall) in H. exact H.
  - destruct todo' as [|c todo']; [done|]. cbn [piece_messages] in Hms. injection Hms as <- <-.
    apply Forall_cons in Hall as [Hc Hall]. cbn [concat] in Hcat.
    set (buf0 := push_buffer started (pu_peer p) (len (pu_data p)) (pu_durability p) (pu_key p)) in *.
    set (buf := add_all got buf0) in *.
    destruct (add_all_fields got buf0) as (A1 & A2 & A3 & A4 & A5 & _). fold buf in A1, A2, A3, A4, A5.
    assert (cb_received buf = len (concat got)) as Hrec by (unfold buf; rewrite add_all_received; cbn; lia).
    pose proof (f_equal (len (A := _)) Hcat) as Hlen. rewrite !len_app in Hlen. pose proof (len_nonneg (concat todo')).
    assert (dget (VStr (pu_rid p)) (rc_buffers r) = Some buf) as Hget by by rewrite (mixed_get _ _ _ _ _ _ Hm Hp).
    unfold r', state_after. rewrite handle_message_chunk.
    rewrite (handle_chunk_fits _ _ _ _ _ _ _ _ buf (len (pu_data p)));
      [|by destruct (pu_rid p)|done|done|by rewrite A2|lia].
    destruct (Z.leb_spec (len (pu_data p)) (len (concat got) + len c)) as [Hlast|Hmore].
    + right. destruct todo' as [|c' todo']; [|pose proof (concat_pos (c' :: todo') ltac:(done) Hall); lia].
      split; [done|]. rewrite A1. cbn [push_buffer buf0 cb_mode].
      assert (assemble (cb_add c buf) = pu_data p) as ->.
      { unfold assemble. cbn [cb_add cb_parts]. rewrite A3. cbn [buf0 push_buffer cb_parts app].
        rewrite concat_app. cbn [concat] in *. by rewrite app_nil_r in *. }
      destruct (mi_listen _ _ _ _ _ Hm) as [HI Hcon _ _ _ _]. rsimpl.
      rewrite (commit_store_run I other_key (pu_peer p) (VStr (pu_rid p)) _ (pu_data p) (pu_durability p) (pu_key p));
        [done|done|by apply Hcon| |by cbn [cb_add cb_key]; rewrite A5].
      cbn [cb_add cb_durability]. rewrite A4. by destruct (pu_durability p).
    + left. exists (cb_add c buf). split; [cbn [cb_add cb_started_at]; unfold buf; by rewrite add_all_started|].
      split; [done|]. destruct todo' as [|c' todo']; [cbn [concat] in *; rewrite len_nil in *; lia|].
      replace (len (concat got) + len c) with (len (concat (got ++ [c])))
        by (rewrite concat_app, len_app; cbn; by rewrite app_nil_r).
      apply (in_progress t0 p _ (seq + 1) (got ++ [c]) (c' :: todo') started); try done.
      * rewrite concat_app, <-(assoc_L app). cbn [concat]. by rewrite app_nil_r.
      * unfold buf. by rewrite <-add_all_snoc.
Qed.

(** ** All of them *)

Lemma underway_more t0 p o : ~ underway t0 p o [].
Proof.
  intros H. inversion H as [Hn Hms|seq got todo started _ _ Hne _ _ _ Hms].
  - revert Hms. unfold pu_messages, store_messages. by destruct (_ <? _).
  - by destruct todo.
Qed.

(** A message names one request. *)
Lemma names_fun rid rid' m : names rid m = true -> names rid' m = true -> rid = rid'.
Proof.
  unfold names. destruct (vget "req_id" (msg_body m)) as [v|e]; [|done].
  intros ->%bool_decide_eq_true. intros H%bool_decide_eq_true. congruence.
Qed.

Lemma of_push_fun p q e : of_push p e = true -> of_push q e = true -> pu_rid p = pu_rid q.
Proof. unfold of_push. intros [_ Hp]%andb_true_iff [_ Hq]%andb_true_iff. exact (names_fun _ _ _ Hp Hq). Qed.

Lemma arrivals_mine p e es : of_push p e = true -> arrivals_of p (e :: es) = ar_msg e :: arrivals_of p es.
Proof. intros H. unfold arrivals_of. by rewrite filter_cons_True. Qed.

Lemma arrivals_other p e es : of_push p e = false -> arrivals_of p (e :: es) = arrivals_of p es.
Proof. intros H. unfold arrivals_of. by rewrite filter_cons_False by (by rewrite H). Qed.

(** The pushes that are left when one is done. *)
Lemma mixed_done t0 base l1 p l2 open r :
  mixed t0 base (l1 ++ p :: l2) open r -> NoDup (pu_rid <$> l1 ++ p :: l2) ->
  let r' := serve (with_buffers (ddel (VStr (pu_rid p)) (rc_buffers r)) r) p in
  mixed t0 base (l1 ++ l2) (ddel (VStr (pu_rid p)) open) r' /\
  with_buffers base r' = serve (with_buffers base r) p.
Proof.
  intros [Hb [HI Hc Hpend Hf Hrec Hroom] Hk Ho] Hnd r'.
  cbn [with_buffers rc_buffers rc_blocks rc_connected rc_pending] in *.
  assert (forall q, q ∈ l1 ++ l2 -> q ∈ l1 ++ p :: l2) as Hsub
    by (intros q; rewrite !elem_of_app, elem_of_cons; naive_solver).
  assert (with_buffers base r' = serve (with_buffers base r) p) as Hbase
    by (unfold r', serve; by rewrite served_buffers).
  destruct (served_parts (pu_peer p) (VStr (pu_rid p)) (pu_data p) (pu_durability p) (pu_key p)
    (with_buffers (ddel (VStr (pu_rid p)) (rc_buffers r)) r) HI) as (HI' & Hc' & Hp' & Hb').
  fold (serve (with_buffers (ddel (VStr (pu_rid p)) (rc_buffers r)) r) p) in HI', Hc', Hp', Hb'. fold r' in HI', Hc', Hp', Hb'.
  split; [|done]. split.
  - rewrite Hb'. rsimpl. rewrite Hb. apply ddel_app_r. apply Hf. apply elem_of_app. right. left.
  - split; cbn [with_buffers rc_buffers rc_blocks rc_connected rc_pending]; try by auto.
    + intros q Hq. rewrite Hc'. by apply Hc, Hsub.
    + intros q Hq. rewrite Hp'. by apply Hpend, Hsub.
    + rewrite len_app, len_cons in Hroom. rewrite len_app. lia.
  - by apply dict_ok_ddel.
  - apply Forall_forall. intros [k b] Hin. assert (k <> VStr (pu_rid p)) as Hne.
    { apply (ddel_keys_elem (VStr (pu_rid p)) open k). apply list_elem_of_fmap. by exists (k, b). }
    assert ((k, b) ∈ open) as Hin'.
    { revert Hin. generalize open. intros l. induction l as [|[k0 b0] l IH]; cbn; [done|].
      case_decide; rewrite ?elem_of_cons; naive_solver. }
    rewrite Forall_forall in Ho. destruct (Ho _ Hin') as [(q & Hq & Hkq) Hs]. cbn in *. split; [|done].
    exists q. split; [|done]. revert Hq. rewrite !elem_of_app, elem_of_cons.
    intros [?|[->|?]]; [by left|by rewrite Hkq in Hne|by right].
Qed.

Lemma existsb_arrivals p es : existsb (of_push p) es = false <-> arrivals_of p es = [].
Proof.
  induction es as [|e es IH]; [done|]. cbn [existsb]. destruct (of_push p e) eqn:He.
  - by rewrite (arrivals_mine _ _ _ He).
  - by rewrite (arrivals_other _ _ _ He).
Qed.

(** A push with nothing to come completes nowhere. *)
Lemma completed_drop l1 p l2 es : arrivals_of p es = [] -> completed (l1 ++ p :: l2) es = completed (l1 ++ l2) es.
Proof.
  induction es as [|e es IH]; intros Hnil; [done|]. cbn [completed].
  destruct (of_push p e) eqn:He; [by rewrite (arrivals_mine _ _ _ He) in Hnil|].
  rewrite (arrivals_other _ _ _ He) in Hnil. rewrite IH by done. f_equal.
  by rewrite !filter_app, filter_cons_False by (by rewrite He).
Qed.

Lemma interleave_run t0 base es : forall todo open r,
  mixed t0 base todo open r -> Forall sendable todo -> NoDup (pu_rid <$> todo) ->
  Forall (fun e => t0 <= ar_now e <= t0 + Config.INBOUND_STREAM_TIMEOUT /\
            exists p, p ∈ todo /\ of_push p e = true) es ->
  Forall (fun p => underway t0 p (dget (VStr (pu_rid p)) open) (arrivals_of p es)) todo ->
  completed todo es ≡ₚ todo /\ handle_arrivals es r = foldl serve (with_buffers base r) (completed todo es).
Proof.
  induction es as [|e es IH]; intros todo open r Hm Hse Hnd Hes Hun.
  { destruct todo as [|p todo]; [|apply Forall_cons in Hun as [H _]; by apply underway_more in H].
    split; [done|]. pose proof Hm as [Hb _ _ Ho].
    destruct open as [|kb open]; [|apply Forall_cons in Ho as [[(q & Hq & _) _] _]; by apply not_elem_of_nil in Hq].
    cbn. rewrite app_nil_r in Hb. rewrite <-Hb. by destruct r. }
  apply Forall_cons in Hes as [(Hnow & p & Hp & Hof) Hes].
  assert (forall q, q ∈ todo -> pu_rid q = pu_rid p -> q = p) as Huniq.
  { intros q Hq Hr. apply list_elem_of_lookup in Hp as [i Hi]. apply list_elem_of_lookup in Hq as [j Hj].
    assert (i = j) as ->; [|congruence].
    eapply (NoDup_lookup _ _ _ (pu_rid p) Hnd); rewrite list_lookup_fmap; [by rewrite Hi|by rewrite Hj; cbn; rewrite Hr]. }
  assert (forall q, q ∈ todo -> q <> p -> of_push q e = false) as Hother.
  { intros q Hq Hne. destruct (of_push q e) eqn:Hqe; [|done]. destruct Hne. apply Huniq; [done|].
    by apply (of_push_fun q p e). }
  pose proof (proj1 (Forall_forall _ _) Hun) as Hun'. pose proof (Hun' p Hp) as Hup.
  cbn beta in Hup. rewrite (arrivals_mine _ _ _ Hof) in Hup. rewrite Forall_forall in Hse.
  assert (ar_peer e = pu_peer p) as Hpeer by (unfold of_push in Hof; apply andb_true_iff in Hof as [H%bool_decide_eq_true _]; done).
  change (handle_arrivals (e :: es) r)
    with (handle_arrivals es (state_after (handle (ar_now e) (ar_peer e) (ar_msg e)) r)).
  rewrite Hpeer. destruct (arrival_step t0 base todo open r p (ar_now e) (ar_msg e) _ Hm Hp (Hse p Hp) Hnow Hup)
    as [(b & Hb & -> & Hgo)|[Hnil ->]].
  - destruct (IH todo (dset (VStr (pu_rid p)) b open) _ (mixed_set _ _ _ _ _ _ b Hm Hp Hb)) as [Hord Hrun];
      [by apply Forall_forall|done|done| |].
    2:{ assert (completed todo (e :: es) = completed todo es) as ->; [|done]. cbn [completed].
        rewrite filter_none; [done|]. apply Forall_forall. intros q Hq.
        destruct (of_push q e) eqn:Hqe; [|done]. cbn [andb].
        rewrite (Huniq q Hq (of_push_fun _ _ _ Hqe Hof)). destruct (existsb (of_push p) es) eqn:Hex; [done|].
        apply existsb_arrivals in Hex. rewrite Hex in Hgo. by apply underway_more in Hgo. }
    apply Forall_forall. intros q Hq. destruct (decide (pu_rid q = pu_rid p)) as [Hr|Hne].
    + rewrite (Huniq q Hq Hr). by rewrite dget_dset_eq.
    + rewrite dget_dset_ne by congruence. specialize (Hun' q Hq). cbn beta in Hun'.
      by rewrite arrivals_other in Hun' by (apply Hother; [done|by intros ->]).
  - apply list_elem_of_split in Hp as (l1 & l2 & ->).
    destruct (mixed_done t0 base l1 p l2 open r Hm Hnd) as [Hm' Hbase].
    assert (l1 ++ p :: l2 ≡ₚ p :: l1 ++ l2) as Hperm by by rewrite <-Permutation_middle.
    assert (p ∉ l1 ++ l2) as Hnot.
    { rewrite Hperm in Hnd. cbn in Hnd. apply NoDup_cons in Hnd as [Hn _]. intros Hin. apply Hn.
      apply list_elem_of_fmap. by exists p. }
    assert (forall q, q ∈ l1 ++ l2 -> q ∈ l1 ++ p :: l2 /\ q <> p) as Hsub.
    { intros q Hq. split; [rewrite Hperm; by right|by intros ->]. }
    destruct (IH (l1 ++ l2) (ddel (VStr (pu_rid p)) open) _ Hm') as [Hord Hrun].
    + apply Forall_forall. intros q Hq. by apply Hse, Hsub.
    + rewrite Hperm in Hnd. cbn in Hnd. by apply NoDup_cons in Hnd as [_ Hnd].
    + apply Forall_forall. intros e' He'. rewrite Forall_forall in Hes. destruct (Hes e' He') as (Hn' & q & Hq & Hqe).
      split; [done|]. exists q. split; [|done]. rewrite Hperm in Hq. apply elem_of_cons in Hq as [->|Hq]; [|done].
      assert (ar_msg e' ∈ arrivals_of p es) as Hin; [|rewrite Hnil in Hin; by apply not_elem_of_nil in Hin].
      unfold arrivals_of. apply list_elem_of_fmap. exists e'. split; [done|]. by apply list_elem_of_filter.
    + apply Forall_forall. intros q Hq. destruct (Hsub q Hq) as [Hq' Hne].
      rewrite dget_ddel_ne by (intros [= Hr]; apply Hne, Huniq; [done|by symmetry]).
      specialize (Hun' q Hq'). cbn beta in Hun'. by rewrite arrivals_other in Hun' by auto.
    + assert (completed (l1 ++ p :: l2) (e :: es) = p :: completed (l1 ++ l2) es) as ->.
      { cbn [completed]. rewrite (completed_drop _ _ _ _ Hnil).
        assert (forall l, (forall q, q ∈ l -> q ∈ l1 ++ l2) ->
          filter (fun q => of_push q e && negb (existsb (of_push q) es) = true) l = []) as Hno.
        { intros l Hl. apply filter_none. apply Forall_forall. intros q Hq. destruct (Hsub q (Hl q Hq)) as [Hq' Hne].
          by rewrite (Hother q Hq' Hne). }
        rewrite filter_app, Hno by (intros q Hq; apply elem_of_app; by left).
        rewrite filter_cons_True by (rewrite Hof, (proj2 (existsb_arrivals p es) Hnil); done).
        by rewrite Hno by (intros q Hq; apply elem_of_app; by right). }
      split; [by rewrite Hord, Hperm|]. cbn [foldl]. by rewrite Hrun, Hbase.
Qed.

(** C13: transfers interleave freely: however the messages of several stores
    reach a node mixed, chunked or whole, from the same peer or from different
    ones, as long as each store's own messages keep their order, there is room
    and none stalls past the timeout, the node ends exactly as if it had served
    the stores whole and one after the other, in the order in which their last
    messages arrived: the same blocks, the same answers, no transfer left over. *)
Theorem pushes_serialize t0 ps es r :
  listening t0 ps r -> Forall sendable ps -> NoDup (pu_rid <$> ps) ->
  Forall (fun e => t0 <= ar_now e <= t0 + Config.INBOUND_STREAM_TIMEOUT /\
            exists p, p ∈ ps /\ of_push p e = true) es ->
  Forall (fun p => arrivals_of p es = pu_messages p) ps ->
  completed ps es ≡ₚ ps /\ handle_arrivals es r = foldl serve r (completed ps es).
Proof.
  intros Hl Hse Hnd Hes Hall.
  destruct (interleave_run t0 (rc_buffers r) es ps [] r) as [Hord Hrun]; [|done|done|done| |].
  - split; [by rewrite app_nil_r|by destruct r|constructor|constructor].
  - eapply Forall_impl; [exact Hall|]. cbn. intros p ->. by apply not_begun.
  - split; [done|]. rewrite Hrun. by destruct r.
Qed.
End interleave.

(** ** Witness *)

#[local] Instance mix_store : BlockStore managed := managed_store hash0 demo_env.
#[local] Instance mix_laws : BlockStoreLaws managed (managed_inv hash0) :=
  managed_laws hash0 demo_env (fun _ => rng_id_ok).

(** Two peers push three and four bytes in chunks of two; the one that began
    second ends first. *)
Definition mix_node : Replicator managed :=
  ReplicationCoordinator_init (Managed demo_manager 0) {["b"; "c"]} 2 2.
Definition push_b : push (B := managed) := Push "b" "q" (payload 3) CACHE (Some "k") (demo_node "n").
Definition push_c : push (B := managed) := Push "c" "s" (payload 4) PINNED None (demo_node "n").

Definition nth_msg (p : push (B := managed)) (i : nat) : Message := nth i (pu_messages p) (Msg PING VNone).
Definition mix_arrivals : list arrival :=
  [Arr 5 "b" (nth_msg push_b 0); Arr 5 "c" (nth_msg push_c 0); Arr 6 "b" (nth_msg push_b 1);
   Arr 6 "c" (nth_msg push_c 1); Arr 7 "c" (nth_msg push_c 2); Arr 8 "b" (nth_msg push_b 2)].

Lemma pushes_serialize_witness :
  handle_arrivals str_of str_of mix_arrivals mix_node = serve (serve mix_node push_c) push_b /\
  outcome (bs_load_by_key "k") (rc_blocks (handle_arrivals str_of str_of mix_arrivals mix_node)) = Ok (Some (payload 3)).
Proof.
  destruct (pushes_serialize (managed_inv hash0) str_of str_of 5 [push_b; push_c] mix_arrivals mix_node) as [_ H].
  - split; try done; [apply demo_Inv|..]; intros p Hp; apply elem_of_cons in Hp as [->|Hp%list_elem_of_singleton];
      subst; try done; cbn; set_solver.
  - repeat constructor; done.
  - vm_compute. repeat constructor; set_solver.
  - assert (push_b ∈ [push_b; push_c] /\ push_c ∈ [push_b; push_c]) as [Hb Hc] by (split; set_solver).
    unfold mix_arrivals. repeat (constructor; [split; [vm_compute; by split|
      first [exists push_b; split; [exact Hb|reflexivity]|exists push_c; split; [exact Hc|reflexivity]]]|]).
    constructor.
  - constructor; [reflexivity|constructor; [reflexivity|constructor]].
  - assert (completed [push_b; push_c] mix_arrivals = [push_c; push_b]) as Hord by reflexivity.
    rewrite Hord in H. split; [exact H|]. rewrite H. by vm_compute.
Defined.
