(* ===== verification/ReplicationFrame.v ===== *)
(** * What handling a message leaves alone ([memnode/replication.py])

    Requests share a node's tables of pending requests, transfers and futures.
    Handling a message of one request does not disturb another: its entry, its
    transfer and its futures stay as they were, except that a transfer that
    stalled may be given up; and everything the handler sends goes back to the
    peer and names the request of the message. *)
From S2P Require Import Prelude Config PyVal Protocol Blocks StoreInterface Replication ReplicationFacts.

Section frame.
Context {B : Type} `{!BlockStore B} (py_str : pyval -> string) (other_key : pyval -> string).
Abbreviation rep := (Replicator B).
Abbreviation MR := (M (Replicator B)).

(** Future [f] is the business of request [q] alone. *)
Record own (q : pyval) (f : nat) (r : rep) : Prop := {
  ow_old : (f < rc_next_future r)%nat;
  ow_pending : forall k, dget k (rc_pending r) = Some f -> k = q;
  ow_buffers : Forall (fun kb => cb_future kb.2 = Some f -> kb.1 = q) (rc_buffers r)
}.

(** The tables only hold futures that were handed out. *)
Record tidy (r : rep) : Prop := {
  td_dict : dict_ok (rc_buffers r);
  td_pending : forall k f, dget k (rc_pending r) = Some f -> (f < rc_next_future r)%nat;
  td_buffers : Forall (fun kb => forall f, cb_future kb.2 = Some f -> (f < rc_next_future r)%nat) (rc_buffers r)
}.

Definition names_req (rid : pyval) (m : Message) : Prop := vget "req_id" (msg_body m) = Ok rid.

(** What handling a message of [rid] from [peer] keeps of request [q]. *)
Record frame (q : pyval) (peer : string) (rid : pyval) (r0 r : rep) : Prop := {
  fr_connected : rc_connected r = rc_connected r0;
  fr_chunk : rc_chunk_size r = rc_chunk_size r0;
  fr_threshold : rc_chunk_threshold r = rc_chunk_threshold r0;
  fr_out : exists es, rc_out r = rc_out r0 ++ es /\ Forall (fun e => e.1.1 = peer /\ names_req rid e.1.2) es;
  fr_pending : dget q (rc_pending r) = dget q (rc_pending r0);
  fr_pulls : dget q (rc_pull_futures r) = dget q (rc_pull_futures r0);
  fr_shrinks : forall k f, dget k (rc_pending r) = Some f -> dget k (rc_pending r0) = Some f;
  fr_tidy : tidy r;
  fr_buffer : dget q (rc_buffers r) = dget q (rc_buffers r0) \/ dget q (rc_buffers r) = None;
  fr_future : forall f, own q f r0 -> own q f r /\
    (rc_futures r !! f = rc_futures r0 !! f \/
     dget q (rc_buffers r) = None /\ exists b e, dget q (rc_buffers r0) = Some b /\ cb_future b = Some f /\
       rc_futures r0 !! f = Some FWaiting /\ rc_futures r !! f = Some (FFailed e))
}.

Lemma frame_refl q peer rid r : tidy r -> frame q peer rid r r.
Proof. intros Hd. split; try done; [exists []; by rewrite app_nil_r|by left|by auto]. Qed.

(** Nothing but blocks, the queue of messages and the stream counter. *)
Lemma frame_same q peer rid r0 r r' :
  frame q peer rid r0 r ->
  rc_connected r' = rc_connected r -> rc_chunk_size r' = rc_chunk_size r ->
  rc_chunk_threshold r' = rc_chunk_threshold r -> rc_pending r' = rc_pending r ->
  rc_pull_futures r' = rc_pull_futures r -> rc_buffers r' = rc_buffers r ->
  rc_futures r' = rc_futures r -> rc_next_future r' = rc_next_future r ->
  (exists es, rc_out r' = rc_out r ++ es /\ Forall (fun e => e.1.1 = peer /\ names_req rid e.1.2) es) ->
  frame q peer rid r0 r'.
Proof.
  intros [] H1 H2 H3 H4 H5 H6 H7 H8 (es & Ho & Hes). split; rewrite ?H1, ?H2, ?H3, ?H4, ?H5, ?H6; try done.
  - destruct fr_out0 as (es0 & Ho0 & Hes0). exists (es0 ++ es). rewrite Ho, Ho0, <-(assoc_L app).
    split; [done|]. by apply Forall_app.
  - destruct fr_tidy0. split; rewrite ?H4, ?H6, ?H8; done.
  - intros f Hf. destruct (fr_future0 f Hf) as [[Ha Hb Hc] Hd]. rewrite H7. split; [|done].
    split; rewrite ?H8, ?H4, ?H6; done.
Qed.

Section steps.
Context (q : pyval) (peer : string) (rid : pyval) (r0 : rep) (Hne : rid <> q).
Abbreviation keeps := (preserves (frame q peer rid r0)).

Ltac same r Hr := eapply (frame_same _ _ _ _ _ _ Hr); try done; exists []; by rewrite app_nil_r.

Lemma send_to_frame m sid : names_req rid m -> keeps (send_to peer m sid).
Proof.
  intros Hm r Hr. unfold state_after, send_to. case_bool_decide; [|done].
  eapply (frame_same _ _ _ _ _ _ Hr); try done. exists [(peer, m, sid)]. split; [done|by repeat constructor].
Qed.

Lemma on_blocks_frame {A} (m : M B A) : keeps (on_blocks m).
Proof. intros r Hr. unfold state_after, on_blocks. destruct (m (rc_blocks r)). same r Hr. Qed.

Lemma next_stream_frame : keeps _next_stream.
Proof. intros r Hr. same r Hr. Qed.

Lemma new_future_frame : keeps new_future.
Proof.
  intros r Hr. unfold state_after, new_future. cbn [fst]. destruct Hr. split; try done.
  { destruct fr_tidy0 as [T1 T2 T3]. split; [done|intros k f Hk; pose proof (T2 k f Hk); cbn; lia|].
    cbn. eapply Forall_impl; [exact T3|]. cbn. intros kb Hkb f Hf. pose proof (Hkb f Hf). lia. }
  intros f Hf. destruct (fr_future0 f Hf) as [[Ha Hb Hc] Hd].
  cbn [with_futures rc_futures rc_buffers rc_pending rc_next_future].
  split; [split; cbn; [lia|done|done]|]. rewrite lookup_insert_ne by lia. done.
Qed.

(** Settling a future that is not the request's own. *)
Lemma settle_frame g v :
  (forall f, own q f r0 -> f <> g) -> keeps (settle g v).
Proof.
  intros Hg. apply preserves_modify. intros r Hr. destruct (rc_futures r !! g) as [[]|] eqn:Eg; try done.
  destruct Hr. split; try done; [by destruct fr_tidy0; split|].
  intros f Hf. destruct (fr_future0 f Hf) as [Ho Hd]. split; [by destruct Ho; split|].
  cbn [with_futures rc_futures rc_buffers]. by rewrite lookup_insert_ne by (intros ->; by apply (Hg f)).
Qed.

Lemma dget_ddel_some {V} k k' (l : list (pyval * V)) v : dget k' (ddel k l) = Some v -> dget k' l = Some v.
Proof. destruct (decide (k = k')) as [<-|]; [by rewrite dget_ddel_eq|by rewrite dget_ddel_ne]. Qed.

Lemma pending_ddel_frame k : k <> q -> keeps (mmodify (fun r : rep => with_pending (ddel k (rc_pending r)) r)).
Proof.
  intros Hk. apply preserves_modify. intros r []. split; try done.
  - cbn. by rewrite dget_ddel_ne.
  - cbn. intros k' f Hk'. by apply fr_shrinks0, (dget_ddel_some k).
  - destruct fr_tidy0 as [T1 T2 T3]. split; [done| |done]. cbn. intros k' f Hk'. by eapply T2, dget_ddel_some.
  - intros f Hf. destruct (fr_future0 f Hf) as [[Ha Hb Hc] Hd]. split; [|done]. split; [done| |done].
    cbn. intros k' Hk'. by eapply Hb, dget_ddel_some.
Qed.

Lemma tidy_ddel k r : tidy r -> tidy (with_buffers (ddel k (rc_buffers r)) r).
Proof. intros []. split; [by apply dict_ok_ddel|done|by apply Forall_ddel]. Qed.

Lemma buffers_ddel_frame k : k <> q -> keeps (mmodify (fun r : rep => with_buffers (ddel k (rc_buffers r)) r)).
Proof.
  intros Hk. apply preserves_modify. intros r []. split; try done; cbn.
  - by apply tidy_ddel.
  - by rewrite dget_ddel_ne.
  - intros f Hf. destruct (fr_future0 f Hf) as [[Ha Hb Hc] Hd]. rewrite dget_ddel_ne by done. split; [|done].
    split; [done|done|]. cbn. by apply Forall_ddel.
Qed.

Lemma buffers_dset_frame k b r :
  k <> q -> (forall f, own q f r0 -> cb_future b <> Some f) ->
  (forall f, cb_future b = Some f -> (f < rc_next_future r)%nat) ->
  frame q peer rid r0 r -> frame q peer rid r0 (with_buffers (dset k b (rc_buffers r)) r).
Proof.
  intros Hk Hb Hlt []. split; try done; cbn.
  - destruct fr_tidy0. split; [by apply dict_ok_dset|done|]. cbn. by apply Forall_dset.
  - by rewrite dget_dset_ne.
  - intros f Hf. destruct (fr_future0 f Hf) as [[Ha Hp Hc] Hd]. rewrite dget_dset_ne by done. split; [|done].
    split; [done|done|]. cbn. apply Forall_dset; [done|]. cbn. intros k' Hf'. by destruct (Hb f Hf).
Qed.

Lemma pulls_dset_frame k g : k <> q -> keeps (mmodify (fun r : rep => with_pulls (dset k g (rc_pull_futures r)) r)).
Proof.
  intros Hk. apply preserves_modify. intros r []. split; try done; [cbn; by rewrite dget_dset_ne|by destruct fr_tidy0; split|].
  intros f Hf. destruct (fr_future0 f Hf) as [[] Hd]. split; [by split|done].
Qed.

Lemma hashable_frame v : keeps (require_hashable v).
Proof. unfold require_hashable. pres. Qed.
Lemma sliceable_frame v : keeps (require_sliceable v).
Proof. unfold require_sliceable. pres. Qed.

Lemma reply_frame t body : dget "req_id" body = Some rid -> keeps (reply peer t body).
Proof. intros Hb. unfold reply. pres. apply send_to_frame. unfold names_req. cbn. by rewrite Hb. Qed.

(** ** Giving up stalled transfers *)

(** The request's own transfer is given up: its future fails. *)
Lemma drop_own_frame b e r :
  dget q (rc_buffers r0) = Some b -> frame q peer rid r0 r -> dget q (rc_buffers r) = None ->
  frame q peer rid r0 (state_after (settle_opt (cb_future b) (FFailed e)) r).
Proof.
  intros Hb Hr Hnone. destruct (cb_future b) as [g|] eqn:Eg; [|done]. unfold state_after, settle_opt, settle, mmodify.
  destruct (rc_futures r !! g) as [[]|] eqn:Hg; try done. cbn [fst].
  destruct Hr. split; try done; [by destruct fr_tidy0; split|].
  intros f Ho. destruct (fr_future0 f Ho) as [[Ha Hp Hc] Hd]. split; [by split|].
  cbn [with_futures rc_futures rc_buffers]. destruct (decide (g = f)) as [->|Hgf].
  - right. split; [done|]. exists b, e. rewrite lookup_insert_eq. split_and!; try done.
    destruct Hd as [Hd|(_ & b' & e' & _ & _ & _ & He')]; congruence.
  - by rewrite lookup_insert_ne.
Qed.

Lemma drop_stale_frame stale :
  Forall (fun kb => (kb.1 = q -> dget q (rc_buffers r0) = Some kb.2) /\
            forall f, own q f r0 -> cb_future kb.2 = Some f -> kb.1 = q) stale ->
  keeps (drop_stale stale).
Proof.
  induction stale as [|[k b] stale IH]; cbn [drop_stale]; [pres|]. intros [[Hq Hf] Hs]%Forall_cons. cbn in Hq, Hf.
  destruct (decide (k = q)) as [->|Hk].
  - specialize (Hq eq_refl). intros r Hr. unfold state_after. rewrite bind_modify.
    set (r1 := with_buffers _ r).
    assert (frame q peer rid r0 r1) as Hr1.
    { destruct Hr. split; try done; cbn; [by apply tidy_ddel|right; apply dget_ddel_eq|].
      intros f Ho. destruct (fr_future0 f Ho) as [[Ha Hp Hc] Hd]. rewrite dget_ddel_eq. split.
      - split; [done|done|]. cbn. by apply Forall_ddel.
      - destruct Hd as [Hd|[_ Hd]]; [by left|right; done]. }
    unfold require_sliceable. destruct (sliceable q); mrun; [|done].
    assert (dget q (rc_buffers r1) = None) as Hnone by (cbn; apply dget_ddel_eq).
    pose proof (drop_own_frame b (Exn RemoteOperationFailed "transfer stalled") r1 Hq Hr1 Hnone) as H.
    revert H. unfold state_after, mbind_m. destruct (settle_opt _ _ r1) as [r2 [[]|e]]; cbn [fst]; [|done].
    intros H. by apply IH.
  - pres; [by apply buffers_ddel_frame|apply sliceable_frame| |by apply IH].
    unfold settle_opt. destruct (cb_future b) as [g|]; [|pres]. apply settle_frame.
    intros f Ho ->. by apply Hk, (Hf g).
Qed.

Lemma gc_frame now : keeps (_gc_buffers now).
Proof.
  apply preserves_get. intros r Hr. apply drop_stale_frame; [|done]. apply Forall_forall.
  intros [k b] [_ Hin]%list_elem_of_filter. cbn. split.
  - intros ->. apply (elem_dget _ _ _ (td_dict _ (fr_tidy _ _ _ _ _ Hr))) in Hin.
    destruct (fr_buffer _ _ _ _ _ Hr) as [Hb|Hb]; congruence.
  - intros f Ho Hf. destruct (fr_future _ _ _ _ _ Hr f Ho) as [[_ _ Hc] _]. rewrite Forall_forall in Hc.
    by apply (Hc _ Hin).
Qed.

(** A new future belongs to nobody yet. *)
Lemma open_pull_frame now total : keeps (_open_pull_buffer now peer rid total).
Proof.
  unfold _open_pull_buffer. apply preserves_bind; [apply gc_frame|]. intros _ r Hr.
  unfold state_after. set (g := rc_next_future r).
  assert (forall f, own q f r0 -> f <> g) as Hg.
  { intros f Ho ->. destruct (fr_future _ _ _ _ _ Hr _ Ho) as [[Hlt _ _] _]. unfold g in Hlt. lia. }
  pose proof (new_future_frame r Hr) as H1. unfold mbind_m at 1. unfold new_future in *. cbn [state_after fst] in *.
  fold g. rewrite bind_modify. apply (pulls_dset_frame rid g Hne). apply buffers_dset_frame; [done| | |done]; cbn.
  - intros f Ho [= Hf]. by apply (Hg f).
  - intros f [= <-]. unfold g. lia.
Qed.

Lemma own_buffer k b r f :
  frame q peer rid r0 r -> dget k (rc_buffers r) = Some b -> k <> q -> own q f r0 -> cb_future b <> Some f.
Proof.
  intros Hr Hb Hk Ho Hf. destruct (fr_future _ _ _ _ _ Hr f Ho) as [[_ _ Hc] _].
  pose proof (Forall_dget _ _ _ _ Hc Hb) as H. by apply Hk, H.
Qed.

Lemma settle_opt_frame o v : (forall f, own q f r0 -> o <> Some f) -> keeps (settle_opt o v).
Proof. intros Ho. destruct o as [g|]; [|cbn; pres]. apply settle_frame. intros f Hf ->. by apply (Ho g). Qed.

Lemma abort_frame reason : keeps (_abort_buffer py_str rid reason).
Proof.
  unfold _abort_buffer. pres; [apply hashable_frame|]. apply preserves_get. intros r Hr.
  destruct (dget rid (rc_buffers r)) as [b|] eqn:Hb; [|done].
  match goal with |- frame _ _ _ _ (state_after ?c _) => enough (keeps c) as Hc by by apply Hc end.
  pres; [by apply buffers_ddel_frame|apply sliceable_frame|]. apply settle_opt_frame.
  intros f. by apply (own_buffer rid b r).
Qed.

(** ** Serving *)

Lemma store_value_frame data d key : keeps (store_value other_key data d key).
Proof. unfold store_value. pres; apply on_blocks_frame. Qed.
Lemma load_value_frame v : keeps (load_value v).
Proof. unfold load_value. destruct (as_int v); pres; apply on_blocks_frame. Qed.
Lemma load_key_value_frame v : keeps (load_key_value other_key v).
Proof. unfold load_key_value. pres. destruct (key_arg other_key v); pres; apply on_blocks_frame. Qed.
Lemma free_value_frame v : keeps (free_value v).
Proof. unfold free_value. destruct (as_int v); pres; apply on_blocks_frame. Qed.

Lemma commit_store_frame buf data : keeps (commit_store other_key peer rid buf data).
Proof.
  unfold commit_store. pres; [apply store_value_frame|by apply reply_frame|].
  case_decide; [|done]. simplify_eq. by apply reply_frame.
Qed.

Lemma send_pieces_frame sid total ps : forall seq offset, keeps (send_pieces peer rid sid total seq offset ps).
Proof. induction ps as [|p ps IH]; intros seq offset; cbn [send_pieces]; pres; [by apply send_to_frame|apply IH]. Qed.

Lemma send_chunks_frame sid data : keeps (_send_chunks peer rid sid data).
Proof. intros r Hr. unfold state_after, _send_chunks. repeat case_match; try done. by apply send_pieces_frame. Qed.

Lemma handle_chunk_frame m : names_req rid m -> keeps (_handle_chunk py_str other_key peer m).
Proof.
  intros Hm r Hr. unfold state_after, _handle_chunk. rewrite Hm. mrun.
  destruct (truthy rid); [|by mrun].
  unfold require_hashable. destruct (hashable rid); mrun; [|done].
  destruct (dget rid (rc_buffers r)) as [buf|] eqn:Hb; [|done].
  destruct (extract_payload (msg_body m) ["chunk"]) as [[chunk|]|e]; mrun; [|by apply abort_frame|done].
  cbv zeta. assert (forall f, own q f r0 -> cb_future buf <> Some f) as Ho by (intros f; by apply (own_buffer rid buf r)).
  set (r1 := with_buffers _ r). assert (frame q peer rid r0 r1) as Hr1.
  { apply buffers_dset_frame; [done|done| |done]. apply (Forall_dget _ _ _ _ (td_buffers _ (fr_tidy _ _ _ _ _ Hr)) Hb). }
  match goal with |- frame _ _ _ _ (fst (?c r1)) => enough (keeps c) as Hc by by apply Hc end. clear dependent r.
  pres; try by apply buffers_ddel_frame.
  all: first [by apply sliceable_frame|by apply reply_frame|by apply commit_store_frame|by apply settle_opt_frame].
Qed.

Lemma serve_store_chunked_frame now body : keeps (serve_store_chunked py_str now peer rid body).
Proof.
  unfold serve_store_chunked. pres; [by apply reply_frame|apply gc_frame|]. apply preserves_get. intros r Hr.
  match goal with |- frame _ _ _ _ (state_after ?c _) => enough (keeps c) as Hc by by apply Hc end.
  pres; [by apply reply_frame|apply hashable_frame|].
  apply preserves_modify. intros r1 Hr1. by apply buffers_dset_frame.
Qed.

Lemma serve_store_whole_frame body : keeps (serve_store_whole other_key peer rid body).
Proof.
  unfold serve_store_whole. pres.
  - destruct a as [data|]; pres; [apply store_value_frame|by apply reply_frame].
  - case_decide; simplify_eq; by apply reply_frame.
Qed.

Lemma lift_frame {A C} (x : A) (f : A -> MR C) : keeps (f x) -> keeps (a <- mlift (Ok x);; f a).
Proof. intros Hf r Hr. unfold state_after. rewrite bind_lift_ok. by apply Hf. Qed.

Lemma serve_store_frame now m : names_req rid m -> keeps (_serve_store_block py_str other_key now peer m).
Proof.
  intros Hm. unfold _serve_store_block. rewrite Hm. apply lift_frame.
  pres; [apply serve_store_chunked_frame|apply serve_store_whole_frame].
Qed.

Lemma serve_request_frame m : names_req rid m -> keeps (_serve_request_block other_key peer m).
Proof.
  intros Hm. unfold _serve_request_block, or_none. rewrite Hm. apply lift_frame. pres.
  - apply load_key_value_frame.
  - apply load_value_frame.
  - simplify_eq. pres.
  - destruct a1 as [data|]; [|by apply reply_frame]. apply preserves_get. intros r Hr.
    match goal with |- frame _ _ _ _ (state_after ?c _) => enough (keeps c) as Hc by by apply Hc end.
    destruct (len data <=? rc_chunk_threshold r); [by apply reply_frame|].
    apply preserves_bind; [apply next_stream_frame|]. pres; [by apply send_to_frame|apply send_chunks_frame|].
    case_decide; simplify_eq. pres.
Qed.

Lemma serve_free_frame m : names_req rid m -> keeps (_serve_free_block peer m).
Proof.
  intros Hm. unfold _serve_free_block. rewrite Hm. apply lift_frame. pres; simplify_eq; pres; [apply free_value_frame|].
  by apply reply_frame.
Qed.

Lemma resolve_pending_frame m : keeps (resolve_pending rid m).
Proof.
  unfold resolve_pending. apply preserves_get. intros r Hr. destruct (dget rid (rc_pending r)) as [g|] eqn:Hg; [|done].
  match goal with |- frame _ _ _ _ (state_after ?c _) => enough (keeps c) as Hc by by apply Hc end.
  pres; [by apply pending_ddel_frame|]. apply settle_frame. intros f Ho ->.
  destruct (fr_future _ _ _ _ _ Hr _ Ho) as [[_ Hp _] _]. by apply Hne, Hp.
Qed.

Lemma handle_message_frame now m : names_req rid m -> keeps (handle_message py_str other_key now peer m).
Proof.
  intros Hm. unfold handle_message. rewrite Hm. apply lift_frame.
  assert (forall t, keeps (if decide (t = BLOCK_DATA) then
     chunked <- mlift (vget "chunked" (msg_body m));;
     if truthy chunked then
       total_size <- mlift (vget_default "total_size" (VInt 0) (msg_body m));;
       _open_pull_buffer now peer rid total_size
     else mret tt else mret tt)) as Hopen by (intros t; pres; apply open_pull_frame).
  destruct (msg_type m);
    try (by apply handle_chunk_frame);
    try (pres; apply abort_frame);
    (apply preserves_bind; [pres; apply hashable_frame|]; intros _;
     apply preserves_get; intros r Hr;
     match goal with |- frame _ _ _ _ (state_after ?c _) => enough (keeps c) as Hc by by apply Hc end;
     destruct (negb (is_none rid) && dmem rid (rc_pending r));
     [apply preserves_bind; [apply Hopen|intros _; apply resolve_pending_frame]|]);
    first [ apply preserves_ret | by apply reply_frame | by apply serve_store_frame
          | by apply serve_request_frame | by apply serve_free_frame ].
Qed.
End steps.

(** Handling a message of another request. *)
Lemma handle_frame q now peer rid m r :
  names_req rid m -> rid <> q -> tidy r ->
  frame q peer rid r (state_after (handle_message py_str other_key now peer m) r).
Proof. intros Hm Hne Hd. by apply handle_message_frame; [| |apply frame_refl]. Qed.
End frame.
