(* ===== verification/Overlap.v ===== *)
(** * Requests that overlap ([memnode/replication.py])

    Any number of nodes, each with a [ReplicationCoordinator], whose clients
    store on, load from and free on each other at the same time.  A world is the
    nodes and the messages on their way; its steps are the first part of a
    request, the delivery of one message, the end of a wait (an answer or a
    timeout), and what else can happen: local use of a block store, peers that
    come and go, a connection that breaks and takes its messages with it.
    Messages of one request between two nodes keep their order, since they are
    on one stream of one connection; nothing is said about the others.  The
    chunks of a payload are queued together, so what a broken connection takes
    is the rest of a transfer: a sender that is held up between two chunks while
    its peer connects anew is outside this model (and can lose chunks in the
    middle, which the receiver does not notice: [short_push_is_stored]). *)
From S2P Require Import Prelude Config PyVal Protocol Blocks StoreInterface.
From S2P Require Import Replication ReplicationFacts ReplicationSpec ReplicationFrame Interleave.

Section worlds.
Context {B : Type} `{!BlockStore B} (py_str : pyval -> string) (other_key : pyval -> string).
Abbreviation rep := (Replicator B).
Abbreviation MR := (M (Replicator B)).
Abbreviation handle := (handle_message py_str other_key).

(** ** Requests *)

Inductive kind :=
  | KStore (data : bytes) (d : Durability) (key : option string)
  | KLoad (bid : option Z) (key : option string)
  | KFree (bid : Z).

(** Up to the wait for the reply. *)
Definition begin (k : kind) (dst rid : string) : MR nat :=
  match k with
  | KStore data d key => store_remote_begin dst rid data d (key_value key)
  | KLoad bid key => load_remote_begin dst rid (id_value bid) (key_value key)
  | KFree bid => free_remote_begin dst rid (VInt bid)
  end.

(** What the end of a request takes out of the tables. *)
Definition finish (k : kind) (rid : string) (r : rep) : rep :=
  match k with
  | KLoad _ _ => load_remote_cleanup rid r
  | _ => pop_pending (VStr rid) r
  end.

(** A request under way: who asks whom for what, and the future of its reply. *)
Record req := Req { rq_src : string; rq_dst : string; rq_kind : kind; rq_future : nat }.

(** ** Worlds *)

Record packet := Pkt { pk_src : string; pk_dst : string; pk_msg : Message }.

(** A delivery, seen at the block store of the node. *)
Record event := Ev { ev_node : string; ev_rid : string; ev_before : B; ev_after : B }.

Record world := World {
  w_nodes : gmap string rep;
  w_wire : list packet;
  w_past : list event;
  w_reqs : gmap string req
}.

(** The messages a step of node [n] queued. *)
Definition emitted (n : string) (r r' : rep) : list packet :=
  (fun x => Pkt n x.1.1 x.1.2) <$> drop (length (rc_out r)) (rc_out r').

(** The messages of a request from one node to another, in order. *)
Definition in_flow (rid src dst : string) (p : packet) : bool :=
  bool_decide (pk_src p = src) && bool_decide (pk_dst p = dst) && names rid (pk_msg p).

Definition flow (rid src dst : string) (ps : list packet) : list Message :=
  pk_msg <$> filter (fun p => in_flow rid src dst p = true) ps.

Definition with_connected (c : gset string) (r : rep) : rep :=
  Rep (rc_blocks r) c (rc_out r) (rc_chunk_size r) (rc_chunk_threshold r) (rc_pending r) (rc_buffers r)
    (rc_pull_futures r) (rc_futures r) (rc_next_future r) (rc_next_stream r).

Definition between (a b : string) (p : packet) : bool :=
  bool_decide (pk_src p = a /\ pk_dst p = b \/ pk_src p = b /\ pk_dst p = a).

Inductive wstep : world -> world -> Prop :=
  | ws_request ns wire past reqs n dst k rid r r' f :
      reqs !! rid = None -> rid <> "" -> n <> dst -> ns !! n = Some r ->
      begin k dst rid r = (r', Ok f) ->
      wstep (World ns wire past reqs)
        (World (<[n := r']> ns) (wire ++ emitted n r r') past (<[rid := Req n dst k f]> reqs))
  | ws_refused ns wire past reqs n dst k rid r r' e :
      reqs !! rid = None -> rid <> "" -> n <> dst -> ns !! n = Some r ->
      begin k dst rid r = (r', Err e) ->
      wstep (World ns wire past reqs) (World (<[n := r']> ns) (wire ++ emitted n r r') past reqs)
  | ws_deliver ns l1 p l2 past reqs now rid r :
      names rid (pk_msg p) = true -> flow rid (pk_src p) (pk_dst p) l1 = [] -> ns !! pk_dst p = Some r ->
      let r' := state_after (handle now (pk_src p) (pk_msg p)) r in
      wstep (World ns (l1 ++ p :: l2) past reqs)
        (World (<[pk_dst p := r']> ns) (l1 ++ l2 ++ emitted (pk_dst p) r r')
           (past ++ [Ev (pk_dst p) rid (rc_blocks r) (rc_blocks r')]) reqs)
  | ws_finish ns wire past reqs rid rq r :
      reqs !! rid = Some rq -> ns !! rq_src rq = Some r ->
      wstep (World ns wire past reqs)
        (World (<[rq_src rq := finish (rq_kind rq) rid r]> ns) wire past reqs)
  | ws_local ns wire past reqs n r b :
      ns !! n = Some r -> wstep (World ns wire past reqs) (World (<[n := with_blocks b r]> ns) wire past reqs)
  | ws_peers ns wire past reqs n r c :
      ns !! n = Some r -> wstep (World ns wire past reqs) (World (<[n := with_connected c r]> ns) wire past reqs)
  | ws_cut ns wire past reqs a b :
      wstep (World ns wire past reqs) (World ns (filter (fun p => between a b p = false) wire) past reqs).

(** Nodes that have just started, with a chunk size that [range] accepts. *)
Definition started (r : rep) : Prop :=
  exists blocks c size threshold, 0 < size /\ r = ReplicationCoordinator_init blocks c size threshold.

Definition reachable_world (w : world) : Prop :=
  exists ns, map_Forall (fun _ => started) ns /\ rtc wstep (World ns [] [] ∅) w.

(** ** What happened to a request *)

Definition quiet (e : event) : Prop := ev_after e = ev_before e.

(** The block store of the node ran this store, with this outcome. *)
Definition stored (data : bytes) (d : Durability) (key : option string) (res : result Z) (e : event) : Prop :=
  bs_store data d key (ev_before e) = (ev_after e, res).

(** It looked the block up, an error counting as none. *)
Definition looked_up (bid : option Z) (key : option string) (o : option bytes) (e : event) : Prop :=
  exists res, asked bid key (ev_before e) = (ev_after e, res) /\ o = match res with Ok o => o | Err _ => None end.

Definition freed (bid : Z) (b : bool) (e : event) : Prop :=
  exists res, bs_free bid (ev_before e) = (ev_after e, res) /\ b = match res with Ok b => b | Err _ => false end.

(** The deliveries of a request's messages at a node. *)
Definition events (rid n : string) (past : list event) : list event :=
  filter (fun e => ev_node e = n /\ ev_rid e = rid) past.
End worlds.
