(* ===== verification/OverlapFacts.v ===== *)
(** * Facts about overlapping requests: the phases of a request *)
From S2P Require Import Prelude Config PyVal Protocol Blocks StoreInterface.
From S2P Require Import Replication ReplicationFacts ReplicationSpec ReplicationFrame Interleave Overlap.

Section phases.
Context {B : Type} `{!BlockStore B} (py_str : pyval -> string) (other_key : pyval -> string).
Abbreviation rep := (Replicator B).
Abbreviation handle := (handle_message py_str other_key).
Abbreviation event := (event (B := B)).

Definition is_chunk (m : Message) : Prop := msg_type m = BLOCK_CHUNK.
Definition is_nack (m : Message) : Prop := msg_type m = NACK.

(** An answer in one message. *)
Record short_answer (rid : string) (m : Message) : Prop := {
  sa_names : names_req (VStr rid) m;
  sa_type : msg_type m ∈ [BLOCK_DATA; BLOCK_NOT_FOUND; NACK; FREED];
  sa_chunked : vget "chunked" (msg_body m) = Ok VNone
}.

Definition stored_reply (rid : string) (id : Z) : Message := store_reply (VStr rid) (Ok id).

(** *** A store

    [W] and [R] are its messages on their way to the peer and back, [buf] its
    transfer at the peer, [fu] the future of the requester, [evs] what its
    messages did to the peer's blocks. *)
Inductive store_phase (rid src : string) (data : bytes) (d : Durability) (key : option string)
    (W R : list Message) (buf : option ChunkBuffer) (fu : option fut) (evs : list event) : Prop :=
  | sp_before (s : rep) :
      0 < rc_chunk_size s -> W = store_messages rid data d key s \/ W = [] ->
      buf = None -> R = [] -> fu = Some FWaiting -> Forall quiet evs ->
      store_phase rid src data d key W R buf fu evs
  | sp_running sid seq got todo began :
      W = piece_messages (VStr rid) sid (len data) seq (len (concat got)) todo \/ W = [] ->
      Forall (fun c : bytes => c <> []) todo -> concat got ++ concat todo = data ->
      buf = Some (add_all got (push_buffer began src (len data) d key)) ->
      R = [] -> fu = Some FWaiting -> Forall quiet evs ->
      store_phase rid src data d key W R buf fu evs
  | sp_dead :
      buf = None -> Forall is_chunk W -> Forall (fun m => is_nack m /\ short_answer rid m) R ->
      fu = Some FWaiting \/ (exists m, fu = Some (FReply m) /\ is_nack m) ->
      Forall (fun e => quiet e \/ exists err, stored data d key (Err err) e) evs ->
      store_phase rid src data d key W R buf fu evs
  | sp_done id evs1 x evs2 :
      buf = None -> W = [] -> R = [] \/ R = [stored_reply rid id] ->
      fu = Some FWaiting \/ fu = Some (FReply (stored_reply rid id)) ->
      evs = evs1 ++ x :: evs2 -> Forall quiet evs1 -> Forall quiet evs2 -> stored data d key (Ok id) x ->
      store_phase rid src data d key W R buf fu evs.

(** *** A load

    [buf] and [pull] are the transfer and its collector at the requester, [fu]
    the future of the reply, [look] what a future holds. *)
Definition header (rid : string) (total sid : Z) : Message :=
  Msg BLOCK_DATA (VDict [("req_id", VStr rid); ("chunked", VBool true); ("total_size", VInt total);
                         ("stream_id", VInt sid)]).

Definition pull_buffer (now : Z) (peer : string) (total : Z) (g : nat) : ChunkBuffer :=
  Buf PullMode (VInt total) [] 0 VNone VNone (Some g) now peer.

Inductive load_side (rid dst : string) (f : nat) (o : option bytes)
    (R : list Message) (rs : rep) : Prop :=
  | ls_coming (r : rep) :
      0 < rc_chunk_size r -> R = load_messages rid o r \/ R = [] ->
      dget (VStr rid) (rc_buffers rs) = None -> dget (VStr rid) (rc_pull_futures rs) = None ->
      rc_futures rs !! f = Some FWaiting -> load_side rid dst f o R rs
  | ls_short m (r : rep) :
      load_messages rid o r = [m] -> short_answer rid m -> R = [] ->
      dget (VStr rid) (rc_buffers rs) = None -> rc_futures rs !! f = Some (FReply m) ->
      load_side rid dst f o R rs
  | ls_missed :
      Forall is_chunk R -> dget (VStr rid) (rc_buffers rs) = None ->
      dget (VStr rid) (rc_pull_futures rs) = None ->
      rc_futures rs !! f = Some FWaiting -> load_side rid dst f o R rs
  | ls_pulling data sid hsid g seq got todo began :
      o = Some data -> R = piece_messages (VStr rid) sid (len data) seq (len (concat got)) todo \/ R = [] ->
      Forall (fun c : bytes => c <> []) todo -> concat got ++ concat todo = data ->
      dget (VStr rid) (rc_buffers rs) = Some (add_all got (pull_buffer began dst (len data) g)) ->
      dget (VStr rid) (rc_pull_futures rs) = Some g \/ dget (VStr rid) (rc_pull_futures rs) = None ->
      rc_futures rs !! f = Some (FReply (header rid (len data) hsid)) ->
      rc_futures rs !! g = Some FWaiting -> own (VStr rid) g rs -> f <> g ->
      load_side rid dst f o R rs
  | ls_pulled data hsid g :
      o = Some data -> Forall is_chunk R -> dget (VStr rid) (rc_buffers rs) = None ->
      dget (VStr rid) (rc_pull_futures rs) = Some g \/ dget (VStr rid) (rc_pull_futures rs) = None ->
      rc_futures rs !! f = Some (FReply (header rid (len data) hsid)) ->
      (forall b, rc_futures rs !! g = Some (FBytes b) -> b = data) -> own (VStr rid) g rs ->
      load_side rid dst f o R rs.

Inductive load_phase (rid dst : string) (f : nat) (bid : option Z) (key : option string)
    (W R : list Message) (rs : rep) (evs : list event) : Prop :=
  | lp_before :
      W = [request_message rid bid key] \/ W = [] -> R = [] -> evs = [] ->
      dget (VStr rid) (rc_buffers rs) = None -> dget (VStr rid) (rc_pull_futures rs) = None ->
      rc_futures rs !! f = Some FWaiting -> load_phase rid dst f bid key W R rs evs
  | lp_answered x o :
      W = [] -> evs = [x] -> looked_up bid key o x -> load_side rid dst f o R rs ->
      load_phase rid dst f bid key W R rs evs.

(** *** A free *)

Definition free_message (rid : string) (bid : Z) : Message :=
  Msg FREE_BLOCK (VDict [("req_id", VStr rid); ("block_id", VInt bid)]).
Definition freed_reply (rid : string) (b : bool) : Message :=
  Msg FREED (VDict [("req_id", VStr rid); ("freed", VBool b)]).

Inductive free_phase (rid : string) (bid : Z) (W R : list Message) (fu : option fut) (evs : list event) : Prop :=
  | fp_before :
      W = [free_message rid bid] \/ W = [] -> R = [] -> evs = [] -> fu = Some FWaiting ->
      free_phase rid bid W R fu evs
  | fp_answered x b :
      W = [] -> evs = [x] -> freed bid b x -> R = [] \/ R = [freed_reply rid b] ->
      fu = Some FWaiting \/ fu = Some (FReply (freed_reply rid b)) ->
      free_phase rid bid W R fu evs.

(** ** Steps that are not the request's *)

(** Its messages stay or are lost. *)
Definition same_or_lost (W R W' R' : list Message) : Prop := W' = W /\ R' = R \/ W' = [] /\ R' = [].

Lemma piece_messages_chunks rid sid total ps : forall seq off,
  Forall is_chunk (piece_messages rid sid total seq off ps).
Proof. induction ps as [|p ps IH]; intros seq off; cbn; constructor; [done|apply IH]. Qed.

Lemma store_phase_weaken rid src data d key W R buf fu evs W' R' buf' :
  store_phase rid src data d key W R buf fu evs -> same_or_lost W R W' R' -> buf' = buf \/ buf' = None ->
  store_phase rid src data d key W' R' buf' fu evs.
Proof.
  intros Hp Hl Hb. destruct Hp as [s Hs HW -> -> -> He|sid seq got todo began HW Hne Hcat -> -> -> He
    | -> HW HR Hf He|id e1 x e2 -> -> HR Hf -> H1 H2 Hx].
  - apply (sp_before _ _ _ _ _ _ _ _ _ _ s); [done| | | |done|done]; destruct Hl as [[-> ->]|[-> ->]]; naive_solver.
  - destruct Hb as [->| ->].
    + eapply sp_running; [|done|done|done| |done|done]; destruct Hl as [[-> ->]|[-> ->]]; eauto.
    + apply sp_dead; [done| | |by left|eapply Forall_impl; [exact He|by left]].
      * destruct Hl as [[-> _]|[-> _]]; [|done]. destruct HW as [->| ->]; [apply piece_messages_chunks|done].
      * destruct Hl as [[_ ->]|[_ ->]]; done.
  - apply sp_dead; [naive_solver| | |done|done]; destruct Hl as [[-> ->]|[-> ->]]; done.
  - eapply sp_done; [naive_solver| | |done|done|done|done|done]; destruct Hl as [[-> ->]|[-> ->]]; auto.
Qed.

Lemma free_phase_weaken rid bid W R fu evs W' R' :
  free_phase rid bid W R fu evs -> same_or_lost W R W' R' -> free_phase rid bid W' R' fu evs.
Proof.
  intros Hp Hl. destruct Hp as [HW -> -> ->|x b -> -> Hx HR Hf].
  - apply fp_before; [| |done|done]; destruct Hl as [[-> ->]|[-> ->]]; auto.
  - apply (fp_answered _ _ _ _ _ _ x b); [|done|done| |done]; destruct Hl as [[-> ->]|[-> ->]]; auto.
Qed.

(** What other requests, and the end of this one, may do to its entries. *)
Record spared (q : pyval) (r r' : rep) : Prop := {
  spd_pending : dget q (rc_pending r') = dget q (rc_pending r) \/ dget q (rc_pending r') = None;
  spd_pulls : dget q (rc_pull_futures r') = dget q (rc_pull_futures r) \/ dget q (rc_pull_futures r') = None;
  spd_buffer : dget q (rc_buffers r') = dget q (rc_buffers r) \/ dget q (rc_buffers r') = None;
  spd_future : forall f, own q f r -> own q f r' /\
    (rc_futures r' !! f = rc_futures r !! f \/
     dget q (rc_buffers r') = None /\ exists b e, dget q (rc_buffers r) = Some b /\ cb_future b = Some f /\
       rc_futures r !! f = Some FWaiting /\ rc_futures r' !! f = Some (FFailed e))
}.

(** The future of a reply is not that of a transfer. *)
Lemma spared_reply q f r r' :
  spared q r r' -> own q f r -> (forall b, dget q (rc_buffers r) = Some b -> cb_future b <> Some f) ->
  own q f r' /\ rc_futures r' !! f = rc_futures r !! f.
Proof.
  intros Hs Ho Hb. destruct (spd_future _ _ _ Hs f Ho) as [Ho' [Hf|(_ & b & e & Hq & Hg & _)]]; [done|].
  by destruct (Hb b Hq).
Qed.

Lemma load_side_weaken rid dst f o R rs R' rs' :
  load_side rid dst f o R rs -> R' = R \/ R' = [] -> own (VStr rid) f rs -> spared (VStr rid) rs rs' ->
  load_side rid dst f o R' rs'.
Proof.
  intros Hl HR Ho Hs.
  assert ((forall b, dget (VStr rid) (rc_buffers rs) = Some b -> cb_future b <> Some f) ->
    rc_futures rs' !! f = rc_futures rs !! f) as Hf by (intros; by apply (spared_reply _ f rs rs' Hs Ho)).
  destruct (spd_buffer _ _ _ Hs) as [Hb|Hb]; destruct (spd_pulls _ _ _ Hs) as [Hp|Hp];
  destruct Hl as [r Hr HR0 Hbuf Hpull Hfu|m r Hm Hsa HR0 Hbuf Hfu|HR0 Hbuf Hpull Hfu
    |data sid hsid g seq got todo began Hd HR0 Hne Hcat Hbuf Hpull Hfu Hg Hog Hfg
    |data hsid g Hd HR0 Hbuf Hpull Hfu Hg Hog];
  try (rewrite <-Hf in Hfu by (intros b' Hb'; rewrite Hbuf in Hb'; try done;
         injection Hb' as <-; rewrite (proj2 (proj2 (proj2 (proj2 (proj2 (add_all_fields got _)))))); cbn; congruence)).
  all: try (eapply ls_coming; [exact Hr| |congruence|congruence|done]; naive_solver).
  all: try (eapply ls_short; [exact Hm|done|naive_solver|congruence|done]).
  all: try (apply ls_missed; [destruct HR as [->| ->]; done|congruence|congruence|done]).
  all: destruct (spd_future _ _ _ Hs g Hog) as [Hog' Hg'].
  all: try (eapply ls_pulled; [exact Hd|destruct HR as [->| ->]; done|congruence
    |rewrite Hp; naive_solver|done| |done];
    intros b Hb'; destruct Hg' as [Hg'|(_ & b0 & e & _ & _ & _ & Hg')]; [rewrite Hg' in Hb'; by apply Hg|congruence]).
  all: try (eapply ls_pulled; [exact Hd| |congruence
    |rewrite Hp; naive_solver|done| |done];
    [destruct HR as [->| ->]; [destruct HR0 as [->| ->]; [apply piece_messages_chunks|done]|done]
    |intros b Hb'; destruct Hg' as [Hg'|(_ & b0 & e & _ & _ & _ & Hg')]; congruence]).
  all: eapply ls_pulling; [exact Hd| |exact Hne|exact Hcat|by rewrite Hb|rewrite Hp; naive_solver|done| |done|done];
    [destruct HR as [->| ->]; eauto|destruct Hg' as [Hg'|(Hn & _)]; congruence].
Qed.

Lemma load_phase_weaken rid dst f bid key W R rs evs W' R' rs' :
  load_phase rid dst f bid key W R rs evs -> same_or_lost W R W' R' -> own (VStr rid) f rs ->
  spared (VStr rid) rs rs' -> load_phase rid dst f bid key W' R' rs' evs.
Proof.
  intros Hp Hl Ho Hs. destruct Hp as [HW -> -> Hbuf Hpull Hf|x o -> -> Hx Hside].
  - apply lp_before; [| |done| | |].
    1,2: destruct Hl as [[-> ->]|[-> ->]]; auto.
    + destruct (spd_buffer _ _ _ Hs); congruence.
    + destruct (spd_pulls _ _ _ Hs); congruence.
    + rewrite (proj2 (spared_reply _ _ _ _ Hs Ho ltac:(intros b Hb; congruence))). done.
  - apply (lp_answered _ _ _ _ _ _ _ _ _ x o); [destruct Hl as [[-> ->]|[-> ->]]; done|done|done|].
    apply (load_side_weaken rid dst f o R rs); [done|destruct Hl as [[_ ->]|[_ ->]]; auto|done|done].
Qed.

(** ** One message of the request *)

Lemma with_out_nil (r : rep) : with_out (rc_out r ++ []) r = r.
Proof. rewrite app_nil_r. by destruct r. Qed.

Lemma reply_any peer t body (r : rep) :
  exists es, reply peer t body r = (with_out (rc_out r ++ es) r, Ok tt) /\
    (es = [] /\ peer ∉ rc_connected r \/ es = [(peer, Msg t (VDict body), None)]).
Proof.
  destruct (decide (peer ∈ rc_connected r)) as [Hc|Hc].
  - eexists. split; [by apply reply_run|by right].
  - exists []. split; [|by left]. unfold reply, send_to, mbind_m. rewrite bool_decide_eq_false_2 by done.
    by rewrite with_out_nil.
Qed.

(** The answer to a store, if it can be sent. *)
Definition caught (e : exn) : Prop := exn_cls e = BlockTooLarge \/ exn_cls e = OutOfMemory.

Definition answers (peer rid : string) (r : rep) (res : result Z) (es : list (string * Message * option Z)) : Prop :=
  es = [] /\ (peer ∉ rc_connected r \/ exists e, res = Err e /\ ~ caught e) \/ exists m, es = [(peer, m, None)] /\
    match res with Ok id => m = stored_reply rid id | Err _ => is_nack m /\ short_answer rid m end.

Lemma nack_answer rid err : short_answer rid (Msg NACK (VDict [("req_id", VStr rid); ("error", err)])).
Proof. split; [done|set_solver|done]. Qed.

Lemma stored_answer rid id : short_answer rid (stored_reply rid id).
Proof. split; [done|set_solver|done]. Qed.

Lemma store_run data d key (r : rep) b res :
  bs_store data d key (rc_blocks r) = (b, res) ->
  store_value other_key data d (key_value key) r = (with_blocks b r, res).
Proof. intros H. rewrite store_value_key. by apply on_blocks_run. Qed.

Lemma commit_any peer rid buf data d key (r : rep) :
  Durability_of (cb_durability buf) = Ok d -> cb_key buf = key_value key ->
  exists b res es, bs_store data d key (rc_blocks r) = (b, res) /\
    state_after (commit_store other_key peer (VStr rid) buf data) r
      = with_out (rc_out r ++ es) (with_blocks b r) /\ answers peer rid r res es.
Proof.
  intros Hd Hk. destruct (bs_store data d key (rc_blocks r)) as [b res] eqn:Hs. exists b, res.
  unfold state_after, commit_store. rewrite Hd, Hk. mrun. unfold mtry, mbind_m. rewrite (store_run _ _ _ _ _ _ Hs).
  destruct res as [id|e].
  - destruct (reply_any peer BLOCK_DATA [("req_id", VStr rid); ("block_id", VInt id)] (with_blocks b r))
      as (es & -> & He). exists es. split_and!; [done|done|]. destruct He as [[-> Hoff]| ->]; [left; split; [done|by left]|right; by eexists].
  - case_decide; cbn [fst].
    + destruct (reply_any peer NACK [("req_id", VStr rid); ("error", VStr (exn_msg e))] (with_blocks b r))
        as (es & -> & He). exists es. split_and!; [done|done|].
      destruct He as [[-> Hoff]| ->]; [left; split; [done|by left]|right; eexists; split; [done|split; [done|apply nack_answer]]].
    + exists []. split_and!; [done|symmetry; apply (with_out_nil (with_blocks b r))|]. left. split; [done|right; by exists e].
Qed.

Lemma whole_any peer rid data d key body (r : rep) :
  extract_payload body ["data"] = Ok (Some data) ->
  durability_field body = Ok (VStr (Durability_value d)) -> vget "key" body = Ok (key_value key) ->
  exists b res es, bs_store data d key (rc_blocks r) = (b, res) /\
    state_after (serve_store_whole other_key peer (VStr rid) body) r
      = with_out (rc_out r ++ es) (with_blocks b r) /\ answers peer rid r res es.
Proof.
  intros Hdata Hdur Hkey. destruct (bs_store data d key (rc_blocks r)) as [b res] eqn:Hs. exists b, res.
  unfold state_after, serve_store_whole. rewrite Hdata, Hdur, Hkey. unfold mtry. mrun.
  assert (Durability_of (VStr (Durability_value d)) = Ok d) as -> by by destruct d. mrun.
  unfold mbind_m. rewrite (store_run _ _ _ _ _ _ Hs). destruct res as [id|e].
  - destruct (reply_any peer BLOCK_DATA [("req_id", VStr rid); ("block_id", VInt id)] (with_blocks b r))
      as (es & -> & He). exists es. split_and!; [done|done|]. destruct He as [[-> Hoff]| ->]; [left; split; [done|by left]|right; by eexists].
  - case_decide; cbn [fst];
      (match goal with |- context [reply peer NACK ?bd _] =>
         destruct (reply_any peer NACK bd (with_blocks b r)) as (es & -> & He) end;
       exists es; split_and!; [done|done|];
       destruct He as [[-> Hoff]| ->]; [left; split; [done|by left]|right; eexists; split; [done|split; [done|apply nack_answer]]]).
Qed.

(** Giving up stalled transfers only touches transfers and futures. *)
Lemma gc_effect now (r : rep) :
  exists bufs futs, state_after (_gc_buffers now) r = with_buffers bufs (with_futures futs (rc_next_future r) r).
Proof.
  set (P := fun r' : rep => exists bufs futs, r' = with_buffers bufs (with_futures futs (rc_next_future r) r)).
  enough (preserves P (_gc_buffers now)) as H.
  { apply (H r). exists (rc_buffers r), (rc_futures r). by destruct r. }
  apply preserves_get. intros r1 H1. generalize (stale_buffers now (rc_buffers r1)). intros stale.
  enough (preserves P (drop_stale stale)) as H by by apply H. clear r1 H1.
  induction stale as [|[k b] stale IH]; cbn [drop_stale]; pres.
  - apply preserves_modify. intros s (bufs & futs & ->). by exists (ddel k bufs), futs.
  - unfold require_sliceable. pres.
  - destruct (cb_future b) as [g|]; [|cbn; pres]. apply preserves_modify. intros s (bufs & futs & ->).
    destruct (_ !! g) as [[]|]; try by exists bufs, futs. cbn [with_buffers with_futures rc_futures rc_next_future].
    by exists bufs, (<[g := FFailed (Exn RemoteOperationFailed "transfer stalled")]> futs).
  - done.
Qed.

Lemma gc_keeps q now (r : rep) :
  tidy r -> frame q "" VNone r (state_after (_gc_buffers now) r).
Proof. intros Hd. by apply gc_frame, frame_refl. Qed.

(** The header of a chunked store opens the transfer, or there is none. *)
Lemma store_header_step now peer rid d key total sid (r : rep) :
  dget (VStr rid) (rc_pending r) = None -> dget (VStr rid) (rc_buffers r) = None -> tidy r ->
  let m := Msg STORE_BLOCK (store_body rid d key
      [("chunked", VBool true); ("total_size", VInt total); ("stream_id", VInt sid)]) in
  let r' := state_after (handle now peer m) r in
  rc_blocks r' = rc_blocks r /\ rc_pending r' = rc_pending r /\ exists es, rc_out r' = rc_out r ++ es /\
  (es = [] /\ 0 < total /\ dget (VStr rid) (rc_buffers r') = Some (push_buffer now peer total d key) \/
   dget (VStr rid) (rc_buffers r') = None /\
     (es = [] /\ (peer ∉ rc_connected r \/ stale_buffers now (rc_buffers r) <> []) \/
      exists m, es = [(peer, m, None)] /\ is_nack m /\ short_answer rid m)).
Proof.
  intros Hp Hb Hd m r'. set (rest := [("chunked", VBool true); ("total_size", VInt total); ("stream_id", VInt sid)]) in m.
  destruct (store_body_fields rid d key rest) as (F1 & F2 & F3 & F4).
  assert (r' = state_after (serve_store_chunked py_str now peer (VStr rid) (store_body rid d key rest)) r) as Hr'.
  { unfold r', state_after, m. rewrite handle_store by done. unfold _serve_store_block. cbn [msg_body].
    rewrite F1, (F4 "chunked") by done. by mrun. }
  clearbody r'. unfold state_after, serve_store_chunked in Hr'. revert Hr'.
  assert (vget_default "total_size" (VInt 0) (store_body rid d key rest) = Ok (VInt total)) as -> by by destruct key.
  mrun. destruct (acceptable_size (VInt total)) eqn:Hacc; cbn [negb].
  2:{ match goal with |- context [reply peer NACK ?bd r] => destruct (reply_any peer NACK bd r) as (es & -> & He) end.
      cbn [fst]. intros ->. split_and!; [done|done|]. exists es. split; [done|]. right. split; [done|].
      destruct He as [[-> Hoff]| ->]; [left; split; [done|by left]|right; eexists; split_and!; [done|done|apply nack_answer]]. }
  assert (0 < total) as Htot.
  { unfold acceptable_size in Hacc. cbn in Hacc. destruct (Z.leb_spec total 0); [done|lia]. }
  destruct (gc_effect now r) as (bufs & futs & Hg). pose proof (gc_keeps (VStr rid) now r Hd) as Hk.
  unfold state_after in Hg, Hk. unfold mbind_m at 1. destruct (_gc_buffers now r) as [r1 [[]|e]] eqn:Hgc; cbn [fst] in *.
  2:{ intros ->. rewrite Hg in *. split_and!; [done|done|]. exists []. split; [by rewrite app_nil_r|]. right.
      split; [|left; split; [done|right; intros Hst; by rewrite (gc_nothing now r Hst) in Hgc]]. destruct (fr_buffer _ _ _ _ _ Hk); congruence. }
  assert (dget (VStr rid) (rc_buffers r1) = None) as Hn by (destruct (fr_buffer _ _ _ _ _ Hk); congruence).
  assert (rc_blocks r1 = rc_blocks r /\ rc_pending r1 = rc_pending r /\ rc_out r1 = rc_out r) as (G1 & G2 & G3)
    by by rewrite Hg.
  rewrite bind_get. destruct (_ <=? _).
  - match goal with |- context [reply peer NACK ?bd r1] => destruct (reply_any peer NACK bd r1) as (es & -> & He) end.
    cbn [fst]. intros ->. split_and!; [done|done|]. exists es. cbn. rewrite G3. split; [done|]. right. split; [done|].
    destruct He as [[-> Hoff]| ->]; [left; split; [done|left; by rewrite <-(fr_connected _ _ _ _ _ Hk)]|right; eexists; split_and!; [done|done|apply nack_answer]].
  - rewrite F2, F3 by done. mrun. unfold require_hashable. cbn [hashable]. mrun. cbn [fst mmodify]. intros ->.
    split_and!; [done|done|]. exists []. rewrite app_nil_r. split; [done|]. left. split_and!; [done|done|].
    cbn. apply dget_dset_eq.
Qed.

(** The next chunk of a transfer: kept, or the last one, and the transfer ends
    with the whole payload. *)
Lemma chunk_step now peer rid data sid seq got c todo buf0 (r : rep) :
  rid <> "" -> Forall (fun c : bytes => c <> []) (c :: todo) -> concat got ++ concat (c :: todo) = data ->
  cb_total_size buf0 = VInt (len data) -> cb_received buf0 = 0 -> cb_parts buf0 = [] ->
  dget (VStr rid) (rc_buffers r) = Some (add_all got buf0) ->
  let m := chunk_message (VStr rid) sid seq c (len data <=? len (concat got) + len c) in
  let r' := state_after (handle now peer m) r in
  todo <> [] /\ r' = with_buffers (dset (VStr rid) (add_all (got ++ [c]) buf0) (rc_buffers r)) r \/
  todo = [] /\ r' = state_after
    (match cb_mode buf0 with
     | PullMode => settle_opt (cb_future buf0) (FBytes data)
     | StoreMode => commit_store other_key peer (VStr rid) (add_all (got ++ [c]) buf0) data
     end) (with_buffers (ddel (VStr rid) (rc_buffers r)) r).
Proof.
  intros Hrid Hall Hcat Htot Hzero Hparts Hb m r'. apply Forall_cons in Hall as [Hc Hall]. cbn [concat] in Hcat.
  set (buf := add_all got buf0) in *.
  destruct (add_all_fields got buf0) as (A1 & A2 & A3 & _ & _ & A6). fold buf in A1, A2, A3, A6.
  assert (cb_received buf = len (concat got)) as Hrec by (unfold buf; rewrite add_all_received; lia).
  pose proof (f_equal (len (A := _)) Hcat) as Hlen. rewrite !len_app in Hlen. pose proof (len_nonneg (concat todo)).
  unfold r', state_after, m. rewrite handle_message_chunk.
  rewrite (handle_chunk_fits _ _ _ _ _ _ _ _ buf (len data)); [|by destruct rid|done|done|by rewrite A2|lia].
  rewrite add_all_snoc. fold buf.
  destruct (Z.leb_spec (len data) (len (concat got) + len c)) as [Hlast|Hmore].
  - right. destruct todo as [|c' todo]; [|pose proof (concat_pos (c' :: todo) ltac:(done) Hall); lia].
    split; [done|]. rewrite A1, A6.
    assert (assemble (cb_add c buf) = data) as ->; [|done].
    unfold assemble. cbn [cb_add cb_parts]. rewrite A3, Hparts. cbn [app].
    rewrite concat_app. cbn [concat] in *. by rewrite app_nil_r in *.
  - left. split; [|done]. intros ->. cbn [concat] in *. rewrite len_nil in *. lia.
Qed.

Lemma store_chunk_step now peer rid data d key sid seq got c todo began (r : rep) :
  rid <> "" -> Forall (fun c : bytes => c <> []) (c :: todo) -> concat got ++ concat (c :: todo) = data ->
  dget (VStr rid) (rc_buffers r) = Some (add_all got (push_buffer began peer (len data) d key)) ->
  let m := chunk_message (VStr rid) sid seq c (len data <=? len (concat got) + len c) in
  let r' := state_after (handle now peer m) r in
  todo <> [] /\ r' = with_buffers (dset (VStr rid) (add_all (got ++ [c]) (push_buffer began peer (len data) d key))
                                     (rc_buffers r)) r \/
  todo = [] /\ exists b res es, bs_store data d key (rc_blocks r) = (b, res) /\ answers peer rid r res es /\
    r' = with_out (rc_out r ++ es) (with_blocks b (with_buffers (ddel (VStr rid) (rc_buffers r)) r)).
Proof.
  intros Hrid Hall Hcat Hb m r'.
  destruct (chunk_step now peer rid data sid seq got c todo (push_buffer began peer (len data) d key) r
    Hrid Hall Hcat eq_refl eq_refl eq_refl Hb) as [[Ht Hr]|[Ht Hr]]; fold m r' in Hr; [by left|right].
  split; [done|]. destruct (add_all_fields (got ++ [c]) (push_buffer began peer (len data) d key)) as (_ & _ & _ & A4 & A5 & _).
  destruct (commit_any peer rid (add_all (got ++ [c]) (push_buffer began peer (len data) d key)) data d key
    (with_buffers (ddel (VStr rid) (rc_buffers r)) r)) as (b & res & es & Hs & Hst & Ha).
  - rewrite A4. by destruct d.
  - by rewrite A5.
  - exists b, res, es. split_and!; [done|done|]. by rewrite Hr.
Qed.

(** A chunk for which there is no transfer. *)
Lemma stray_chunk_step now peer rid m (r : rep) :
  is_chunk m -> names_req (VStr rid) m -> dget (VStr rid) (rc_buffers r) = None ->
  state_after (handle now peer m) r = r.
Proof.
  intros Hc Hn Hb. unfold state_after, handle_message. rewrite Hn. mrun. rewrite Hc. unfold _handle_chunk.
  rewrite Hn. mrun. unfold require_hashable. cbn [hashable]. destruct (truthy (VStr rid)); mrun; by rewrite ?Hb.
Qed.

(** An answer in one message: for the future that waits for it, or for nobody. *)
Lemma answer_step now peer rid m (r : rep) :
  short_answer rid m ->
  let r' := state_after (handle now peer m) r in
  r' = r \/ exists f, dget (VStr rid) (rc_pending r) = Some f /\
    r' = state_after (settle f (FReply m)) (with_pending (ddel (VStr rid) (rc_pending r)) r).
Proof.
  intros [Hn Ht Hch] r'. unfold r', state_after. destruct (dget (VStr rid) (rc_pending r)) as [f|] eqn:Hp.
  - right. exists f. split; [done|]. rewrite (handle_pending py_str other_key now peer rid f);
      [|intros E; rewrite E in Ht; set_solver|intros E; rewrite E in Ht; set_solver|done|done].
    rewrite Hch. destruct (decide (msg_type m = BLOCK_DATA)); rewrite ?bind_assoc; mrun; cbn [truthy]; mrun;
      unfold resolve_pending; rewrite bind_get, Hp, bind_modify; done.
  - left. unfold handle_message. rewrite Hn. mrun. cbn [is_none]. unfold require_hashable. cbn [hashable].
    rewrite !elem_of_cons, elem_of_nil in Ht.
    destruct_or! Ht; try done; rewrite Ht; mrun; unfold dmem; by rewrite Hp.
Qed.

(** ** Steps of a request *)

(** What a step queues for the peer it answers. *)
Definition replies (r r' : rep) : list Message := (fun x => x.1.2) <$> drop (length (rc_out r)) (rc_out r').

Lemma replies_app r r' es : rc_out r' = rc_out r ++ es -> replies r r' = (fun x => x.1.2) <$> es.
Proof. intros H. unfold replies. by rewrite H, drop_app_length. Qed.

Lemma replies_none r r' : rc_out r' = rc_out r -> replies r r' = [].
Proof. intros H. apply (replies_app r r' []). by rewrite app_nil_r. Qed.

(** A step that sends nothing and leaves the blocks alone. *)
Definition silent (r r' : rep) : Prop := replies r r' = [] /\ rc_blocks r' = rc_blocks r.

Lemma silent_none r r' : rc_out r' = rc_out r -> rc_blocks r' = rc_blocks r -> silent r r'.
Proof. intros Ho Hb. split; [by apply replies_none|done]. Qed.

Lemma settle_effect g v (r : rep) :
  exists futs, state_after (settle g v) r = with_futures futs (rc_next_future r) r /\
    (futs = rc_futures r /\ rc_futures r !! g <> Some FWaiting \/
     rc_futures r !! g = Some FWaiting /\ futs = <[g := v]> (rc_futures r)).
Proof.
  unfold state_after, settle, mmodify. cbn [fst]. destruct (rc_futures r !! g) as [[]|] eqn:Hg.
  1: exists (<[g := v]> (rc_futures r)); split; [done|by right].
  all: exists (rc_futures r); split; [by destruct r|by left; rewrite ?Hg].
Qed.

(** An answer that arrives at the requester. *)
Lemma answer_effect now peer rid f m (r : rep) :
  short_answer rid m -> (forall g, dget (VStr rid) (rc_pending r) = Some g -> g = f) -> own (VStr rid) f r ->
  let r' := state_after (handle now peer m) r in
  own (VStr rid) f r' /\ silent r r' /\ rc_buffers r' = rc_buffers r /\ rc_pull_futures r' = rc_pull_futures r /\
  (r' = r \/ rc_futures r' !! f = rc_futures r !! f /\ rc_futures r !! f <> Some FWaiting \/
   rc_futures r !! f = Some FWaiting /\ rc_futures r' !! f = Some (FReply m)).
Proof.
  intros Hm Hp Ho r'. destruct (answer_step now peer rid m r Hm) as [Hr|(g & Hg & Hr)]; fold r' in Hr.
  { rewrite Hr. split_and!; try done; [by apply silent_none|by left]. }
  pose proof (Hp g Hg) as ->. destruct (settle_effect f (FReply m) (with_pending (ddel (VStr rid) (rc_pending r)) r))
    as (futs & Hs & Hf). rewrite Hs in Hr. rewrite Hr. cbn in Hf. split_and!; [|by apply silent_none|done|done|].
  - destruct Ho as [H1 H2 H3]. split; cbn; [done| |done]. intros k Hk. apply H2. by eapply dget_ddel_some.
  - right. cbn. destruct Hf as [[-> Hw]|[Hw ->]]; [by left|right; by rewrite lookup_insert_eq].
Qed.

(** *** A store *)

(** [evs] with one more delivery at the peer. *)
Definition and_then (evs : list event) (n rid : string) (r r' : rep) : list event :=
  evs ++ [Ev n rid (rc_blocks r) (rc_blocks r')].

Lemma quiet_then evs n rid (r r' : rep) :
  rc_blocks r' = rc_blocks r -> Forall quiet evs -> Forall quiet (and_then evs n rid r r').
Proof. intros Hb He. apply Forall_app. split; [done|]. repeat constructor. exact Hb. Qed.

(** The store ran at the peer: it is done or refused. *)
Lemma store_phase_ran rid src dst data d key fu evs (r r' : rep) b res es :
  fu = Some FWaiting -> Forall quiet evs -> bs_store data d key (rc_blocks r) = (b, res) ->
  answers src rid r res es -> rc_out r' = rc_out r ++ es -> rc_blocks r' = b ->
  dget (VStr rid) (rc_buffers r') = None ->
  store_phase rid src data d key [] (replies r r') (dget (VStr rid) (rc_buffers r')) fu (and_then evs dst rid r r').
Proof.
  intros -> He Hs Ha Ho Hb Hn. rewrite Hn, (replies_app _ _ _ Ho). unfold and_then. destruct res as [id|e].
  - eapply (sp_done _ _ _ _ _ _ _ _ _ _ id evs _ []); try done; [|by left|unfold stored; cbn; by rewrite Hb].
    destruct Ha as [[-> _]|(m & -> & ->)]; [by left|by right].
  - apply sp_dead; [done|done| |by left|].
    + destruct Ha as [[-> _]|(m & -> & Hm)]; [done|by apply Forall_singleton].
    + apply Forall_app. split; [eapply Forall_impl; [exact He|by left]|]. apply Forall_singleton. right. exists e.
      unfold stored. cbn. by rewrite Hb.
Qed.

Lemma store_whole_step now peer rid data d key (r : rep) :
  dget (VStr rid) (rc_pending r) = None ->
  let r' := state_after (handle now peer (Msg STORE_BLOCK (store_body rid d key [("data", VBytes data)]))) r in
  exists b res es, bs_store data d key (rc_blocks r) = (b, res) /\ answers peer rid r res es /\
    r' = with_out (rc_out r ++ es) (with_blocks b r).
Proof.
  intros Hp r'. destruct (store_body_fields rid d key [("data", VBytes data)]) as (F1 & F2 & F3 & F4).
  destruct (whole_any peer rid data d key (store_body rid d key [("data", VBytes data)]) r)
    as (b & res & es & Hs & Hst & Ha); [|done|by apply F3|].
  { cbn [extract_payload]. by rewrite (F4 "data") by done. }
  exists b, res, es. split_and!; [done|done|]. rewrite <-Hst. unfold r', state_after. rewrite handle_store by done.
  unfold _serve_store_block. cbn [msg_body]. rewrite F1, (F4 "chunked") by done. by mrun.
Qed.

(** A message of the store at the peer. *)
Lemma store_dst_step now rid src dst data d key m W R fu evs (r : rep) :
  rid <> "" -> names_req (VStr rid) m -> dget (VStr rid) (rc_pending r) = None -> tidy r ->
  store_phase rid src data d key (m :: W) R (dget (VStr rid) (rc_buffers r)) fu evs ->
  let r' := state_after (handle now src m) r in
  store_phase rid src data d key W (R ++ replies r r') (dget (VStr rid) (rc_buffers r')) fu (and_then evs dst rid r r').
Proof.
  intros Hrid Hn Hp Ht Hph r'.
  inversion Hph as [s Hs HW Hb -> -> He|sid seq got todo began HW Hne Hcat Hb -> -> He|Hb HW HR Hf He|].
  - destruct HW as [HW|]; [|done]. unfold store_messages in HW.
    destruct (rc_chunk_threshold s <? len data); injection HW as -> ->.
    + destruct (store_header_step now src rid d key (len data) (rc_next_stream s) r Hp Hb Ht)
        as (B1 & B2 & es & Ho & [(-> & Hpos & Hb')|[Hb' Hes]]); fold r' in B1, B2, Ho, Hb'; rewrite Hb', (replies_app _ _ _ Ho).
      * eapply (sp_running _ _ _ _ _ _ _ _ _ _ _ 0 []); [left; reflexivity| | |done|done|done|by apply quiet_then].
        -- apply pieces_nonempty. lia.
        -- cbn. by rewrite pieces_concat by lia.
      * apply sp_dead; [done|apply piece_messages_chunks| |by left|].
        -- destruct Hes as [[-> _]|(m & -> & Hm)]; [done|by apply Forall_singleton].
        -- eapply Forall_impl; [by apply quiet_then|by left].
    + destruct (store_whole_step now src rid data d key r Hp) as (b & res & es & Hst & Ha & Hr').
      fold r' in Hr'. rewrite Hr' in *. by eapply store_phase_ran.
  - destruct HW as [HW|]; [|done]. destruct todo as [|c todo]; [done|]. injection HW as -> ->.
    destruct (store_chunk_step now src rid data d key sid seq got c todo began r Hrid Hne Hcat Hb)
      as [[Hmore Hr']|(-> & b & res & es & Hst & Ha & Hr')]; fold r' in Hr'.
    + rewrite replies_none by by rewrite Hr'. rewrite Hr'. cbn [with_buffers rc_buffers].
      eapply (sp_running _ _ _ _ _ _ _ _ _ _ sid (seq + 1) (got ++ [c]) todo began);
        [left| | |by rewrite dget_dset_eq|done|done|by apply quiet_then].
      * replace (len (concat (got ++ [c]))) with (len (concat got) + len c); [done|].
        rewrite concat_app, len_app. cbn. by rewrite app_nil_r.
      * by apply Forall_cons in Hne as [_ ?].
      * rewrite concat_app, <-(assoc_L app). cbn. by rewrite app_nil_r.
    + eapply (store_phase_ran _ _ _ _ _ _ _ _ _ _ b res es); rewrite ?Hr'; try done. cbn. apply dget_ddel_eq.
  - apply Forall_cons in HW as [Hc HW]. pose proof (stray_chunk_step now src rid m r Hc Hn Hb) as Hr'. fold r' in Hr'.
    rewrite Hr', replies_none, app_nil_r by done. apply sp_dead; try done.
    apply Forall_app. split; [done|]. apply Forall_singleton. by left.
  - done.
Qed.

(** An answer of the store at the requester. *)
Lemma store_src_step now rid src dst data d key m W R buf f evs (rs : rep) :
  (forall g, dget (VStr rid) (rc_pending rs) = Some g -> g = f) -> own (VStr rid) f rs ->
  store_phase rid src data d key W (m :: R) buf (rc_futures rs !! f) evs ->
  let rs' := state_after (handle now dst m) rs in
  store_phase rid src data d key W R buf (rc_futures rs' !! f) evs /\
  own (VStr rid) f rs' /\ silent rs rs' /\ rc_buffers rs' = rc_buffers rs.
Proof.
  intros Hp Ho Hph rs'.
  assert (short_answer rid m) as Hm.
  { inversion Hph as [| |_ _ HR _ _|id e1 x e2 _ _ HR _ _ _ _ _]; [done|done|by apply Forall_cons in HR as [[_ ?] _]|].
    destruct HR as [|[= -> _]]; [done|apply stored_answer]. }
  destruct (answer_effect now dst rid f m rs Hm Hp Ho) as (Ho' & Hr' & Hb' & _ & Hf'); fold rs' in Ho', Hr', Hb', Hf'.
  split; [|done].
  inversion Hph as [| |Hb HW HR Hf He|id e1 x e2 Hb HW HR Hf He H1 H2 Hx]; [done|done| |].
  - apply Forall_cons in HR as [[Hk _] HR]. apply sp_dead; try done.
    destruct Hf' as [->|[[-> _]|[_ ->]]]; [done|done|right; by exists m].
  - destruct HR as [|[= -> ->]]; [done|]. eapply sp_done; try done; [by left|].
    destruct Hf' as [->|[[-> _]|[_ ->]]]; [done|done|by right].
Qed.

(** *** A load *)

(** An error of the lookup counts as none. *)
Lemma or_none_any bid key (r : rep) b res :
  asked bid key (rc_blocks r) = (b, res) ->
  or_none (if is_none (id_value bid) then load_key_value other_key (key_value key)
           else load_value (id_value bid)) r
    = (with_blocks b r, Ok (match res with Ok o => o | Err _ => None end)).
Proof.
  intros Ha. unfold or_none, mtry, load_key_value, load_value, asked in *.
  destruct bid as [id|]; cbn [id_value is_none as_int].
  - rewrite (on_blocks_run _ _ _ _ Ha). by destruct res.
  - destruct key as [k|]; cbn [key_value hashable key_arg].
    + rewrite (on_blocks_run _ _ _ _ Ha). by destruct res.
    + injection Ha as <- <-. by destruct r.
Qed.

Lemma request_step now peer rid bid key (r : rep) :
  dget (VStr rid) (rc_pending r) = None -> 0 < rc_chunk_size r ->
  let r' := state_after (handle now peer (request_message rid bid key)) r in
  exists o res, asked bid key (rc_blocks r) = (rc_blocks r', res) /\ o = match res with Ok o => o | Err _ => None end /\
    (replies r r' = load_messages rid o r \/ replies r r' = [] /\ peer ∉ rc_connected r).
Proof.
  intros Hp Hsz r'. destruct (asked bid key (rc_blocks r)) as [b res] eqn:Ha.
  exists (match res with Ok o => o | Err _ => None end), res. set (m := request_message rid bid key) in r'.
  assert (vget "req_id" (msg_body m) = Ok (VStr rid)) as F1 by done.
  assert (vget "block_id" (msg_body m) = Ok (id_value bid)) as F2 by by destruct bid, key.
  assert (vget "key" (msg_body m) = Ok (key_value key)) as F3 by by destruct bid, key.
  assert (r' = state_after (_serve_request_block other_key peer m) r) as Hr'.
  { unfold r', state_after, handle_message. rewrite F1. mrun. cbn [is_none]. unfold require_hashable. cbn [hashable].
    cbn [m request_message msg_type]. mrun. unfold dmem. by rewrite Hp. }
  clearbody r'. revert Hr'. unfold state_after, _serve_request_block. rewrite F1, F2, F3. mrun.
  rewrite (bind_ok _ _ _ _ _ (or_none_any _ _ _ _ _ Ha)). generalize (match res with Ok o => o | Err _ => None end).
  intros [data|]; cbn [load_messages].
  2:{ destruct (reply_any peer BLOCK_NOT_FOUND [("req_id", VStr rid)] (with_blocks b r)) as (es & -> & He).
      intros ->. split_and!; [done|done|]. rewrite (replies_app _ _ es) by done. destruct He as [[-> Hoff]| ->]; auto. }
  rewrite bind_get. rsimpl. destruct (len data <=? rc_chunk_threshold r).
  - destruct (reply_any peer BLOCK_DATA [("req_id", VStr rid); ("data", VBytes data)] (with_blocks b r))
      as (es & -> & He).
    intros ->. split_and!; [done|done|]. rewrite (replies_app _ _ es) by done. destruct He as [[-> Hoff]| ->]; auto.
  - unfold _next_stream, mbind_m at 1. rsimpl. destruct (decide (peer ∈ rc_connected r)) as [Hc|Hc].
    + erewrite bind_ok by (by apply send_to_ok). cbn [negb]. unfold mtry, _send_chunks. rsimpl.
      rewrite (proj2 (Z.eqb_neq _ _)), (proj2 (Z.ltb_ge _ _)) by lia. rewrite send_pieces_ok by done. cbn [fst].
      intros ->. split_and!; [done|done|]. left. erewrite replies_app by (rsimpl; by rewrite <-(assoc_L app)).
      cbn. f_equal. by rewrite <-list_fmap_compose, list_fmap_id.
    + unfold mbind_m, send_to. rsimpl. rewrite bool_decide_eq_false_2 by done. cbn [negb].
      intros ->. split_and!; [done|done|]. right. split; [by apply replies_none|done].
Qed.

Lemma load_dst_step now rid src dst f bid key m W R (rs r : rep) evs :
  dget (VStr rid) (rc_pending r) = None -> 0 < rc_chunk_size r ->
  load_phase rid dst f bid key (m :: W) R rs evs ->
  let r' := state_after (handle now src m) r in
  load_phase rid dst f bid key W (R ++ replies r r') rs (and_then evs dst rid r r').
Proof.
  intros Hp Hsz Hph r'. inversion Hph as [HW -> -> Hb Hpull Hf|x o HW]; [|done].
  destruct HW as [[= -> ->]|]; [|done].
  destruct (request_step now src rid bid key r Hp Hsz) as (o & res & Ha & Ho & Hr); fold r' in Ha, Hr.
  apply (lp_answered _ _ _ _ _ _ _ _ _ (Ev dst rid (rc_blocks r) (rc_blocks r')) o); [done|done|by exists res|].
  apply (ls_coming _ _ _ _ _ _ r); [done|naive_solver|done|done|done].
Qed.

(** The requester gets the header of a chunked answer: a collector for the
    bytes, unless giving up a stalled transfer fails. *)
Lemma header_step now peer rid f total sid (rs : rep) :
  dget (VStr rid) (rc_pending rs) = Some f -> own (VStr rid) f rs -> tidy rs ->
  dget (VStr rid) (rc_buffers rs) = None -> dget (VStr rid) (rc_pull_futures rs) = None ->
  rc_futures rs !! f = Some FWaiting ->
  let rs' := state_after (handle now peer (header rid total sid)) rs in
  own (VStr rid) f rs' /\ silent rs rs' /\
  (stale_buffers now (rc_buffers rs) <> [] /\ dget (VStr rid) (rc_buffers rs') = None /\
     dget (VStr rid) (rc_pull_futures rs') = None /\ rc_futures rs' !! f = Some FWaiting \/
   exists g, f <> g /\ dget (VStr rid) (rc_buffers rs') = Some (pull_buffer now peer total g) /\
     dget (VStr rid) (rc_pull_futures rs') = Some g /\ rc_futures rs' !! f = Some (FReply (header rid total sid)) /\
     rc_futures rs' !! g = Some FWaiting /\ own (VStr rid) g rs').
Proof.
  intros Hp Ho Ht Hb Hpull Hf rs'. set (m := header rid total sid) in *.
  pose proof (gc_keeps (VStr rid) now rs Ht) as Hk. destruct (gc_effect now rs) as (bufs & futs & Hg).
  pose proof (eq_refl rs') as Hrs. unfold rs' at 2 in Hrs. clearbody rs'. revert Hrs. unfold state_after in *.
  rewrite (handle_pending _ _ _ _ rid f) by done. rewrite decide_True by done.
  change (vget "chunked" (msg_body m)) with (Ok (VBool true)).
  change (vget_default "total_size" (VInt 0) (msg_body m)) with (Ok (VInt total)).
  rewrite !bind_assoc. mrun. cbn [truthy]. rewrite ?bind_assoc. mrun. unfold _open_pull_buffer. rewrite !bind_assoc.
  unfold mbind_m at 1. destruct (_gc_buffers now rs) as [r1 [[]|e]] eqn:Hgc; cbn [fst] in Hg, Hk |- *;
    destruct (fr_future _ _ _ _ _ Hk f Ho) as [Ho1 [Hf1|(_ & b & _ & Hb1 & _)]]; try congruence; rewrite Hf in Hf1;
    (assert (dget (VStr rid) (rc_buffers r1) = None) as Hb1 by (destruct (fr_buffer _ _ _ _ _ Hk); congruence));
    pose proof (fr_pulls _ _ _ _ _ Hk) as Hp1; rewrite Hpull in Hp1.
  2:{ intros ->. split_and!; [done|apply silent_none; by rewrite Hg|left].
      split_and!; [intros Hst; by rewrite (gc_nothing now rs Hst) in Hgc|done|done|done]. }
  set (g := rc_next_future r1). assert (f < g)%nat as Hlt by apply Ho1. pose proof (fr_tidy _ _ _ _ _ Hk) as [T1 T2 T3].
  unfold new_future. rewrite !bind_assoc. unfold mbind_m at 1. rewrite !bind_assoc, !bind_modify.
  rewrite (resolve_pending_run rid f).
  2:{ rsimpl. rewrite Hg. done. }
  2:{ rsimpl. rewrite lookup_insert_ne by lia. done. }
  cbn [fst resolved]. fold g. intros ->. split_and!.
  - destruct Ho1 as [O1 O2 O3]. split; cbn; [lia|intros k Hk'; eapply O2, dget_ddel_some, Hk'|].
    apply Forall_dset_at; [done|]. cbn. intros [= ?]. lia.
  - apply silent_none; cbn; by rewrite Hg.
  - right. exists g. cbn. fold g.
    rewrite !dget_dset_eq, lookup_insert_eq, (lookup_insert_ne _ f g), lookup_insert_eq by lia.
    split_and!; try done; [lia|]. split; cbn; fold g; [lia| |].
    + intros k Hk'%dget_ddel_some. apply T2 in Hk'. fold g in Hk'. lia.
    + apply Forall_dset_at; [|done]. eapply Forall_impl; [exact T3|]. cbn. intros kb Hkb Hg'. apply Hkb in Hg'. fold g in Hg'. lia.
Qed.

Lemma load_messages_cases rid o (r : rep) m R :
  0 < rc_chunk_size r -> load_messages rid o r = m :: R ->
  R = [] /\ short_answer rid m \/
  exists data, o = Some data /\ m = header rid (len data) (rc_next_stream r) /\
    R = piece_messages (VStr rid) (rc_next_stream r) (len data) 0 0 (pieces (Z.to_nat (rc_chunk_size r)) data).
Proof.
  intros Hsz. unfold load_messages. destruct o as [data|]; [destruct (_ <=? _)|]; intros [= <- <-].
  - left. split; [done|]. split; [done|set_solver|done].
  - right. by exists data.
  - left. split; [done|]. split; [done|set_solver|done].
Qed.

(** Changes that leave a future its request's own. *)
Lemma own_dset q f b (r : rep) : own q f r -> own q f (with_buffers (dset q b (rc_buffers r)) r).
Proof. intros []. split; [done|done|]. cbn. by apply Forall_dset_at. Qed.

Lemma own_ddel q k f futs (r : rep) :
  own q f r -> own q f (with_futures futs (rc_next_future r) (with_buffers (ddel k (rc_buffers r)) r)).
Proof. intros []. split; [done|done|]. cbn. by apply Forall_ddel. Qed.

(** An answer of the load, or a part of one, at the requester. *)
Lemma load_coming_step now rid dst f o m R (r rs : rep) :
  (forall g, dget (VStr rid) (rc_pending rs) = Some g -> g = f) -> own (VStr rid) f rs -> tidy rs ->
  0 < rc_chunk_size r -> load_messages rid o r = m :: R ->
  dget (VStr rid) (rc_buffers rs) = None -> dget (VStr rid) (rc_pull_futures rs) = None ->
  rc_futures rs !! f = Some FWaiting ->
  let rs' := state_after (handle now dst m) rs in
  load_side rid dst f o R rs' /\ own (VStr rid) f rs' /\ silent rs rs'.
Proof.
  intros Hp Ho Ht Hsz Hm Hb Hpull Hf rs'. destruct (load_messages_cases rid o r m R Hsz Hm) as [[-> Hs]|(data & -> & -> & ->)].
  - destruct (answer_effect now dst rid f m rs Hs Hp Ho) as (Ho' & Hr' & Hb' & Hp' & Hf'); fold rs' in Ho', Hr', Hb', Hp', Hf'.
    split; [|done]. destruct Hf' as [->|[[_ ?]|[_ Hf']]]; [by apply ls_missed|done|].
    apply (ls_short _ _ _ _ _ _ m r); [done|done|done|by rewrite Hb'|done].
  - set (m := header _ _ _) in *. destruct (dget (VStr rid) (rc_pending rs)) as [g|] eqn:Hpend.
    + rewrite (Hp g eq_refl) in Hpend.
      destruct (header_step now dst rid f (len data) (rc_next_stream r) rs Hpend Ho Ht Hb Hpull Hf)
        as (Ho' & Hr' & [(_ & Hb' & Hp' & Hf')|(g' & Hne & Hb' & Hp' & Hf' & Hg' & Hog)]);
        fold m rs' in Ho', Hr', Hb', Hp', Hf'; (split; [|done]).
      * apply ls_missed; [apply piece_messages_chunks|done..].
      * eapply (ls_pulling _ _ _ _ _ _ data _ _ g' 0 []); [done|by left| | |exact Hb'|by left|exact Hf'|done|done|done].
        -- apply pieces_nonempty. lia.
        -- cbn. by rewrite pieces_concat by lia.
    + assert (rs' = rs) as ->.
      { unfold rs', state_after, m, handle_message, header. cbn [msg_body msg_type].
        change (vget "req_id" (VDict _)) with (Ok (VStr rid)). mrun. cbn [is_none]. unfold require_hashable.
        cbn [hashable]. mrun. unfold dmem. by rewrite Hpend. }
      split_and!; [|done|by apply silent_none]. apply ls_missed; [apply piece_messages_chunks|done..].
Qed.

Lemma load_src_step now rid dst f o m R (rs : rep) :
  rid <> "" -> names_req (VStr rid) m ->
  (forall g, dget (VStr rid) (rc_pending rs) = Some g -> g = f) -> own (VStr rid) f rs -> tidy rs ->
  load_side rid dst f o (m :: R) rs ->
  let rs' := state_after (handle now dst m) rs in
  load_side rid dst f o R rs' /\ own (VStr rid) f rs' /\ silent rs rs'.
Proof.
  intros Hrid Hn Hp Ho Ht Hl rs'.
  inversion Hl as [r Hr HR Hb Hpull Hfu| |HR Hb Hpull Hfu
    |data sid hsid g seq got todo began Hd HR Hne Hcat Hb Hpull Hfu Hg Hog Hfg|data hsid g Hd HR Hb Hpull Hfu Hg Hog].
  - destruct HR as [HR|]; [|done]. by apply (load_coming_step now rid dst f o m R r rs).
  - done.
  - apply Forall_cons in HR as [Hc HR]. assert (rs' = rs) as -> by by apply stray_chunk_step with (rid := rid).
    split_and!; [|done|by apply silent_none]. by apply ls_missed.
  - destruct HR as [HR|]; [|done]. destruct todo as [|c todo]; [done|]. injection HR as -> ->.
    destruct (chunk_step now dst rid data sid seq got c todo (pull_buffer began dst (len data) g) rs
      Hrid Hne Hcat eq_refl eq_refl eq_refl Hb) as [[Hmore Hr']|[-> Hr']]; fold rs' in Hr'.
    + rewrite Hr'. split_and!; [| |by apply silent_none].
      * eapply (ls_pulling _ _ _ _ _ _ data sid hsid g (seq + 1) (got ++ [c]) todo began);
          [done|left| | |cbn; by rewrite dget_dset_eq|done|done|done|by apply own_dset|done].
        -- replace (len (concat (got ++ [c]))) with (len (concat got) + len c); [done|].
           rewrite concat_app, len_app. cbn. by rewrite app_nil_r.
        -- by apply Forall_cons in Hne as [_ ?].
        -- rewrite concat_app, <-(assoc_L app). cbn. by rewrite app_nil_r.
      * by apply own_dset.
    + cbn [pull_buffer cb_mode cb_future settle_opt] in Hr'.
      rewrite Hr'. unfold state_after. rewrite settle_waiting by done. cbn [fst].
      split_and!; [|apply (own_ddel _ _ _ _ rs Ho)|by apply silent_none].
      eapply (ls_pulled _ _ _ _ _ _ data hsid g); cbn; [done|done|apply dget_ddel_eq|done| | |apply (own_ddel _ _ _ _ rs Hog)].
      * by rewrite lookup_insert_ne.
      * intros b. rewrite lookup_insert_eq. by intros [= <-].
  - apply Forall_cons in HR as [Hc HR]. assert (rs' = rs) as -> by by apply stray_chunk_step with (rid := rid).
    split_and!; [|done|by apply silent_none]. by eapply ls_pulled.
Qed.

(** *** A free *)

Lemma free_step now peer rid bid (r : rep) :
  dget (VStr rid) (rc_pending r) = None ->
  let r' := state_after (handle now peer (free_message rid bid)) r in
  exists b res, bs_free bid (rc_blocks r) = (rc_blocks r', res) /\ b = match res with Ok b => b | Err _ => false end /\
    (replies r r' = [] /\ peer ∉ rc_connected r \/ replies r r' = [freed_reply rid b]).
Proof.
  intros Hp r'. destruct (bs_free bid (rc_blocks r)) as [b res] eqn:Ha.
  exists (match res with Ok b => b | Err _ => false end), res. set (m := free_message rid bid) in r'.
  assert (r' = state_after (_serve_free_block peer m) r) as Hr'.
  { unfold r', state_after, handle_message. change (vget "req_id" (msg_body m)) with (Ok (VStr rid)). mrun.
    cbn [is_none]. unfold require_hashable. cbn [hashable].
    cbn [m free_message msg_type]. mrun. unfold dmem. by rewrite Hp. }
  clearbody r'. revert Hr'. unfold state_after, _serve_free_block.
  change (vget "req_id" (msg_body m)) with (Ok (VStr rid)). change (vget "block_id" (msg_body m)) with (Ok (VInt bid)).
  mrun. unfold mtry, free_value, mbind_m at 1. cbn [as_int]. rewrite (on_blocks_run _ _ _ _ Ha).
  destruct res as [v|e]; cbn [mret];
    (match goal with |- context [reply peer FREED ?bd ?r0] => destruct (reply_any peer FREED bd r0) as (es & -> & He) end;
     intros ->; split_and!; [done|done|]; rewrite (replies_app _ _ es) by done; destruct He as [[-> Hoff]| ->]; auto).
Qed.

Lemma free_dst_step now rid src dst bid m W R fu evs (r : rep) :
  dget (VStr rid) (rc_pending r) = None -> free_phase rid bid (m :: W) R fu evs ->
  let r' := state_after (handle now src m) r in
  free_phase rid bid W (R ++ replies r r') fu (and_then evs dst rid r r').
Proof.
  intros Hp Hph r'. inversion Hph as [HW -> -> ->|x b HW]; [|done]. destruct HW as [[= -> ->]|]; [|done].
  destruct (free_step now src rid bid r Hp) as (b & res & Ha & Ho & Hr); fold r' in Ha, Hr.
  apply (fp_answered _ _ _ _ _ _ (Ev dst rid (rc_blocks r) (rc_blocks r')) b); [done|done|by exists res|naive_solver|by left].
Qed.

Lemma free_src_step now rid dst bid f m W R evs (rs : rep) :
  (forall g, dget (VStr rid) (rc_pending rs) = Some g -> g = f) -> own (VStr rid) f rs ->
  free_phase rid bid W (m :: R) (rc_futures rs !! f) evs ->
  let rs' := state_after (handle now dst m) rs in
  free_phase rid bid W R (rc_futures rs' !! f) evs /\
  own (VStr rid) f rs' /\ silent rs rs' /\ rc_buffers rs' = rc_buffers rs.
Proof.
  intros Hp Ho Hph rs'. inversion Hph as [|x b HW He Hx HR Hf]; [done|]. destruct HR as [|[= -> ->]]; [done|].
  assert (short_answer rid (freed_reply rid b)) as Hm by (split; [done|set_solver|done]).
  destruct (answer_effect now dst rid f _ rs Hm Hp Ho) as (Ho' & Hr' & Hb' & _ & Hf'); fold rs' in Ho', Hr', Hb', Hf'.
  split; [|done]. eapply fp_answered; try done; [by left|].
  destruct Hf' as [->|[[-> _]|[_ ->]]]; [done|done|by right].
Qed.
End phases.
