(* ===== verification/OverlapInv.v ===== *)
(** * Overlapping requests: the invariant of a world

    Every request is in one of its phases, whatever the other requests do; the
    messages on their way belong to requests that were made; and a request that
    was not made has no trace anywhere. *)
From S2P Require Import Prelude Config PyVal Protocol Blocks StoreInterface.
From S2P Require Import Replication ReplicationFacts ReplicationSpec ReplicationFrame Interleave Overlap OverlapFacts.

Section invariant.
Context {B : Type} `{!BlockStore B}.
Abbreviation rep := (Replicator B).
Abbreviation event := (event (B := B)).
Abbreviation nodes := (gmap string rep).

(** ** The invariant *)

Record sane (r : rep) : Prop := { sn_chunk : 0 < rc_chunk_size r; sn_tidy : tidy r }.

(** Nothing at the node knows of the request. *)
Record unknown (q : pyval) (r : rep) : Prop := {
  un_pending : dget q (rc_pending r) = None;
  un_buffer : dget q (rc_buffers r) = None;
  un_pulls : dget q (rc_pull_futures r) = None
}.

Definition buffer_at (q : pyval) (n : string) (ns : nodes) : option ChunkBuffer :=
  match ns !! n with Some r => dget q (rc_buffers r) | None => None end.

Definition in_phase (ns : nodes) (wire : list packet) (past : list event) (rid : string) (rq : req) (rs : rep) : Prop :=
  let src := rq_src rq in
  let dst := rq_dst rq in
  let f := rq_future rq in
  let W := flow rid src dst wire in
  let R := flow rid dst src wire in
  let evs := events rid dst past in
  match rq_kind rq with
  | KStore data d key =>
      dget (VStr rid) (rc_buffers rs) = None /\
      store_phase rid src data d key W R (buffer_at (VStr rid) dst ns) (rc_futures rs !! f) evs
  | KLoad bid key => load_phase rid dst f bid key W R rs evs
  | KFree bid => dget (VStr rid) (rc_buffers rs) = None /\ free_phase rid bid W R (rc_futures rs !! f) evs
  end.

Record req_inv (ns : nodes) (wire : list packet) (past : list event) (rid : string) (rq : req) : Prop := {
  ri_rid : rid <> "";
  ri_apart : rq_src rq <> rq_dst rq;
  ri_server : forall r, ns !! rq_dst rq = Some r -> dget (VStr rid) (rc_pending r) = None;
  ri_elsewhere : Forall (fun e => ev_rid e = rid -> ev_node e <> rq_dst rq -> quiet e) past;
  ri_phase : exists rs, ns !! rq_src rq = Some rs /\ own (VStr rid) (rq_future rq) rs /\
    (forall g, dget (VStr rid) (rc_pending rs) = Some g -> g = rq_future rq) /\ in_phase ns wire past rid rq rs
}.

(** A packet of a request goes one way or the other. *)
Definition belongs (rid : string) (rq : req) (p : packet) : Prop :=
  names rid (pk_msg p) = true /\
  (pk_src p = rq_src rq /\ pk_dst p = rq_dst rq \/ pk_src p = rq_dst rq /\ pk_dst p = rq_src rq).

Record WI (w : world) : Prop := {
  wi_nodes : map_Forall (fun _ r => sane r /\ forall rid, w_reqs w !! rid = None -> unknown (VStr rid) r) (w_nodes w);
  wi_wire : Forall (fun p => exists rid rq, w_reqs w !! rid = Some rq /\ belongs rid rq p) (w_wire w);
  wi_past : Forall (fun e => is_Some (w_reqs w !! ev_rid e)) (w_past w);
  wi_reqs : map_Forall (req_inv (w_nodes w) (w_wire w) (w_past w)) (w_reqs w)
}.

(** ** Flows and events *)

Lemma in_flow_true rid a b p :
  in_flow rid a b p = true <-> pk_src p = a /\ pk_dst p = b /\ names rid (pk_msg p) = true.
Proof. unfold in_flow. rewrite !andb_true_iff, !bool_decide_eq_true. naive_solver. Qed.

Lemma flow_app rid a b l l' : flow rid a b (l ++ l') = flow rid a b l ++ flow rid a b l'.
Proof. unfold flow. by rewrite filter_app, fmap_app. Qed.

Lemma flow_cons rid a b p l :
  flow rid a b (p :: l) = (if in_flow rid a b p then [pk_msg p] else []) ++ flow rid a b l.
Proof. unfold flow. rewrite filter_cons. case_decide as H; destruct (in_flow rid a b p); done. Qed.

Lemma flow_none rid a b l : Forall (fun p => in_flow rid a b p = false) l -> flow rid a b l = [].
Proof. induction 1 as [|p l Hp _ IH]; [done|]. by rewrite flow_cons, Hp. Qed.

Lemma names_iff rid m : names rid m = true <-> names_req (VStr rid) m.
Proof.
  unfold names, names_req. destruct (vget "req_id" (msg_body m)) as [v|e]; [|done].
  rewrite bool_decide_eq_true. naive_solver.
Qed.

(** The messages of a step that answers [peer] about [rid]. *)
Definition answered (peer rid : string) (r r' : rep) : Prop :=
  exists es, rc_out r' = rc_out r ++ es /\ Forall (fun e => e.1.1 = peer /\ names_req (VStr rid) e.1.2) es.

Lemma flow_emitted rid n peer r r' : answered peer rid r r' -> flow rid n peer (emitted n r r') = replies r r'.
Proof.
  intros (es & Ho & Hes). unfold emitted, replies. rewrite Ho, drop_app_length. clear Ho.
  induction Hes as [|[[a m] sid] es [Ha Hm] _ IH]; [done|]. cbn in Ha, Hm. rewrite !fmap_cons, flow_cons.
  rewrite (proj2 (in_flow_true _ _ _ _)); [cbn; by rewrite IH|]. split_and!; [done|done|by apply names_iff].
Qed.

Lemma flow_emitted_other rid n peer rid' a b r r' :
  answered peer rid r r' -> rid' <> rid \/ a <> n \/ b <> peer -> flow rid' a b (emitted n r r') = [].
Proof.
  intros (es & Ho & Hes) Hne. apply flow_none. unfold emitted. rewrite Ho, drop_app_length. apply Forall_fmap.
  eapply Forall_impl; [exact Hes|]. intros [[c m] sid] [Hc Hm]. cbn in *. apply not_true_iff_false.
  intros (H1 & H2 & H3)%in_flow_true. cbn in *. apply names_iff in Hm. pose proof (names_fun _ _ _ H3 Hm).
  naive_solver.
Qed.

Lemma events_snoc rid n past (e : event) :
  events rid n (past ++ [e]) = events rid n past ++ (if decide (ev_node e = n /\ ev_rid e = rid) then [e] else []).
Proof. unfold events. by rewrite filter_app. Qed.

Lemma events_other rid n past (e : event) : ev_rid e <> rid \/ ev_node e <> n -> events rid n (past ++ [e]) = events rid n past.
Proof. intros H. rewrite events_snoc, decide_False by naive_solver. apply app_nil_r. Qed.

(** ** Steps that spare a request *)

Lemma spared_refl q (r : rep) : spared q r r.
Proof. split; [by left|by left|by left|]. intros f Hf. split; [done|by left]. Qed.

Definition nodes_spared (q : pyval) (ns ns' : nodes) : Prop :=
  forall n, match ns !! n, ns' !! n with
            | None, None => True | Some r, Some r' => spared q r r' | _, _ => False
            end.

Lemma nodes_spared_refl q ns : nodes_spared q ns ns.
Proof. intros n. destruct (ns !! n); [apply spared_refl|done]. Qed.

Lemma nodes_spared_insert q ns n r r' :
  ns !! n = Some r -> spared q r r' -> nodes_spared q ns (<[n := r']> ns).
Proof.
  intros Hn Hs m. destruct (decide (n = m)) as [->|Hne].
  - by rewrite Hn, lookup_insert_eq.
  - rewrite lookup_insert_ne by done. apply nodes_spared_refl.
Qed.

Lemma nodes_spared_some q ns ns' n r :
  nodes_spared q ns ns' -> ns !! n = Some r -> exists r', ns' !! n = Some r' /\ spared q r r'.
Proof. intros H Hn. specialize (H n). rewrite Hn in H. destruct (ns' !! n); [by eexists|done]. Qed.

Lemma unknown_spared q (r r' : rep) : unknown q r -> spared q r r' -> unknown q r'.
Proof. intros [] []. split; naive_solver congruence. Qed.

Lemma buffer_at_spared q n ns ns' :
  nodes_spared q ns ns' -> buffer_at q n ns' = buffer_at q n ns \/ buffer_at q n ns' = None.
Proof.
  intros H. specialize (H n). unfold buffer_at. destruct (ns !! n), (ns' !! n); try done; [|by left].
  apply spd_buffer in H. done.
Qed.

Lemma req_inv_spared ns wire past rid rq ns' wire' past' :
  req_inv ns wire past rid rq -> nodes_spared (VStr rid) ns ns' ->
  same_or_lost (flow rid (rq_src rq) (rq_dst rq) wire) (flow rid (rq_dst rq) (rq_src rq) wire)
    (flow rid (rq_src rq) (rq_dst rq) wire') (flow rid (rq_dst rq) (rq_src rq) wire') ->
  (past' = past \/ exists e, past' = past ++ [e] /\ ev_rid e <> rid) ->
  req_inv ns' wire' past' rid rq.
Proof.
  intros [H1 H2 H3 H4 (rs & Hrs & Ho & Hp & Hph)] Hns Hl Hpast. split; [done|done| | |].
  - intros r' Hr'. specialize (Hns (rq_dst rq)). rewrite Hr' in Hns.
    destruct (ns !! rq_dst rq) as [r|]; [|done]. destruct (spd_pending _ _ _ Hns) as [->|]; [by apply H3|done].
  - destruct Hpast as [->|(e & -> & He)]; [done|]. apply Forall_app. split; [done|]. by apply Forall_singleton.
  - assert (events rid (rq_dst rq) past' = events rid (rq_dst rq) past) as He.
    { destruct Hpast as [->|(e & -> & He)]; [done|]. apply events_other. by left. }
    destruct (nodes_spared_some _ _ _ _ _ Hns Hrs) as (rs' & Hrs' & Hsp). exists rs'.
    destruct (spd_future _ _ _ Hsp _ Ho) as [Ho' _]. split_and!; [done|done| |].
    { intros g Hg. apply Hp. destruct (spd_pending _ _ _ Hsp); congruence. }
    unfold in_phase in *. rewrite He. destruct (rq_kind rq) as [data d key|bid key|bid].
    + destruct Hph as [Hb Hph]. split; [destruct (spd_buffer _ _ _ Hsp); congruence|].
      rewrite (proj2 (spared_reply _ _ _ _ Hsp Ho ltac:(congruence))).
      eapply store_phase_weaken; [exact Hph|done|by apply buffer_at_spared].
    + by eapply load_phase_weaken.
    + destruct Hph as [Hb Hph]. split; [destruct (spd_buffer _ _ _ Hsp); congruence|].
      rewrite (proj2 (spared_reply _ _ _ _ Hsp Ho ltac:(congruence))). by eapply free_phase_weaken.
Qed.

Lemma WI_spared ns wire past reqs ns' wire' :
  WI (World ns wire past reqs) -> (forall q, nodes_spared q ns ns') -> map_Forall (fun _ => sane) ns' ->
  (forall p, p ∈ wire' -> p ∈ wire) ->
  (forall rid a b, same_or_lost (flow rid a b wire) (flow rid b a wire) (flow rid a b wire') (flow rid b a wire')) ->
  WI (World ns' wire' past reqs).
Proof.
  intros [Hn Hw Hp Hr] Hs Hsane Hsub Hl. cbn in *. split; cbn.
  - intros n r' Hr'. split; [by apply (Hsane n)|]. intros rid Hrid. pose proof (Hs (VStr rid) n) as Hsn. rewrite Hr' in Hsn.
    destruct (ns !! n) as [r|] eqn:En; [|done]. eapply unknown_spared; [|exact Hsn]. by apply (Hn n r En).
  - rewrite Forall_forall in *. auto.
  - done.
  - intros rid rq Hrq. eapply req_inv_spared; [by apply Hr|done|apply Hl|by left].
Qed.

Lemma same_flows rid a b wire : same_or_lost (flow rid a b wire) (flow rid b a wire) (flow rid a b wire) (flow rid b a wire).
Proof. by left. Qed.

Lemma sane_insert (ns : nodes) n r : map_Forall (fun _ => sane) ns -> sane r -> map_Forall (fun _ => sane) (<[n := r]> ns).
Proof. intros. by apply map_Forall_insert_2. Qed.

Lemma WI_sane w : WI w -> map_Forall (fun _ => sane) (w_nodes w).
Proof. intros H n r Hn. by apply (wi_nodes _ H n r Hn). Qed.

(** One node moves and sends nothing. *)
Lemma WI_moves (ns : nodes) wire past reqs n r r' :
  WI (World ns wire past reqs) -> ns !! n = Some r -> (forall q, spared q r r') -> sane r' ->
  WI (World (<[n := r']> ns) wire past reqs).
Proof.
  intros HW Hn Hs Hsane. apply (WI_spared ns wire); [done| | |done|].
  - intros q. by eapply nodes_spared_insert.
  - apply sane_insert; [exact (WI_sane _ HW)|done].
  - intros. apply same_flows.
Qed.

(** The end of a request: its entries go. *)
Lemma finish_spared k rid q (r : rep) : spared q r (finish k rid r).
Proof.
  assert (forall V (l : list (pyval * V)), dget q (ddel (VStr rid) l) = dget q l \/ dget q (ddel (VStr rid) l) = None) as Hd.
  { intros V l. destruct (decide (VStr rid = q)) as [<-|]; [right; apply dget_ddel_eq|left; by apply dget_ddel_ne]. }
  destruct k; (split; cbn; [apply Hd| | |intros f []; split; [split; cbn; [done| |]|by left]]); auto.
  all: try (intros k Hk; by eapply ow_pending, dget_ddel_some).
  by apply Forall_ddel.
Qed.

Lemma finish_sane k rid (r : rep) : sane r -> sane (finish k rid r).
Proof.
  intros [H1 [T1 T2 T3]].
  destruct k; (split; [done|]; split; cbn; [try done; by apply dict_ok_ddel
    |intros k f Hk; by eapply T2, dget_ddel_some|try done; by apply Forall_ddel]).
Qed.

Lemma blocks_spared b q (r : rep) : spared q r (with_blocks b r).
Proof. split; try by left. intros f []. split; [by split|by left]. Qed.

Lemma connected_spared c q (r : rep) : spared q r (with_connected c r).
Proof. split; try by left. intros f []. split; [by split|by left]. Qed.

(** A connection that breaks loses a request's messages in both directions, or
    none of them. *)
Lemma cut_flows rid a b x y wire :
  let wire' := filter (fun p => between x y p = false) wire in
  same_or_lost (flow rid a b wire) (flow rid b a wire) (flow rid a b wire') (flow rid b a wire').
Proof.
  intros wire'. destruct (decide (a = x /\ b = y \/ a = y /\ b = x)) as [Hab|Hab].
  - assert (forall c d, c = x /\ d = y \/ c = y /\ d = x -> flow rid c d wire' = []) as Hz.
    { intros c d Hcd. apply flow_none, Forall_forall. intros p [Hp _]%list_elem_of_filter. apply not_true_iff_false.
      intros (H1 & H2 & _)%in_flow_true. unfold between in Hp. apply bool_decide_eq_false in Hp. naive_solver. }
    right. split; apply Hz; naive_solver.
  - assert (forall c d, ~ (c = x /\ d = y \/ c = y /\ d = x) -> flow rid c d wire' = flow rid c d wire) as Hz.
    { intros c d Hcd. unfold wire'. induction wire as [|p wire IH]; [done|]. rewrite filter_cons, flow_cons.
      case_decide as Hp; [by rewrite flow_cons, IH|]. rewrite IH. destruct (in_flow rid c d p) eqn:Hf; [|done].
      apply in_flow_true in Hf as (H1 & H2 & _). apply not_false_is_true, bool_decide_eq_true in Hp. naive_solver. }
    left. split; apply Hz; naive_solver.
Qed.

(** ** Making a request *)

(** The messages of a request. *)
Definition first_messages (k : kind) (rid : string) (s : rep) : list Message :=
  match k with
  | KStore data d key => store_messages rid data d key s
  | KLoad bid key => [request_message rid bid key]
  | KFree bid => [free_message rid bid]
  end.

(** A request that was not sent leaves a future nobody waits for. *)
Definition refused (next : Z) (s : rep) : rep :=
  with_next_stream next (with_futures (<[rc_next_future s := FWaiting]> (rc_futures s)) (S (rc_next_future s)) s).

Lemma send_to_off peer m sid (r : rep) : peer ∉ rc_connected r -> send_to peer m sid r = (r, Ok false).
Proof. intros Hp. unfold send_to. by rewrite bool_decide_eq_false_2. Qed.

Lemma free_remote_begin_run dst rid bid (s : rep) :
  dst ∈ rc_connected s ->
  free_remote_begin dst rid (VInt bid) s
    = (awaiting dst rid None (rc_next_stream s) [free_message rid bid] s, Ok (rc_next_future s)).
Proof.
  intros Hc. unfold free_remote_begin, _register_pending, new_future. rewrite bind_assoc.
  unfold mbind_m at 1. rsimpl. rewrite bind_assoc, bind_modify, bind_ret. rsimpl.
  by erewrite bind_ok by (by apply send_to_ok).
Qed.

Lemma begin_sent k dst rid (s : rep) :
  dst ∈ rc_connected s -> 0 < rc_chunk_size s ->
  exists sid next, begin k dst rid s = (awaiting dst rid sid next (first_messages k rid s) s, Ok (rc_next_future s)).
Proof.
  intros Hc Hsz. destruct k as [data d key|bid key|bid]; cbn [begin first_messages].
  - by apply store_remote_begin_run.
  - rewrite load_remote_begin_run by done. by do 2 eexists.
  - rewrite free_remote_begin_run by done. by do 2 eexists.
Qed.

Lemma begin_refused k dst rid (s : rep) :
  dst ∉ rc_connected s -> unknown (VStr rid) s ->
  exists next e, begin k dst rid s = (refused next s, Err e).
Proof.
  intros Hc [Hp Hb Hq]. destruct k as [data d key|bid key|bid]; cbn [begin].
  - unfold store_remote_begin. rewrite bind_get. destruct (rc_chunk_threshold s <? len data).
    + exists (rc_next_stream s + 1), (not_connected dst). unfold _next_stream at 1. unfold mbind_m at 1.
      unfold _register_pending, new_future. rewrite bind_assoc. unfold mbind_m at 1. rsimpl.
      rewrite bind_assoc, bind_modify, bind_ret. rsimpl. unfold mbind_m at 1, or_cleanup.
      erewrite bind_ok by by apply send_to_off. cbn. unfold pop_pending, refused. cbn. by rewrite ddel_dset, ddel_id.
    + exists (rc_next_stream s), (not_connected dst). rewrite bind_ret.
      unfold _register_pending, new_future. rewrite bind_assoc. unfold mbind_m at 1. rsimpl.
      rewrite bind_assoc, bind_modify, bind_ret. rsimpl. unfold mbind_m at 1, or_cleanup.
      erewrite bind_ok by by apply send_to_off. cbn. unfold pop_pending, refused. cbn. by rewrite ddel_dset, ddel_id.
  - exists (rc_next_stream s), (not_connected dst). unfold load_remote_begin, _register_pending, new_future. rewrite bind_assoc.
    unfold mbind_m at 1. rsimpl. rewrite bind_assoc, bind_modify, bind_ret. rsimpl. unfold mbind_m at 1, or_cleanup.
    erewrite bind_ok by by apply send_to_off. cbn. unfold pop_pending, refused. cbn.
    by rewrite ddel_dset, !ddel_id.
  - exists (rc_next_stream s), (not_connected dst). unfold free_remote_begin, _register_pending, new_future. rewrite bind_assoc.
    unfold mbind_m at 1. rsimpl. rewrite bind_assoc, bind_modify, bind_ret. rsimpl.
    erewrite bind_ok by by apply send_to_off. cbn. unfold pop_pending, refused. cbn. by rewrite ddel_dset, ddel_id.
Qed.

Lemma refused_spared next q (s : rep) : spared q s (refused next s).
Proof.
  split; try by left. intros f [H1 H2 H3]. split; [split; cbn; [lia|done|done]|left].
  cbn. by rewrite lookup_insert_ne by lia.
Qed.

Lemma refused_sane next (s : rep) : sane s -> sane (refused next s).
Proof.
  intros [H1 [T1 T2 T3]]. split; [done|]. split; cbn; [done|intros k f Hk; apply T2 in Hk; lia|].
  eapply Forall_impl; [exact T3|]. cbn. intros kb Hkb f Hf. apply Hkb in Hf. lia.
Qed.

Section awaiting.
Context (dst rid : string) (sid : option Z) (next : Z) (ms : list Message) (s : rep).
Let s' := awaiting dst rid sid next ms s.

Lemma awaiting_spared q : q <> VStr rid -> spared q s s'.
Proof.
  intros Hq. split; try by left.
  - left. cbn. by rewrite dget_dset_ne by done.
  - intros f [H1 H2 H3]. split; [|left; cbn; by rewrite lookup_insert_ne by lia]. split; cbn; [lia| |done].
    intros k Hk. destruct (decide (k = VStr rid)) as [->|Hne]; [rewrite dget_dset_eq in Hk; injection Hk; lia|].
    rewrite dget_dset_ne in Hk by done. by apply H2.
Qed.

Lemma awaiting_sane : sane s -> sane s'.
Proof.
  intros [H1 [T1 T2 T3]]. split; [done|]. split; cbn; [done| |].
  - intros k f Hk. destruct (decide (k = VStr rid)) as [->|Hne]; [rewrite dget_dset_eq in Hk; injection Hk; lia|].
    rewrite dget_dset_ne in Hk by done. apply T2 in Hk. lia.
  - eapply Forall_impl; [exact T3|]. cbn. intros kb Hkb f Hf. apply Hkb in Hf. lia.
Qed.

Lemma awaiting_own : tidy s -> dget (VStr rid) (rc_buffers s) = None -> own (VStr rid) (rc_next_future s) s'.
Proof.
  intros [T1 T2 T3] Hb. split; cbn; [lia| |].
  - intros k Hk. destruct (decide (k = VStr rid)) as [->|Hne]; [done|].
    rewrite dget_dset_ne in Hk by done. apply T2 in Hk. lia.
  - eapply Forall_impl; [exact T3|]. cbn. intros kb Hkb Hf. apply Hkb in Hf. lia.
Qed.

Lemma awaiting_answered :
  Forall (names_req (VStr rid)) ms -> answered dst rid s s' /\ replies s s' = ms.
Proof.
  intros Hms. split.
  - eexists. split; [done|]. by apply Forall_fmap, (Forall_impl _ _ _ Hms).
  - erewrite replies_app by done. rewrite <-list_fmap_compose. apply list_fmap_id.
Qed.
End awaiting.

Lemma first_messages_named k rid (s : rep) : Forall (names_req (VStr rid)) (first_messages k rid s).
Proof.
  assert (forall sid total ps seq off, Forall (names_req (VStr rid)) (piece_messages (VStr rid) sid total seq off ps)) as Hps.
  { intros sid total ps. induction ps as [|p ps IH]; intros seq off; cbn; constructor; [done|apply IH]. }
  destruct k as [data d key|bid key|bid]; cbn; [unfold store_messages; destruct (_ <? _)|..]; repeat constructor.
  apply Hps.
Qed.

(** A request starts in its first phase. *)
Lemma first_phase ns wire past rid n dst k (r : rep) sid next :
  let r' := awaiting dst rid sid next (first_messages k rid r) r in
  sane r -> unknown (VStr rid) r -> n <> dst ->
  (forall a b, flow rid a b wire = []) -> events rid dst past = [] -> buffer_at (VStr rid) dst ns = None ->
  in_phase (<[n := r']> ns) (wire ++ emitted n r r') past rid (Req n dst k (rc_next_future r)) r'.
Proof.
  intros r' [Hsz Ht] [Hp Hb Hq] Hne Hw He Hbuf.
  destruct (awaiting_answered dst rid sid next (first_messages k rid r) r (first_messages_named k rid r)) as [Ha Hr].
  fold r' in Ha, Hr. unfold in_phase. cbn [rq_src rq_dst rq_future rq_kind].
  rewrite !flow_app, !Hw, (flow_emitted rid n dst r r' Ha), (flow_emitted_other rid n dst rid dst n r r' Ha), Hr, He
    by naive_solver. cbn [app].
  assert (rc_futures r' !! rc_next_future r = Some FWaiting) as Hf by (cbn; apply lookup_insert_eq).
  destruct k as [data d key|bid key|bid]; cbn [first_messages].
  - split; [done|]. unfold buffer_at. rewrite lookup_insert_ne by done. fold (buffer_at (VStr rid) dst ns). rewrite Hbuf, Hf.
    apply (sp_before _ _ _ _ _ _ _ _ _ _ r); auto.
  - apply lp_before; auto.
  - split; [done|]. rewrite Hf. apply fp_before; auto.
Qed.

(** A request that was not made has no messages and no past. *)
Lemma WI_fresh w rid :
  WI w -> w_reqs w !! rid = None ->
  (forall a b, flow rid a b (w_wire w) = []) /\ forall n, events rid n (w_past w) = [].
Proof.
  intros [_ Hw Hp _] Hrid. split.
  - intros a b. apply flow_none. eapply Forall_impl; [exact Hw|]. cbn. intros p (rid' & rq & Hrq & Hn & _).
    apply not_true_iff_false. intros (_ & _ & Hn')%in_flow_true. pose proof (names_fun _ _ _ Hn Hn') as ->. congruence.
  - intros n. apply filter_none. eapply Forall_impl; [exact Hp|]. cbn. intros e [rq Hrq] [_ <-]. congruence.
Qed.

Lemma emitted_belongs peer rid rq n (r r' : rep) :
  answered peer rid r r' -> n = rq_src rq /\ peer = rq_dst rq \/ n = rq_dst rq /\ peer = rq_src rq ->
  Forall (belongs rid rq) (emitted n r r').
Proof.
  intros (es & Ho & Hes) Hd. unfold emitted. rewrite Ho, drop_app_length. apply Forall_fmap.
  eapply Forall_impl; [exact Hes|]. intros [[c m] sid] [Hc Hm]. cbn in *. subst c. split; [by apply names_iff|]. naive_solver.
Qed.

Lemma WI_request ns wire past reqs n dst k rid r r' f :
  WI (World ns wire past reqs) -> reqs !! rid = None -> rid <> "" -> n <> dst -> ns !! n = Some r ->
  begin k dst rid r = (r', Ok f) ->
  WI (World (<[n := r']> ns) (wire ++ emitted n r r') past (<[rid := Req n dst k f]> reqs)).
Proof.
  intros HW Hrid Hne Hnd Hn Hb. destruct (WI_fresh _ rid HW Hrid) as [Hflow Hev]. cbn in Hflow, Hev.
  destruct (wi_nodes _ HW n r Hn) as [Hsane Hun]. cbn in Hun. specialize (Hun rid Hrid).
  destruct (decide (dst ∈ rc_connected r)) as [Hc|Hc].
  2:{ destruct (begin_refused k dst rid r Hc Hun) as (next & e & Hb'). congruence. }
  destruct (begin_sent k dst rid r Hc (sn_chunk _ Hsane)) as (sid & next & Hb').
  rewrite Hb' in Hb. injection Hb as Hr' <-.
  destruct (awaiting_answered dst rid sid next (first_messages k rid r) r (first_messages_named k rid r)) as [Ha _].
  rewrite Hr' in Ha. destruct HW as [HWn HWw HWp HWr]. cbn in *. split; cbn.
  - apply map_Forall_insert_2.
    + split; [rewrite <-Hr'; by apply awaiting_sane|]. intros rid' [Hne' Hrid']%lookup_insert_None.
      apply (unknown_spared _ r); [by apply (HWn n r Hn)|]. rewrite <-Hr'. apply awaiting_spared. congruence.
    + intros m r0 Hr0. destruct (HWn m r0 Hr0) as [H1 H2]. split; [done|].
      intros rid' [Hrid' _]%lookup_insert_None. by apply H2.
  - apply Forall_app. split.
    + eapply Forall_impl; [exact HWw|]. cbn. intros p (rid' & rq & Hrq & Hp). exists rid', rq.
      rewrite lookup_insert_ne by congruence. done.
    + eapply Forall_impl; [apply (emitted_belongs dst rid (Req n dst k (rc_next_future r)) n r r' Ha); by left|].
      intros p Hp. exists rid. eexists. by rewrite lookup_insert_eq.
  - eapply Forall_impl; [exact HWp|]. cbn. intros e [rq Hrq]. destruct (decide (rid = ev_rid e)) as [->|]; [by rewrite Hrq in Hrid|].
    rewrite lookup_insert_ne by done. by exists rq.
  - apply map_Forall_insert_2.
    + split; cbn; [done|done| | |].
      * intros r0. rewrite lookup_insert_ne by done. intros Hr0. by apply (HWn dst r0 Hr0).
      * eapply Forall_impl; [exact HWp|]. cbn. intros e [rq Hrq] <-. by rewrite Hrq in Hrid.
      * exists r'. rewrite lookup_insert_eq. split_and!; [done| | |].
        -- rewrite <-Hr'. apply awaiting_own; [apply Hsane|apply Hun].
        -- intros g. rewrite <-Hr'. cbn. rewrite dget_dset_eq. by intros [= <-].
        -- rewrite <-Hr'. apply first_phase; try done; [apply Hev|]. unfold buffer_at. destruct (ns !! dst) as [r0|] eqn:E; [|done].
           by apply (HWn dst r0 E).
    + intros rid' rq Hrq. assert (rid' <> rid) as Hd by congruence.
      eapply req_inv_spared; [by apply HWr| | |by left].
      * eapply nodes_spared_insert; [done|]. rewrite <-Hr'. apply awaiting_spared. congruence.
      * left. rewrite !flow_app, !(flow_emitted_other rid n dst rid') by (done || by left). by rewrite !app_nil_r.
Qed.

(** A request that fails at once. *)
Lemma WI_refused ns wire past reqs n dst k rid r r' e :
  WI (World ns wire past reqs) -> reqs !! rid = None -> ns !! n = Some r -> begin k dst rid r = (r', Err e) ->
  WI (World (<[n := r']> ns) (wire ++ emitted n r r') past reqs).
Proof.
  intros HW Hrid Hn Hb. destruct (wi_nodes _ HW n r Hn) as [Hsane Hun]. cbn in Hun. specialize (Hun rid Hrid).
  destruct (decide (dst ∈ rc_connected r)) as [Hc|Hc].
  { destruct (begin_sent k dst rid r Hc (sn_chunk _ Hsane)) as (sid & next & Hb'). congruence. }
  destruct (begin_refused k dst rid r Hc Hun) as (next & e' & Hb'). rewrite Hb' in Hb. injection Hb as <- _.
  assert (emitted n r (refused next r) = []) as ->; [|rewrite app_nil_r].
  { unfold emitted. cbn [refused with_next_stream with_futures rc_out]. by rewrite drop_all. }
  eapply WI_moves; [done|done|intros q; apply refused_spared|by apply refused_sane].
Qed.

(** ** Delivering a message *)

Lemma frame_spared q peer rid (r r' : rep) : frame q peer rid r r' -> spared q r r'.
Proof. intros []. split; auto. Qed.

Lemma frame_answered q peer rid (r r' : rep) : frame q peer (VStr rid) r r' -> answered peer rid r r'.
Proof. by intros []. Qed.

Lemma events_mine rid n past (b b' : B) : events rid n (past ++ [Ev n rid b b']) = events rid n past ++ [Ev n rid b b'].
Proof. by rewrite events_snoc, decide_True by done. Qed.

(** What a delivery does to the flows of its request. *)
Lemma flow_delivered rid a b l1 p l2 (r r' : rep) :
  in_flow rid a b p = true -> a <> b -> flow rid a b l1 = [] -> answered a rid r r' ->
  let wire' := l1 ++ l2 ++ emitted b r r' in
  flow rid a b (l1 ++ p :: l2) = pk_msg p :: flow rid a b wire' /\
  flow rid b a wire' = flow rid b a (l1 ++ p :: l2) ++ replies r r'.
Proof.
  intros Hin Hne Hl1 Ha wire'. unfold wire'.
  assert (in_flow rid b a p = false) as Hback.
  { apply not_true_iff_false. intros (Hs & _ & _)%in_flow_true. apply in_flow_true in Hin as (Hs' & _). congruence. }
  rewrite !flow_app, !flow_cons, Hin, Hback, Hl1, (flow_emitted _ _ _ _ _ Ha).
  rewrite (flow_emitted_other rid b a rid a b) by (done || naive_solver). cbn [app].
  by rewrite app_nil_r, (assoc_L app).
Qed.

(** And to those of the others. *)
Lemma flow_passed rid rid' a b l1 p l2 (r r' : rep) :
  names rid (pk_msg p) = true -> rid <> rid' -> answered (pk_src p) rid r r' ->
  flow rid' a b (l1 ++ l2 ++ emitted (pk_dst p) r r') = flow rid' a b (l1 ++ p :: l2).
Proof.
  intros Hn Hne Ha. assert (in_flow rid' a b p = false) as Hp.
  { apply not_true_iff_false. intros (_ & _ & Hn')%in_flow_true. apply Hne. by eapply names_fun. }
  rewrite !flow_app, flow_cons, Hp, (flow_emitted_other rid (pk_dst p) (pk_src p) rid') by (done || by left).
  by rewrite app_nil_r.
Qed.

Context (py_str : pyval -> string) (other_key : pyval -> string).
Abbreviation handle := (handle_message py_str other_key).

(** A message of the request reaches the peer. *)
Lemma deliver_dst ns l1 p l2 past rid rq now r :
  let r' := state_after (handle now (rq_src rq) (pk_msg p)) r in
  req_inv ns (l1 ++ p :: l2) past rid rq -> in_flow rid (rq_src rq) (rq_dst rq) p = true ->
  flow rid (rq_src rq) (rq_dst rq) l1 = [] -> ns !! rq_dst rq = Some r -> sane r ->
  req_inv (<[rq_dst rq := r']> ns) (l1 ++ l2 ++ emitted (rq_dst rq) r r')
    (past ++ [Ev (rq_dst rq) rid (rc_blocks r) (rc_blocks r')]) rid rq.
Proof.
  intros r' [H1 H2 H3 H4 (rs & Hrs & Ho & Hp & Hph)] Hin Hl1 Hr [Hsz Ht].
  destruct (proj1 (in_flow_true _ _ _ _) Hin) as (Hsrc & Hdst & Hnm). apply names_iff in Hnm.
  pose proof (handle_frame py_str other_key VNone now (rq_src rq) (VStr rid) (pk_msg p) r Hnm ltac:(done) Ht) as Hfr.
  fold r' in Hfr. pose proof (frame_answered _ _ _ _ _ Hfr) as Ha. specialize (H3 r Hr).
  split; [done|done| |apply Forall_app; split; [done|by apply Forall_singleton]|].
  - intros r0. rewrite lookup_insert_eq. intros [= <-]. destruct (dget (VStr rid) (rc_pending r')) eqn:E; [|done].
    apply (fr_shrinks _ _ _ _ _ Hfr) in E. congruence.
  - exists rs. rewrite lookup_insert_ne by done. split_and!; [done|done|done|].
    unfold in_phase in *. rewrite events_mine. fold (and_then (events rid (rq_dst rq) past) (rq_dst rq) rid r r').
    destruct (flow_delivered _ _ _ l1 p l2 _ _ Hin H2 Hl1 Ha) as [HW HR]. rewrite HW in Hph. rewrite HR.
    destruct (rq_kind rq) as [data d key|bid key|bid].
    + destruct Hph as [Hb Hph]. split; [done|]. unfold buffer_at in *. rewrite lookup_insert_eq. rewrite Hr in Hph.
      by apply store_dst_step.
    + by apply load_dst_step.
    + destruct Hph as [Hb Hph]. split; [done|]. by apply free_dst_step.
Qed.

(** An answer reaches the requester. *)
Lemma deliver_src ns l1 p l2 past rid rq now r :
  let r' := state_after (handle now (rq_dst rq) (pk_msg p)) r in
  req_inv ns (l1 ++ p :: l2) past rid rq -> in_flow rid (rq_dst rq) (rq_src rq) p = true ->
  flow rid (rq_dst rq) (rq_src rq) l1 = [] -> ns !! rq_src rq = Some r -> sane r ->
  req_inv (<[rq_src rq := r']> ns) (l1 ++ l2 ++ emitted (rq_src rq) r r')
    (past ++ [Ev (rq_src rq) rid (rc_blocks r) (rc_blocks r')]) rid rq.
Proof.
  intros r' [H1 H2 H3 H4 (rs & Hrs & Ho & Hp & Hph)] Hin Hl1 Hr [Hsz Ht]. rewrite Hr in Hrs. injection Hrs as <-.
  destruct (proj1 (in_flow_true _ _ _ _) Hin) as (Hsrc & Hdst & Hnm). apply names_iff in Hnm.
  pose proof (handle_frame py_str other_key VNone now (rq_dst rq) (VStr rid) (pk_msg p) r Hnm ltac:(done) Ht) as Hfr.
  fold r' in Hfr. pose proof (frame_answered _ _ _ _ _ Hfr) as Ha.
  set (e := Ev _ _ _ _). set (ns' := <[_ := _]> ns). set (wire' := l1 ++ _).
  enough (own (VStr rid) (rq_future rq) r' /\ silent r r' /\ in_phase ns' wire' (past ++ [e]) rid rq r') as (Ho' & [_ Hq] & Hph').
  { split; [done|done| | |].
    - intros r0. unfold ns'. rewrite lookup_insert_ne by done. apply H3.
    - apply Forall_app. split; [done|]. by apply Forall_singleton.
    - exists r'. unfold ns'. rewrite lookup_insert_eq. split_and!; [done|done| |done].
      intros g Hg. apply Hp, (fr_shrinks _ _ _ _ _ Hfr), Hg. }
  unfold in_phase in *. rewrite events_other by by right.
  destruct (flow_delivered _ _ _ l1 p l2 _ _ Hin (not_eq_sym H2) Hl1 Ha) as [HR HW]. fold wire' in HR, HW.
  rewrite HR in Hph. rewrite HW.
  destruct (rq_kind rq) as [data d key|bid key|bid].
  - destruct Hph as [Hb Hph].
    destruct (store_src_step py_str other_key now rid _ (rq_dst rq) _ _ _ _ _ _ _ _ _ r Hp Ho Hph) as (Hph' & Ho' & Hs & Hb').
    fold r' in Hph', Ho', Hs, Hb'. rewrite (proj1 Hs), app_nil_r, Hb'. unfold buffer_at, ns' in *.
    by rewrite lookup_insert_ne by done.
  - inversion Hph as [|x o HW0 Hev Hx Hside]; [done|].
    destruct (load_src_step py_str other_key now rid (rq_dst rq) _ o _ _ r H1 Hnm Hp Ho Ht Hside) as (Hph' & Ho' & Hs).
    fold r' in Hph', Ho', Hs. rewrite (proj1 Hs), app_nil_r. split_and!; [done|done|].
    by apply (lp_answered _ _ _ _ _ _ _ _ _ x o).
  - destruct Hph as [Hb Hph].
    destruct (free_src_step py_str other_key now rid (rq_dst rq) _ _ _ _ _ _ r Hp Ho Hph) as (Hph' & Ho' & Hs & Hb').
    fold r' in Hph', Ho', Hs, Hb'. by rewrite (proj1 Hs), app_nil_r, Hb'.
Qed.

(** The other requests do not notice. *)
Lemma deliver_other ns l1 p l2 past rid rid' rq now r e :
  let r' := state_after (handle now (pk_src p) (pk_msg p)) r in
  req_inv ns (l1 ++ p :: l2) past rid' rq -> rid <> rid' -> names rid (pk_msg p) = true ->
  ns !! pk_dst p = Some r -> sane r -> ev_rid e = rid ->
  req_inv (<[pk_dst p := r']> ns) (l1 ++ l2 ++ emitted (pk_dst p) r r') (past ++ [e]) rid' rq.
Proof.
  intros r' Hinv Hne Hnm Hr [Hsz Ht] He. pose proof (proj1 (names_iff _ _) Hnm) as Hnm'.
  pose proof (handle_frame py_str other_key (VStr rid') now (pk_src p) (VStr rid) (pk_msg p) r Hnm' ltac:(congruence) Ht) as Hfr.
  fold r' in Hfr. eapply req_inv_spared; [exact Hinv| | |right; exists e; split; [done|congruence]].
  - eapply nodes_spared_insert; [done|]. by eapply frame_spared.
  - left. split; by apply (flow_passed rid); [..|eapply frame_answered].
Qed.

Lemma WI_deliver ns l1 p l2 past reqs now rid r :
  let r' := state_after (handle now (pk_src p) (pk_msg p)) r in
  WI (World ns (l1 ++ p :: l2) past reqs) ->
  names rid (pk_msg p) = true -> flow rid (pk_src p) (pk_dst p) l1 = [] -> ns !! pk_dst p = Some r ->
  WI (World (<[pk_dst p := r']> ns) (l1 ++ l2 ++ emitted (pk_dst p) r r')
       (past ++ [Ev (pk_dst p) rid (rc_blocks r) (rc_blocks r')]) reqs).
Proof.
  intros r' [HWn HWw HWp HWr] Hnm Hl1 Hr. cbn in *. destruct (HWn _ _ Hr) as [Hsane Hun].
  pose proof (proj1 (names_iff _ _) Hnm) as Hnm'.
  assert (forall q, VStr rid <> q -> frame q (pk_src p) (VStr rid) r r') as Hfr
    by (intros q Hq; apply handle_frame; [done|done|apply Hsane]).
  pose proof (Hfr VNone ltac:(done)) as Hnone.
  apply Forall_app in HWw as [Hw1 [(rid' & rq & Hrq & Hn' & Hdir)%id Hw2]%Forall_cons]. cbn in *.
  pose proof (names_fun _ _ _ Hnm Hn') as <-. split; cbn.
  - apply map_Forall_insert_2; [|done]. split.
    + split; [rewrite (fr_chunk _ _ _ _ _ Hnone); apply Hsane|apply (fr_tidy _ _ _ _ _ Hnone)].
    + intros rid' Hrid'. apply (unknown_spared _ r); [by apply Hun|]. eapply frame_spared, Hfr. congruence.
  - rewrite !Forall_app. split_and!; [done|done|].
    eapply Forall_impl; [apply (emitted_belongs (pk_src p) rid rq); [by eapply frame_answered|naive_solver]|].
    intros p' Hp'. by exists rid, rq.
  - apply Forall_app. split; [done|]. apply Forall_singleton. by exists rq.
  - intros rid0 rq0 Hrq0. destruct (decide (rid = rid0)) as [<-|Hne]; [|by eapply deliver_other; [apply HWr|..]].
    rewrite Hrq in Hrq0. injection Hrq0 as <-. specialize (HWr _ _ Hrq). destruct Hdir as [[Hs Hd]|[Hs Hd]].
    + unfold r' in *. rewrite Hs, Hd in *. apply deliver_dst; try done. by apply in_flow_true.
    + unfold r' in *. rewrite Hs, Hd in *. apply deliver_src; try done. by apply in_flow_true.
Qed.

(** ** Every reachable world *)

Lemma WI_step w w' : wstep py_str other_key w w' -> WI w -> WI w'.
Proof.
  intros Hstep HW. destruct Hstep as [|? ? ? ? ? ? ? ? ? ? ? ? ? ? ? Hb| |ns wire past reqs rid rq r Hrq Hr|ns wire past reqs n r b Hr|ns wire past reqs n r c Hr|ns wire past reqs a b].
  - by eapply WI_request.
  - by eapply WI_refused.
  - by apply WI_deliver.
  - eapply WI_moves; [done|done|intros q; apply finish_spared|]. apply finish_sane. by apply (WI_sane _ HW (rq_src rq)).
  - eapply WI_moves; [done|done|intros q; apply blocks_spared|]. destruct (WI_sane _ HW _ _ Hr) as [? []]. by repeat split.
  - eapply WI_moves; [done|done|intros q; apply connected_spared|]. destruct (WI_sane _ HW _ _ Hr) as [? []]. by repeat split.
  - apply (WI_spared ns wire); [done|intros q; apply nodes_spared_refl|exact (WI_sane _ HW)| |intros; apply cut_flows].
    by intros p [_ Hp]%list_elem_of_filter.
Qed.

Lemma WI_started ns : map_Forall (fun _ => started) ns -> WI (World ns [] [] ∅).
Proof.
  intros Hns. split; cbn; [|done|done|apply map_Forall_empty].
  intros n r Hr. destruct (Hns n r Hr) as (blocks & c & size & threshold & Hsz & ->). repeat split; try done. constructor.
Qed.

Lemma reachable_WI w : reachable_world py_str other_key w -> WI w.
Proof.
  intros (ns & Hns & Hsteps). apply WI_started in Hns. revert Hns. generalize (World ns [] [] ∅), w, Hsteps. clear.
  induction 1 as [|w1 w2 w3 Hs _ IH]; [done|]. intros HW. by apply IH, (WI_step w1).
Qed.
End invariant.
