(* ===== verification/OverlapSpec.v ===== *)
(** * What overlapping requests promise

    However the requests of any number of nodes overlap, whatever is lost and
    whoever gives up: an answer that a caller gets tells what happened at the
    peer, a store is done at most once, and each message delivered runs one
    whole operation of its request at the node it was meant for, or leaves the
    blocks alone. *)
From S2P Require Import Prelude Config PyVal Protocol Blocks BlocksFacts BlocksSpec StoreInterface.
From S2P Require Import Replication ReplicationFacts ReplicationSpec ReplicationFrame Interleave.
From S2P Require Import Overlap OverlapFacts OverlapInv.

Section spec.
Context {B : Type} `{!BlockStore B} (py_str : pyval -> string) (other_key : pyval -> string).
Abbreviation rep := (Replicator B).
Abbreviation event := (event (B := B)).

(** ** What a caller is told *)

Inductive answer := AStored (id : pyval) | ALoaded (o : option bytes) | AFreed (b : bool).

(** What the call returns if its wait ends now. *)
Definition result_of (k : kind) (rid timeout : string) (f : nat) (s : rep) : result answer :=
  match k with
  | KStore _ _ _ =>
      let? v := outcome (store_remote_end py_str rid timeout (rc_futures s !! f)) s in Ok (AStored v)
  | KLoad _ _ => let? o := load_result py_str rid timeout f s in Ok (ALoaded o)
  | KFree _ => let? b := outcome (free_remote_end rid timeout (rc_futures s !! f)) s in Ok (AFreed b)
  end.

(** The store was done by one of these deliveries, and the others did nothing. *)
Definition done_once (data : bytes) (d : Durability) (key : option string) (id : Z) (evs : list event) : Prop :=
  exists evs1 x evs2, evs = evs1 ++ x :: evs2 /\ Forall quiet evs1 /\ Forall quiet evs2 /\ stored data d key (Ok id) x.

(** None of them did it; the block store may have refused. *)
Definition not_done (data : bytes) (d : Durability) (key : option string) (evs : list event) : Prop :=
  Forall (fun e => quiet e \/ exists err, stored data d key (Err err) e) evs.

Definition happened (k : kind) (a : answer) (evs : list event) : Prop :=
  match k, a with
  | KStore data d key, AStored v => exists id, v = VInt id /\ done_once data d key id evs
  | KLoad bid key, ALoaded o => exists x, evs = [x] /\ looked_up bid key o x
  | KFree bid, AFreed b => exists x, evs = [x] /\ freed bid b x
  | _, _ => False
  end.

(** The operation of a request, whatever its outcome. *)
Definition operation (k : kind) (e : event) : Prop :=
  match k with
  | KStore data d key => exists res, stored data d key res e
  | KLoad bid key => exists o, looked_up bid key o e
  | KFree bid => exists b, freed bid b e
  end.

(** The caller was told that the peer refused. *)
Definition told_nack (f : nat) (s : rep) : Prop :=
  exists m, rc_futures s !! f = Some (FReply m) /\ msg_type m = NACK.

(** ** What each phase says *)

Lemma store_phase_result rid src data d key W R buf fu evs timeout v (s : rep) :
  store_phase rid src data d key W R buf fu evs ->
  outcome (store_remote_end py_str rid timeout fu) s = Ok v ->
  exists id, v = VInt id /\ done_once data d key id evs.
Proof.
  unfold outcome, store_remote_end. rewrite bind_modify.
  intros [s0 _ _ _ _ -> _|sid seq got todo began _ _ _ _ _ -> _|_ _ _ Hf _|id e1 x e2 _ _ _ Hf He H1 H2 Hx].
  - done.
  - done.
  - destruct Hf as [->|(m & -> & Hm)]; [done|]. rewrite decide_True by done.
    destruct (vget_default _ _ _); [|done]. by mrun.
  - destruct Hf as [->| ->]; [done|]. cbn. intros [= <-]. exists id. split; [done|]. by exists e1, x, e2.
Qed.

Lemma short_reply rid timeout o (r rs : rep) m :
  load_messages rid o r = [m] -> short_answer rid m ->
  outcome (load_remote_reply py_str rid timeout (Some (FReply m))) rs = Ok (LDone o).
Proof.
  intros Hm Hsa. unfold load_messages in Hm.
  destruct o as [data|]; [destruct (_ <=? _)|]; injection Hm as Hm; subst m; try done. by destruct Hsa.
Qed.

Lemma load_side_result rid dst f o R (rs : rep) timeout o' :
  load_side rid dst f o R rs -> load_result py_str rid timeout f rs = Ok o' -> o' = o.
Proof.
  unfold load_result. intros Hl.
  inversion Hl as [r _ _ _ _ Hf|m r Hm Hsa _ _ Hf|_ _ _ Hf
    |data sid hsid g seq got todo began Hd _ _ _ _ Hp Hf Hg _ _|data hsid g Hd _ _ Hp Hf Hg _]; rewrite Hf.
  - done.
  - rewrite (short_reply rid timeout o r rs m) by done. by intros [= <-].
  - done.
  - unfold outcome, load_remote_reply. rewrite !decide_False by done.
    change (vget "chunked" (msg_body (header rid (len data) hsid))) with (Ok (VBool true)). mrun. cbn [truthy]. mrun.
    destruct Hp as [-> | ->]; [|done]. cbn [mret snd]. by rewrite Hg.
  - unfold outcome, load_remote_reply. rewrite !decide_False by done.
    change (vget "chunked" (msg_body (header rid (len data) hsid))) with (Ok (VBool true)). mrun. cbn [truthy]. mrun.
    destruct Hp as [-> | ->]; [|done]. cbn [mret snd]. destruct (rc_futures rs !! g) as [[]|] eqn:Eg; try done.
    cbn. intros [= <-]. by rewrite Hd, (Hg _ eq_refl).
Qed.

Lemma load_phase_result rid dst f bid key W R (rs : rep) evs timeout o :
  load_phase rid dst f bid key W R rs evs -> load_result py_str rid timeout f rs = Ok o ->
  exists x, evs = [x] /\ looked_up bid key o x.
Proof.
  intros [_ _ _ _ _ Hf|x o' _ -> Hx Hside] Hres.
  - unfold load_result in Hres. by rewrite Hf in Hres.
  - exists x. by rewrite (load_side_result _ _ _ _ _ _ _ _ Hside Hres).
Qed.

Lemma free_phase_result rid bid W R fu evs timeout b (s : rep) :
  free_phase rid bid W R fu evs -> outcome (free_remote_end rid timeout fu) s = Ok b ->
  exists x, evs = [x] /\ freed bid b x.
Proof.
  unfold outcome, free_remote_end. rewrite bind_modify.
  intros [_ _ _ ->|x b' _ -> Hx _ [->| ->]]; [done|done|]. cbn. intros [= <-]. by exists x.
Qed.

Lemma WI_result w rid rq (rs : rep) timeout a :
  WI w -> w_reqs w !! rid = Some rq -> w_nodes w !! rq_src rq = Some rs ->
  result_of (rq_kind rq) rid timeout (rq_future rq) rs = Ok a ->
  happened (rq_kind rq) a (events rid (rq_dst rq) (w_past w)).
Proof.
  intros Hw Hrq Hrs Hres.
  destruct (wi_reqs _ Hw _ _ Hrq) as [_ _ _ _ (rs' & Hrs' & _ & _ & Hph)]. rewrite Hrs in Hrs'. injection Hrs' as <-.
  unfold result_of, in_phase in *. destruct (rq_kind rq) as [data d key|bid key|bid].
  - destruct (outcome _ rs) as [v|e] eqn:Hv; [|done]. injection Hres as <-. destruct Hph as [_ Hph].
    by apply (store_phase_result _ _ _ _ _ _ _ _ _ _ _ _ _ Hph Hv).
  - destruct (load_result _ _ _ _ rs) as [o|e] eqn:Hv; [|done]. injection Hres as <-.
    by apply (load_phase_result _ _ _ _ _ _ _ _ _ _ _ Hph Hv).
  - destruct (outcome _ rs) as [b|e] eqn:Hv; [|done]. injection Hres as <-. destruct Hph as [_ Hph].
    by apply (free_phase_result _ _ _ _ _ _ _ _ _ Hph Hv).
Qed.

(** ** The theorems *)

(** C14: requests that overlap.  Any number of nodes store on, load from and
    free on each other at the same time; messages are delayed, mixed and lost
    with a connection, peers come and go, callers time out, transfers stall.
    Whatever a caller is told is what happened to its own request: a store that
    returns an id was done by the peer's block store exactly once, on exactly
    the bytes, durability and key given, with that id; a load returns what the
    one lookup at the peer found, chunked or not; a free, what the one free
    gave. *)
Theorem overlapping_requests w rid rq (rs : rep) timeout a :
  reachable_world py_str other_key w -> w_reqs w !! rid = Some rq -> w_nodes w !! rq_src rq = Some rs ->
  result_of (rq_kind rq) rid timeout (rq_future rq) rs = Ok a ->
  happened (rq_kind rq) a (events rid (rq_dst rq) (w_past w)).
Proof. intros Hw%reachable_WI. by apply WI_result. Qed.

(** C16: a store on a peer is done at most once, even if its caller timed out,
    its answer was lost or its transfer was given up; and a caller that is told
    the peer refused can rely on it: the store was not done. *)
Theorem store_at_most_once w rid src dst data d key f (rs : rep) :
  reachable_world py_str other_key w -> w_reqs w !! rid = Some (Req src dst (KStore data d key) f) ->
  w_nodes w !! src = Some rs ->
  let evs := events rid dst (w_past w) in
  not_done data d key evs \/ (exists id, done_once data d key id evs) /\ ~ told_nack f rs.
Proof.
  intros Hw Hrq Hrs. apply reachable_WI in Hw.
  destruct (wi_reqs _ Hw _ _ Hrq) as [_ _ _ _ (rs' & Hrs' & _ & _ & Hph)]. cbn in Hrs'. rewrite Hrs in Hrs'. injection Hrs' as <-.
  destruct Hph as [_ Hph]. cbn in Hph.
  destruct Hph as [s _ _ _ _ _ He|sid seq got todo began _ _ _ _ _ _ He|_ _ _ _ He|id e1 x e2 _ _ _ Hf He H1 H2 Hx].
  - left. eapply Forall_impl; [exact He|by left].
  - left. eapply Forall_impl; [exact He|by left].
  - by left.
  - right. split; [exists id; by exists e1, x, e2|]. intros (m & Hm & Hn). destruct Hf as [Hf|Hf]; rewrite Hf in Hm; [done|].
    by injection Hm as <-.
Qed.

Lemma phase_operation ns wire past rid rq (rs : rep) :
  in_phase ns wire past rid rq rs ->
  Forall (fun e => quiet e \/ operation (rq_kind rq) e) (events rid (rq_dst rq) past).
Proof.
  unfold in_phase, operation. destruct (rq_kind rq) as [data d key|bid key|bid].
  - intros [_ Hph]. destruct Hph as [s _ _ _ _ _ He|sid seq got todo began _ _ _ _ _ _ He|_ _ _ _ He|id e1 x e2 _ _ _ _ -> H1 H2 Hx].
    + eapply Forall_impl; [exact He|by left].
    + eapply Forall_impl; [exact He|by left].
    + eapply Forall_impl; [exact He|]. cbn. intros e [?|[err ?]]; [by left|right; by exists (Err err)].
    + apply Forall_app. split; [eapply Forall_impl; [exact H1|by left]|].
      constructor; [right; by exists (Ok id)|eapply Forall_impl; [exact H2|by left]].
  - intros [_ _ -> _ _ _|x o _ -> Hx _]; [done|]. apply Forall_singleton. right. by exists o.
  - intros [_ [_ _ -> _|x b _ -> Hx _ _]]; [done|]. apply Forall_singleton. right. by exists b.
Qed.

Lemma WI_event w e :
  WI w -> e ∈ w_past w -> exists rq, w_reqs w !! ev_rid e = Some rq /\
    (quiet e \/ ev_node e = rq_dst rq /\ operation (rq_kind rq) e).
Proof.
  intros [_ _ Hp Hr] He. rewrite Forall_forall in Hp. destruct (Hp e He) as [rq Hrq]. exists rq. split; [done|].
  destruct (Hr _ _ Hrq) as [_ _ _ Hel (rs & _ & _ & _ & Hph)]. rewrite Forall_forall in Hel.
  destruct (decide (ev_node e = rq_dst rq)) as [Hn|Hn]; [|left; by apply Hel].
  apply phase_operation in Hph. rewrite Forall_forall in Hph.
  destruct (Hph e) as [?|?]; [by apply list_elem_of_filter|by left|by right].
Qed.

(** C17: deliveries serialize.  Whatever interleaves, a message that is handled
    either leaves the block store of its node as it was or runs there the one
    operation its request asked for, whole, and only at the node the request
    was made to: chunks, headers, answers and strays never touch a block. *)
Theorem deliveries_serialize w :
  reachable_world py_str other_key w ->
  Forall (fun e => exists rq, w_reqs w !! ev_rid e = Some rq /\
    (quiet e \/ ev_node e = rq_dst rq /\ operation (rq_kind rq) e)) (w_past w).
Proof.
  intros Hw%reachable_WI. apply Forall_forall. intros e He. by apply WI_event.
Qed.

(** ** Running a world *)

Inductive action :=
  | ARequest (n dst : string) (k : kind) (rid : string)
  | ADeliver (i : nat) (now : Z)
  | AFinish (rid : string).

Definition rid_of (m : Message) : option string :=
  match vget "req_id" (msg_body m) with Ok (VStr rid) => Some rid | _ => None end.

Lemma rid_of_names m rid : rid_of m = Some rid -> names rid m = true.
Proof.
  unfold rid_of, names. destruct (vget "req_id" (msg_body m)) as [[]|]; try done.
  intros [= ->]. by apply bool_decide_eq_true.
Qed.

Definition act (a : action) (w : world) : option world :=
  match a with
  | ARequest n dst k rid =>
      match w_reqs w !! rid, w_nodes w !! n with
      | None, Some r =>
          if decide (rid <> "" /\ n <> dst) then
            match begin k dst rid r with
            | (r', Ok f) => Some (World (<[n := r']> (w_nodes w)) (w_wire w ++ emitted n r r') (w_past w)
                                    (<[rid := Req n dst k f]> (w_reqs w)))
            | (r', Err _) => Some (World (<[n := r']> (w_nodes w)) (w_wire w ++ emitted n r r') (w_past w) (w_reqs w))
            end
          else None
      | _, _ => None
      end
  | ADeliver i now =>
      match w_wire w !! i with
      | None => None
      | Some p =>
          match rid_of (pk_msg p), w_nodes w !! pk_dst p with
          | Some rid, Some r =>
              match flow rid (pk_src p) (pk_dst p) (take i (w_wire w)) with
              | [] =>
                  let r' := state_after (handle_message py_str other_key now (pk_src p) (pk_msg p)) r in
                  Some (World (<[pk_dst p := r']> (w_nodes w))
                          (take i (w_wire w) ++ drop (S i) (w_wire w) ++ emitted (pk_dst p) r r')
                          (w_past w ++ [Ev (pk_dst p) rid (rc_blocks r) (rc_blocks r')]) (w_reqs w))
              | _ => None
              end
          | _, _ => None
          end
      end
  | AFinish rid =>
      match w_reqs w !! rid with
      | None => None
      | Some rq =>
          match w_nodes w !! rq_src rq with
          | None => None
          | Some r => Some (World (<[rq_src rq := finish (rq_kind rq) rid r]> (w_nodes w)) (w_wire w) (w_past w) (w_reqs w))
          end
      end
  end.

Fixpoint acts (l : list action) (w : world) : option world :=
  match l with
  | [] => Some w
  | a :: l => match act a w with Some w' => acts l w' | None => None end
  end.

Lemma act_wstep a w w' : act a w = Some w' -> wstep py_str other_key w w'.
Proof.
  destruct w as [ns wire past reqs], a as [n dst k rid|i now|rid]; cbn.
  - destruct (reqs !! rid) eqn:Hrid; [done|]. destruct (ns !! n) as [r|] eqn:Hn; [|done].
    case_decide as Hd; [|done]. destruct Hd. destruct (begin k dst rid r) as [r' [f|e]] eqn:Hb; intros [= <-].
    + by eapply ws_request.
    + by eapply ws_refused.
  - destruct (wire !! i) as [p|] eqn:Hp; [|done]. destruct (rid_of (pk_msg p)) as [rid|] eqn:Hrid; [|done].
    destruct (ns !! pk_dst p) as [r|] eqn:Hn; [|done].
    destruct (flow rid (pk_src p) (pk_dst p) (take i wire)) eqn:Hf; [|done]. intros [= <-].
    rewrite <-(take_drop_middle _ _ _ Hp) at 1. apply ws_deliver; [|done|done]. by apply rid_of_names.
  - destruct (reqs !! rid) as [rq|] eqn:Hrid; [|done]. destruct (ns !! rq_src rq) as [r|] eqn:Hn; [|done].
    intros [= <-]. by apply ws_finish.
Qed.

Lemma acts_reachable l ns w :
  map_Forall (fun _ => started) ns -> acts l (World ns [] [] ∅) = Some w -> reachable_world py_str other_key w.
Proof.
  intros Hns Hl. exists ns. split; [done|]. revert Hl. generalize (World ns [] [] ∅). clear Hns.
  induction l as [|a l IH]; intros w0; cbn; [by intros [= <-]|].
  destruct (act a w0) as [w1|] eqn:Ha; [|done]. intros Hl. eapply rtc_l; [by eapply act_wstep|by apply IH].
Qed.
End spec.

(** ** Witnesses *)

#[local] Instance overlap_store : BlockStore managed := managed_store hash0 demo_env.

(** Two nodes that store on each other at the same time, in chunks that mix;
    the first then reads its block back, again in chunks, while the other frees
    its own. *)
Definition fresh_node (peer : string) : Replicator managed :=
  ReplicationCoordinator_init (Managed demo_manager 0) {[peer]} 2 2.
Definition fresh_world : world (B := managed) := World {["a" := fresh_node "b"; "b" := fresh_node "a"]} [] [] ∅.

Definition store_q : kind := KStore (payload 3) CACHE (Some "k").
Definition load_t : kind := KLoad None (Some "k").
Definition script : list action :=
  [ARequest "a" "b" store_q "q"; ARequest "b" "a" (KStore (payload 4) PINNED None) "s";
   ADeliver 0 5; ADeliver 2 5; ADeliver 2 6; ADeliver 0 6; ADeliver 1 7; ADeliver 0 7; ADeliver 1 8; ADeliver 0 8;
   ARequest "a" "b" load_t "t"; ARequest "b" "a" (KFree 1) "u"; ADeliver 1 9; ADeliver 0 9; ADeliver 1 10;
   ADeliver 1 10; ADeliver 0 11; ADeliver 0 11].
Definition busy_world : world (B := managed) := default fresh_world (acts str_of str_of script fresh_world).

Definition node_a : Replicator managed := default (fresh_node "b") (w_nodes busy_world !! "a").

Lemma busy_reachable : reachable_world str_of str_of busy_world.
Proof.
  apply (acts_reachable str_of str_of script {["a" := fresh_node "b"; "b" := fresh_node "a"]}).
  - assert (forall peer, started (fresh_node peer)) as Hs by (intros peer; by eexists _, _, 2, 2).
    apply map_Forall_insert_2; [apply Hs|]. apply map_Forall_insert_2; [apply Hs|apply map_Forall_empty].
  - by vm_compute.
Qed.

Lemma busy_node_a : w_nodes busy_world !! "a" = Some node_a.
Proof. by vm_compute. Qed.

Lemma overlapping_requests_witness :
  happened store_q (AStored (VInt 4)) (events "q" "b" (w_past busy_world)) /\
  happened load_t (ALoaded (Some (payload 3))) (events "t" "b" (w_past busy_world)).
Proof.
  split.
  - apply (overlapping_requests str_of str_of busy_world "q" (Req "a" "b" store_q 0) node_a "30");
      [apply busy_reachable|by vm_compute|apply busy_node_a|by vm_compute].
  - apply (overlapping_requests str_of str_of busy_world "t" (Req "a" "b" load_t 1) node_a "30");
      [apply busy_reachable|by vm_compute|apply busy_node_a|by vm_compute].
Defined.

Lemma store_at_most_once_witness :
  let evs := events "q" "b" (w_past busy_world) in
  not_done (payload 3) CACHE (Some "k") evs \/
  (exists id, done_once (payload 3) CACHE (Some "k") id evs) /\ ~ told_nack 0 node_a.
Proof.
  apply (store_at_most_once str_of str_of busy_world "q" "a" "b" (payload 3) CACHE (Some "k") 0 node_a);
    [apply busy_reachable|by vm_compute|apply busy_node_a].
Defined.

Lemma deliveries_serialize_witness :
  length (w_past busy_world) = 14%nat /\
  Forall (fun e => exists rq, w_reqs busy_world !! ev_rid e = Some rq /\
    (quiet e \/ ev_node e = rq_dst rq /\ operation (rq_kind rq) e)) (w_past busy_world).
Proof. split; [by vm_compute|]. apply (deliveries_serialize str_of str_of), busy_reachable. Defined.
