(* ===== verification/OverlapLive.v ===== *)
(** * Overlapping requests that are not disturbed

    When no connection breaks, no transfer stalls past the timeout and callers
    wait until they are answered, every request is answered: once its messages
    have been delivered, in whatever order and mixture, its caller has the
    result.  Callers return as soon as their answer is there, and what a
    returning caller takes out of the tables leaves the others' waits alone. *)
From S2P Require Import Prelude Config PyVal Protocol Blocks BlocksFacts BlocksSpec StoreInterface.
From S2P Require Import Replication ReplicationFacts ReplicationSpec ReplicationBounds ReplicationFrame Interleave.
From S2P Require Import Overlap OverlapFacts OverlapInv OverlapSpec.

(** ** Transfers of other requests stay *)

Section table.
Context {B : Type} `{!BlockStore B} (py_str : pyval -> string) (other_key : pyval -> string).
Abbreviation rep := (Replicator B).
Context (now : Z) (q : pyval) (X : option ChunkBuffer) (peer : string) (rid : pyval) (Hne : rid <> q).

Definition recent (b : ChunkBuffer) : Prop := now - cb_started_at b <= Config.INBOUND_STREAM_TIMEOUT.

(** No transfer is stale, and the one of [q] is [X]. *)
Definition steady (r : rep) : Prop :=
  Forall (fun kb => recent kb.2) (rc_buffers r) /\ dget q (rc_buffers r) = X.

Lemma stale_none bufs : Forall (fun kb : pyval * ChunkBuffer => recent kb.2) bufs <-> stale_buffers now bufs = [].
Proof.
  unfold stale_buffers. induction bufs as [|kb bufs IH]; [done|]. rewrite Forall_cons, filter_cons, IH. unfold recent.
  case_decide; [|naive_solver lia]. split; [lia|done].
Qed.

Lemma untouched_steady {A} (m : M rep A) : untouched m -> preserves steady m.
Proof. intros Hm r Hr. unfold steady. by rewrite (Hm (rc_buffers r) r). Qed.

Lemma steady_ddel : preserves steady (mmodify (fun r : rep => with_buffers (ddel rid (rc_buffers r)) r)).
Proof.
  apply preserves_modify. intros r [Ha Hb]. split; cbn; [by apply Forall_ddel|by rewrite dget_ddel_ne].
Qed.

Lemma steady_dset b r : recent b -> steady r -> steady (with_buffers (dset rid b (rc_buffers r)) r).
Proof.
  intros Hr [Ha Hb]. split; cbn; [by apply Forall_dset|by rewrite dget_dset_ne].
Qed.

Lemma recent_now mode total dur key f : recent (Buf mode total [] 0 dur key f now peer).
Proof. unfold recent. cbn. rewrite Z.sub_diag. done. Qed.

Lemma gc_steady : preserves steady (_gc_buffers now).
Proof.
  intros r Hr. unfold state_after. rewrite gc_nothing; [done|]. apply stale_none, Hr.
Qed.

Lemma open_pull_steady total : preserves steady (_open_pull_buffer now peer rid total).
Proof.
  unfold _open_pull_buffer. pres; [apply gc_steady|apply untouched_steady, new_future_untouched| |].
  - apply preserves_modify. intros r Hr. apply steady_dset; [apply recent_now|done].
  - by apply preserves_modify.
Qed.

Lemma abort_steady reason : preserves steady (_abort_buffer py_str rid reason).
Proof.
  unfold _abort_buffer. pres; [apply untouched_steady, require_hashable_untouched|].
  apply preserves_get. intros r Hr. destruct (dget rid (rc_buffers r)) as [buf|]; [|done].
  match goal with |- steady (state_after ?c _) => enough (preserves steady c) as Hc by by apply Hc end. pres.
  - apply steady_ddel.
  - apply untouched_steady, require_sliceable_untouched.
  - apply untouched_steady, settle_opt_untouched.
Qed.

Lemma serve_store_chunked_steady body : preserves steady (serve_store_chunked py_str now peer rid body).
Proof.
  unfold serve_store_chunked. pres; [apply untouched_steady, reply_untouched|apply gc_steady|].
  apply preserves_get. intros r Hr.
  match goal with |- steady (state_after ?c _) => enough (preserves steady c) as Hc by by apply Hc end. pres.
  - apply untouched_steady, reply_untouched.
  - apply untouched_steady, require_hashable_untouched.
  - apply preserves_modify. intros r1 Hr1. apply steady_dset; [apply recent_now|done].
Qed.

Lemma handle_chunk_steady m : names_req rid m -> preserves steady (_handle_chunk py_str other_key peer m).
Proof.
  intros Hm r Hr. unfold state_after, _handle_chunk. rewrite Hm. mrun. destruct (truthy rid); [|by mrun].
  unfold require_hashable. destruct (hashable rid); mrun; [|done].
  destruct (dget rid (rc_buffers r)) as [buf|] eqn:Hb; [|done].
  destruct (extract_payload (msg_body m) ["chunk"]) as [[chunk|]|e]; mrun; [|by apply abort_steady|done].
  cbv zeta. set (r1 := with_buffers _ r). assert (steady r1) as Hr1.
  { apply steady_dset; [|done]. destruct Hr as [Ha _]. exact (Forall_dget _ _ _ _ Ha Hb). }
  match goal with |- steady (fst (?c r1)) => enough (preserves steady c) as Hc by by apply Hc end.
  clear dependent r. pres; try apply steady_ddel.
  all: apply untouched_steady; first [apply require_sliceable_untouched|apply reply_untouched|
    apply commit_store_untouched|apply settle_opt_untouched].
Qed.

Lemma known_steady {A C} (x : A) (f : A -> M rep C) : preserves steady (f x) -> preserves steady (a <- mlift (Ok x);; f a).
Proof. intros Hf r Hr. unfold state_after. rewrite bind_lift_ok. by apply Hf. Qed.

Lemma handle_message_steady m : names_req rid m -> preserves steady (handle_message py_str other_key now peer m).
Proof.
  intros Hm. unfold handle_message. rewrite Hm. apply known_steady.
  assert (forall t, preserves steady (if decide (t = BLOCK_DATA) then
     chunked <- mlift (vget "chunked" (msg_body m));;
     if truthy chunked then
       total_size <- mlift (vget_default "total_size" (VInt 0) (msg_body m));;
       _open_pull_buffer now peer rid total_size
     else mret tt else mret tt)) as Hopen by (intros t; pres; apply open_pull_steady).
  assert (preserves steady (_serve_store_block py_str other_key now peer m)) as Hstore
    by (unfold _serve_store_block; rewrite Hm; apply known_steady; pres;
        [apply serve_store_chunked_steady|apply untouched_steady, serve_store_whole_untouched]).
  destruct (msg_type m);
    try (by apply handle_chunk_steady);
    try (pres; apply abort_steady);
    (apply preserves_bind; [pres; apply untouched_steady, require_hashable_untouched|]; intros _;
     apply preserves_get; intros r Hr;
     match goal with |- steady (state_after ?c _) => enough (preserves steady c) as Hc by by apply Hc end;
     destruct (negb (is_none rid) && dmem rid (rc_pending r));
     [apply preserves_bind; [apply Hopen|intros _; apply untouched_steady, resolve_pending_untouched]|]);
    first [ done | apply preserves_ret | apply untouched_steady, reply_untouched
          | apply untouched_steady, serve_request_untouched | apply untouched_steady, serve_free_untouched ].
Qed.
End table.

Section live.
Context {B : Type} `{!BlockStore B} (I : B -> Prop) `{!BlockStoreLaws B I}.
Context (py_str : pyval -> string) (other_key : pyval -> string).
Abbreviation rep := (Replicator B).
Abbreviation handle := (handle_message py_str other_key).
Abbreviation event := (event (B := B)).
Abbreviation nodes := (gmap string rep).

(** ** Steps that nothing disturbs *)

(** What a caller waits for is there. *)
Definition settled (f : nat) (s : rep) : bool :=
  match rc_futures s !! f with Some FWaiting | None => false | Some _ => true end.

(** All of the waits of a call are over: a chunked load waits twice. *)
Definition waited (k : kind) (rid timeout : string) (f : nat) (s : rep) : bool :=
  settled f s &&
  match k with
  | KLoad _ _ =>
      match outcome (load_remote_reply py_str rid timeout (rc_futures s !! f)) s with
      | Ok (LPull c) => settled c s
      | _ => true
      end
  | _ => true
  end.

(** A world and what the calls that returned gave their callers. *)
Abbreviation returns := (gmap string (result answer)).

Inductive calm_step : world * returns -> world * returns -> Prop :=
  | cs_request ns wire past reqs ret n dst k rid r r' f :
      reqs !! rid = None -> rid <> "" -> n <> dst -> ns !! n = Some r ->
      begin k dst rid r = (r', Ok f) ->
      calm_step (World ns wire past reqs, ret)
        (World (<[n := r']> ns) (wire ++ emitted n r r') past (<[rid := Req n dst k f]> reqs), ret)
  | cs_deliver ns l1 p l2 past reqs ret now rid r :
      names rid (pk_msg p) = true -> flow rid (pk_src p) (pk_dst p) l1 = [] -> ns !! pk_dst p = Some r ->
      pk_src p ∈ rc_connected r -> stale_buffers now (rc_buffers r) = [] ->
      let r' := state_after (handle now (pk_src p) (pk_msg p)) r in
      calm_step (World ns (l1 ++ p :: l2) past reqs, ret)
        (World (<[pk_dst p := r']> ns) (l1 ++ l2 ++ emitted (pk_dst p) r r')
           (past ++ [Ev (pk_dst p) rid (rc_blocks r) (rc_blocks r')]) reqs, ret)
  | cs_return ns wire past reqs ret rid rq r timeout :
      reqs !! rid = Some rq -> ret !! rid = None -> ns !! rq_src rq = Some r ->
      waited (rq_kind rq) rid timeout (rq_future rq) r = true ->
      calm_step (World ns wire past reqs, ret)
        (World (<[rq_src rq := finish (rq_kind rq) rid r]> ns) wire past reqs,
         <[rid := result_of py_str (rq_kind rq) rid timeout (rq_future rq) r]> ret)
  | cs_local ns wire past reqs ret n r b :
      ns !! n = Some r -> I b ->
      calm_step (World ns wire past reqs, ret) (World (<[n := with_blocks b r]> ns) wire past reqs, ret).

Lemma calm_wstep c c' : calm_step c c' -> wstep py_str other_key c.1 c'.1.
Proof.
  destruct 1; [by eapply ws_request|by apply ws_deliver|by apply ws_finish|by apply ws_local].
Qed.

(** Nodes that have just started, with sound block stores. *)
Definition well_started (r : rep) : Prop := started r /\ I (rc_blocks r) /\ 0 <= rc_chunk_threshold r.

Definition calm_world (c : world * returns) : Prop :=
  exists ns, map_Forall (fun _ => well_started) ns /\ rtc calm_step (World ns [] [] ∅, ∅) c.

(** What other requests leave of one's entries. *)
Record kept (q : pyval) (r r' : rep) : Prop := {
  kp_pending : dget q (rc_pending r') = dget q (rc_pending r);
  kp_pulls : dget q (rc_pull_futures r') = dget q (rc_pull_futures r);
  kp_buffer : dget q (rc_buffers r') = dget q (rc_buffers r);
  kp_future : forall f, own q f r -> own q f r' /\ rc_futures r' !! f = rc_futures r !! f
}.

Lemma kept_refl q r : kept q r r.
Proof. split; try done. Qed.

Lemma handle_kept q now peer rid m r :
  names_req rid m -> rid <> q -> tidy r -> stale_buffers now (rc_buffers r) = [] ->
  kept q r (state_after (handle now peer m) r).
Proof.
  intros Hm Hne Ht Hst. pose proof (handle_frame py_str other_key q now peer rid m r Hm Hne Ht) as Hfr.
  destruct (handle_message_steady py_str other_key now q (dget q (rc_buffers r)) peer rid Hne m Hm r) as [_ Hb].
  { split; [by apply stale_none|done]. }
  split; [apply (fr_pending _ _ _ _ _ Hfr)|apply (fr_pulls _ _ _ _ _ Hfr)|done|].
  intros f Hf. destruct (fr_future _ _ _ _ _ Hfr f Hf) as [Ho [H|(Hnone & b & e & Hsome & _)]]; [done|congruence].
Qed.

(** ** Where an undisturbed request is *)

(** Its caller waits and has nothing yet. *)
Record asking (rid : string) (f : nat) (rs : rep) : Prop := {
  ak_pending : dget (VStr rid) (rc_pending rs) = Some f;
  ak_future : rc_futures rs !! f = Some FWaiting;
  ak_buffer : dget (VStr rid) (rc_buffers rs) = None;
  ak_pulls : dget (VStr rid) (rc_pull_futures rs) = None
}.

Inductive store_live (rid src : string) (f : nat) (data : bytes) (d : Durability) (key : option string)
    (W R : list Message) (buf : option ChunkBuffer) (rs : rep) : Prop :=
  | sl_before (s : rep) :
      asking rid f rs -> 0 < rc_chunk_size s -> 0 <= rc_chunk_threshold s ->
      W = store_messages rid data d key s -> R = [] -> buf = None ->
      store_live rid src f data d key W R buf rs
  | sl_running sid seq got todo began :
      asking rid f rs -> todo <> [] -> Forall (fun c : bytes => c <> []) todo -> concat got ++ concat todo = data ->
      W = piece_messages (VStr rid) sid (len data) seq (len (concat got)) todo -> R = [] ->
      buf = Some (add_all got (push_buffer began src (len data) d key)) ->
      store_live rid src f data d key W R buf rs
  | sl_answered m :
      asking rid f rs -> Forall is_chunk W -> R = [m] -> short_answer rid m -> buf = None ->
      store_live rid src f data d key W R buf rs
  | sl_settled m :
      rc_futures rs !! f = Some (FReply m) -> short_answer rid m -> Forall is_chunk W -> R = [] -> buf = None ->
      store_live rid src f data d key W R buf rs.

Inductive load_live (rid dst : string) (f : nat) (bid : option Z) (key : option string)
    (W R : list Message) (rs : rep) : Prop :=
  | ll_before :
      asking rid f rs -> W = [request_message rid bid key] -> R = [] -> load_live rid dst f bid key W R rs
  | ll_coming o (r : rep) :
      asking rid f rs -> 0 < rc_chunk_size r -> 0 <= rc_chunk_threshold r -> W = [] -> R = load_messages rid o r ->
      load_live rid dst f bid key W R rs
  | ll_short o (r : rep) m :
      W = [] -> R = [] -> rc_futures rs !! f = Some (FReply m) -> load_messages rid o r = [m] -> short_answer rid m ->
      load_live rid dst f bid key W R rs
  | ll_pulling data sid hsid g seq got todo began :
      W = [] -> R = piece_messages (VStr rid) sid (len data) seq (len (concat got)) todo -> todo <> [] ->
      Forall (fun c : bytes => c <> []) todo -> concat got ++ concat todo = data ->
      dget (VStr rid) (rc_buffers rs) = Some (add_all got (pull_buffer began dst (len data) g)) ->
      dget (VStr rid) (rc_pull_futures rs) = Some g ->
      rc_futures rs !! f = Some (FReply (header rid (len data) hsid)) -> rc_futures rs !! g = Some FWaiting ->
      own (VStr rid) g rs -> f <> g -> load_live rid dst f bid key W R rs
  | ll_pulled data hsid g :
      W = [] -> R = [] -> dget (VStr rid) (rc_pull_futures rs) = Some g ->
      rc_futures rs !! f = Some (FReply (header rid (len data) hsid)) -> rc_futures rs !! g = Some (FBytes data) ->
      own (VStr rid) g rs -> load_live rid dst f bid key W R rs.

Inductive free_live (rid : string) (f : nat) (bid : Z) (W R : list Message) (rs : rep) : Prop :=
  | fl_before : asking rid f rs -> W = [free_message rid bid] -> R = [] -> free_live rid f bid W R rs
  | fl_answered b : asking rid f rs -> W = [] -> R = [freed_reply rid b] -> free_live rid f bid W R rs
  | fl_settled b : rc_futures rs !! f = Some (FReply (freed_reply rid b)) -> W = [] -> R = [] -> free_live rid f bid W R rs.

(** *** Other requests' steps *)

Lemma kept_asking rid f rs rs' : own (VStr rid) f rs -> kept (VStr rid) rs rs' -> asking rid f rs -> asking rid f rs'.
Proof.
  intros Ho [K1 K2 K3 K4] []. destruct (K4 f Ho) as [_ Hf].
  split; [by rewrite K1|by rewrite Hf|by rewrite K3|by rewrite K2].
Qed.

Lemma store_live_kept rid src f data d key W R buf rs rs' :
  own (VStr rid) f rs -> kept (VStr rid) rs rs' ->
  store_live rid src f data d key W R buf rs -> store_live rid src f data d key W R buf rs'.
Proof.
  intros Ho Hk [s Ha|sid seq got todo began Ha|m Ha|m Hf].
  1-3: apply (kept_asking _ _ _ _ Ho Hk) in Ha; econstructor; eassumption.
  eapply sl_settled; try done. by rewrite (proj2 (kp_future _ _ _ Hk f Ho)).
Qed.

Lemma load_live_kept rid dst f bid key W R rs rs' :
  own (VStr rid) f rs -> kept (VStr rid) rs rs' ->
  load_live rid dst f bid key W R rs -> load_live rid dst f bid key W R rs'.
Proof.
  intros Ho Hk Hl. pose proof (proj2 (kp_future _ _ _ Hk f Ho)) as Hf. destruct Hk as [K1 K2 K3 K4] eqn:E. clear E.
  destruct Hl as [Ha HW HR|o r Ha Hs Ht HW HR|o r m HW HR Hfu Hm Hsa
    |data sid hsid g seq got todo began HW HR Hne Hall Hcat Hb Hp Hfu Hg Hog Hfg|data hsid g HW HR Hp Hfu Hg Hog].
  - apply ll_before; [by eapply kept_asking|done|done].
  - eapply ll_coming; [by eapply kept_asking|exact Hs|done|done|done].
  - eapply (ll_short _ _ _ _ _ _ _ _ o r m); try done. by rewrite Hf.
  - destruct (K4 g Hog) as [Hog' Hg'].
    eapply (ll_pulling _ _ _ _ _ _ _ _ data sid hsid g seq got todo began); rewrite ?K2, ?K3, ?Hf, ?Hg'; done.
  - destruct (K4 g Hog) as [Hog' Hg'].
    eapply (ll_pulled _ _ _ _ _ _ _ _ data hsid g); rewrite ?K2, ?Hf, ?Hg'; done.
Qed.

Lemma free_live_kept rid f bid W R rs rs' :
  own (VStr rid) f rs -> kept (VStr rid) rs rs' -> free_live rid f bid W R rs -> free_live rid f bid W R rs'.
Proof.
  intros Ho Hk [Ha HW HR|b Ha HW HR|b Hf HW HR].
  - apply fl_before; [by eapply kept_asking|done|done].
  - eapply fl_answered; [by eapply kept_asking|done|done].
  - eapply fl_settled; [by rewrite (proj2 (kp_future _ _ _ Hk f Ho))|done|done].
Qed.

(** *** Its own steps *)

(** The answer the caller waits for. *)
Lemma asking_answered now peer rid f m (rs : rep) :
  asking rid f rs -> short_answer rid m ->
  let rs' := state_after (handle now peer m) rs in rc_futures rs' !! f = Some (FReply m) /\ replies rs rs' = [].
Proof.
  intros [Hp Hf Hb Hq] [Hn Ht Hc]. unfold state_after. rewrite (handle_reply _ _ _ _ rid f); [|..|done|done].
  - cbn. split; [apply lookup_insert_eq|by apply replies_none].
  - intros E. rewrite E in Ht. set_solver.
  - intros E. rewrite E in Ht. set_solver.
  - done.
  - done.
Qed.

Lemma pieces_some n (data : bytes) : (0 < n)%nat -> 0 < len data -> pieces n data <> [].
Proof. intros Hn Hd Hp. apply (f_equal (@concat _)) in Hp. rewrite pieces_concat in Hp by done. by subst data. Qed.

(** The peer's block store ran the store: it answers. *)
Lemma store_live_ran rid src f data d key rs (r r' : rep) b res es :
  asking rid f rs -> I (rc_blocks r) -> src ∈ rc_connected r ->
  bs_store data d key (rc_blocks r) = (b, res) -> answers src rid r res es -> rc_out r' = rc_out r ++ es ->
  dget (VStr rid) (rc_buffers r') = None ->
  store_live rid src f data d key [] (replies r r') (dget (VStr rid) (rc_buffers r')) rs.
Proof.
  intros Ha HI Hc Hs Hans Ho Hb. rewrite Hb, (replies_app _ _ _ Ho).
  destruct Hans as [[_ [?|(e & -> & He)]]|(m & -> & Hm)]; [done| |].
  { destruct He. by apply (bs_store_err (I := I) _ _ _ _ _ _ HI Hs). }
  apply (sl_answered _ _ _ _ _ _ _ _ _ _ m); try done. destruct res as [id|e]; [subst m; apply stored_answer|apply Hm].
Qed.

Lemma store_live_dst now rid src f data d key m W R rs (r : rep) :
  rid <> "" -> names_req (VStr rid) m -> dget (VStr rid) (rc_pending r) = None -> tidy r ->
  I (rc_blocks r) -> src ∈ rc_connected r -> stale_buffers now (rc_buffers r) = [] ->
  store_live rid src f data d key (m :: W) R (dget (VStr rid) (rc_buffers r)) rs ->
  let r' := state_after (handle now src m) r in
  store_live rid src f data d key W (R ++ replies r r') (dget (VStr rid) (rc_buffers r')) rs.
Proof.
  intros Hrid Hn Hp Ht HI Hc Hst Hl r'.
  inversion Hl as [s Ha Hsz Hth HW -> Hb|sid seq got todo began Ha Hne Hall Hcat HW -> Hb|m' Ha HW -> Hsa Hb|m' Hf Hsa HW -> Hb].
  - unfold store_messages in HW. destruct (Z.ltb_spec (rc_chunk_threshold s) (len data)) as [Hbig|Hsmall]; injection HW as -> ->.
    + destruct (store_header_step py_str other_key now src rid d key (len data) (rc_next_stream s) r Hp Hb Ht)
        as (_ & _ & es & Ho & [(-> & Hpos & Hb')|[Hb' Hes]]); fold r' in Ho, Hb'; rewrite Hb', (replies_app _ _ _ Ho).
      * eapply (sl_running _ _ _ _ _ _ _ _ _ _ _ 0 [] (pieces (Z.to_nat (rc_chunk_size s)) data));
          [done|apply pieces_some; lia|apply pieces_nonempty; lia| |done|done|done].
        cbn. by rewrite pieces_concat by lia.
      * destruct Hes as [[_ [?|?]]|(m' & -> & _ & Hm)]; [done|done|].
        apply (sl_answered _ _ _ _ _ _ _ _ _ _ m'); try done. apply piece_messages_chunks.
    + destruct (store_whole_step py_str other_key now src rid data d key r Hp) as (b & res & es & Hs & Hans & Hr').
      fold r' in Hr'. cbn [app]. eapply store_live_ran; try done; by rewrite Hr'.
  - destruct todo as [|c todo]; [done|]. injection HW as -> ->.
    destruct (store_chunk_step py_str other_key now src rid data d key sid seq got c todo began r Hrid Hall Hcat Hb)
      as [[Hmore Hr']|(-> & b & res & es & Hs & Hans & Hr')]; fold r' in Hr'.
    + rewrite replies_none by by rewrite Hr'. rewrite Hr'. cbn [with_buffers rc_buffers].
      eapply (sl_running _ _ _ _ _ _ _ _ _ _ sid (seq + 1) (got ++ [c]) todo began);
        [done|done| | | |done|by rewrite dget_dset_eq].
      * by apply Forall_cons in Hall as [_ ?].
      * rewrite concat_app, <-(assoc_L app). cbn. by rewrite app_nil_r.
      * replace (len (concat (got ++ [c]))) with (len (concat got) + len c); [done|].
        rewrite concat_app, len_app. cbn. by rewrite app_nil_r.
    + cbn [app]. eapply store_live_ran; try done; rewrite Hr'; [done|]. cbn. apply dget_ddel_eq.
  - apply Forall_cons in HW as [Hk HW]. assert (r' = r) as -> by by apply stray_chunk_step with (rid := rid).
    rewrite replies_none, app_nil_r by done. by apply (sl_answered _ _ _ _ _ _ _ _ _ _ m').
  - apply Forall_cons in HW as [Hk HW]. assert (r' = r) as -> by by apply stray_chunk_step with (rid := rid).
    rewrite replies_none by done. by apply (sl_settled _ _ _ _ _ _ _ _ _ _ m').
Qed.

Lemma store_live_src now rid src dst f data d key m W R buf rs :
  store_live rid src f data d key W (m :: R) buf rs ->
  let rs' := state_after (handle now dst m) rs in
  store_live rid src f data d key W R buf rs' /\ replies rs rs' = [].
Proof.
  intros Hl. inversion Hl as [s Ha _ _ _ HR _|sid seq got todo began Ha _ _ _ _ HR _|m' Ha HW HR Hsa Hb|m' Hf _ HW HR Hb]; try done.
  injection HR as -> ->. destruct (asking_answered now dst rid f m' rs Ha Hsa) as [Hf Hr].
  split; [by apply (sl_settled _ _ _ _ _ _ _ _ _ _ m')|done].
Qed.

Lemma load_live_dst now rid src dst f bid key m W R rs (r : rep) :
  dget (VStr rid) (rc_pending r) = None -> 0 < rc_chunk_size r -> 0 <= rc_chunk_threshold r -> src ∈ rc_connected r ->
  load_live rid dst f bid key (m :: W) R rs ->
  load_live rid dst f bid key W (R ++ replies r (state_after (handle now src m) r)) rs.
Proof.
  intros Hp Hsz Hth Hc Hl. inversion Hl as [Ha HW ->| | | |]; try done. injection HW as -> ->.
  destruct (request_step py_str other_key now src rid bid key r Hp Hsz) as (o & res & _ & _ & [Hr|[_ ?]]); [|done].
  by apply (ll_coming _ _ _ _ _ _ _ _ o r).
Qed.

Lemma load_live_src now rid dst f bid key m W R rs :
  rid <> "" -> own (VStr rid) f rs -> tidy rs -> stale_buffers now (rc_buffers rs) = [] ->
  load_live rid dst f bid key W (m :: R) rs ->
  let rs' := state_after (handle now dst m) rs in load_live rid dst f bid key W R rs' /\ replies rs rs' = [].
Proof.
  intros Hrid Ho Ht Hst Hl rs'.
  inversion Hl as [|o r Ha Hsz Hth -> HR|
    |data sid hsid g seq got todo began -> HR Hne Hall Hcat Hb Hp Hfu Hg Hog Hfg|]; try done.
  - destruct (load_messages_cases rid o r m R Hsz (eq_sym HR)) as [[-> Hs]|(data & -> & -> & ->)].
    + destruct (asking_answered now dst rid f m rs Ha Hs) as [Hf Hr]. split; [by apply (ll_short _ _ _ _ _ _ _ _ o r m)|done].
    + pose proof Ha as [A1 A2 A3 A4].
      destruct (header_step py_str other_key now dst rid f (len data) (rc_next_stream r) rs A1 Ho Ht A3 A4 A2)
        as (_ & [Hsil _] & [[? _]|(g & Hne & Hb' & Hp' & Hf' & Hg' & Hog)]); [done|]. split; [|done].
      assert (0 < len data) as Hpos.
      { unfold load_messages in HR. destruct (Z.leb_spec (len data) (rc_chunk_threshold r)); [done|lia]. }
      eapply (ll_pulling _ _ _ _ _ _ _ _ data _ _ g 0 [] (pieces (Z.to_nat (rc_chunk_size r)) data));
        [done|done|apply pieces_some; lia|apply pieces_nonempty; lia| |exact Hb'|done|exact Hf'|done|done|done].
      cbn. by rewrite pieces_concat by lia.
  - destruct todo as [|c todo]; [done|]. injection HR as -> ->.
    destruct (chunk_step py_str other_key now dst rid data sid seq got c todo (pull_buffer began dst (len data) g) rs
      Hrid Hall Hcat eq_refl eq_refl eq_refl Hb) as [[Hmore Hr']|[-> Hr']]; fold rs' in Hr'; rewrite Hr'.
    + split; [|by apply replies_none]. eapply (ll_pulling _ _ _ _ _ _ _ _ data sid hsid g (seq + 1) (got ++ [c]) todo began);
        [done| |done| | |cbn; by rewrite dget_dset_eq|done|done|done|by apply own_dset|done].
      * replace (len (concat (got ++ [c]))) with (len (concat got) + len c); [done|].
        rewrite concat_app, len_app. cbn. by rewrite app_nil_r.
      * by apply Forall_cons in Hall as [_ ?].
      * rewrite concat_app, <-(assoc_L app). cbn. by rewrite app_nil_r.
    + cbn [pull_buffer cb_mode cb_future settle_opt]. unfold state_after. rewrite settle_waiting by done. cbn [fst].
      split; [|by apply replies_none]. eapply (ll_pulled _ _ _ _ _ _ _ _ data hsid g); cbn; [done|done|done| | |apply (own_ddel _ _ _ _ rs Hog)].
      * by rewrite lookup_insert_ne.
      * by rewrite lookup_insert_eq.
Qed.

Lemma free_live_dst now rid src f bid m W R rs (r : rep) :
  dget (VStr rid) (rc_pending r) = None -> src ∈ rc_connected r -> free_live rid f bid (m :: W) R rs ->
  free_live rid f bid W (R ++ replies r (state_after (handle now src m) r)) rs.
Proof.
  intros Hp Hc Hl. inversion Hl as [Ha HW ->| |]; try done. injection HW as -> ->.
  destruct (free_step py_str other_key now src rid bid r Hp) as (b & res & _ & _ & [[_ ?]|Hr]); [done|].
  by apply (fl_answered _ _ _ _ _ _ b).
Qed.

Lemma free_live_src now rid dst f bid m W R rs :
  free_live rid f bid W (m :: R) rs ->
  let rs' := state_after (handle now dst m) rs in free_live rid f bid W R rs' /\ replies rs rs' = [].
Proof.
  intros Hl. inversion Hl as [|b Ha HW HR|]; try done. injection HR as -> ->.
  destruct (asking_answered now dst rid f (freed_reply rid b) rs Ha) as [Hf Hr]; [split; [done|set_solver|done]|].
  split; [by eapply fl_settled|done].
Qed.

(** ** Every undisturbed world *)

Definition live (ns : nodes) (wire : list packet) (rid : string) (rq : req) (rs : rep) : Prop :=
  let src := rq_src rq in
  let dst := rq_dst rq in
  let W := flow rid src dst wire in
  let R := flow rid dst src wire in
  match rq_kind rq with
  | KStore data d key => store_live rid src (rq_future rq) data d key W R (buffer_at (VStr rid) dst ns) rs
  | KLoad bid key => load_live rid dst (rq_future rq) bid key W R rs
  | KFree bid => free_live rid (rq_future rq) bid W R rs
  end.

(** What a caller is told: what happened, or that a store was refused, and then
    it was not done. *)
Definition told (k : kind) (res : result answer) (evs : list event) : Prop :=
  match res with
  | Ok a => happened k a evs
  | Err e => exists data d key text, k = KStore data d key /\ e = Exn OutOfMemory text /\ not_done data d key evs
  end.

(** A request whose caller has returned: only chunks that come too late are left. *)
Definition over (ns : nodes) (wire : list packet) (past : list event) (rid : string) (rq : req) (res : result answer) : Prop :=
  flow rid (rq_dst rq) (rq_src rq) wire = [] /\
  match rq_kind rq with
  | KStore _ _ _ =>
      Forall is_chunk (flow rid (rq_src rq) (rq_dst rq) wire) /\ buffer_at (VStr rid) (rq_dst rq) ns = None
  | _ => flow rid (rq_src rq) (rq_dst rq) wire = []
  end /\
  told (rq_kind rq) res (events rid (rq_dst rq) past).

Definition stage (w : world) (ret : returns) (rid : string) (rq : req) : Prop :=
  match ret !! rid with
  | None => exists rs, w_nodes w !! rq_src rq = Some rs /\ live (w_nodes w) (w_wire w) rid rq rs
  | Some res => over (w_nodes w) (w_wire w) (w_past w) rid rq res
  end.

Record LI (c : world * returns) : Prop := {
  li_nodes : map_Forall (fun _ r => I (rc_blocks r) /\ 0 <= rc_chunk_threshold r) (w_nodes c.1);
  li_reqs : map_Forall (stage c.1 c.2) (w_reqs c.1);
  li_returns : forall rid, w_reqs c.1 !! rid = None -> c.2 !! rid = None
}.

(** A node moves, and the request's entries and messages stay. *)
Lemma buffer_kept (ns : nodes) n m r r' rid :
  ns !! n = Some r -> kept (VStr rid) r r' -> buffer_at (VStr rid) m (<[n := r']> ns) = buffer_at (VStr rid) m ns.
Proof.
  intros Hn Hk. unfold buffer_at. destruct (decide (n = m)) as [->|Hd].
  - rewrite lookup_insert_eq, Hn. apply Hk.
  - by rewrite lookup_insert_ne.
Qed.

Lemma live_kept ns wire past wire' n r r' rid rq rs :
  req_inv ns wire past rid rq -> ns !! n = Some r -> kept (VStr rid) r r' ->
  (forall a b, flow rid a b wire' = flow rid a b wire) ->
  ns !! rq_src rq = Some rs -> live ns wire rid rq rs ->
  exists rs', <[n := r']> ns !! rq_src rq = Some rs' /\ live (<[n := r']> ns) wire' rid rq rs'.
Proof.
  intros [_ Hne _ _ (rs0 & Hrs0 & Ho & _)] Hn Hk Hfl Hrs Hl. rewrite Hrs in Hrs0. injection Hrs0 as <-.
  assert (exists rs', <[n := r']> ns !! rq_src rq = Some rs' /\ kept (VStr rid) rs rs') as (rs' & Hrs' & Hk').
  { destruct (decide (n = rq_src rq)) as [->|Hd].
    - exists r'. rewrite lookup_insert_eq. split; [done|]. congruence.
    - exists rs. rewrite lookup_insert_ne by done. split; [done|apply kept_refl]. }
  exists rs'. split; [done|]. unfold live in *. rewrite !Hfl, (buffer_kept _ _ _ _ _ _ Hn Hk).
  destruct (rq_kind rq); [by eapply store_live_kept|by eapply load_live_kept|by eapply free_live_kept].
Qed.

Lemma stage_kept (ns : nodes) wire past reqs ret wire' past' reqs' ret' n r r' rid rq :
  req_inv ns wire past rid rq -> ns !! n = Some r -> kept (VStr rid) r r' ->
  (forall a b, flow rid a b wire' = flow rid a b wire) ->
  events rid (rq_dst rq) past' = events rid (rq_dst rq) past -> ret' !! rid = ret !! rid ->
  stage (World ns wire past reqs) ret rid rq -> stage (World (<[n := r']> ns) wire' past' reqs') ret' rid rq.
Proof.
  intros Hinv Hn Hk Hfl He Hret. unfold stage. rewrite Hret. cbn [w_nodes w_wire w_past]. destruct (ret !! rid) as [res|].
  - unfold over. by rewrite !Hfl, He, (buffer_kept _ _ _ _ _ _ Hn Hk).
  - intros (rs & Hrs & Hl). by eapply live_kept.
Qed.

Lemma awaiting_kept dst rid sid next ms q (s : rep) : q <> VStr rid -> kept q s (awaiting dst rid sid next ms s).
Proof.
  intros Hq. split; try done.
  - cbn. by rewrite dget_dset_ne.
  - intros f Hf. destruct (spd_future _ _ _ (awaiting_spared dst rid sid next ms s q Hq) f Hf) as [Ho Hs].
    split; [done|]. destruct Hf. cbn. by rewrite lookup_insert_ne by lia.
Qed.

(** A caller that returns takes out its own entries only. *)
Lemma finish_kept k rid q (r : rep) : q <> VStr rid -> kept q r (finish k rid r).
Proof.
  intros Hq. assert (forall f, own q f r -> own q f (finish k rid r)) as Ho.
  { intros f Hf. apply (spd_future _ _ _ (finish_spared k rid q r) f Hf). }
  split; [..|intros f Hf; split; [by apply Ho|by destruct k]]; destruct k; cbn; by rewrite ?dget_ddel_ne.
Qed.

Lemma LI_request ns wire past reqs ret n dst k rid r r' f :
  WI (World ns wire past reqs) -> LI (World ns wire past reqs, ret) ->
  reqs !! rid = None -> rid <> "" -> n <> dst -> ns !! n = Some r -> begin k dst rid r = (r', Ok f) ->
  LI (World (<[n := r']> ns) (wire ++ emitted n r r') past (<[rid := Req n dst k f]> reqs), ret).
Proof.
  intros HW [Ln Lr Lt] Hrid Hne Hnd Hn Hb. destruct (WI_fresh _ rid HW Hrid) as [Hflow _]. change (forall a b, flow rid a b wire = []) in Hflow.
  destruct (wi_nodes _ HW n r Hn) as [Hsane Hun]. specialize (Hun rid Hrid). destruct (Ln n r Hn) as [HI Hth].
  destruct (decide (dst ∈ rc_connected r)) as [Hc|Hc].
  2:{ destruct (begin_refused k dst rid r Hc Hun) as (next & e & Hb'). congruence. }
  destruct (begin_sent k dst rid r Hc (sn_chunk _ Hsane)) as (sid & next & Hb'). rewrite Hb' in Hb. injection Hb as Hr' <-.
  destruct (awaiting_answered dst rid sid next (first_messages k rid r) r (first_messages_named k rid r)) as [Ha Hr].
  rewrite Hr' in Ha, Hr. cbn [fst snd w_nodes w_reqs w_wire] in *. split; cbn [fst snd w_nodes w_reqs w_wire].
  - apply map_Forall_insert_2; [by rewrite <-Hr'|done].
  - apply map_Forall_insert_2.
    + unfold stage. rewrite (Lt _ Hrid). exists r'. cbn [rq_src w_nodes w_wire]. rewrite lookup_insert_eq. split; [done|]. unfold live. cbn [rq_src rq_dst rq_future rq_kind].
      rewrite !flow_app, !Hflow, (flow_emitted _ _ _ _ _ Ha), (flow_emitted_other rid n dst rid dst n), Hr by (done || naive_solver).
      assert (asking rid (rc_next_future r) r') as Hask.
      { destruct Hun. rewrite <-Hr'. split; cbn; [apply dget_dset_eq|apply lookup_insert_eq|done|done]. }
      destruct k as [data d key|bid key|bid]; cbn [first_messages app].
      * eapply (sl_before _ _ _ _ _ _ _ _ _ _ r); try done; [apply Hsane|]. unfold buffer_at.
        rewrite lookup_insert_ne by done. destruct (ns !! dst) as [rd|] eqn:Hd; [|done].
        destruct (wi_nodes _ HW dst rd Hd) as [_ Hu]. by apply (Hu rid Hrid).
      * by apply ll_before.
      * by apply fl_before.
    + intros rid' rq Hrq. assert (rid' <> rid) as Hd by congruence.
      eapply stage_kept; [apply (wi_reqs _ HW _ _ Hrq)|done| | |done|done|by apply Lr].
      * rewrite <-Hr'. apply awaiting_kept. congruence.
      * intros a b. rewrite flow_app, (flow_emitted_other rid n dst rid') by (done || by left). apply app_nil_r.
  - intros rid' Hrid'. apply Lt. by apply lookup_insert_None in Hrid' as [? _].
Qed.

(** What an operation does to a sound block store. *)
Lemma operation_I k (e : event) : I (ev_before e) -> quiet e \/ operation k e -> I (ev_after e).
Proof.
  intros HI [->|Hop]; [done|]. destruct k as [data d key|bid key|bid]; cbn in Hop.
  - destruct Hop as [[id|err] Hs]; unfold stored in Hs.
    + by apply (bs_store_ok (I := I) _ _ _ _ _ _ HI Hs).
    + by apply (bs_store_err (I := I) _ _ _ _ _ _ HI Hs).
  - destruct Hop as (o & res & Ha & _). destruct (asked_ok I bid key _ HI) as (b' & o' & Ha' & HI'). congruence.
  - destruct Hop as (b & res & Ha & _). destruct (bs_free_ok (I := I) bid _ HI) as (b' & f' & Ha' & HI' & _). congruence.
Qed.

(** A message of a request whose caller has returned: a chunk that comes too late. *)
Lemma done_once_quiet data d key id evs (x : event) : quiet x -> done_once data d key id evs -> done_once data d key id (evs ++ [x]).
Proof.
  intros Hx (e1 & y & e2 & -> & H1 & H2 & Hy). exists e1, y, (e2 ++ [x]).
  rewrite <-(assoc_L app). split_and!; [done|done| |done]. apply Forall_app. split; [done|by apply Forall_singleton].
Qed.

Lemma told_quiet data d key res evs (x : event) :
  quiet x -> told (KStore data d key) res evs -> told (KStore data d key) res (evs ++ [x]).
Proof.
  intros Hx. destruct res as [[id| |]|e]; cbn; try done.
  - intros (v & -> & Hd). exists v. split; [done|by apply done_once_quiet].
  - intros (data' & d' & key' & text & [= <- <- <-] & -> & Hn). exists data, d, key, text. split_and!; [done|done|].
    apply Forall_app. split; [done|]. apply Forall_singleton. by left.
Qed.

Lemma over_deliver (ns : nodes) l1 p l2 past now rid rq r res :
  let r' := state_after (handle now (pk_src p) (pk_msg p)) r in
  req_inv ns (l1 ++ p :: l2) past rid rq -> belongs rid rq p -> flow rid (pk_src p) (pk_dst p) l1 = [] ->
  ns !! pk_dst p = Some r -> answered (pk_src p) rid r r' ->
  over ns (l1 ++ p :: l2) past rid rq res ->
  over (<[pk_dst p := r']> ns) (l1 ++ l2 ++ emitted (pk_dst p) r r')
    (past ++ [Ev (pk_dst p) rid (rc_blocks r) (rc_blocks r')]) rid rq res.
Proof.
  intros r' [_ H2 _ _ _] [Hnm Hdir] Hl1 Hr Ha (HR & HW & Hres).
  destruct Hdir as [[Hs Hd]|[Hs Hd]]; unfold r' in *; rewrite Hs, Hd in *; clear r'.
  2:{ assert (in_flow rid (rq_dst rq) (rq_src rq) p = true) as Hin by by apply in_flow_true.
      destruct (flow_delivered _ _ _ l1 p l2 _ _ Hin (not_eq_sym H2) Hl1 Ha) as [HRf _]. congruence. }
  assert (in_flow rid (rq_src rq) (rq_dst rq) p = true) as Hin by by apply in_flow_true.
  destruct (flow_delivered _ _ _ l1 p l2 _ _ Hin H2 Hl1 Ha) as [HWf HRf]. rewrite HWf in HW. unfold over. rewrite HRf, HR.
  destruct (rq_kind rq) as [data d key|bid key|bid]; [|done|done]. destruct HW as [[Hk HW]%Forall_cons Hb].
  unfold buffer_at in *. rewrite Hr in Hb. rewrite lookup_insert_eq, events_mine.
  pose proof (stray_chunk_step py_str other_key now (rq_src rq) rid (pk_msg p) r Hk (proj1 (names_iff _ _) Hnm) Hb) as Hr'.
  rewrite Hr' in *. split_and!; [by rewrite replies_none|done|done|]. by apply told_quiet.
Qed.

(** A message of a request whose caller waits. *)
Lemma live_deliver (ns : nodes) l1 p l2 past now rid rq r rs :
  let r' := state_after (handle now (pk_src p) (pk_msg p)) r in
  let ns' := <[pk_dst p := r']> ns in
  req_inv ns (l1 ++ p :: l2) past rid rq -> belongs rid rq p -> flow rid (pk_src p) (pk_dst p) l1 = [] ->
  ns !! pk_dst p = Some r -> answered (pk_src p) rid r r' -> sane r -> I (rc_blocks r) -> 0 <= rc_chunk_threshold r ->
  pk_src p ∈ rc_connected r -> stale_buffers now (rc_buffers r) = [] ->
  ns !! rq_src rq = Some rs -> live ns (l1 ++ p :: l2) rid rq rs ->
  exists rs', ns' !! rq_src rq = Some rs' /\ live ns' (l1 ++ l2 ++ emitted (pk_dst p) r r') rid rq rs'.
Proof.
  intros r' ns' [H1 H2 H3 _ (rs0 & Hrs0 & Ho & _)] [Hnm Hdir] Hl1 Hr Ha [Hsz Ht] HI Hth Hc Hst Hrs Hl.
  rewrite Hrs in Hrs0. injection Hrs0 as <-. pose proof (proj1 (names_iff _ _) Hnm) as Hnm'. unfold ns'. clear ns'.
  unfold live in *. destruct Hdir as [[Hs Hd]|[Hs Hd]]; unfold r' in *; rewrite Hs, Hd in *.
  - assert (in_flow rid (rq_src rq) (rq_dst rq) p = true) as Hin by by apply in_flow_true.
    destruct (flow_delivered _ _ _ l1 p l2 _ _ Hin H2 Hl1 Ha) as [HWf HRf]. rewrite HWf in Hl. rewrite HRf.
    exists rs. rewrite lookup_insert_ne by done. split; [done|]. unfold buffer_at in *. rewrite lookup_insert_eq. rewrite Hr in Hl.
    destruct (rq_kind rq); [apply store_live_dst|apply load_live_dst|apply free_live_dst]; try done; by apply H3.
  - assert (in_flow rid (rq_dst rq) (rq_src rq) p = true) as Hin by by apply in_flow_true.
    destruct (flow_delivered _ _ _ l1 p l2 _ _ Hin (not_eq_sym H2) Hl1 Ha) as [HRf HWf]. rewrite HRf in Hl.
    rewrite Hr in Hrs. injection Hrs as <-. eexists. rewrite lookup_insert_eq. split; [done|].
    unfold buffer_at in *. rewrite lookup_insert_ne by done. rewrite HWf.
    destruct (rq_kind rq); [destruct (store_live_src now _ _ (rq_dst rq) _ _ _ _ _ _ _ _ _ Hl) as [Hl' ->]
      |destruct (load_live_src now _ _ _ _ _ _ _ _ _ H1 Ho Ht Hst Hl) as [Hl' ->]
      |destruct (free_live_src now _ (rq_dst rq) _ _ _ _ _ _ Hl) as [Hl' ->]]; by rewrite app_nil_r.
Qed.

Lemma LI_deliver ns l1 p l2 past reqs ret now rid r :
  let r' := state_after (handle now (pk_src p) (pk_msg p)) r in
  let w := World ns (l1 ++ p :: l2) past reqs in
  WI w -> LI (w, ret) ->
  names rid (pk_msg p) = true -> flow rid (pk_src p) (pk_dst p) l1 = [] -> ns !! pk_dst p = Some r ->
  pk_src p ∈ rc_connected r -> stale_buffers now (rc_buffers r) = [] ->
  LI (World (<[pk_dst p := r']> ns) (l1 ++ l2 ++ emitted (pk_dst p) r r')
       (past ++ [Ev (pk_dst p) rid (rc_blocks r) (rc_blocks r')]) reqs, ret).
Proof.
  intros r' w HW [Ln Lr Lt] Hnm Hl1 Hr Hc Hst. cbn in Ln, Lr, Lt.
  pose proof (WI_deliver py_str other_key ns l1 p l2 past reqs now rid r HW Hnm Hl1 Hr) as HW'. fold r' in HW'.
  destruct (Ln _ _ Hr) as [HI Hth]. destruct (wi_nodes _ HW _ _ Hr) as [Hsane _]. pose proof (sn_tidy _ Hsane) as Ht.
  pose proof (proj1 (names_iff _ _) Hnm) as Hnm'.
  pose proof (handle_frame py_str other_key VNone now (pk_src p) (VStr rid) (pk_msg p) r Hnm' ltac:(done) Ht) as Hfr. fold r' in Hfr.
  pose proof (frame_answered _ _ _ _ _ Hfr) as Ha. split; cbn; [| |done].
  - apply map_Forall_insert_2; [|done]. split; [|by rewrite (fr_threshold _ _ _ _ _ Hfr)].
    destruct (WI_event _ (Ev (pk_dst p) rid (rc_blocks r) (rc_blocks r')) HW') as (rq & _ & Hop).
    { apply elem_of_app. right. by apply list_elem_of_singleton. }
    apply (operation_I (rq_kind rq) (Ev (pk_dst p) rid (rc_blocks r) (rc_blocks r')) HI). naive_solver.
  - intros rid0 rq Hrq. pose proof (Lr rid0 rq Hrq) as Hstage. pose proof (wi_reqs _ HW _ _ Hrq) as Hinv. cbn in Hinv.
    destruct (decide (rid = rid0)) as [<-|Hne].
    2:{ eapply stage_kept; [exact Hinv|done| | |by apply events_other; left|done|done].
        - apply (handle_kept _ _ _ (VStr rid)); [done|congruence|done|done].
        - intros a b. by apply (flow_passed rid). }
    destruct (proj1 (Forall_app _ _ _) (wi_wire _ HW)) as [_ [Hp _]%Forall_cons].
    destruct Hp as (rid' & rq' & Hrq' & Hn' & Hdir). cbn in Hrq'. pose proof (names_fun _ _ _ Hnm Hn') as <-.
    rewrite Hrq in Hrq'. injection Hrq' as <-.
    unfold stage in *. destruct (ret !! rid) as [res|]; [by apply over_deliver|].
    destruct Hstage as (rs & Hrs & Hl). by eapply live_deliver.
Qed.

(** ** The answer *)

Lemma short_load_result rid timeout f o (r rs : rep) m :
  rc_futures rs !! f = Some (FReply m) -> load_messages rid o r = [m] -> short_answer rid m ->
  load_result py_str rid timeout f rs = Ok o.
Proof.
  intros Hf Hm Hsa. unfold load_result. rewrite Hf. by rewrite (short_reply py_str rid timeout o r rs m).
Qed.

(** The reply of a chunked load names its collector. *)
Lemma header_reply rid timeout g n hsid (rs : rep) :
  dget (VStr rid) (rc_pull_futures rs) = Some g ->
  outcome (load_remote_reply py_str rid timeout (Some (FReply (header rid n hsid)))) rs = Ok (LPull g).
Proof.
  intros Hp. unfold outcome, load_remote_reply. rewrite !decide_False by done.
  change (vget "chunked" (msg_body (header rid n hsid))) with (Ok (VBool true)). mrun. cbn [truthy]. mrun. by rewrite Hp.
Qed.

Lemma pulled_load_result rid timeout f g data hsid (rs : rep) :
  rc_futures rs !! f = Some (FReply (header rid (len data) hsid)) -> dget (VStr rid) (rc_pull_futures rs) = Some g ->
  rc_futures rs !! g = Some (FBytes data) -> load_result py_str rid timeout f rs = Ok (Some data).
Proof. intros Hf Hp Hg. unfold load_result. by rewrite Hf, (header_reply _ _ g), Hg. Qed.

Lemma asking_unsettled rid f rs : asking rid f rs -> settled f rs = false.
Proof. intros []. unfold settled. by rewrite ak_future0. Qed.

(** An answer to a store is its id or a refusal. *)
Lemma store_phase_reply rid src data d key W R buf m evs :
  store_phase rid src data d key W R buf (Some (FReply m)) evs ->
  (exists id, m = stored_reply rid id) \/ msg_type m = NACK /\ not_done data d key evs.
Proof.
  intros [? _ _ _ _ [=] _|? ? ? ? ? _ _ _ _ _ [=] _|_ _ _ Hm He|id e1 x e2 _ _ _ Hm _ _ _ _].
  - right. split; [|done]. by destruct Hm as [|(m' & [= <-] & Hn)].
  - left. exists id. by destruct Hm as [|[= ->]].
Qed.
Lemma refused_store rid timeout m (rs : rep) :
  names_req (VStr rid) m -> msg_type m = NACK ->
  exists text, outcome (store_remote_end py_str rid timeout (Some (FReply m))) rs = Err (Exn OutOfMemory text).
Proof.
  unfold names_req, outcome, store_remote_end. intros Hn Hm. rewrite bind_modify, decide_True by done.
  destruct (msg_body m); try done. eexists. by mrun.
Qed.

(** The wait is over: the answer is there, and it tells what happened. *)
Lemma waited_over w rid rq (rs : rep) timeout :
  WI w -> w_reqs w !! rid = Some rq -> w_nodes w !! rq_src rq = Some rs -> live (w_nodes w) (w_wire w) rid rq rs ->
  waited (rq_kind rq) rid timeout (rq_future rq) rs = true ->
  over (w_nodes w) (w_wire w) (w_past w) rid rq (result_of py_str (rq_kind rq) rid timeout (rq_future rq) rs).
Proof.
  intros HW Hrq Hrs Hl [Hf Hk]%andb_true_iff.
  assert (forall a, result_of py_str (rq_kind rq) rid timeout (rq_future rq) rs = Ok a ->
    told (rq_kind rq) (result_of py_str (rq_kind rq) rid timeout (rq_future rq) rs) (events rid (rq_dst rq) (w_past w))) as Hok.
  { intros a Ha. rewrite Ha. by apply (WI_result py_str w rid rq rs timeout). }
  destruct (wi_reqs _ HW _ _ Hrq) as [_ _ _ _ (rs' & Hrs' & _ & _ & Hph)]. rewrite Hrs in Hrs'. injection Hrs' as <-.
  unfold live, in_phase, over in *. destruct (rq_kind rq) as [data d key|bid key|bid].
  - destruct Hl as [s Ha|sid seq got todo began Ha|m Ha|m Hm Hsa HWc HR Hb];
      [by rewrite (asking_unsettled _ _ _ Ha) in Hf..|]. split_and!; [done|done|done|].
    destruct Hph as [_ Hph]. unfold result_of in *. rewrite Hm in Hph, Hok |- *.
    destruct (store_phase_reply _ _ _ _ _ _ _ _ _ _ Hph) as [[id ->]|[Hn He]]; [by apply (Hok (AStored (VInt id)))|].
    destruct (refused_store rid timeout m rs (sa_names _ _ Hsa) Hn) as [text ->]. by exists data, d, key, text.
  - destruct Hl as [Ha|o r Ha|o r m HW0 HR Hfu Hm Hsa|data sid hsid g seq got todo began _ _ _ _ _ _ Hp Hfu Hg _ _
      |data hsid g HW0 HR Hp Hfu Hg _]; [by rewrite (asking_unsettled _ _ _ Ha) in Hf..| | |].
    + split_and!; [done|done|]. apply (Hok (ALoaded o)). unfold result_of. by rewrite (short_load_result _ _ _ o r rs m).
    + exfalso. revert Hk. rewrite Hfu, (header_reply _ _ g) by done. unfold settled. by rewrite Hg.
    + split_and!; [done|done|]. apply (Hok (ALoaded (Some data))). unfold result_of. by rewrite (pulled_load_result _ _ _ g data hsid).
  - destruct Hl as [Ha|b Ha|b Hfu HW0 HR]; [by rewrite (asking_unsettled _ _ _ Ha) in Hf..|]. split_and!; [done|done|].
    apply (Hok (AFreed b)). unfold result_of. by rewrite Hfu.
Qed.

(** Nothing is left to deliver: the wait is over. *)
Lemma live_waited ns wire rid rq (rs : rep) timeout :
  flow rid (rq_src rq) (rq_dst rq) wire = [] -> flow rid (rq_dst rq) (rq_src rq) wire = [] ->
  live ns wire rid rq rs -> waited (rq_kind rq) rid timeout (rq_future rq) rs = true.
Proof.
  unfold live, waited, settled. intros -> ->. destruct (rq_kind rq) as [data d key|bid key|bid]; intros Hl.
  - inversion Hl as [s _ _ _ HW _ _|sid seq got todo began _ Hne _ _ HW _ _|m _ _ HR _ _|m Hf _ _ _ _].
    + revert HW. unfold store_messages. by destruct (_ <? _).
    + by destruct todo.
    + done.
    + by rewrite Hf.
  - inversion Hl as [_ HW _|o r _ _ _ _ HR|o r m _ _ Hf Hm Hsa|? ? ? ? ? ? todo ? _ HR Hne _ _ _ _ _ _ _ _
      |data hsid g _ _ Hp Hf Hg _]; [done| | | |].
    + revert HR. unfold load_messages. repeat case_match; done.
    + by rewrite Hf, (short_reply py_str rid timeout o r rs m).
    + by destruct todo.
    + by rewrite Hf, (header_reply _ _ g), Hg.
  - inversion Hl as [_ HW _|b _ _ HR|b Hf _ _]; [done|done|by rewrite Hf].
Qed.

(** A caller returns. *)
Lemma LI_return ns wire past reqs ret rid rq r timeout :
  WI (World ns wire past reqs) -> LI (World ns wire past reqs, ret) ->
  reqs !! rid = Some rq -> ret !! rid = None -> ns !! rq_src rq = Some r ->
  waited (rq_kind rq) rid timeout (rq_future rq) r = true ->
  LI (World (<[rq_src rq := finish (rq_kind rq) rid r]> ns) wire past reqs,
      <[rid := result_of py_str (rq_kind rq) rid timeout (rq_future rq) r]> ret).
Proof.
  intros HW [Ln Lr Lt] Hrq Hret Hr Hwt. cbn in Ln, Lr, Lt. split; cbn.
  - apply map_Forall_insert_2; [|done]. destruct (Ln _ _ Hr). by destruct (rq_kind rq).
  - intros rid' rq' Hrq'. destruct (decide (rid' = rid)) as [->|Hne].
    + rewrite Hrq in Hrq'. injection Hrq' as <-. pose proof (Lr _ _ Hrq) as Hs. unfold stage in *. rewrite Hret in Hs.
      rewrite lookup_insert_eq. destruct Hs as (rs & Hrs & Hl). cbn in *. rewrite Hr in Hrs. injection Hrs as <-.
      pose proof (waited_over _ _ _ _ _ HW Hrq Hr Hl Hwt) as Hov. cbn in Hov. unfold over, buffer_at in *.
      destruct (wi_reqs _ HW _ _ Hrq) as [_ Hd _ _ _]. by rewrite lookup_insert_ne.
    + eapply stage_kept; [apply (wi_reqs _ HW _ _ Hrq')|done| |done|done|by rewrite lookup_insert_ne|by apply Lr].
      apply finish_kept. congruence.
  - intros rid' Hrid'. rewrite lookup_insert_ne by congruence. by apply Lt.
Qed.

Lemma LI_step c c' : calm_step c c' -> WI c.1 -> LI c -> LI c'.
Proof.
  intros [| | |ns wire past reqs ret n r b Hr Hb] HW HL; [by eapply LI_request|by apply LI_deliver|by apply LI_return|].
  destruct HL as [Ln Lr Lt]. cbn in *. split; cbn; [| |done].
  - apply map_Forall_insert_2; [|done]. split; [done|]. by apply (Ln n r).
  - intros rid rq Hrq. eapply stage_kept; [apply (wi_reqs _ HW _ _ Hrq)|done| |done|done|done|by apply Lr].
    split; try done. intros f []. by split.
Qed.

Lemma calm_LI c : calm_world c -> WI c.1 /\ LI c.
Proof.
  intros (ns & Hns & Hsteps).
  assert (WI (World ns [] [] ∅)) as HW.
  { apply WI_started. eapply map_Forall_impl; [exact Hns|]. by intros n r [? _]. }
  assert (LI (World ns [] [] ∅, ∅)) as HL.
  { split; cbn; [|apply map_Forall_empty|done]. eapply map_Forall_impl; [exact Hns|]. by intros n r (_ & ? & ?). }
  clear Hns. change (World ns [] [] ∅) with (World ns [] [] ∅, (∅ : returns)).1 in HW. induction Hsteps as [|c1 c2 c3 Hs _ IH]; [done|].
  apply IH; [|by eapply LI_step]. eapply WI_step; [by apply calm_wstep|done].
Qed.

(** C15: every request is answered, and every caller returns what happened.
    Any number of nodes store on, load from and free on each other at the same
    time, their messages mixed in any way, and callers return as soon as their
    waits are over; as long as nobody is cut off and no transfer stalls past the
    timeout, a caller that has returned was told what happened at the peer (a
    store may have been refused instead, with [OutOfMemory], and then it was not
    done), and a caller that has not returned although its request has no
    message left to deliver has no wait left, and what it returns is what
    happened. *)
Theorem calm_requests_answered w ret rid rq (rs : rep) timeout :
  calm_world (w, ret) -> w_reqs w !! rid = Some rq -> w_nodes w !! rq_src rq = Some rs ->
  let evs := events rid (rq_dst rq) (w_past w) in
  match ret !! rid with
  | Some res => told (rq_kind rq) res evs
  | None =>
      flow rid (rq_src rq) (rq_dst rq) (w_wire w) = [] -> flow rid (rq_dst rq) (rq_src rq) (w_wire w) = [] ->
      waited (rq_kind rq) rid timeout (rq_future rq) rs = true /\
      told (rq_kind rq) (result_of py_str (rq_kind rq) rid timeout (rq_future rq) rs) evs
  end.
Proof.
  intros [HW HL]%calm_LI Hrq Hrs evs. pose proof (li_reqs _ HL _ _ Hrq) as Hst. unfold stage in Hst. cbn [fst snd] in *.
  destruct (ret !! rid) as [res|]; [by destruct Hst as (_ & _ & ?)|]. intros HW0 HR0.
  destruct Hst as (rs' & Hrs' & Hl). rewrite Hrs in Hrs'. injection Hrs' as <-.
  pose proof (live_waited _ _ _ _ _ timeout HW0 HR0 Hl) as Hwt. split; [done|].
  by destruct (waited_over _ _ _ _ _ HW Hrq Hrs Hl Hwt) as (_ & _ & ?).
Qed.

(** ** Running an undisturbed world *)

Definition undisturbed (timeout : string) (a : action) (c : world (B := B) * returns) : bool :=
  let w := c.1 in
  match a with
  | ARequest n dst k rid =>
      match w_nodes w !! n with
      | Some r => match snd (begin k dst rid r) with Ok _ => true | Err _ => false end
      | None => false
      end
  | ADeliver i now =>
      match w_wire w !! i with
      | Some p =>
          match w_nodes w !! pk_dst p with
          | Some r => bool_decide (pk_src p ∈ rc_connected r) &&
              match stale_buffers now (rc_buffers r) with [] => true | _ => false end
          | None => false
          end
      | None => false
      end
  | AFinish rid =>
      match w_reqs w !! rid, c.2 !! rid with
      | Some rq, None =>
          match w_nodes w !! rq_src rq with
          | Some r => waited (rq_kind rq) rid timeout (rq_future rq) r
          | None => false
          end
      | _, _ => false
      end
  end.

(** What a returning caller gets. *)
Definition recorded (timeout : string) (a : action) (c : world (B := B) * returns) : returns :=
  match a with
  | AFinish rid =>
      match w_reqs c.1 !! rid with
      | Some rq =>
          match w_nodes c.1 !! rq_src rq with
          | Some r => <[rid := result_of py_str (rq_kind rq) rid timeout (rq_future rq) r]> c.2
          | None => c.2
          end
      | None => c.2
      end
  | _ => c.2
  end.

Fixpoint calm_acts (timeout : string) (l : list action) (c : world (B := B) * returns) : option (world (B := B) * returns) :=
  match l with
  | [] => Some c
  | a :: l =>
      if undisturbed timeout a c then
        match act py_str other_key a c.1 with
        | Some w' => calm_acts timeout l (w', recorded timeout a c)
        | None => None
        end
      else None
  end.

Lemma act_calm timeout a c w' :
  undisturbed timeout a c = true -> act py_str other_key a c.1 = Some w' -> calm_step c (w', recorded timeout a c).
Proof.
  destruct c as [[ns wire past reqs] ret], a as [n dst k rid|i now|rid]; cbn.
  - destruct (ns !! n) as [r|] eqn:Hn; [|done]. destruct (begin k dst rid r) as [r' [f|e]] eqn:Hb; [|done]. intros _.
    destruct (reqs !! rid) eqn:Hrid; [done|]. case_decide as Hd; [|done]. destruct Hd. intros [= <-]. by eapply cs_request.
  - destruct (wire !! i) as [p|] eqn:Hp; [|done]. destruct (ns !! pk_dst p) as [r|] eqn:Hn; [|done].
    destruct (stale_buffers now (rc_buffers r)) eqn:Hst; [|by rewrite andb_false_r]. rewrite andb_true_r.
    intros Hc%bool_decide_eq_true. destruct (rid_of (pk_msg p)) as [rid|] eqn:Hrid; [|done].
    destruct (flow rid (pk_src p) (pk_dst p) (take i wire)) eqn:Hf; [|done]. intros [= <-].
    rewrite <-(take_drop_middle _ _ _ Hp) at 1. apply cs_deliver; [|done|done|done|done]. by apply rid_of_names.
  - destruct (reqs !! rid) as [rq|] eqn:Hrq; [|done]. destruct (ret !! rid) eqn:Hret; [done|].
    destruct (ns !! rq_src rq) as [r|] eqn:Hn; [|done]. intros Hwt [= <-]. by apply cs_return.
Qed.

Lemma calm_acts_calm timeout l ns c :
  map_Forall (fun _ => well_started) ns -> calm_acts timeout l (World ns [] [] ∅, ∅) = Some c -> calm_world c.
Proof.
  intros Hns Hl. exists ns. split; [done|]. clear Hns. revert Hl. generalize (World (B := B) ns [] [] ∅, (∅ : returns)).
  induction l as [|a l IH]; intros c0; cbn; [by intros [= <-]|]. destruct (undisturbed timeout a c0) eqn:Hu; [|done].
  destruct (act py_str other_key a c0.1) as [w1|] eqn:Ha; [|done]. intros Hl. eapply rtc_l; [by eapply act_calm|by apply IH].
Qed.
End live.

(** ** Witness *)

#[local] Existing Instance overlap_store.
#[local] Instance overlap_laws : BlockStoreLaws managed (managed_inv hash0) :=
  managed_laws hash0 demo_env (fun _ => rng_id_ok).

(** The nodes of [script], whose callers now return: the first store's while
    the second is still waiting, the second's while another request of the same
    node waits, and the load's after its last chunk; the free is answered and
    has not returned yet. *)
Definition returning : list action :=
  firstn 9 script ++ [AFinish "q"] ++ firstn 3 (skipn 9 script) ++ [AFinish "s"] ++ skipn 12 script ++ [AFinish "t"].
Definition quiet_run : world (B := managed) * gmap string (result answer) :=
  default (fresh_world, ∅) (calm_acts str_of str_of "30" returning (fresh_world, ∅)).
Definition quiet_a : Replicator managed := default (fresh_node "b") (w_nodes quiet_run.1 !! "a").
Definition quiet_b : Replicator managed := default (fresh_node "a") (w_nodes quiet_run.1 !! "b").

Lemma quiet_calm : calm_world (managed_inv hash0) str_of str_of (quiet_run.1, quiet_run.2).
Proof.
  apply (calm_acts_calm (managed_inv hash0) str_of str_of "30" returning {["a" := fresh_node "b"; "b" := fresh_node "a"]}).
  - assert (forall peer, well_started (managed_inv hash0) (fresh_node peer)) as Hs.
    { intros peer. split; [by eexists _, _, 2, 2|split; [apply demo_Inv|done]]. }
    apply map_Forall_insert_2; [apply Hs|]. apply map_Forall_insert_2; [apply Hs|apply map_Forall_empty].
  - by vm_compute.
Qed.

Lemma returned_t : quiet_run.2 !! "t" = Some (Ok (ALoaded (Some (payload 3)))).
Proof. by vm_compute. Qed.

Lemma not_returned_u : quiet_run.2 !! "u" = None.
Proof. by vm_compute. Qed.

Lemma quiet_nodes : w_nodes quiet_run.1 !! "a" = Some quiet_a /\ w_nodes quiet_run.1 !! "b" = Some quiet_b.
Proof. by vm_compute. Qed.

Lemma quiet_requests :
  w_reqs quiet_run.1 !! "t" = Some (Req "a" "b" load_t 1) /\ w_reqs quiet_run.1 !! "u" = Some (Req "b" "a" (KFree 1) 1) /\
  w_wire quiet_run.1 = [].
Proof. by vm_compute. Qed.

Lemma calm_requests_answered_witness :
  told load_t (Ok (ALoaded (Some (payload 3)))) (events "t" "b" (w_past quiet_run.1)) /\
  waited str_of (KFree 1) "u" "30" 1 quiet_b = true /\
  told (KFree 1) (result_of str_of (KFree 1) "u" "30" 1 quiet_b) (events "u" "a" (w_past quiet_run.1)).
Proof.
  destruct quiet_nodes as [Ha Hb], quiet_requests as (Ht & Hu & Hw).
  pose proof (calm_requests_answered (managed_inv hash0) str_of str_of quiet_run.1 quiet_run.2 "t" _ quiet_a "30" quiet_calm Ht Ha) as Rt.
  pose proof (calm_requests_answered (managed_inv hash0) str_of str_of quiet_run.1 quiet_run.2 "u" _ quiet_b "30" quiet_calm Hu Hb) as Ru.
  rewrite returned_t in Rt. rewrite not_returned_u, Hw in Ru. split; [exact Rt|exact (Ru eq_refl eq_refl)].
Defined.
