(* ===== verification/RpcAuth.v ===== *)
(** * RPC authentication ([memnode/rpcauth.py])

    The shared secret and its file, the challenge and its answer.  HMAC-SHA256
    is a parameter, the random draws are arguments.  A Python string is its
    UTF-8 bytes; [str.strip] is modelled on ASCII white space. *)
From Stdlib Require Import Ascii.
From S2P Require Import Prelude Config PyVal Channel.

(** ** Strings *)

Definition is_ascii (s : string) : bool :=
  forallb (fun c => Z.of_N (Ascii.N_of_ascii c) <? 128) (String.list_ascii_of_string s).

Fixpoint drop_while {A} (p : A -> bool) (l : list A) : list A :=
  match l with
  | [] => []
  | x :: l' => if p x then drop_while p l' else l
  end.

(** [s.strip(chars)] *)
Definition strip_by (p : ascii -> bool) (s : string) : string :=
  String.string_of_list_ascii
    (rev (drop_while p (rev (drop_while p (String.list_ascii_of_string s))))).

(** The ASCII characters [str.isspace] accepts. *)
Definition is_blank (c : ascii) : bool :=
  let n := Z.of_N (Ascii.N_of_ascii c) in
  ((9 <=? n) && (n <=? 13)) || ((28 <=? n) && (n <=? 32)).

Definition starts_with (p s : string) : bool := String.prefix p s.

(** ** The token file *)

(** File modes: [0o600], [0o644] and the mask [0o077]. *)
Definition mode_600 : Z := 6 * 64.
Definition mode_644 : Z := 6 * 64 + 4 * 8 + 4.
Definition mask_077 : Z := 7 * 8 + 7.

Record token_file := TokenFile { tf_text : string; tf_mode : Z }.

(** [load_or_create_token]: [fresh] is what [secrets] draws.  [os.open] with
    [O_CREAT | O_TRUNC] gives the mode only to a file it creates. *)
Definition load_or_create_token (fresh : bytes) (file : option token_file)
    : option token_file * string :=
  let create mode := (Some (TokenFile (bytes_hex fresh) mode), bytes_hex fresh) in
  match file with
  | Some f =>
      let token := strip_by is_blank (tf_text f) in
      if decide (token = "") then create (tf_mode f) else (file, token)
  | None => create mode_600
  end.

(** [mode & 0o077]: readable or writable beyond the owner. *)
Definition lax (f : token_file) : bool := negb (Z.land (tf_mode f) mask_077 =? 0).

(** ** Challenge and response *)

Definition CHALLENGE_BYTES : Z := 32.

(** [new_challenge], from the bytes [secrets] draws. *)
Definition new_challenge (draw : bytes) : string := bytes_hex draw.

Section auth.
Context (hmac_sha256 : bytes -> bytes -> bytes).

Definition compute_response (token challenge : string) : result string :=
  if is_ascii challenge
  then Ok (bytes_hex (hmac_sha256 (bytes_of_string token) (bytes_of_string challenge)))
  else Err (lib_exn ValueError).

(** [hmac.compare_digest] takes strings only when both are ASCII. *)
Definition verify_response (token challenge : string) (response : pyval) : result bool :=
  match response with
  | VStr s =>
      let? expected := compute_response token challenge in
      if is_ascii s then Ok (bool_decide (expected = s)) else Err (lib_exn TypeError)
  | _ => Ok false
  end.
End auth.

(** ** Addresses *)

Definition is_bracket (c : ascii) : bool := bool_decide (c = "["%char) || bool_decide (c = "]"%char).

Definition is_loopback (host : string) : bool :=
  if decide (host = "") then false
  else
    let host := strip_by is_bracket host in
    bool_decide (host = "localhost") || bool_decide (host = "::1") || starts_with "127." host.

(** ** Facts *)

Lemma drop_while_none {A} (p : A -> bool) l :
  Forall (fun x => p x = false) l -> drop_while p l = l.
Proof. destruct 1 as [|x l Hx Hl]; [done|]. cbn. by rewrite Hx. Qed.

Lemma strip_by_none p s :
  Forall (fun c => p c = false) (String.list_ascii_of_string s) -> strip_by p s = s.
Proof.
  intros Hs. unfold strip_by. rewrite (drop_while_none p _ Hs). rewrite drop_while_none.
  - by rewrite rev_involutive, String.string_of_list_ascii_of_string.
  - rewrite List.Forall_forall in *. intros x Hx. apply Hs. by apply in_rev.
Qed.

Lemma hex_digit_class z :
  0 <= z < 16 -> is_blank (hex_digit z) = false /\ (Z.of_N (Ascii.N_of_ascii (hex_digit z)) <? 128) = true.
Proof.
  intros Hz.
  assert (z = 0 \/ z = 1 \/ z = 2 \/ z = 3 \/ z = 4 \/ z = 5 \/ z = 6 \/ z = 7 \/ z = 8 \/ z = 9 \/ z = 10
    \/ z = 11 \/ z = 12 \/ z = 13 \/ z = 14 \/ z = 15) as Hc by lia.
  by repeat (destruct Hc as [->|Hc]; [by vm_compute|]); subst; vm_compute.
Qed.

Lemma bytes_hex_chars b :
  Forall (fun c => is_blank c = false /\ (Z.of_N (Ascii.N_of_ascii c) <? 128) = true)
    (String.list_ascii_of_string (bytes_hex b)).
Proof.
  induction b as [|x b IH]; cbn; [constructor|]. pose proof (Z_of_byte_range x).
  repeat constructor; try done; apply hex_digit_class;
    first [apply Z.mod_pos_bound; lia | split; [apply Z.div_pos; lia|apply Z.div_lt_upper_bound; lia]].
Qed.

Lemma bytes_hex_ascii b : is_ascii (bytes_hex b) = true.
Proof.
  unfold is_ascii. apply forallb_forall. intros c Hc.
  pose proof (bytes_hex_chars b) as HF. rewrite List.Forall_forall in HF. by apply HF.
Qed.

Lemma bytes_hex_strip b : strip_by is_blank (bytes_hex b) = bytes_hex b.
Proof.
  apply strip_by_none. eapply List.Forall_impl; [|apply bytes_hex_chars]. by intros c [? _].
Qed.

Lemma bytes_hex_nonempty b : b <> [] -> bytes_hex b <> "".
Proof. by destruct b. Qed.

(** A client that holds the token passes any challenge the server draws; and
    whoever passes sent exactly the answer the token gives. *)
Lemma verify_own hmac token draw :
  exists s, compute_response hmac token (new_challenge draw) = Ok s /\
    verify_response hmac token (new_challenge draw) (VStr s) = Ok true.
Proof.
  unfold verify_response, compute_response, new_challenge. rewrite bytes_hex_ascii. eexists. split; [done|].
  cbn [result_bind]. by rewrite bytes_hex_ascii, bool_decide_eq_true_2.
Qed.

Lemma verify_only hmac token draw v :
  verify_response hmac token (new_challenge draw) v = Ok true ->
  exists s, v = VStr s /\ compute_response hmac token (new_challenge draw) = Ok s.
Proof.
  unfold verify_response, compute_response, new_challenge. rewrite bytes_hex_ascii.
  destruct v as [| | | |s| | |]; try done. cbn [result_bind].
  destruct (is_ascii s); [|done]. intros [= Hd]. apply bool_decide_eq_true in Hd as <-. by eexists.
Qed.

(** ** The token *)

(** The token is made once: whatever the file held before, the token a run
    of the daemon uses is the one every later run reads back, and the file is
    not written again. *)
Theorem token_survives_restart fresh fresh' file :
  fresh <> [] ->
  let '(file1, token) := load_or_create_token fresh file in
  load_or_create_token fresh' file1 = (file1, token) /\ token <> "".
Proof.
  intros Hf. unfold load_or_create_token. destruct file as [[text mode]|]; cbn [tf_text tf_mode].
  - case_decide as Hs; cbn [tf_text].
    + rewrite bytes_hex_strip. rewrite decide_False by (by apply bytes_hex_nonempty).
      split; [done|by apply bytes_hex_nonempty].
    + by rewrite decide_False.
  - rewrite bytes_hex_strip. rewrite decide_False by (by apply bytes_hex_nonempty).
    split; [done|by apply bytes_hex_nonempty].
Qed.

Lemma token_survives_restart_witness :
  load_or_create_token [Byte.x01] (Some (TokenFile "ab" mode_600)) = (Some (TokenFile "ab" mode_600), "ab") /\
  "ab" <> "".
Proof.
  apply (token_survives_restart [Byte.x02] [Byte.x01] (Some (TokenFile "ab" mode_600))). done.
Defined.

(** A token written into a file that existed, empty, keeps that file's
    mode: the new secret can be readable by everybody, without a warning. *)
Theorem empty_token_file_keeps_mode fresh text mode :
  strip_by is_blank text = "" ->
  load_or_create_token fresh (Some (TokenFile text mode))
    = (Some (TokenFile (bytes_hex fresh) mode), bytes_hex fresh).
Proof. intros Hs. unfold load_or_create_token. cbn [tf_text tf_mode]. by rewrite Hs. Qed.

Lemma empty_token_file_keeps_mode_witness :
  lax (TokenFile "7f" mode_644) = true /\
  load_or_create_token [Byte.x7f] (Some (TokenFile "" mode_644)) = (Some (TokenFile "7f" mode_644), "7f").
Proof. split; [reflexivity|]. apply (empty_token_file_keeps_mode [Byte.x7f] "" mode_644). reflexivity. Defined.

(** Host names that only start like a loopback address count as loopback. *)
Example loopback_by_prefix : is_loopback "127.example.org" = true /\ is_loopback "[::1]" = true /\
  is_loopback "0.0.0.0" = false.
Proof. by vm_compute. Qed.
