(* ===== verification/Utf8.v ===== *)
(** * UTF-8: [bytes.decode("utf-8")] and its [errors="replace"] mode

    A string is its UTF-8 bytes, so encoding is the identity and decoding
    checks: strictly (invalid input raises), or with every maximal ill-formed
    part replaced by U+FFFD, as the clients do to show binary data as text. *)
From S2P Require Import Prelude PyVal.
From Stdlib Require Import Ascii.

(** The ranges the bytes after a first byte must lie in; [None] when no
    character starts with this byte. *)
Definition tail : Z * Z := (128, 191).

Definition utf8_need (x : byte) : option (list (Z * Z)) :=
  let n := Z_of_byte x in
  if n <? 128 then Some []
  else if n <? 194 then None
  else if n <? 224 then Some [tail]
  else if n =? 224 then Some [(160, 191); tail]
  else if n =? 237 then Some [(128, 159); tail]
  else if n <? 240 then Some [tail; tail]
  else if n =? 240 then Some [(144, 191); tail; tail]
  else if n <? 244 then Some [tail; tail; tail]
  else if n =? 244 then Some [(128, 143); tail; tail]
  else None.

Definition within (r : Z * Z) (x : byte) : bool := (r.1 <=? Z_of_byte x) && (Z_of_byte x <=? r.2).

(** U+FFFD *)
Definition replacement : bytes := [Byte.xef; Byte.xbf; Byte.xbd].

(** [need]: what the character being read still lacks; [got]: its bytes so
    far. *)
Fixpoint utf8_go (need : list (Z * Z)) (got b : bytes) : bytes :=
  match b with
  | [] => match need with [] => [] | _ => replacement end
  | x :: b =>
      let first :=
        match utf8_need x with
        | None => replacement ++ utf8_go [] [] b
        | Some [] => x :: utf8_go [] [] b
        | Some need => utf8_go need [x] b
        end in
      match need with
      | [] => first
      | r :: need =>
          if within r x then
            match need with
            | [] => (got ++ [x]) ++ utf8_go [] [] b
            | _ => utf8_go need (got ++ [x]) b
            end
          else replacement ++ first
      end
  end.

(** [b.decode("utf-8", errors="replace")] *)
Definition utf8_replace (b : bytes) : bytes := utf8_go [] [] b.

(** Whether [b.decode("utf-8")] succeeds. *)
Fixpoint utf8_ok (need : list (Z * Z)) (b : bytes) : bool :=
  match b with
  | [] => match need with [] => true | _ => false end
  | x :: b =>
      match need with
      | [] => match utf8_need x with None => false | Some need => utf8_ok need b end
      | r :: need => within r x && utf8_ok need b
      end
  end.

Definition utf8_valid (b : bytes) : bool := utf8_ok [] b.

(** ** Properties *)

Lemma utf8_go_valid b : forall need got,
  utf8_ok need b = true -> utf8_go need got b = (match need with [] => [] | _ => got end) ++ b.
Proof.
  induction b as [|x b IH]; intros need got Hok; cbn in Hok |- *.
  - by destruct need.
  - destruct need as [|r need].
    + destruct (utf8_need x) as [[|r need]|]; [by rewrite IH|by rewrite IH|done].
    + apply andb_prop in Hok as [Hin Hok]. rewrite Hin. destruct need as [|r' need].
      * rewrite IH by done. by rewrite <-(assoc_L app).
      * rewrite IH by done. by rewrite <-(assoc_L app).
Qed.

(** Text is shown unchanged. *)
Lemma utf8_replace_valid b : utf8_valid b = true -> utf8_replace b = b.
Proof. intros H. unfold utf8_replace. by rewrite utf8_go_valid. Qed.

(** [got] is the beginning of a character that lacks [need]. *)
Definition completes (need : list (Z * Z)) (got : bytes) : Prop :=
  forall rest, utf8_ok [] (got ++ rest) = utf8_ok need rest.

Lemma completes_step r need got x :
  completes (r :: need) got -> within r x = true -> completes need (got ++ [x]).
Proof. intros Hc Hx rest. rewrite <-(assoc_L app), Hc. cbn. by rewrite Hx. Qed.

Lemma utf8_ok_replacement rest : utf8_ok [] (replacement ++ rest) = utf8_ok [] rest.
Proof. done. Qed.

Lemma utf8_go_ok b : forall need got,
  completes need got -> (need = [] -> got = []) -> utf8_ok [] (utf8_go need got b) = true.
Proof.
  induction b as [|x b IH]; intros need got Hc Hgot; cbn [utf8_go].
  { by destruct need. }
  set (first := match utf8_need x with
    | None => replacement ++ utf8_go [] [] b
    | Some [] => x :: utf8_go [] [] b
    | Some need => utf8_go need [x] b end).
  assert (utf8_ok [] first = true) as Hfirst.
  { unfold first. destruct (utf8_need x) as [[|r need']|] eqn:Hx.
    - cbn [utf8_ok]. rewrite Hx. by apply IH.
    - apply IH; [|done]. intros rest. cbn. by rewrite Hx.
    - rewrite utf8_ok_replacement. by apply IH. }
  destruct need as [|r need]; [done|]. destruct (within r x) eqn:Hin.
  - pose proof (completes_step _ _ _ _ Hc Hin) as Hc'. destruct need as [|r' need].
    + rewrite Hc'. by apply IH.
    + by apply IH.
  - by rewrite utf8_ok_replacement.
Qed.

(** Whatever the bytes, the result is text; and text it leaves alone. *)
Theorem utf8_replace_decodes b :
  utf8_valid (utf8_replace b) = true /\ utf8_replace (utf8_replace b) = utf8_replace b.
Proof.
  assert (utf8_valid (utf8_replace b) = true) as H by by apply utf8_go_ok.
  split; [done|by apply utf8_replace_valid].
Qed.

(** A cut-off character, a lone continuation byte, an overlong form and a
    surrogate. *)
Example utf8_replace_samples :
  utf8_replace [Byte.xe2; Byte.x82; Byte.x41] = replacement ++ [Byte.x41] /\
  utf8_replace [Byte.x80] = replacement /\
  utf8_replace [Byte.xc0; Byte.xaf] = replacement ++ replacement /\
  utf8_replace [Byte.xed; Byte.xa0; Byte.x80] = replacement ++ replacement ++ replacement /\
  utf8_replace [Byte.xe2; Byte.x82; Byte.xac] = [Byte.xe2; Byte.x82; Byte.xac].
Proof. by vm_compute. Qed.
