(* ===== verification/Json.v ===== *)
(** * JSON text: [json.dumps] and [json.loads]

    The encoder with [ensure_ascii], with or without indentation, and the
    decoder, as the standard library has them.  A document is its bytes; the
    program encodes what [dumps] gives, which is ASCII, and decodes strictly
    before [loads].  The text of a float ([float.__repr__]) and the float a
    number stands for are arguments; so are NaN and the infinities, which
    [loads] reads too.  Integers are converted from and to text of at most
    [INT_MAX_STR_DIGITS] digits, the interpreter's limit.  The interpreter's
    recursion limit on nested documents is left out.  [bad] stands for
    [JSONDecodeError], a [ValueError].

    [value] carries fuel, one unit per level of nesting, and [items] one per
    item; [loads] gives as much as there are bytes, which is
    always enough ([loads_returns]). *)
From S2P Require Import Prelude PyVal Protocol Channel Utf8.
From Stdlib Require Import Ascii Decimal.

Definition INT_MAX_STR_DIGITS : Z := 4300.

(** Bytes by their code. *)
Definition isb (n : Z) (x : byte) : bool := Z_of_byte x =? n.
Definition between (lo hi : Z) (x : byte) : bool := (lo <=? Z_of_byte x) && (Z_of_byte x <=? hi).

Definition text (s : String.string) : bytes := bytes_of_string s.
Definition str (b : bytes) : String.string := String.string_of_list_byte b.

(** ** Writing *)

Definition hexb (z : Z) : byte := Ascii.byte_of_ascii (hex_digit z).

(** [\uXXXX] *)
Definition u_escape (n : Z) : bytes :=
  [Byte.x5c; Byte.x75; hexb (n / 4096); hexb (n / 256 mod 16); hexb (n / 16 mod 16); hexb (n mod 16)].

(** One character, by its code point. *)
Definition escape_char (c : Z) : bytes :=
  if c =? 34 then [Byte.x5c; Byte.x22] else
  if c =? 92 then text "\\" else
  if c =? 10 then text "\n" else
  if c =? 13 then text "\r" else
  if c =? 9 then text "\t" else
  if c =? 12 then text "\f" else
  if c =? 8 then text "\b" else
  if (32 <=? c) && (c <=? 126) then [byte_of_Z c] else
  if c <? 65536 then u_escape c
  else u_escape (55296 + (c - 65536) / 1024) ++ u_escape (56320 + (c - 65536) mod 1024).

(** How many bytes follow a first byte, and its bits of the code point. *)
Definition lead (x : byte) : nat * Z :=
  let n := Z_of_byte x in
  if n <? 224 then (1%nat, n mod 32) else if n <? 240 then (2%nat, n mod 16) else (3%nat, n mod 8).

(** [n] bytes are still missing of the character whose bits so far are [acc]. *)
Fixpoint escape (n : nat) (acc : Z) (b : bytes) : bytes :=
  match b with
  | [] => []
  | x :: b =>
      match n with
      | O =>
          if Z_of_byte x <? 128 then escape_char (Z_of_byte x) ++ escape 0 0 b
          else let '(n, acc) := lead x in escape n acc b
      | S n =>
          let acc := acc * 64 + Z_of_byte x mod 64 in
          match n with
          | O => escape_char acc ++ escape 0 0 b
          | S _ => escape n acc b
          end
      end
  end.

(** [py_encode_basestring_ascii] *)
Definition encode_string (s : String.string) : bytes := [Byte.x22] ++ escape 0 0 (text s) ++ [Byte.x22].

Fixpoint udigits (u : uint) : bytes :=
  match u with
  | Nil => []
  | D0 u => Byte.x30 :: udigits u | D1 u => Byte.x31 :: udigits u | D2 u => Byte.x32 :: udigits u
  | D3 u => Byte.x33 :: udigits u | D4 u => Byte.x34 :: udigits u | D5 u => Byte.x35 :: udigits u
  | D6 u => Byte.x36 :: udigits u | D7 u => Byte.x37 :: udigits u | D8 u => Byte.x38 :: udigits u
  | D9 u => Byte.x39 :: udigits u
  end.

(** [int.__repr__] *)
Definition int_repr (z : Z) : result bytes :=
  let '(sign, u) := match Z.to_int z with Pos u => ([], u) | Neg u => ([Byte.x2d], u) end in
  if INT_MAX_STR_DIGITS <? len (udigits u) then Err (lib_exn ValueError) else Ok (sign ++ udigits u).

Section dumps.
Context (float_repr : Z -> Z -> bytes).
(** [indent=None] or a number of spaces. *)
Context (indent : option nat).

Definition newline (level : nat) : bytes :=
  match indent with
  | None => []
  | Some n => Byte.x0a :: replicate (n * level) Byte.x20
  end.

(** Between two items. *)
Definition separator (level : nat) : bytes :=
  match indent with None => text ", " | Some _ => text "," ++ newline level end.

(** [sep.join(parts)] *)
Fixpoint join (sep : bytes) (parts : list bytes) : bytes :=
  match parts with
  | [] => []
  | p :: parts => match parts with [] => p | _ => p ++ sep ++ join sep parts end
  end.

Definition bracket (o c : byte) (level : nat) (parts : list bytes) : bytes :=
  match parts with
  | [] => [o; c]
  | _ => [o] ++ newline (S level) ++ join (separator (S level)) parts ++ newline level ++ [c]
  end.

(** [f] of every item, in order, unless one raises. *)
Definition collect {A B} (f : A -> result B) : list A -> result (list B) :=
  fix go l :=
    match l with
    | [] => Ok []
    | x :: l => let? y := f x in let? ys := go l in Ok (y :: ys)
    end.

(** The text of a value [level] brackets deep. *)
Fixpoint dump (level : nat) (v : pyval) {struct v} : result bytes :=
  match v with
  | VNone => Ok (text "null")
  | VBool true => Ok (text "true")
  | VBool false => Ok (text "false")
  | VInt z => int_repr z
  | VFloat m e => Ok (float_repr m e)
  | VStr s => Ok (encode_string s)
  | VBytes _ => Err (lib_exn TypeError)
  | VList l =>
      let? parts := collect (dump (S level)) l in
      Ok (bracket Byte.x5b Byte.x5d level parts)
  | VDict d =>
      let? parts := collect (fun kv =>
        match kv with (k, v) => let? p := dump (S level) v in Ok (encode_string k ++ text ": " ++ p) end) d in
      Ok (bracket Byte.x7b Byte.x7d level parts)
  end.

(** [json.dumps(v, indent=indent)] *)
Definition dumps (v : pyval) : result bytes := dump 0 v.
End dumps.

(** ** Reading *)

Definition is_ws (x : byte) : bool := isb 32 x || isb 9 x || isb 10 x || isb 13 x.

Fixpoint skip (b : bytes) : bytes :=
  match b with
  | x :: b' => if is_ws x then skip b' else b
  | [] => []
  end.

(** What stands at the front, removed. *)
Definition eat (x : Z) (b : bytes) : option bytes :=
  match b with y :: b => if isb x y then Some b else None | [] => None end.

Fixpoint eat_text (t b : bytes) : option bytes :=
  match t with
  | [] => Some b
  | x :: t => match b with y :: b => if isb (Z_of_byte x) y then eat_text t b else None | [] => None end
  end.

Definition bad {A} : result A := Err (lib_exn ValueError).

(** What [int] raises: a [ValueError] that is not a [JSONDecodeError]. *)
Definition too_long {A} : result A := Err (Exn ValueError "Exceeds the limit for integer string conversion").

(** The UTF-8 bytes of a code point. *)
Definition utf8_enc (c : Z) : bytes :=
  if c <? 128 then [byte_of_Z c]
  else if c <? 2048 then [byte_of_Z (192 + c / 64); byte_of_Z (128 + c mod 64)]
  else if c <? 65536 then
    [byte_of_Z (224 + c / 4096); byte_of_Z (128 + c / 64 mod 64); byte_of_Z (128 + c mod 64)]
  else
    [byte_of_Z (240 + c / 262144); byte_of_Z (128 + c / 4096 mod 64); byte_of_Z (128 + c / 64 mod 64);
     byte_of_Z (128 + c mod 64)].

Definition hex4 (a b c d : byte) : option Z :=
  let v x := digit_value (Ascii.ascii_of_byte x) in
  match v a, v b, v c, v d with
  | Some a, Some b, Some c, Some d => Some (a * 4096 + b * 256 + c * 16 + d)
  | _, _, _, _ => None
  end.

(** The characters after a backslash that stand for one character. *)
Definition unescape (e : byte) : option byte :=
  if isb 34 e || isb 92 e || isb 47 e then Some e else
  if isb 98 e then Some Byte.x08 else
  if isb 102 e then Some Byte.x0c else
  if isb 110 e then Some Byte.x0a else
  if isb 114 e then Some Byte.x0d else
  if isb 116 e then Some Byte.x09 else None.

Definition is_high (u : Z) : bool := (55296 <=? u) && (u <=? 56319).
Definition is_low (u : Z) : bool := (56320 <=? u) && (u <=? 57343).

Definition prepend (p : bytes) (r : result (bytes * bytes)) : result (bytes * bytes) :=
  let? (s, rest) := r in Ok (p ++ s, rest).

(** [scanstring], after the opening quotation mark: the characters of the
    string and what follows it. *)
Fixpoint scanstring (b : bytes) : result (bytes * bytes) :=
  match b with
  | [] => bad
  | x :: b =>
      if isb 34 x then Ok ([], b)
      else if isb 92 x then
        match b with
        | [] => bad
        | e :: b =>
            if isb 117 e then
              match b with
              | h1 :: h2 :: h3 :: h4 :: b =>
                  match hex4 h1 h2 h3 h4 with
                  | None => bad
                  | Some u =>
                      let lone := prepend (utf8_enc u) (scanstring b) in
                      if is_high u then
                        match b with
                        | y :: z :: k1 :: k2 :: k3 :: k4 :: b' =>
                            match isb 92 y && isb 117 z, hex4 k1 k2 k3 k4 with
                            | true, Some u2 =>
                                if is_low u2
                                then prepend (utf8_enc (65536 + (u - 55296) * 1024 + (u2 - 56320))) (scanstring b')
                                else lone
                            | _, _ => lone
                            end
                        | _ => lone
                        end
                      else lone
                  end
              | _ => bad
              end
            else match unescape e with Some c => prepend [c] (scanstring b) | None => bad end
        end
      else if Z_of_byte x <? 32 then bad
      else prepend [x] (scanstring b)
  end.

(** *** Numbers *)

Definition is_dec (x : byte) : bool := between 48 57 x.

Fixpoint span_digits (b : bytes) : bytes * bytes :=
  match b with
  | x :: b' => if is_dec x then let '(ds, r) := span_digits b' in (x :: ds, r) else ([], b)
  | [] => ([], [])
  end.

Fixpoint uint_of (ds : bytes) : uint :=
  match ds with
  | [] => Nil
  | x :: ds =>
      let u := uint_of ds in
      match Z_of_byte x - 48 with
      | 0 => D0 u | 1 => D1 u | 2 => D2 u | 3 => D3 u | 4 => D4 u
      | 5 => D5 u | 6 => D6 u | 7 => D7 u | 8 => D8 u | _ => D9 u
      end
  end.

(** An optional sign, then 0 or digits that do not start with 0; and the rest. *)
Definition integer_part (b : bytes) : option (bool * bytes * bytes) :=
  let '(neg, b) := match eat 45 b with Some b' => (true, b') | None => (false, b) end in
  match b with
  | x :: b' =>
      if isb 48 x then Some (neg, [x], b')
      else if is_dec x then let '(ds, r) := span_digits b in Some (neg, ds, r) else None
  | [] => None
  end.

(** An optional fraction: a point and digits. *)
Definition fraction (b : bytes) : bytes * bytes :=
  match eat 46 b with
  | Some b' => match span_digits b' with ([], _) => ([], b) | (ds, r) => (Byte.x2e :: ds, r) end
  | None => ([], b)
  end.

(** An optional exponent. *)
Definition exponent (b : bytes) : bytes * bytes :=
  match b with
  | e :: b' =>
      if isb 101 e || isb 69 e then
        let '(sign, b'') := match b' with
          | s :: r => if isb 43 s || isb 45 s then ([s], r) else ([], b')
          | [] => ([], [])
          end in
        match span_digits b'' with ([], _) => ([], b) | (ds, r) => (e :: sign ++ ds, r) end
      else ([], b)
  | [] => ([], [])
  end.

Section loads.
Context (float_of : bytes -> pyval).

(** [_match_number_unicode] *)
Definition number (b : bytes) : result (pyval * bytes) :=
  match integer_part b with
  | None => bad
  | Some (neg, ds, r) =>
      let '(frac, r) := fraction r in
      let '(exp, r) := exponent r in
      let sign := if neg then [Byte.x2d] else [] in
      if decide (frac ++ exp = []) then
        if INT_MAX_STR_DIGITS <? len ds then too_long
        else Ok (VInt (Z.of_int ((if neg then Neg else Pos) (uint_of ds))), r)
      else Ok (float_of (sign ++ ds ++ frac ++ exp), r)
  end.

(** The words, or a number. *)
Definition atom (b : bytes) : result (pyval * bytes) :=
  match eat_text (text "null") b with Some r => Ok (VNone, r) | None =>
  match eat_text (text "true") b with Some r => Ok (VBool true, r) | None =>
  match eat_text (text "false") b with Some r => Ok (VBool false, r) | None =>
  match eat_text (text "NaN") b with Some r => Ok (float_of (text "NaN"), r) | None =>
  match eat_text (text "Infinity") b with Some r => Ok (float_of (text "Infinity"), r) | None =>
  match eat_text (text "-Infinity") b with Some r => Ok (float_of (text "-Infinity"), r) | None =>
  number b end end end end end end.

(** The items of an array or an object that is not empty, after its first
    bracket and white space: each read by [p], with commas between them, up to
    the bracket [close]. *)
Fixpoint items {A} (p : bytes -> result (A * bytes)) (close : Z) (fuel : nat) (b : bytes)
    : result (list A * bytes) :=
  match fuel with
  | O => Err (lib_exn RuntimeError)
  | S fuel =>
      let? (v, b) := p b in
      let b := skip b in
      match eat close b with
      | Some r => Ok ([v], r)
      | None =>
          match eat 44 b with
          | Some b => let? (vs, r) := items p close fuel (skip b) in Ok (v :: vs, r)
          | None => bad
          end
      end
  end.

(** A key, a colon and a value. *)
Definition member (p : bytes -> result (pyval * bytes)) (b : bytes)
    : result ((String.string * pyval) * bytes) :=
  match eat 34 b with
  | None => bad
  | Some b =>
      let? (k, b) := scanstring b in
      match eat 58 (skip b) with
      | None => bad
      | Some b => let? (v, r) := p (skip b) in Ok ((str k, v), r)
      end
  end.

(** A repeated key keeps its first place and its last value. *)
Definition dict_of (kvs : list (String.string * pyval)) : pydict :=
  fold_left (fun d kv => dset kv.1 kv.2 d) kvs [].

(** [scan_once] *)
Fixpoint value (fuel : nat) (b : bytes) : result (pyval * bytes) :=
  match fuel with
  | O => Err (lib_exn RuntimeError)
  | S fuel =>
      match b with
      | [] => bad
      | x :: b' =>
          if isb 34 x then let? (s, r) := scanstring b' in Ok (VStr (str s), r)
          else if isb 91 x then
            let b := skip b' in
            match eat 93 b with
            | Some r => Ok (VList [], r)
            | None => let? (vs, r) := items (value fuel) 93 (S (length b)) b in Ok (VList vs, r)
            end
          else if isb 123 x then
            let b := skip b' in
            match eat 125 b with
            | Some r => Ok (VDict [], r)
            | None => let? (kvs, r) := items (member (value fuel)) 125 (S (length b)) b in Ok (VDict (dict_of kvs), r)
            end
          else atom b
      end
  end.

(** [json.loads(s)] on text. *)
Definition loads (b : bytes) : result pyval :=
  let? (v, r) := value (S (length b)) (skip b) in
  match skip r with [] => Ok v | _ => bad end.
End loads.

(** The codec of the control plane: [json.dumps(obj).encode("utf-8")] and
    [json.loads(raw.decode("utf-8"))]. *)
Definition json_codec (float_repr : Z -> Z -> bytes) (float_of : bytes -> pyval) : codec := {|
  c_enc := dumps float_repr None;
  c_dec := fun raw => if utf8_valid raw then loads float_of raw else Err (lib_exn ValueError)
|}.
