(* ===== verification/JsonSpec.v ===== *)
(** * JSON text: what is written is read back

    Round trip of [dumps] and [loads] with and without indentation, totality
    of [loads], and the sizes of requests. *)
From S2P Require Import Prelude PyVal Protocol Channel Utf8 Json.
From Stdlib Require Import Ascii.
From Stdlib Require DecimalFacts DecimalZ.

(** ** Characters *)

Lemma hexb_value d : 0 <= d < 16 -> digit_value (Ascii.ascii_of_byte (hexb d)) = Some d.
Proof. intros Hd. unfold hexb. rewrite Ascii.ascii_of_byte_of_ascii. by apply hex_digit_value. Qed.

Lemma hex4_hexb n :
  0 <= n < 65536 ->
  hex4 (hexb (n / 4096)) (hexb (n / 256 mod 16)) (hexb (n / 16 mod 16)) (hexb (n mod 16)) = Some n.
Proof.
  intros Hn. unfold hex4. rewrite !hexb_value by (Z.to_euclidean_division_equations; lia).
  f_equal. Z.to_euclidean_division_equations; lia.
Qed.

(** A code point that is not a surrogate. *)
Definition scalar (c : Z) : Prop := 0 <= c < 55296 \/ 57343 < c < 1114112.

Lemma isb_of_Z n c : 0 <= c < 256 -> isb n (byte_of_Z c) = (c =? n).
Proof. intros Hc. unfold isb. rewrite Z_of_byte_of_Z, Z.mod_small by lia. done. Qed.

Lemma scan_u_escape c rest :
  0 <= c < 65536 -> is_high c = false -> scanstring (u_escape c ++ rest) = prepend (utf8_enc c) (scanstring rest).
Proof.
  intros Hc Hh. unfold u_escape. cbn -[hexb hex4 utf8_enc prepend].
  rewrite hex4_hexb by lia. by rewrite Hh.
Qed.

Lemma scan_pair h l rest :
  is_high h = true -> is_low l = true ->
  scanstring (u_escape h ++ u_escape l ++ rest)
    = prepend (utf8_enc (65536 + (h - 55296) * 1024 + (l - 56320))) (scanstring rest).
Proof.
  intros Hh Hl. pose proof Hh as Hh'. pose proof Hl as Hl'. unfold is_high, is_low in Hh', Hl'.
  unfold u_escape. cbn -[hexb hex4 utf8_enc prepend].
  rewrite !hex4_hexb by lia. by rewrite Hh, Hl.
Qed.

Lemma scan_escape_char c rest :
  scalar c -> scanstring (escape_char c ++ rest) = prepend (utf8_enc c) (scanstring rest).
Proof.
  intros Hc. unfold escape_char, scalar in *.
  repeat match goal with |- context [if c =? ?n then _ else _] =>
    destruct (Z.eqb_spec c n) as [->|?]; [done|] end.
  destruct (Z.leb_spec 32 c), (Z.leb_spec c 126); cbn [andb].
  { change ([byte_of_Z c] ++ rest) with (byte_of_Z c :: rest). cbn [scanstring].
    rewrite !isb_of_Z, Z_of_byte_of_Z, Z.mod_small by lia. unfold utf8_enc.
    by rewrite (proj2 (Z.eqb_neq c 34)), (proj2 (Z.eqb_neq c 92)), (proj2 (Z.ltb_ge c 32)),
      (proj2 (Z.ltb_lt c 128)) by lia. }
  all: destruct (Z.ltb_spec c 65536); [apply scan_u_escape; unfold is_high; lia|].
  all: rewrite <-(assoc_L app), scan_pair by (unfold is_high, is_low; Z.to_euclidean_division_equations; lia).
  all: f_equal; f_equal; Z.to_euclidean_division_equations; lia.
Qed.

Lemma enc_byte x n : n = Z_of_byte x -> byte_of_Z n = x.
Proof. intros ->. apply byte_of_Z_of_byte. Qed.

(** The bytes of a code point that was put together from them. *)
Ltac enc_bytes :=
  unfold utf8_enc; repeat (zcase; try lia);
  repeat (apply f_equal2; [apply enc_byte; Z.to_euclidean_division_equations; lia|]); done.

Lemma enc1 x : Z_of_byte x < 128 -> utf8_enc (Z_of_byte x) = [x].
Proof. intros H. pose proof (Z_of_byte_range x). enc_bytes. Qed.

Lemma enc2 x y :
  194 <= Z_of_byte x < 224 -> 128 <= Z_of_byte y < 192 ->
  utf8_enc ((Z_of_byte x - 192) * 64 + (Z_of_byte y - 128)) = [x; y].
Proof. intros. enc_bytes. Qed.

Lemma enc3 x y z :
  let c := (Z_of_byte x - 224) * 4096 + (Z_of_byte y - 128) * 64 + (Z_of_byte z - 128) in
  224 <= Z_of_byte x < 240 -> 128 <= Z_of_byte y < 192 -> 128 <= Z_of_byte z < 192 -> 2048 <= c ->
  utf8_enc c = [x; y; z].
Proof. intros. enc_bytes. Qed.

Lemma enc4 x y z w :
  let c := (Z_of_byte x - 240) * 262144 + (Z_of_byte y - 128) * 4096 + (Z_of_byte z - 128) * 64
           + (Z_of_byte w - 128) in
  240 <= Z_of_byte x < 248 -> 128 <= Z_of_byte y < 192 -> 128 <= Z_of_byte z < 192 ->
  128 <= Z_of_byte w < 192 -> 65536 <= c -> utf8_enc c = [x; y; z; w].
Proof. intros. enc_bytes. Qed.

(** Text is a sequence of characters. *)
Lemma utf8_first b :
  utf8_ok [] b = true -> b <> [] ->
  exists c rest, scalar c /\ b = utf8_enc c ++ rest /\ utf8_ok [] rest = true.
Proof.
  intros Hok Hne. destruct b as [|x b]; [done|]. cbn [utf8_ok] in Hok. pose proof (Z_of_byte_range x) as Hx.
  unfold utf8_need, tail in Hok.
  repeat (match type of Hok with context [if ?t then _ else _] => destruct t eqn:? end; [|]); try done.
  all: repeat (destruct b as [|? b]; cbn [utf8_ok] in Hok; [done|]; apply andb_prop in Hok as [? Hok]).
  all: unfold within in *; cbn [fst snd] in *.
  1: exists (Z_of_byte x), b; rewrite enc1 by lia; split_and!; [unfold scalar; lia|done|done].
  1: exists ((Z_of_byte x - 192) * 64 + (Z_of_byte b0 - 128)), b; rewrite enc2 by lia;
     split_and!; [unfold scalar; lia|done|done].
  1-3: exists ((Z_of_byte x - 224) * 4096 + (Z_of_byte b0 - 128) * 64 + (Z_of_byte b1 - 128)), b;
     rewrite enc3 by lia; split_and!; [unfold scalar; lia|done|done].
  all: exists ((Z_of_byte x - 240) * 262144 + (Z_of_byte b0 - 128) * 4096 + (Z_of_byte b1 - 128) * 64
        + (Z_of_byte b2 - 128)), b; rewrite enc4 by lia; split_and!; [unfold scalar; lia|done|done].
Qed.

Lemma Z_of_small c : 0 <= c < 256 -> Z_of_byte (byte_of_Z c) = c.
Proof. intros Hc. by rewrite Z_of_byte_of_Z, Z.mod_small. Qed.

(** The bits of the following bytes are added to those of the first one. *)
Lemma escape_enc c rest : scalar c -> escape 0 0 (utf8_enc c ++ rest) = escape_char c ++ escape 0 0 rest.
Proof.
  intros Hc. unfold scalar in Hc. unfold utf8_enc. repeat (zcase; try lia).
  all: cbn [app escape]; unfold lead; rewrite !Z_of_small by (Z.to_euclidean_division_equations; lia).
  all: repeat (zcase; try (Z.to_euclidean_division_equations; lia)).
  all: try done.
  all: f_equal; f_equal; Z.to_euclidean_division_equations; lia.
Qed.

(** Induction over the characters of a text. *)
Lemma utf8_chars (P : bytes -> Prop) :
  P [] -> (forall c rest, scalar c -> P rest -> P (utf8_enc c ++ rest)) ->
  forall b, utf8_ok [] b = true -> P b.
Proof.
  intros Hnil Hchar b. remember (length b) as n eqn:Hn. revert b Hn.
  induction n as [n IH] using lt_wf_ind. intros b -> Hok.
  destruct (decide (b = [])) as [->|Hne]; [done|].
  destruct (utf8_first b Hok Hne) as (c & rest & Hc & -> & Hrest).
  apply Hchar; [done|]. apply (IH (length rest)); [|done|done].
  rewrite length_app. unfold utf8_enc. repeat case_match; simpl; lia.
Qed.

Lemma scan_escape b rest :
  utf8_valid b = true -> scanstring (escape 0 0 b ++ Byte.x22 :: rest) = Ok (b, rest).
Proof.
  intros Hok. revert rest. apply (utf8_chars (fun b => forall rest,
    scanstring (escape 0 0 b ++ Byte.x22 :: rest) = Ok (b, rest))); [done| |done].
  intros c b' Hc IH rest. rewrite escape_enc, <-(assoc_L app), scan_escape_char, IH by done. done.
Qed.

(** ** What is written is ASCII *)

Definition ascii_only (b : bytes) : Prop := Forall (fun x => Z_of_byte x < 128) b.

Lemma ascii_app b1 b2 : ascii_only b1 -> ascii_only b2 -> ascii_only (b1 ++ b2).
Proof. by apply Forall_app_2. Qed.

Lemma ascii_valid b : ascii_only b -> utf8_valid b = true.
Proof.
  unfold utf8_valid. induction 1 as [|x b Hx _ IH]; [done|]. cbn. unfold utf8_need.
  by rewrite (proj2 (Z.ltb_lt _ _) Hx).
Qed.

Lemma hexb_ascii d : 0 <= d < 16 -> Z_of_byte (hexb d) < 128.
Proof.
  intros Hd. apply Z.ltb_lt, (sixteen (fun d => Z_of_byte (hexb d) <? 128)); [lia|]. by vm_compute.
Qed.

Lemma u_escape_ascii n : 0 <= n < 65536 -> ascii_only (u_escape n).
Proof.
  intros Hn. unfold ascii_only, u_escape. rewrite !Forall_cons.
  split_and!; [done|done|apply hexb_ascii; Z.to_euclidean_division_equations; lia..|constructor].
Qed.

Lemma escape_char_ascii c : scalar c -> ascii_only (escape_char c).
Proof.
  intros Hc. unfold escape_char, scalar in *.
  repeat match goal with |- context [if c =? ?n then _ else _] =>
    destruct (Z.eqb_spec c n) as [->|?]; [repeat constructor|] end.
  destruct (Z.leb_spec 32 c), (Z.leb_spec c 126); cbn [andb].
  { constructor; [|constructor]. rewrite Z_of_small; lia. }
  all: destruct (Z.ltb_spec c 65536); [apply u_escape_ascii; lia|].
  all: apply ascii_app; apply u_escape_ascii; Z.to_euclidean_division_equations; lia.
Qed.

Lemma encode_string_ascii s : utf8_valid (text s) = true -> ascii_only (encode_string s).
Proof.
  intros Hok. unfold encode_string. apply ascii_app; [by repeat constructor|].
  apply ascii_app; [|by repeat constructor]. revert Hok.
  apply (utf8_chars (fun b => ascii_only (escape 0 0 b))); [constructor|].
  intros c rest Hc IH. rewrite escape_enc by done. by apply ascii_app; [apply escape_char_ascii|].
Qed.

(** ** Numbers *)

(** The next byte, if there is one, is not in [P]. *)
Definition not_next (P : byte -> bool) (b : bytes) : Prop :=
  match b with [] => True | x :: _ => P x = false end.

(** What can follow a value: a comma, a closing bracket, white space or
    nothing. *)
Definition ends (b : bytes) : Prop :=
  match b with [] => True | x :: _ => isb 44 x || isb 93 x || isb 125 x || is_ws x = true end.

Lemma ends_not_next P b :
  (forall x, isb 44 x || isb 93 x || isb 125 x || is_ws x = true -> P x = false) -> ends b -> not_next P b.
Proof. intros HP. destruct b as [|x b]; [done|apply HP]. Qed.

Ltac codes := unfold is_ws, is_dec, between, isb in *; lia.

Lemma span_digits_app ds rest :
  Forall (fun x => is_dec x = true) ds -> not_next is_dec rest -> span_digits (ds ++ rest) = (ds, rest).
Proof.
  intros Hds Hrest. induction Hds as [|x ds Hx _ IH]; cbn.
  - destruct rest as [|y rest]; [done|]. cbn in *. by rewrite Hrest.
  - by rewrite Hx, IH.
Qed.

Lemma udigits_dec u : Forall (fun x => is_dec x = true) (udigits u).
Proof. induction u; constructor; done. Qed.

Lemma uint_of_udigits u : uint_of (udigits u) = u.
Proof.
  induction u as [|u IH|u IH|u IH|u IH|u IH|u IH|u IH|u IH|u IH|u IH]; [done|..];
    cbn [udigits uint_of]; by rewrite IH.
Qed.

(** Digits without a leading zero. *)
Definition proper (u : Decimal.uint) : Prop :=
  u = Decimal.D0 Decimal.Nil \/ exists x ds, udigits u = x :: ds /\ isb 48 x = false.

Lemma proper_unorm u : Decimal.unorm u = u -> proper u.
Proof.
  destruct u as [|u|u|u|u|u|u|u|u|u|u]; intros Hu; [done| |by right; eexists _, _..].
  left. unfold Decimal.unorm in Hu. destruct (Decimal.nzhead (Decimal.D0 u)) eqn:Hn; try congruence.
  by destruct (DecimalFacts.nzhead_nonzero (Decimal.D0 u) u0).
Qed.

Lemma to_int_proper z :
  match Z.to_int z with Decimal.Pos u => proper u | Decimal.Neg u => proper u end.
Proof.
  pose proof (DecimalZ.to_of (Z.to_int z)) as H. rewrite DecimalZ.of_to in H.
  destruct (Z.to_int z) as [u|u]; cbn in H; [apply proper_unorm; congruence|].
  destruct (Decimal.nzhead u) eqn:Hn; try done; apply proper_unorm; unfold Decimal.unorm; rewrite Hn; congruence.
Qed.

Definition sign (neg : bool) : bytes := if neg then [Byte.x2d] else [].

Lemma udigits_cons u : proper u -> exists x ds, udigits u = x :: ds /\ is_dec x = true.
Proof.
  intros [->|(x & ds & Hu & _)]; [by eexists _, _|]. exists x, ds. split; [done|].
  pose proof (udigits_dec u) as H. rewrite Hu in H. by inversion H.
Qed.

Lemma integer_part_text neg u rest :
  proper u -> not_next is_dec rest ->
  integer_part (sign neg ++ udigits u ++ rest) = Some (neg, udigits u, rest).
Proof.
  intros Hu Hrest. unfold integer_part. destruct (udigits_cons u Hu) as (x & ds & Hx & Hd).
  replace (match eat 45 (sign neg ++ udigits u ++ rest) with
    | Some b' => (true, b') | None => (false, sign neg ++ udigits u ++ rest) end)
    with (neg, udigits u ++ rest).
  - destruct Hu as [->|(y & ds' & Hy & Hz)]; [done|]. pose proof (span_digits_app _ _ (udigits_dec u) Hrest) as Hs.
    rewrite Hx in Hy. injection Hy as <- <-. rewrite Hx in Hs |- *. cbn [app] in *. by rewrite Hz, Hd, Hs.
  - destruct neg; [done|]. rewrite Hx. cbn. replace (isb 45 x) with false; [done|]. symmetry. codes.
Qed.

Definition frac_text (b : bytes) : Prop :=
  b = [] \/ exists ds, ds <> [] /\ Forall (fun x => is_dec x = true) ds /\ b = Byte.x2e :: ds.

Definition exp_text (b : bytes) : Prop :=
  b = [] \/ exists s ds, ds <> [] /\ Forall (fun x => is_dec x = true) ds /\ b = Byte.x65 :: s ++ ds /\
    (s = [] \/ s = [Byte.x2b] \/ s = [Byte.x2d]).

Lemma fraction_text b rest :
  frac_text b -> not_next is_dec rest -> not_next (isb 46) rest -> fraction (b ++ rest) = (b, rest).
Proof.
  intros [->|(ds & Hne & Hds & ->)] Hrest Hpt; unfold fraction.
  - cbn. destruct rest as [|x rest]; [done|]. cbn in *. by rewrite Hpt.
  - cbn. rewrite span_digits_app by done. by destruct ds.
Qed.

Lemma exponent_text b rest :
  exp_text b -> ends rest -> exponent (b ++ rest) = (b, rest).
Proof.
  intros [->|(s & ds & Hne & Hds & -> & Hs)] Hrest; unfold exponent.
  - destruct rest as [|x rest]; [done|]. cbn in *.
    replace (isb 101 x || isb 69 x) with false; [done|]. symmetry. codes.
  - assert (not_next is_dec rest) as Hn by (eapply ends_not_next; [|done]; intros; codes).
    assert (span_digits (ds ++ rest) = (ds, rest)) as Hspan by by apply span_digits_app.
    destruct ds as [|d ds]; [done|]. inversion Hds as [|? ? Hd Hds']; subst.
    destruct Hs as [->|[->| ->]]; cbn [app] in *.
    + cbn [isb]. replace (isb 43 d || isb 45 d) with false by (symmetry; codes). cbn [app]. by rewrite Hspan.
    + cbn -[span_digits]. by rewrite Hspan.
    + cbn -[span_digits]. by rewrite Hspan.
Qed.

(** The text of a float is a number with a fraction or an exponent. *)
Class FloatText (float_repr : Z -> Z -> bytes) : Prop :=
  float_text : forall m e, exists neg u frac exp,
    proper u /\ frac_text frac /\ exp_text exp /\ frac ++ exp <> [] /\
    float_repr m e = sign neg ++ udigits u ++ frac ++ exp.

Section text.
Context (float_repr : Z -> Z -> bytes) `{!FloatText float_repr} (float_of : bytes -> pyval).
Abbreviation value := (value float_of).
Abbreviation loads := (loads float_of).

(** A text that starts with a number is read as one. *)
Lemma value_number neg u rest fuel :
  proper u -> value (S fuel) (sign neg ++ udigits u ++ rest) = number float_of (sign neg ++ udigits u ++ rest).
Proof.
  intros Hu. destruct (udigits_cons u Hu) as (x & ds & -> & Hx).
  assert (forall n, n < 48 \/ 57 < n -> isb n x = false) as Hne by (intros; codes).
  destruct neg; cbn; rewrite !Hne by lia; [done|]. unfold atom. cbn. by rewrite !Hne by lia.
Qed.

Lemma number_text neg u frac exp rest :
  proper u -> frac_text frac -> exp_text exp -> ends rest ->
  number float_of (sign neg ++ udigits u ++ frac ++ exp ++ rest)
    = if decide (frac ++ exp = []) then
        if INT_MAX_STR_DIGITS <? len (udigits u) then too_long
        else Ok (VInt (Z.of_int ((if neg then Decimal.Neg else Decimal.Pos) u)), rest)
      else Ok (float_of (sign neg ++ udigits u ++ frac ++ exp), rest).
Proof.
  intros Hu Hf He Hrest.
  assert (not_next is_dec (exp ++ rest) /\ not_next (isb 46) (exp ++ rest)) as [He1 He2].
  { destruct He as [->|(s & ds & _ & _ & -> & _)]; [|done].
    split; (eapply ends_not_next; [|done]); intros; codes. }
  assert (not_next is_dec (frac ++ exp ++ rest)) by (by destruct Hf as [->|(ds & _ & _ & ->)]).
  unfold number. rewrite integer_part_text, fraction_text, exponent_text by done.
  by rewrite uint_of_udigits.
Qed.

(** ** Values *)

(** A text that starts neither with white space nor with a closing bracket. *)
Definition solid (b : bytes) : Prop :=
  exists x b', b = x :: b' /\ is_ws x || isb 93 x || isb 125 x = false.

Lemma skip_solid b : solid b -> skip b = b.
Proof. intros (x & b' & -> & Hx). cbn. by replace (is_ws x) with false by (symmetry; codes). Qed.

Lemma eat_solid close b : close = 93 \/ close = 125 -> solid b -> eat close b = None.
Proof.
  intros [->| ->] (x & b' & -> & Hx); cbn; [replace (isb 93 x) with false|replace (isb 125 x) with false]; done || codes.
Qed.

Lemma solid_app b rest : solid b -> solid (b ++ rest).
Proof. intros (x & b' & -> & Hx). by exists x, (b' ++ rest). Qed.

Lemma skip_ws ws b : Forall (fun x => is_ws x = true) ws -> skip (ws ++ b) = skip b.
Proof. induction 1 as [|x ws Hx _ IH]; [done|]. cbn. by rewrite Hx. Qed.

Lemma newline_ws indent level : Forall (fun x => is_ws x = true) (newline indent level).
Proof. destruct indent as [n|]; [|done]. constructor; [done|]. by apply Forall_replicate. Qed.

(** [p] is read as [v], whatever may follow it. *)
Definition reads {A} (parse : bytes -> result (A * bytes)) (p : bytes) (v : A) : Prop :=
  solid p /\ forall rest, ends rest -> parse (p ++ rest) = Ok (v, rest).

Lemma solid_number neg u rest : proper u -> solid (sign neg ++ udigits u ++ rest).
Proof.
  intros Hu. destruct (udigits_cons u Hu) as (x & ds & -> & Hx). destruct neg; [by eexists _, _|].
  exists x, (ds ++ rest). split; [done|]. codes.
Qed.

Lemma number_reads (neg : bool) u frac exp fuel v :
  proper u -> frac_text frac -> exp_text exp ->
  (if decide (frac ++ exp = []) then
     len (udigits u) <= INT_MAX_STR_DIGITS /\ v = VInt (Z.of_int ((if neg then Decimal.Neg else Decimal.Pos) u))
   else v = float_of (sign neg ++ udigits u ++ frac ++ exp)) ->
  reads (value (S fuel)) (sign neg ++ udigits u ++ frac ++ exp) v.
Proof.
  intros Hu Hf He Hv. split; [by apply solid_number|]. intros rest Hrest.
  rewrite <-!(assoc_L app), value_number, number_text by done. case_decide; [|by subst].
  destruct Hv as [Hlen ->]. by rewrite (proj2 (Z.ltb_ge _ _) Hlen).
Qed.

Lemma int_reads z b fuel : int_repr z = Ok b -> reads (value (S fuel)) b (VInt z).
Proof.
  unfold int_repr. pose proof (to_int_proper z) as Hu. pose proof (DecimalZ.of_to z) as Hz.
  destruct (Z.to_int z) as [u|u]; (case_match eqn:Hlen; [done|]); intros [= <-]; apply Z.ltb_ge in Hlen;
    rewrite <-(app_nil_r (udigits u)).
  - apply (number_reads false u [] []); [done|by left..|]. by rewrite decide_True, Hz.
  - apply (number_reads true u [] []); [done|by left..|]. by rewrite decide_True, Hz.
Qed.

Lemma float_reads m e fuel :
  float_of (float_repr m e) = VFloat m e -> reads (value (S fuel)) (float_repr m e) (VFloat m e).
Proof.
  intros Hv. destruct (float_text m e) as (neg & u & frac & exp & Hu & Hf & He & Hne & Heq). rewrite Heq in *.
  apply number_reads; [done..|]. by rewrite decide_False.
Qed.

Lemma str_text s : str (text s) = s.
Proof. apply String.string_of_list_byte_of_string. Qed.

Lemma string_reads s fuel : utf8_valid (text s) = true -> reads (value (S fuel)) (encode_string s) (VStr s).
Proof.
  intros Hs. split; [by eexists _, _|]. intros rest _. unfold encode_string. rewrite <-!(assoc_L app). cbn.
  rewrite scan_escape by done. cbn. by rewrite str_text.
Qed.

(** *** Arrays and objects *)

Lemma join_cons sep p q ps : join sep (p :: q :: ps) = p ++ sep ++ join sep (q :: ps).
Proof. done. Qed.

Lemma separator_split indent level :
  exists ws, separator indent level = Byte.x2c :: ws /\ Forall (fun x => is_ws x = true) ws.
Proof.
  destruct indent as [n|]; [|by exists [Byte.x20]; split; [done|repeat constructor]].
  exists (newline (Some n) level). split; [done|apply newline_ws].
Qed.

Lemma solid_join sep p ps rest : solid p -> solid (join sep (p :: ps) ++ rest).
Proof.
  intros (x & b & -> & Hx). destruct ps as [|q ps].
  - by exists x, (b ++ rest).
  - rewrite join_cons. by exists x, ((b ++ sep ++ join sep (q :: ps)) ++ rest).
Qed.

(** What closes: white space and the bracket. *)
Definition closing (close : Z) (b : bytes) : Prop :=
  exists ws x, Forall (fun x => is_ws x = true) ws /\ b = ws ++ [x] /\ Z_of_byte x = close.

Lemma closing_ends close b rest : close = 93 \/ close = 125 -> closing close b -> ends (b ++ rest).
Proof.
  intros Hclose (ws & x & Hws & -> & Hx). destruct Hws as [|y ws Hy _]; cbn; [codes|].
  rewrite Hy. by rewrite !orb_true_r.
Qed.

Lemma closing_eat close b rest :
  close = 93 \/ close = 125 -> closing close b -> eat close (skip (b ++ rest)) = Some rest.
Proof.
  intros Hclose (ws & x & Hws & -> & Hx). rewrite <-(assoc_L app), skip_ws by done.
  cbn. replace (is_ws x) with false by (symmetry; codes). cbn. by replace (isb close x) with true by (symmetry; codes).
Qed.

Lemma comma_eat close b :
  close = 93 \/ close = 125 ->
  eat close (skip (Byte.x2c :: b)) = None /\ eat 44 (skip (Byte.x2c :: b)) = Some b.
Proof. by intros [->| ->]. Qed.

Lemma items_read {A} (parse : bytes -> result (A * bytes)) close indent level ps vs fin n rest :
  (close = 93 \/ close = 125) -> closing close fin -> Forall2 (reads parse) ps vs -> ps <> [] ->
  (length ps <= n)%nat ->
  items parse close n (join (separator indent level) ps ++ fin ++ rest) = Ok (vs, rest).
Proof.
  intros Hclose Hfin Hps. revert n. induction Hps as [|p v ps vs [_ Hp] Hps IH]; intros n Hne Hn; [done|].
  destruct n as [|n]; [simpl in Hn; lia|]. cbn [items]. destruct ps as [|q ps].
  - inversion Hps; subst vs. cbn [join]. rewrite Hp by (by eapply closing_ends). cbn [result_bind].
    by rewrite closing_eat.
  - destruct (separator_split indent level) as (ws & Hsep & Hws).
    assert (solid q) by (by inversion Hps as [|? ? ? ? [? _]]).
    rewrite join_cons, Hsep, <-!(assoc_L app), Hp by done. cbn [result_bind].
    change ((Byte.x2c :: ws) ++ ?b) with (Byte.x2c :: (ws ++ b)).
    destruct (comma_eat close (ws ++ join (Byte.x2c :: ws) (q :: ps) ++ fin ++ rest) Hclose) as [-> ->].
    rewrite skip_ws by done. pose proof (solid_join (Byte.x2c :: ws) q ps (fin ++ rest) ltac:(done)) as Hsolid.
    rewrite skip_solid, <-Hsep, IH by (done || (simpl in *; lia)). done.
Qed.

Lemma bracket_reads {A} (parse : bytes -> result (A * bytes)) o c close indent level ps vs rest :
  (close = 93 \/ close = 125) -> Z_of_byte c = close -> Forall2 (reads parse) ps vs -> ps <> [] ->
  exists b, bracket indent o c level ps = o :: b /\ solid (skip (b ++ rest)) /\
    items parse close (S (length (skip (b ++ rest)))) (skip (b ++ rest)) = Ok (vs, rest).
Proof.
  intros Hclose Hc Hps Hne. destruct ps as [|p ps]; [done|].
  set (sep := separator indent (S level)). set (fin := newline indent level ++ [c]).
  exists (newline indent (S level) ++ join sep (p :: ps) ++ fin). split; [done|].
  assert (solid (join sep (p :: ps) ++ fin ++ rest)) as Hsolid.
  { apply solid_join. by inversion Hps as [|? ? ? ? [? _]]. }
  rewrite <-!(assoc_L app), skip_ws, skip_solid by (done || apply newline_ws). split; [done|].
  apply items_read; [done| |done|done|].
  - exists (newline indent level), c. split_and!; [apply newline_ws|done|done].
  - apply (Nat.le_trans _ (length (join sep (p :: ps)))); [|rewrite length_app; lia].
    clear -Hps. induction Hps as [|p' v ps' vs [(x & b & -> & _) _] _ IH]; [simpl; lia|].
    destruct ps' as [|q ps']; [simpl; lia|]. rewrite join_cons, !length_app. simpl in *. lia.
Qed.

(** ** The round trip *)

(** What JSON represents: text in UTF-8, dictionaries without repeated keys,
    floats that their text stands for. *)
Fixpoint json_doc (v : pyval) : bool :=
  match v with
  | VStr s => utf8_valid (text s)
  | VFloat m e => bool_decide (float_of (float_repr m e) = VFloat m e)
  | VList l => forallb json_doc l
  | VDict d =>
      bool_decide (NoDup d.*1) &&
      forallb (fun kv => match kv with (k, v) => utf8_valid (text k) && json_doc v end) d
  | _ => true
  end.

Lemma collect_inv {A B} (f : A -> result B) l ys : collect f l = Ok ys -> Forall2 (fun x y => f x = Ok y) l ys.
Proof.
  revert ys. induction l as [|x l IH]; intros ys H; cbn in H; [injection H as <-; constructor|].
  destruct (f x) as [y|] eqn:Hx; [|done]. cbn in H. destruct (collect f l) as [ys'|] eqn:Hl; [|done].
  injection H as <-. constructor; [done|by apply IH].
Qed.

Lemma dict_of_nodup d : NoDup d.*1 -> dict_of d = d.
Proof.
  unfold dict_of. assert (forall d0, NoDup (d0 ++ d).*1 ->
    fold_left (fun d kv => dset kv.1 kv.2 d) d d0 = d0 ++ d) as H; [|apply (H [])].
  induction d as [|[k v] d IH]; intros d0 Hd; [by rewrite app_nil_r|]. cbn [fold_left fst snd].
  replace (dset k v d0) with (d0 ++ [(k, v)]).
  - rewrite IH; rewrite <-(assoc_L app); done.
  - rewrite fmap_app in Hd. cbn in Hd. assert (k ∉ d0.*1) as Hk by (apply NoDup_app in Hd; set_solver).
    clear -Hk. induction d0 as [|[k0 v0] d0 IH]; [done|]. cbn in *. case_decide; [set_solver|].
    rewrite <-IH by set_solver. done.
Qed.

Lemma member_reads parse k p v :
  utf8_valid (text k) = true -> reads parse p v ->
  reads (member parse) (encode_string k ++ text ": " ++ p) (k, v).
Proof.
  intros Hk [Hsolid Hp]. split; [by eexists _, _|]. intros rest Hrest.
  unfold encode_string, member. rewrite <-!(assoc_L app). cbn [app eat].
  change (isb 34 Byte.x22) with true. cbn iota. rewrite scan_escape by done. cbn.
  rewrite skip_solid by (by apply solid_app). rewrite Hp by done. cbn. by rewrite str_text.
Qed.

Lemma part_shorter o c indent level ps p : p ∈ ps -> (length p + 2 <= length (bracket indent o c level ps))%nat.
Proof.
  intros Hp. destruct ps as [|q ps]; [by apply not_elem_of_nil in Hp|]. unfold bracket.
  assert (length p <= length (join (separator indent (S level)) (q :: ps)))%nat; [|rewrite !length_app; cbn [length]; lia].
  revert q Hp. induction ps as [|r ps IH]; intros q Hp.
  - apply list_elem_of_singleton in Hp as ->. done.
  - rewrite join_cons, !length_app. apply elem_of_cons in Hp as [->|Hp]; [lia|]. specialize (IH r Hp). lia.
Qed.

Lemma dump_nonempty indent level v b : dump float_repr indent level v = Ok b -> b <> [].
Proof.
  destruct v as [|[]|z|m e|s|x|l|d]; cbn; try (intros [= <-]; done); try done.
  - unfold int_repr. pose proof (to_int_proper z) as Hu.
    destruct (Z.to_int z) as [u|u]; (case_match; [done|]); intros [= <-]; [|done].
    destruct (udigits_cons u Hu) as (? & ? & -> & _). done.
  - intros [= <-]. destruct (float_text m e) as (neg & u & ? & ? & Hu & _ & _ & _ & ->).
    destruct (udigits_cons u Hu) as (? & ? & -> & _). by destruct neg.
  - destruct (collect _ l) as [[|? ?]|]; [by intros [= <-]..|done].
  - destruct (collect _ d) as [[|? ?]|]; [by intros [= <-]..|done].
Qed.

Lemma parts_read {A} (f : A -> result bytes) (parse : bytes -> result (A * bytes)) l ps :
  Forall2 (fun x p => f x = Ok p) l ps ->
  (forall x p, x ∈ l -> p ∈ ps -> f x = Ok p -> reads parse p x) -> Forall2 (reads parse) ps l.
Proof.
  induction 1 as [|x p l ps Hx _ IH]; intros H; constructor.
  - apply H; [constructor..|done].
  - apply IH. intros y q Hy Hq. apply H; by constructor.
Qed.

Lemma list_reads indent level ps l n :
  Forall2 (reads (value n)) ps l -> reads (value (S n)) (bracket indent Byte.x5b Byte.x5d level ps) (VList l).
Proof.
  intros Hps. split; [by destruct ps; eexists _, _|]. intros rest Hrest.
  destruct (decide (ps = [])) as [->|Hne]; [by inversion Hps; subst|].
  destruct (bracket_reads (value n) Byte.x5b Byte.x5d 93 indent level ps l rest) as (b & -> & Hsolid & Hitems);
    [by left|done..|]. cbn -[items eat skip].
  rewrite eat_solid by (done || by left). by rewrite Hitems.
Qed.

Lemma dict_reads indent level ps d n :
  NoDup d.*1 -> Forall2 (reads (member (value n))) ps d ->
  reads (value (S n)) (bracket indent Byte.x7b Byte.x7d level ps) (VDict d).
Proof.
  intros Hd Hps. split; [by destruct ps; eexists _, _|]. intros rest Hrest.
  destruct (decide (ps = [])) as [->|Hne]; [by inversion Hps; subst|].
  destruct (bracket_reads (member (value n)) Byte.x7b Byte.x7d 125 indent level ps d rest)
    as (b & -> & Hsolid & Hitems); [by right|done..|]. cbn -[items eat skip].
  rewrite eat_solid by (done || by right). rewrite Hitems. cbn. by rewrite dict_of_nodup.
Qed.

Lemma dump_reads indent v level b n :
  json_doc v = true -> dump float_repr indent level v = Ok b -> (length b <= n)%nat -> reads (value n) b v.
Proof.
  revert level b n. induction v as [|x|z|m e|s|x|l IH|d IH] using pyval_rect'; intros level b n Hdoc Hb Hn.
  all: pose proof (dump_nonempty _ _ _ _ Hb); (destruct n as [|n]; [destruct b; [done|simpl in Hn; lia]|]).
  all: cbn in Hb, Hdoc.
  - injection Hb as <-. by split; [eexists _, _|].
  - destruct x; injection Hb as <-; by split; [eexists _, _|].
  - by apply int_reads.
  - injection Hb as <-. apply float_reads. by apply bool_decide_eq_true in Hdoc.
  - injection Hb as <-. by apply string_reads.
  - done.
  - destruct (collect _ l) as [ps|] eqn:Hps; [|done]. injection Hb as <-. apply collect_inv in Hps.
    rewrite forallb_forall in Hdoc. rewrite Forall_forall in IH.
    apply list_reads, (parts_read _ _ _ _ Hps). intros x p Hx Hp Hdump.
    pose proof (part_shorter Byte.x5b Byte.x5d indent level ps p Hp). eapply IH; [done| |done|lia].
    by apply Hdoc, list_elem_of_In.
  - destruct (collect _ d) as [ps|] eqn:Hps; [|done]. injection Hb as <-. apply collect_inv in Hps.
    apply andb_prop in Hdoc as [Hd Hdoc]. apply bool_decide_eq_true in Hd.
    rewrite forallb_forall in Hdoc. rewrite Forall_forall in IH.
    apply dict_reads, (parts_read _ _ _ _ Hps); [done|]. intros [k x] p Hx Hp Hdump.
    pose proof (part_shorter Byte.x7b Byte.x7d indent level ps p Hp) as Hlen.
    destruct (dump _ _ _ x) as [q|] eqn:Hq; [|done]. injection Hdump as <-.
    pose proof (Hdoc _ (proj1 (list_elem_of_In _ _) Hx)) as Hkx. apply andb_prop in Hkx as [Hk Hv].
    apply member_reads; [done|]. eapply (IH _ Hx); [done|done|]. cbn [length] in Hlen. rewrite length_app in Hlen.
    cbn [length] in Hlen. lia.
Qed.

Lemma loads_dumps indent v b :
  json_doc v = true -> dumps float_repr indent v = Ok b -> loads b = Ok v.
Proof.
  intros Hdoc Hb. destruct (dump_reads indent v 0 b (S (length b)) Hdoc Hb ltac:(lia)) as [Hsolid Hread].
  unfold Json.loads. rewrite skip_solid by done. specialize (Hread [] I). rewrite app_nil_r in Hread.
  rewrite Hread. done.
Qed.

(** ** As a codec *)

Lemma dec_ascii ds : Forall (fun x => is_dec x = true) ds -> ascii_only ds.
Proof. intros H. eapply Forall_impl; [exact H|]. intros x Hx. cbn in Hx. codes. Qed.

Lemma sign_ascii neg : ascii_only (sign neg).
Proof. destruct neg; by repeat constructor. Qed.

Lemma udigits_ascii u : ascii_only (udigits u).
Proof. apply dec_ascii, udigits_dec. Qed.

Lemma float_ascii m e : ascii_only (float_repr m e).
Proof.
  destruct (float_text m e) as (neg & u & frac & exp & _ & Hf & He & _ & ->).
  apply ascii_app; [apply sign_ascii|]. apply ascii_app; [apply udigits_ascii|]. apply ascii_app.
  - destruct Hf as [->|(ds & _ & Hds & ->)]; [constructor|]. constructor; [done|by apply dec_ascii].
  - destruct He as [->|(s & ds & _ & Hds & -> & Hs)]; [constructor|]. constructor; [done|].
    apply ascii_app; [|by apply dec_ascii]. destruct Hs as [->|[->| ->]]; by repeat constructor.
Qed.

Lemma ws_ascii ws : Forall (fun x => is_ws x = true) ws -> ascii_only ws.
Proof. intros H. eapply Forall_impl; [exact H|]. intros x Hx. cbn in Hx. codes. Qed.

Lemma bracket_ascii indent o c level ps :
  Z_of_byte o < 128 -> Z_of_byte c < 128 -> Forall ascii_only ps -> ascii_only (bracket indent o c level ps).
Proof.
  intros Ho Hc Hps. destruct Hps as [|p ps Hp Hps]; [by repeat constructor|]. unfold bracket.
  assert (ascii_only (separator indent (S level))) as Hsep.
  { destruct (separator_split indent (S level)) as (ws & -> & Hws). constructor; [done|by apply ws_ascii]. }
  constructor; [done|]. apply ascii_app; [apply ws_ascii, newline_ws|].
  apply ascii_app; [|apply ascii_app; [apply ws_ascii, newline_ws|by repeat constructor]].
  revert p Hp. induction Hps as [|q ps Hq _ IH]; intros p Hp; [done|].
  rewrite join_cons. apply ascii_app; [done|]. by apply ascii_app; [|apply IH].
Qed.

Lemma dump_ascii indent v level b :
  json_doc v = true -> dump float_repr indent level v = Ok b -> ascii_only b.
Proof.
  revert level b. induction v as [|x|z|m e|s|x|l IH|d IH] using pyval_rect'; intros level b Hdoc Hb.
  all: cbn [dump] in Hb; cbn [json_doc] in Hdoc.
  - injection Hb as <-. by repeat constructor.
  - destruct x; injection Hb as <-; by repeat constructor.
  - unfold int_repr in Hb. destruct (Z.to_int z); (case_match; [done|]); injection Hb as <-;
      [apply udigits_ascii|]. constructor; [done|apply udigits_ascii].
  - injection Hb as <-. apply float_ascii.
  - injection Hb as <-. by apply encode_string_ascii.
  - done.
  - destruct (collect _ l) as [ps|] eqn:Hps; [|done]. injection Hb as <-. apply collect_inv in Hps.
    apply bracket_ascii; [done|done|]. apply Forall_forall. intros p Hp.
    apply list_elem_of_lookup in Hp as [i Hi]. destruct (Forall2_lookup_r _ _ _ _ _ Hps Hi) as (x & Hx & Hdump).
    apply list_elem_of_lookup_2 in Hx. rewrite forallb_forall in Hdoc. rewrite Forall_forall in IH.
    eapply IH; [done| |done]. by apply Hdoc, list_elem_of_In.
  - destruct (collect _ d) as [ps|] eqn:Hps; [|done]. injection Hb as <-. apply collect_inv in Hps.
    apply andb_prop in Hdoc as [_ Hdoc]. apply bracket_ascii; [done|done|]. apply Forall_forall. intros p Hp.
    apply list_elem_of_lookup in Hp as [i Hi].
    destruct (Forall2_lookup_r _ _ _ _ _ Hps Hi) as ([k x] & Hx & Hdump).
    apply list_elem_of_lookup_2 in Hx. rewrite forallb_forall in Hdoc. rewrite Forall_forall in IH.
    pose proof (Hdoc _ (proj1 (list_elem_of_In _ _) Hx)) as Hkx. apply andb_prop in Hkx as [Hk Hv].
    destruct (dump _ _ _ x) as [q|] eqn:Hq; [|done]. cbn [result_bind] in Hdump.
    assert (p = encode_string k ++ text ": " ++ q) as -> by congruence.
    apply ascii_app; [by apply encode_string_ascii|]. apply ascii_app; [by repeat constructor|].
    by eapply (IH _ Hx).
Qed.

#[export] Instance json_codec_laws : CodecLaws (json_codec float_repr float_of) (fun v => json_doc v = true).
Proof.
  intros v b Hdoc Hb. cbn in Hb |- *.
  rewrite (ascii_valid b) by (by eapply dump_ascii). by eapply loads_dumps.
Qed.

(** What [dumps] writes, with indentation or without, is ASCII, and [loads]
    reads back exactly the value that was written. *)
Theorem json_roundtrip indent v b :
  json_doc v = true -> dumps float_repr indent v = Ok b -> ascii_only b /\ loads b = Ok v.
Proof. intros Hdoc Hb. split; [by eapply dump_ascii|by eapply loads_dumps]. Qed.

(** ** [loads] always returns *)

(** Each parser takes something off its input, and never stops for want of
    fuel: what it raises is [ValueError]. *)
Definition parses {A} (p : bytes -> result (A * bytes)) (b : bytes) : Prop :=
  match p b with
  | Ok (_, r) => (length r < length b)%nat
  | Err e => exn_cls e = ValueError
  end.

Lemma skip_length b : (length (skip b) <= length b)%nat.
Proof. induction b as [|x b IH]; cbn; [lia|]. destruct (is_ws x); simpl; lia. Qed.

Lemma eat_length x b r : eat x b = Some r -> (length r < length b)%nat.
Proof. destruct b as [|y b]; [done|]. cbn. case_match; [|done]. intros [= <-]. simpl. lia. Qed.

Lemma eat_text_length t b r : eat_text t b = Some r -> (length r + length t = length b)%nat.
Proof.
  revert b. induction t as [|x t IH]; intros b H; cbn in H; [injection H as <-; simpl; lia|].
  destruct b as [|y b]; [done|]. case_match; [|done]. apply IH in H. simpl. lia.
Qed.

Lemma prepend_cases p (r : result (bytes * bytes)) :
  match prepend p r with
  | Ok (_, rest) => exists s, r = Ok (s, rest)
  | Err e => r = Err e
  end.
Proof. destruct r as [[s rest]|e]; cbn; eauto. Qed.

Lemma scanstring_parses b : parses scanstring b.
Proof.
  remember (length b) as n eqn:Hn. revert b Hn. induction n as [n IH] using lt_wf_ind. intros b ->.
  assert (forall p b', (length b' < length b)%nat ->
    match prepend p (scanstring b') with
    | Ok (_, r) => (length r < length b)%nat | Err e => exn_cls e = ValueError end) as Hpre.
  { intros p b' Hlt. specialize (IH _ Hlt b' eq_refl). unfold parses in IH.
    pose proof (prepend_cases p (scanstring b')) as H.
    destruct (prepend p (scanstring b')) as [[s r]|e].
    - destruct H as [s' H]. rewrite H in IH. lia.
    - by rewrite H in IH. }
  unfold parses. destruct b as [|x b]; [done|]. cbn [scanstring].
  cbv zeta. repeat match goal with
  | |- match prepend _ _ with _ => _ end => apply Hpre; simpl; lia
  | |- match bad with _ => _ end => done
  | |- match Ok _ with _ => _ end => simpl; lia
  | |- match (match ?c with _ => _ end) with _ => _ end => destruct c
  end.
  simpl. lia.
Qed.

Lemma span_digits_length b : (length (span_digits b).2 <= length b)%nat.
Proof.
  induction b as [|x b IH]; [done|]. cbn. destruct (is_dec x); [|done].
  destruct (span_digits b). simpl in *. lia.
Qed.

Lemma integer_part_length b neg ds r : integer_part b = Some (neg, ds, r) -> (length r < length b)%nat.
Proof.
  unfold integer_part. destruct (match eat 45 b with Some b' => (true, b') | None => (false, b) end) as [neg' b'] eqn:Hb.
  assert (length b' <= length b)%nat as Hle.
  { destruct (eat 45 b) as [b''|] eqn:He; simplify_eq; [apply eat_length in He; lia|done]. }
  destruct b' as [|x b']; [done|]. clear Hb. simpl in Hle.
  destruct (isb 48 x); [intros Heq; inversion Heq; subst; lia|].
  destruct (is_dec x) eqn:Hx; [|done]. cbn [span_digits]. rewrite Hx. pose proof (span_digits_length b') as Hs.
  destruct (span_digits b') as [ds' r']. intros Heq. inversion Heq. subst. simpl in *. lia.
Qed.

Lemma fraction_length b : (length (fraction b).2 <= length b)%nat.
Proof.
  unfold fraction. destruct (eat 46 b) as [b'|] eqn:He; [|done]. apply eat_length in He.
  pose proof (span_digits_length b'). destruct (span_digits b') as [[|d ds] r]; simpl in *; lia.
Qed.

Lemma exponent_length b : (length (exponent b).2 <= length b)%nat.
Proof.
  destruct b as [|e b]; [done|]. cbn [exponent]. case_match; [|done].
  destruct (match b with
    | [] => ([], []) | s :: r => if isb 43 s || isb 45 s then ([s], r) else ([], b) end) as [sg b'] eqn:Hb.
  assert (length b' <= length b)%nat as Hle.
  { destruct b as [|s b]; [by simplify_eq|]. case_match; simplify_eq; simpl; lia. }
  pose proof (span_digits_length b'). destruct (span_digits b') as [[|d ds] r]; simpl in *; lia.
Qed.

Lemma number_parses b : parses (number float_of) b.
Proof.
  unfold parses, number. destruct (integer_part b) as [[[neg ds] r]|] eqn:Hi; [|done].
  apply integer_part_length in Hi. pose proof (fraction_length r) as Hf. destruct (fraction r) as [frac r'].
  pose proof (exponent_length r') as He. destruct (exponent r') as [exp r'']. simpl in *.
  destruct (decide _); [destruct (_ <? _)|]; cbn; lia || done.
Qed.

Lemma atom_parses b : parses (atom float_of) b.
Proof.
  unfold parses, atom.
  repeat match goal with |- context [eat_text (text ?s) b] =>
    let He := fresh "He" in
    destruct (eat_text (text s) b) eqn:He;
      [apply eat_text_length in He; change (length (text s)) with (S (pred (length (text s)))) in He; lia|clear He] end.
  apply number_parses.
Qed.

Lemma items_parses {A} (p : bytes -> result (A * bytes)) close b n :
  (forall b', (length b' <= length b)%nat -> parses p b') -> (length b < n)%nat -> parses (items p close n) b.
Proof.
  revert b. induction n as [|n IH]; intros b Hp Hn; [lia|]. unfold parses. cbn [items].
  pose proof (Hp b ltac:(lia)) as Hb. unfold parses in Hb. destruct (p b) as [[v r]|e]; [|done]. cbn [result_bind].
  pose proof (skip_length r) as Hs. destruct (eat close (skip r)) as [r'|] eqn:He.
  { apply eat_length in He. lia. }
  destruct (eat 44 (skip r)) as [r'|] eqn:Hc; [|done]. apply eat_length in Hc. pose proof (skip_length r') as Hs'.
  assert (parses (items p close n) (skip r')) as Hrest.
  { apply IH; [|lia]. intros b' Hle. apply Hp. lia. }
  unfold parses in Hrest. destruct (items p close n (skip r')) as [[vs r'']|e]; cbn [result_bind]; [lia|done].
Qed.

Lemma member_parses p b :
  (forall b', (length b' < length b)%nat -> parses p b') -> parses (member p) b.
Proof.
  intros Hp. unfold parses, member. destruct (eat 34 b) as [b1|] eqn:He; [|done]. apply eat_length in He.
  pose proof (scanstring_parses b1) as Hk. unfold parses in Hk.
  destruct (scanstring b1) as [[k b2]|e]; [|done]. cbn [result_bind]. pose proof (skip_length b2).
  destruct (eat 58 (skip b2)) as [b3|] eqn:Hc; [|done]. apply eat_length in Hc. pose proof (skip_length b3).
  pose proof (Hp (skip b3) ltac:(lia)) as Hv. unfold parses in Hv.
  destruct (p (skip b3)) as [[v r]|e]; [|done]. cbn [result_bind]. lia.
Qed.

Lemma value_parses n b : (length b < n)%nat -> parses (value n) b.
Proof.
  revert b. induction n as [|n IH]; intros b Hn; [lia|]. unfold parses. cbn [Json.value].
  destruct b as [|x b]; [done|]. simpl in Hn. pose proof (skip_length b) as Hs.
  destruct (isb 34 x).
  { pose proof (scanstring_parses b) as H'. unfold parses in H'. destruct (scanstring b) as [[s r]|e]; [|done].
    simpl. lia. }
  destruct (isb 91 x); [|destruct (isb 123 x)]; [..|apply atom_parses].
  - destruct (eat 93 (skip b)) as [r|] eqn:He; [apply eat_length in He; simpl; lia|].
    assert (parses (items (value n) 93 (S (length (skip b)))) (skip b)) as H'.
    { apply items_parses; [|lia]. intros b' Hle. apply IH. lia. }
    unfold parses in H'. destruct (items _ _ _ _) as [[vs r]|e]; [|done]. simpl. lia.
  - destruct (eat 125 (skip b)) as [r|] eqn:He; [apply eat_length in He; simpl; lia|].
    assert (parses (items (member (value n)) 125 (S (length (skip b)))) (skip b)) as H'.
    { apply items_parses; [|lia]. intros b' Hle. apply member_parses. intros b'' Hlt. apply IH. lia. }
    unfold parses in H'. destruct (items _ _ _ _) as [[vs r]|e]; [|done]. simpl. lia.
Qed.

(** Whatever the bytes, [loads] has fuel enough: it returns a value or raises
    [ValueError] (of which [JSONDecodeError] and [UnicodeDecodeError] are
    subclasses); the recursion limit is left out. *)
Theorem loads_returns raw :
  match c_dec (json_codec float_repr float_of) raw with
  | Ok _ => True
  | Err e => exn_cls e = ValueError
  end.
Proof.
  cbn. destruct (utf8_valid raw); [|done]. unfold Json.loads. pose proof (skip_length raw).
  pose proof (value_parses (S (length raw)) (skip raw) ltac:(lia)) as Hv. unfold parses in Hv.
  destruct (value _ _) as [[v r]|e]; [|done]. cbn. by destruct (skip r).
Qed.
End text.

(** ** Witnesses *)

(** The text of the float 1.5. *)
Definition plain_repr (m e : Z) : bytes := text "1.5".
Definition plain_of (b : bytes) : pyval := VFloat 3 (-1).

#[export] Instance plain_text : FloatText plain_repr.
Proof.
  intros m e. exists false, (Decimal.D1 Decimal.Nil), (text ".5"), []. split_and!; [|..|by left|done|done].
  - right. by eexists _, _.
  - right. exists [Byte.x35]. split_and!; [done|by repeat constructor|done].
Qed.

(** Control characters, a quotation mark, a backslash, characters of two, three
    and four bytes, nested and empty containers. *)
Definition sample_doc : pyval :=
  VDict [("a", VList [VInt 0; VInt (-120); VNone; VBool true; VBool false; VFloat 3 (-1)]);
         ("é€😀", VDict []); ("c", VList []); ("d", VList [VList [VInt 5]; VDict [("k", VStr "v")]]);
         ("e", VStr (str [Byte.x22; Byte.x5c; Byte.x0a; Byte.x01; Byte.x7f]))].

Lemma json_roundtrip_witness :
  exists b, dumps plain_repr (Some 2%nat) sample_doc = Ok b /\ ascii_only b /\ loads plain_of b = Ok sample_doc.
Proof.
  exists (match dumps plain_repr (Some 2%nat) sample_doc with Ok b => b | Err _ => [] end).
  split; [vm_compute; reflexivity|].
  apply (json_roundtrip plain_repr plain_of (Some 2%nat) sample_doc); vm_compute; reflexivity.
Defined.

(** What [loads] refuses: a leading zero, a trailing comma, a control character
    in a string, text after the value, bytes that are not UTF-8. *)
Example loads_refuses :
  loads plain_of (text "[01]") = bad /\ loads plain_of (text "[1,]") = bad /\
  loads plain_of [Byte.x22; Byte.x0a; Byte.x22] = bad /\ loads plain_of (text "1 2") = bad /\
  c_dec (json_codec plain_repr plain_of) [Byte.x22; Byte.xff; Byte.x22] = bad.
Proof. by vm_compute. Qed.

(** What it accepts: white space anywhere, a repeated key, lone and paired
    surrogates. *)
Example loads_accepts :
  loads plain_of (text " { } ") = Ok (VDict []) /\
  loads plain_of ([Byte.x7b] ++ encode_string "a" ++ text " :1 , " ++ encode_string "a" ++ text ":-0}")
    = Ok (VDict [("a", VInt 0)]) /\
  loads plain_of ([Byte.x22] ++ text "\ud83d\ude00" ++ [Byte.x22]) = Ok (VStr "😀") /\
  loads plain_of ([Byte.x22] ++ text "\ud83d!" ++ [Byte.x22])
    = Ok (VStr (str [Byte.xed; Byte.xa0; Byte.xbd; Byte.x21])).
Proof. by vm_compute. Qed.
