(* ===== verification/TrustDisk.v ===== *)
(** * The trust store's file ([TrustStore] of [memnode/peers.py])

    [_load] and [_save] down to the text on disk: the document is written with
    [json.dumps(payload, indent=2)] to a side file, which then replaces the trust
    file, and is read back with [json.loads(path.read_text())].  [Trust] models
    the same store with the document in place of the text; here the two are
    shown to agree, and what survives a restart or a crash is a fact about the
    two files.  The directory exists and writing does not fail; a crash can leave
    any part of what was being written.  Text on disk is UTF-8. *)
From S2P Require Import Prelude Config PyVal Protocol Utf8 Json JsonSpec Trust.

(** ** Files *)

(** The trust file and its side file ([path.with_suffix(".tmp")]). *)
Record disk := Disk { d_path : option bytes; d_tmp : option bytes }.

Inductive fs_op :=
  | WriteText (b : bytes)              (* tmp.write_text(b) *)
  | Replace.                           (* tmp.replace(path) *)

Definition fs_run (op : fs_op) : M disk unit := fun d =>
  match op with
  | WriteText b => (Disk (d_path d) (Some b), Ok tt)
  | Replace =>
      match d_tmp d with
      | Some b => (Disk (Some b) None, Ok tt)
      | None => (d, Err (lib_exn OSError))
      end
  end.

Fixpoint fs_runs (ops : list fs_op) : M disk unit :=
  match ops with
  | [] => mret tt
  | op :: ops => fs_run op;;; fs_runs ops
  end.

(** What a crash in the middle of an operation can leave: a file that is being
    written holds some part of the text; a replacement is done or not. *)
Definition fs_torn (op : fs_op) (d d' : disk) : Prop :=
  d' = d \/
  match op with
  | WriteText b => exists n, d' = Disk (d_path d) (Some (take n b))
  | Replace => d' = state_after (fs_run op) d
  end.

Fixpoint fs_crash (ops : list fs_op) (d d' : disk) : Prop :=
  match ops with
  | [] => d' = d
  | op :: ops => fs_torn op d d' \/ fs_crash ops (state_after (fs_run op) d) d'
  end.

(** ** The store on disk *)

Record DiskStore := DStore { ds_peers : list (string * pydict); ds_disk : disk }.

Section store.
Context (float_repr : Z -> Z -> bytes) `{!FloatText float_repr} (float_of : bytes -> pyval).
Abbreviation json_doc := (json_doc float_repr float_of).

(** [json.dumps(payload, indent=2)] *)
Definition file_text (peers : list (string * pydict)) : result bytes := dumps float_repr (Some 2%nat) (payload peers).

Definition save_ops (raw : bytes) : list fs_op := [WriteText raw; Replace].

Definition disk_save : M DiskStore unit := fun s =>
  match file_text (ds_peers s) with
  | Err e => (s, Err e)
  | Ok raw => let '(d, r) := fs_runs (save_ops raw) (ds_disk s) in (DStore (ds_peers s) d, r)
  end.

(** [json.loads(self.path.read_text())]; text that is not UTF-8 raises
    [UnicodeDecodeError], a [ValueError] like [JSONDecodeError]. *)
Definition undecodable : exn := Exn ValueError "invalid utf-8".

Definition read_doc (raw : bytes) : result pyval :=
  if utf8_valid raw then loads float_of raw else Err undecodable.

(** [__init__]: [_load] starts afresh on [JSONDecodeError] only. *)
Definition TrustStore_init (now : pyval) (d : disk) : result DiskStore :=
  match d_path d with
  | None => Ok (DStore [] d)
  | Some raw =>
      match read_doc raw with
      | Err e => if decide (e = lib_exn ValueError) then Ok (DStore [] d) else Err e
      | Ok (VDict doc) =>
          if eq_int (default VNone (dget "version" doc)) Config.TRUST_STORE_VERSION then
            match default (VDict []) (dget "peers" doc) with
            | VDict peers => Ok (DStore (dict_entries peers) d)
            | _ => Err (lib_exn AttributeError)
            end
          else
            match disk_save (DStore (migrate now doc) d) with
            | (s, Ok _) => Ok s
            | (_, Err e) => Err e
            end
      | Ok _ => Ok (DStore [] d)
      end
  end.

Definition disk_trust (now : pyval) (key : string) (name : pyval) (verified : bool) (method : string)
    (addr : option string) : M DiskStore unit := fun s =>
  let '(e, r) := trust_entry now key name verified method addr (ds_peers s) in
  let s := DStore (dset key e (ds_peers s)) (ds_disk s) in
  match r with
  | Ok _ => disk_save s
  | Err ex => (s, Err ex)
  end.

Definition disk_mark_verified (key : string) (method : pyval) : M DiskStore bool := fun s =>
  match dget key (ds_peers s) with
  | None => (s, Ok false)
  | Some e => (disk_save;;; mret true) (DStore (dset key (verified_entry method e) (ds_peers s)) (ds_disk s))
  end.

Definition disk_revoke (key : string) : M DiskStore bool := fun s =>
  match dget key (ds_peers s) with
  | None => (s, Ok false)
  | Some _ => (disk_save;;; mret true) (DStore (ddel key (ds_peers s)) (ds_disk s))
  end.

(** A request; [true] when it was carried out. *)
Definition disk_serve (r : request) : M DiskStore bool :=
  match r with
  | RTrust now key name verified method addr => disk_trust now key name verified method addr;;; mret true
  | RMark key method => disk_mark_verified key method
  | RRevoke key => disk_revoke key
  end.

(** ** Saving *)

Lemma save_ops_run raw d : fs_runs (save_ops raw) d = (Disk (Some raw) None, Ok tt).
Proof. done. Qed.

Lemma disk_save_inv s s' :
  disk_save s = (s', Ok tt) ->
  exists raw, file_text (ds_peers s) = Ok raw /\ s' = DStore (ds_peers s) (Disk (Some raw) None).
Proof.
  unfold disk_save. destruct (file_text _) as [raw|e]; [|done]. rewrite save_ops_run. intros [= <-]. by exists raw.
Qed.

(** The text of a store is read as its document. *)
Lemma file_text_read peers raw :
  json_doc (payload peers) = true -> file_text peers = Ok raw -> read_doc raw = Ok (payload peers).
Proof.
  intros Hdoc Hraw. unfold read_doc. rewrite (ascii_valid raw) by (by eapply dump_ascii).
  by eapply (loads_dumps float_repr float_of).
Qed.

(** A trust file that holds these entries. *)
Definition holds (peers : list (string * pydict)) (d : disk) : Prop :=
  exists raw, d_path d = Some raw /\ file_text peers = Ok raw.

Lemma holds_load now peers d :
  json_doc (payload peers) = true -> holds peers d -> TrustStore_init now d = Ok (DStore peers d).
Proof.
  intros Hdoc (raw & Hp & Hraw). unfold TrustStore_init. rewrite Hp, (file_text_read peers) by done. unfold payload.
  rewrite dget_version, dget_peers. cbn [default from_option id eq_int]. by rewrite Z.eqb_refl, dict_entries_payload.
Qed.

(** A crash while a store is saved: the trust file is the old one or the new. *)
Lemma crash_holds peers raw d d' :
  file_text peers = Ok raw -> fs_crash (save_ops raw) d d' -> d_path d' = d_path d \/ holds peers d'.
Proof.
  intros Hraw [Hw|[Hr|Hend]].
  - left. by destruct Hw as [->|[n ->]].
  - destruct Hr as [->| ->]; [by left|right]. by exists raw.
  - cbn in Hend. subst d'. right. by exists raw.
Qed.

(** What a request writes, if it gets to write. *)
Definition request_peers (r : request) (peers : list (string * pydict)) : option (list (string * pydict)) :=
  match r with
  | RTrust now key name verified method addr =>
      let '(e, res) := trust_entry now key name verified method addr peers in
      match res with Ok _ => Some (dset key e peers) | Err _ => None end
  | RMark key method =>
      match dget key peers with Some e => Some (dset key (verified_entry method e) peers) | None => None end
  | RRevoke key => match dget key peers with Some _ => Some (ddel key peers) | None => None end
  end.

Lemma disk_serve_saves r s s' :
  disk_serve r s = (s', Ok true) ->
  exists raw, request_peers r (ds_peers s) = Some (ds_peers s') /\ file_text (ds_peers s') = Ok raw /\
    ds_disk s' = Disk (Some raw) None.
Proof.
  assert (forall p d, ((disk_save;;; mret true) (DStore p d)) = (s', Ok true) ->
    exists raw, Some p = Some (ds_peers s') /\ file_text (ds_peers s') = Ok raw /\ ds_disk s' = Disk (Some raw) None) as Hs.
  { intros p d. unfold mbind_m. destruct (disk_save (DStore p d)) as [s1 [[]|e]] eqn:Hs; [|done]. intros [= <-].
    apply disk_save_inv in Hs as (raw & Hraw & ->). by exists raw. }
  destruct r as [now k name verified method addr|k method|k]; cbn [disk_serve request_peers].
  - unfold mbind_m, disk_trust. destruct (trust_entry _ _ _ _ _ _ _) as [e [[]|ex]]; [|done]. apply Hs.
  - unfold disk_mark_verified. destruct (dget k (ds_peers s)) as [e|]; [|done]. apply Hs.
  - unfold disk_revoke. destruct (dget k (ds_peers s)) as [e|]; [|done]. apply Hs.
Qed.

(** ** The theorems *)

(** C33: what a successful request leaves survives a restart, and a crash never
    loses what was there.  After a trust, a verification or a revocation that
    was carried out, a store started from the text on disk has exactly the
    entries in memory; and whatever point of the save a crash hits, however
    little of the side file was written, a store started from what is on disk
    has exactly the entries before the request, if the file held them, or those
    after it.  The entries are such as JSON represents (text in UTF-8, floats
    that their text stands for). *)
Theorem trust_survives_restart r s s' now :
  disk_serve r s = (s', Ok true) -> json_doc (payload (ds_peers s')) = true ->
  TrustStore_init now (ds_disk s') = Ok s' /\
  (holds (ds_peers s) (ds_disk s) -> json_doc (payload (ds_peers s)) = true ->
   exists raw, file_text (ds_peers s') = Ok raw /\
   forall d, fs_crash (save_ops raw) (ds_disk s) d ->
     TrustStore_init now d = Ok (DStore (ds_peers s) d) \/ TrustStore_init now d = Ok (DStore (ds_peers s') d)).
Proof.
  intros (raw & _ & Hraw & Hd)%disk_serve_saves Hdoc. split.
  - destruct s' as [p d]. apply holds_load; [done|]. exists raw. cbn in *. by rewrite Hd.
  - intros (raw0 & Hp0 & Hraw0) Hdoc0. exists raw. split; [done|]. intros d Hc.
    destruct (crash_holds _ _ _ _ Hraw Hc) as [Hp|Hh]; [left|right]; apply holds_load; try done.
    exists raw0. by rewrite Hp.
Qed.

(** ** Text and documents *)

(** What [dumps] makes of a value: [json_ok] is whether it takes it, an integer
    past the interpreter's limit apart. *)
Lemma json_ok_dumps indent v level :
  match dump float_repr indent level v with
  | Ok _ => json_ok v = true
  | Err e => e = lib_exn ValueError \/ e = lib_exn TypeError /\ json_ok v = false
  end.
Proof.
  revert level. induction v as [|[]|z|m e|s|x|l IH|d IH] using pyval_rect'; intros level; cbn [dump json_ok]; try done.
  - unfold int_repr. destruct (Z.to_int z); cbn; destruct (_ <? _); auto.
  - by right.
  - assert (match collect (dump float_repr indent (S level)) l with
      | Ok _ => json_ok (VList l) = true
      | Err e => e = lib_exn ValueError \/ e = lib_exn TypeError /\ json_ok (VList l) = false end) as H.
    { induction IH as [|x l Hx _ IHl]; [done|]. cbn -[dump] in *. specialize (Hx (S level)).
      destruct (dump _ _ _ x); cbn [result_bind].
      - rewrite Hx. destruct (collect _ l); cbn [result_bind andb]; done.
      - destruct Hx as [?|[? ->]]; auto. }
    by destruct (collect _ l).
  - set (f := fun kv : String.string * pyval => _).
    assert (match collect f d with
      | Ok _ => json_ok (VDict d) = true
      | Err e => e = lib_exn ValueError \/ e = lib_exn TypeError /\ json_ok (VDict d) = false end) as H.
    { induction IH as [|[k x] d Hx _ IHd]; [done|]. cbn -[dump f] in *. specialize (Hx (S level)).
      unfold f at 1. destruct (dump _ _ _ x); cbn [result_bind].
      - rewrite Hx. destruct (collect f d); cbn [result_bind andb]; done.
      - destruct Hx as [?|[? ->]]; auto. }
    by destruct (collect f d).
Qed.

(** The document in a file. *)
Definition file_doc (f : option bytes) : file_state :=
  match f with
  | None => NoFile
  | Some raw => match read_doc raw with Ok v => Doc v | Err _ => Unreadable end
  end.

Definition doc_store (s : DiskStore) : TrustStore := Store (ds_peers s) (file_doc (d_path (ds_disk s))).

(** Entries whose text fits the interpreter's limits. *)
Definition writable (peers : list (string * pydict)) : Prop :=
  json_doc (payload peers) = true /\ file_text peers <> Err (lib_exn ValueError).

Lemma disk_save_doc s :
  writable (ds_peers s) ->
  _save (doc_store s) = (doc_store (state_after disk_save s), outcome disk_save s).
Proof.
  intros [Hdoc Hlim]. unfold _save, state_after, outcome, disk_save, doc_store. cbn [ts_peers].
  pose proof (json_ok_dumps (Some 2%nat) (payload (ds_peers s)) 0) as Hd. unfold file_text, dumps in *.
  destruct (dump _ _ _ _) as [raw|e] eqn:Hraw.
  - rewrite Hd, save_ops_run. cbn [fst snd ds_peers ds_disk d_path file_doc]. by rewrite (file_text_read (ds_peers s)).
  - destruct Hd as [->|[-> ->]]; [done|]. done.
Qed.

Definition doc_serve (r : request) : M TrustStore bool :=
  match r with
  | RTrust now key name verified method addr => trust now key name verified method addr;;; mret true
  | RMark key method => mark_verified key method
  | RRevoke key => revoke key
  end.


(** Starting from a file that was not torn is loading its document. *)
Lemma init_refines now d s :
  TrustStore_init now d = Ok s ->
  (forall doc, file_doc (d_path d) = Doc (VDict doc) -> writable (migrate now doc)) ->
  _load now (file_doc (d_path d)) = Ok (doc_store s).
Proof.
  unfold TrustStore_init, file_doc. destruct (d_path d) as [raw|] eqn:Hp.
  2:{ intros [= <-] _. unfold doc_store. cbn. by rewrite Hp. }
  assert (forall p, doc_store (DStore p d) = Store p (match read_doc raw with Ok v => Doc v | Err _ => Unreadable end)) as Hst
    by (intros p; unfold doc_store; cbn; by rewrite Hp).
  destruct (read_doc raw) as [v|e].
  2:{ case_decide; [|done]. intros [= <-] _. by rewrite Hst. }
  destruct v as [| | | | | | |doc]; try by intros [= <-] _; rewrite Hst. cbn [_load].
  destruct (eq_int _ _); [destruct (default _ _); try done; intros [= <-] _; by rewrite Hst|].
  intros Hs Hw. pose proof (disk_save_doc (DStore (migrate now doc) d) (Hw doc eq_refl)) as Hd. rewrite Hst in Hd.
  rewrite Hd. unfold state_after, outcome. destruct (disk_save _) as [s1 [[]|e]]; [|done]. by injection Hs as <-.
Qed.

(** A trust file that is not text stops the node from starting: only
    [JSONDecodeError] and [OSError] are caught, and [UnicodeDecodeError] is
    neither, nor is what [int] raises on too many digits. *)
Theorem undecodable_trust_file_raises now raw tmp :
  utf8_valid raw = false -> TrustStore_init now (Disk (Some raw) tmp) = Err undecodable.
Proof. intros Hu. unfold TrustStore_init, read_doc. cbn [d_path]. by rewrite Hu, decide_False. Qed.
End store.

(** ** Witnesses *)

Definition no_disk : disk := Disk None None.

(** A store with one peer saved, while a second is added. *)
Definition one_peer : DiskStore :=
  state_after (disk_serve plain_repr (RTrust (VFloat 3 (-1)) "ab12" (VStr "laptop") true "sas" (Some "10.0.0.5:9000")))
    (DStore [] no_disk).
Definition second_req : request := RTrust (VFloat 3 (-1)) "cd34" (VStr "phone") false "tofu" None.
Definition two_peers : DiskStore := state_after (disk_serve plain_repr second_req) one_peer.
Definition torn : disk := Disk (d_path (ds_disk one_peer)) (Some (text "{")).

Lemma trust_survives_restart_witness :
  TrustStore_init plain_repr plain_of noon (ds_disk two_peers) = Ok two_peers /\
  (TrustStore_init plain_repr plain_of noon torn = Ok (DStore (ds_peers one_peer) torn) \/
   TrustStore_init plain_repr plain_of noon torn = Ok (DStore (ds_peers two_peers) torn)).
Proof.
  destruct (trust_survives_restart plain_repr plain_of second_req one_peer two_peers noon) as [Hr Hc].
  - by vm_compute.
  - by vm_compute.
  - split; [exact Hr|]. destruct Hc as (raw & Hraw & Hc).
    + exists (default [] (d_path (ds_disk one_peer))). split; by vm_compute.
    + by vm_compute.
    + apply Hc. left. right. exists 1%nat. unfold torn. f_equal. f_equal.
      assert (match file_text plain_repr (ds_peers two_peers) with Ok r => take 1 r | Err _ => [] end = text "{") as Ht by by vm_compute.
      by rewrite Hraw in Ht.
Defined.


Lemma undecodable_trust_file_raises_witness :
  TrustStore_init plain_repr plain_of noon (Disk (Some [Byte.xff]) None) = Err undecodable.
Proof. apply undecodable_trust_file_raises. by vm_compute. Defined.
