(* ===== verification/RpcClient.v ===== *)
(** * The command-line client ([memnode/cli.py])

    One call over a connection (frames, authentication, codec negotiation,
    the translation between the two codecs), and the commands on top of it:
    the request each builds, what it prints and its exit code.

    The probe for a challenge ends in one of two ways: a frame (or the end of
    the stream) arrived in time, or the wait was cancelled, possibly with the
    length prefix already taken from the stream. *)
From S2P Require Import Prelude Config PyVal Protocol Channel Handshake RpcAuth Utf8.

Definition AUTH_PROBE_TIMEOUT : Z := 2 * 1000000.

(** ** The token *)

(** [TOKEN_DIR / config.RPC_TOKEN_FILENAME] *)
Definition default_token_path (home : string) : string :=
  home +:+ "/.memcloud/" +:+ Config.RPC_TOKEN_FILENAME.

(** [files path]: [Ok None] when there is no such file, its text otherwise. *)
Definition _resolve_token (home : string) (files : string -> result (option string))
    (explicit token_file : option string) : result (option string) :=
  let given (o : option string) := match o with Some s => negb (bool_decide (s = "")) | None => false end in
  if given explicit then Ok explicit
  else
    let path := if given token_file then default "" token_file else default_token_path home in
    match files path with
    | Ok (Some text) =>
        let value := strip_by is_blank text in
        Ok (if decide (value = "") then None else Some value)
    | Ok None => Ok None
    | Err e => if decide (exn_cls e = OSError) then Ok None else Err e
    end.

(** ** Frames *)

Section frames.
Context (c : codec).

(** [_read_frame] and [_read_binary_frame], which differ in the codec. *)
Definition _read_frame : M reader pyval :=
  len_bytes <- readexactly 4;;
  let length := unpack_be len_bytes in
  if Config.MAX_RPC_MESSAGE_SIZE <? length
  then mraise (Exn ValueError ("server sent an oversized frame (" +:+ pretty length +:+ " bytes)"))
  else
    raw <- readexactly length;;
    mlift (c_dec c raw).

(** [_write_frame] and [_write_binary_frame] *)
Definition _write_frame (obj : pyval) : M writer unit :=
  raw <- mlift (c_enc c obj);;
  prefix <- mlift (pack_be 4 (len raw));;
  write_and_drain (prefix ++ raw).
End frames.

(** ** Between the codecs *)

Definition _to_binary_request (req : pydict) : result pydict :=
  match dget "data_hex" req with
  | None => Ok req
  | Some (VStr s) =>
      let? b := bytes_fromhex s in
      Ok (dset "data" (VBytes b) (ddel "data_hex" req))
  | Some _ => Err (lib_exn TypeError)
  end.

Definition _normalise_response (resp : pyval) : result pyval :=
  let? data := vget "data" resp in
  match data, resp with
  | VBytes b, VDict d => Ok (VDict (ddel "data" (dset "data_hex" (VStr (bytes_hex b)) d)))
  | _, _ => Ok resp
  end.

(** ** One call *)

Inductive probe := Arrived | Late (prefix_taken : bool).

Section call.
Context (hmac_sha256 : bytes -> bytes -> bytes) (json msgpack : codec) (py_str : pyval -> string).

(** [rpcauth.compute_response] on a challenge of any type: only text has
    [encode]. *)
Definition response_to (token : string) (challenge : pyval) : result string :=
  match challenge with
  | VStr s => compute_response hmac_sha256 token s
  | _ => Err (lib_exn AttributeError)
  end.

Definition _authenticate (token : option string) (p : probe) : M conn unit :=
  match token with
  | None => mret tt
  | Some token =>
      match p with
      | Late taken => if taken : bool then conn_read (readexactly 4);;; mret tt else mret tt
      | Arrived =>
          first <- conn_read (_read_frame json);;
          kind <- mlift (vget "memnode_auth" first);;
          if negb (bool_decide (kind = VStr "challenge")) then
            mraise (Exn RuntimeError ("unexpected greeting from daemon: " +:+ py_str first))
          else
            challenge <- mlift (vindex "challenge" first);;
            response <- mlift (response_to token challenge);;
            conn_write (_write_frame json (VDict [("response", VStr response)]));;;
            result <- conn_read (_read_frame json);;
            ok <- mlift (vget "ok" result);;
            if truthy ok then mret tt
            else
              error <- mlift (vget_default "error" (VStr "unknown error") result);;
              mraise (Exn PermissionError ("RPC authentication failed: " +:+ py_str error +:+
                ". Check that this client is reading the same token file the daemon wrote."))
      end
  end.

(** [_call] once the connection is open. *)
Definition _call (p : probe) (token : option string) (binary : bool) (req : pydict) : M conn pyval :=
  _authenticate token p;;;
  resp <-
    (if binary then
       conn_write (write_and_drain Config.RPC_MSGPACK_MAGIC);;;
       ack <- conn_read (_read_frame msgpack);;
       ok <- mlift (vget "ok" ack);;
       if truthy ok then
         q <- mlift (_to_binary_request req);;
         conn_write (_write_frame msgpack (VDict q));;;
         r <- conn_read (_read_frame msgpack);;
         mlift (_normalise_response r)
       else mraise (Exn RuntimeError ("server refused binary framing: " +:+ py_str ack))
     else
       conn_write (_write_frame json (VDict req));;;
       conn_read (_read_frame json));;
  mmodify conn_close;;;
  mret resp.
End call.
