(* ===== verification/Cli.v ===== *)
(** * The commands of the command-line client ([_run] and [main] of
    [memnode/cli.py])

    A command is the parsed arguments of its sub-parser; [rpc] is [_call] as a
    computation in the world [S] it acts on; what is printed is recorded.
    [dumps] is [json.dumps(resp, indent=2)]. *)
From S2P Require Import Prelude Config PyVal RpcAuth Channel Utf8 RpcClient.

(** ** Arguments *)

Inductive command :=
  | OpStore (text hex key : option string) (durability : string)
  | OpLoad (key : option string) (block_id : option Z) (as_text : bool)
  | OpRemoteStore (peer : string) (text hex key : option string) (durability : string)
  | OpRemoteLoad (peer : string) (key : option string) (block_id : option Z) (as_text : bool)
  | OpFree (block_id : Z)
  | OpStats
  | OpPeers
  | OpConnect (peer_host : string) (peer_port : Z)
  | OpTrusted
  | OpPair (peer : string) (qr : bool)
  | OpVerify (peer method : string)
  | OpRevoke (peer pubkey : option string)
  | OpUnknown (op : string).

Record Namespace := Args {
  a_host : string;
  a_port : Z;
  a_token : option string;
  a_token_file : option string;
  a_json : bool;
  a_op : command
}.

(** The options left at their defaults. *)
Definition default_args (op : command) : Namespace :=
  Args "127.0.0.1" Config.RPC_TCP_PORT None None false op.

(** What the argument parser lets through: one of [--text] and [--hex], the
    declared choices, the declared commands. *)
Definition one_of {A} (x y : option A) : bool :=
  match x, y with Some _, None | None, Some _ => true | _, _ => false end.

Definition parsed (c : command) : bool :=
  match c with
  | OpStore text hex _ d | OpRemoteStore _ text hex _ d =>
      one_of text hex && bool_decide (d ∈ ["pinned"; "cache"])
  | OpVerify _ m => bool_decide (m ∈ ["sas"; "qr"; "manual"])
  | OpUnknown _ => false
  | _ => true
  end.

(** ** The console *)

Record console := Console { co_out : list string; co_err : list string }.

Section run.
Context {S : Type} (py_str : pyval -> string) (dumps : pyval -> result string).

Abbreviation MC := (M (console * S)).

Definition print (line : string) : MC unit :=
  mmodify (fun st => (Console (co_out st.1 ++ [line]) (co_err st.1), st.2)).
Definition print_err (line : string) : MC unit :=
  mmodify (fun st => (Console (co_out st.1) (co_err st.1 ++ [line]), st.2)).

Definition in_world {A} (m : M S A) : MC A := fun st =>
  let '(s, r) := m st.2 in ((st.1, s), r).

(** ** Requests *)

(** [if args.key: req["key"] = args.key] *)
Definition given (o : option string) : option string :=
  match o with Some s => if decide (s = "") then None else Some s | None => None end.

Definition key_part (key : option string) : pydict :=
  match given key with Some k => [("key", VStr k)] | None => [] end.

(** [args.text.encode("utf-8") if args.text is not None else bytes.fromhex(args.hex)] *)
Definition payload_of (text hex : option string) : result bytes :=
  match text, hex with
  | Some t, _ => Ok (bytes_of_string t)
  | None, Some h => bytes_fromhex h
  | None, None => Err (lib_exn TypeError)
  end.

Definition store_req (text hex key : option string) (durability : string) : result pydict :=
  let? payload := payload_of text hex in
  Ok ([("op", VStr "store"); ("data_hex", VStr (bytes_hex payload)); ("durability", VStr durability)]
      ++ key_part key).

Definition remote_store_req (peer : string) (text hex key : option string) (durability : string)
    : result pydict :=
  let? payload := payload_of text hex in
  Ok ([("op", VStr "remote_store"); ("peer", VStr peer); ("data_hex", VStr (bytes_hex payload));
       ("durability", VStr durability)] ++ key_part key).

(** The key if there is one, else the id. *)
Definition selector (key : option string) (block_id : option Z) : pydict :=
  match given key, block_id with
  | Some k, _ => [("key", VStr k)]
  | None, Some id => [("block_id", VInt id)]
  | None, None => []
  end.

(** [resp["text"] = bytes.fromhex(resp["data_hex"]).decode("utf-8", errors="replace")] *)
Definition add_text (resp : pyval) : result pyval :=
  let? v := vindex "data_hex" resp in
  match v, resp with
  | VStr h, VDict d =>
      let? b := bytes_fromhex h in
      Ok (VDict (dset "text" (VStr (String.string_of_list_byte (utf8_replace b))) d))
  | _, _ => Err (lib_exn TypeError)
  end.

Definition with_text (as_text : bool) (resp : pyval) : result pyval :=
  let? ok := vget "ok" resp in
  if truthy ok && as_text then add_text resp else Ok resp.

Definition show_pairing (resp : pyval) : MC unit :=
  sas <- mlift (vindex "sas" resp);;
  print ("verification code: " +:+ py_str sas);;;
  uri <- mlift (vindex "uri" resp);;
  print ("pairing uri     : " +:+ py_str uri);;;
  qr <- mlift (vget "qr" resp);;
  qr_error <- mlift (vget "qr_error" resp);;
  (if truthy qr then print (py_str qr)
   else if truthy qr_error then print_err (py_str qr_error)
   else mret tt);;;
  print_err "Compare this code with the code shown on the other device BEFORE running 'verify'.".

(** ** The commands: the answer to print, or no request at all *)

Section ops.
Context (call : pydict -> M S pyval).

Definition run_op (c : command) : MC (option pyval) :=
  let ask req := resp <- in_world (call req);; mret (Some resp) in
  match c with
  | OpStore text hex key d =>
      req <- mlift (store_req text hex key d);; ask req
  | OpLoad key id as_text =>
      if decide (selector key id = []) then
        print_err "load needs --key or --block-id";;; mret None
      else
        resp <- in_world (call (("op", VStr "load") :: selector key id));;
        resp <- mlift (with_text as_text resp);;
        mret (Some resp)
  | OpRemoteStore peer text hex key d =>
      req <- mlift (remote_store_req peer text hex key d);; ask req
  | OpRemoteLoad peer key id as_text =>
      resp <- in_world (call ([("op", VStr "remote_load"); ("peer", VStr peer)] ++ selector key id));;
      resp <- mlift (with_text as_text resp);;
      mret (Some resp)
  | OpFree id => ask [("op", VStr "free"); ("block_id", VInt id)]
  | OpStats => ask [("op", VStr "stats")]
  | OpPeers => ask [("op", VStr "peers")]
  | OpConnect host port => ask [("op", VStr "connect"); ("host", VStr host); ("port", VInt port)]
  | OpTrusted => ask [("op", VStr "trusted")]
  | OpPair peer qr =>
      resp <- in_world (call [("op", VStr "pair"); ("peer", VStr peer); ("qr", VBool qr)]);;
      ok <- mlift (vget "ok" resp);;
      (if truthy ok then show_pairing resp else mret tt);;;
      mret (Some resp)
  | OpVerify peer method =>
      ask [("op", VStr "verify_peer"); ("peer", VStr peer); ("method", VStr method)]
  | OpRevoke peer pubkey =>
      ask [("op", VStr "revoke_peer");
           match given pubkey with
           | Some k => ("pubkey", VStr k)
           | None => ("peer", match peer with Some p => VStr p | None => VNone end)
           end]
  | OpUnknown op => print_err ("unknown command: " +:+ op);;; mret None
  end.

(** [_print(resp); return 0 if resp.get("ok") else 1] *)
Definition finish (resp : option pyval) : MC Z :=
  match resp with
  | None => mret 2
  | Some resp =>
      text <- mlift (dumps resp);;
      print text;;;
      ok <- mlift (vget "ok" resp);;
      mret (if truthy ok then 0 else 1)
  end.
End ops.

Context (home : string) (files : string -> result (option string)).
Context (rpc : string -> Z -> option string -> bool -> pydict -> M S pyval).

Definition _run (args : Namespace) : MC Z :=
  token <- mlift (_resolve_token home files (a_token args) (a_token_file args));;
  let call := rpc (a_host args) (a_port args) token (negb (a_json args)) in
  resp <- run_op call (a_op args);;
  finish resp.

(** The exit code, or the exception that ends the program with a traceback. *)
Definition main (args : Namespace) : MC Z :=
  mtry (_run args) (fun e =>
    if decide (exn_cls e = ConnectionRefusedError) then
      Some (print_err ("could not connect to daemon RPC at " +:+ a_host args +:+ ":" +:+ pretty (a_port args)
              +:+ " -- is it running?");;; mret 1)
    else if decide (exn_cls e = PermissionError) then Some (print_err (exn_msg e);;; mret 1)
    else if decide (exn_cls e = IncompleteReadError \/ exn_cls e = ConnectionError) then
      Some (print_err ("daemon closed the connection -- if RPC auth is enabled, pass --token/--token-file " +:+
              "or make sure ~/.memcloud/rpc_token is readable by this user.");;; mret 1)
    else None).
End run.
