(* ===== verification/RpcServer.v ===== *)
(** * The RPC server's side of a connection ([memnode/rpc.py])

    Frames, authentication, codec negotiation and the request loop, over any
    dispatcher.  JSON and msgpack are parameters ([codec]), the challenge is
    what the random draw gives, and a client that stalls during authentication
    is one whose answer is not in when the timeout ends the wait. *)
From S2P Require Import Prelude Config PyVal Protocol Channel Handshake RpcAuth.

(** ** Frames *)

Section frames.
Context (c : codec).

(** [_read_json_frame] and [_read_msgpack_frame], which differ in the codec. *)
Definition read_rpc (length_bytes : option bytes) : M reader pyval :=
  len_bytes <- (match length_bytes with Some b => mret b | None => readexactly 4 end);;
  let length := unpack_be len_bytes in
  if Config.MAX_RPC_MESSAGE_SIZE <? length
  then mraise (Exn ValueError
         ("RPC message of " +:+ pretty length +:+ " bytes exceeds MAX_RPC_MESSAGE_SIZE"))
  else
    raw <- readexactly length;;
    mlift (c_dec c raw).

(** [_write_json_frame] and [_write_msgpack_frame] *)
Definition write_rpc (obj : pyval) : M writer unit :=
  raw <- mlift (c_enc c obj);;
  prefix <- mlift (pack_be 4 (len raw));;
  write_and_drain (prefix ++ raw).
End frames.

(** ** The server *)

Record RpcServer := Rpc {
  rs_bind_host : string;
  rs_auth_token : string;
  rs_require_auth : bool;
  rs_unix_socket : string;
  rs_unix_socket_exempt : bool;
  rs_allow_remote_bind : bool
}.

(** A token that is missing or empty turns authentication off. *)
Definition RpcServer_init (bind_host : string) (auth_token : option string) (require_auth : bool)
    (unix_socket : string) (unix_socket_exempt allow_remote_bind : bool) : RpcServer :=
  let token := default "" auth_token in
  Rpc bind_host token (require_auth && negb (bool_decide (token = ""))) unix_socket
    unix_socket_exempt allow_remote_bind.

(** The listeners [start] opens: whether each asks its clients to
    authenticate. *)
Record listeners := Listeners { tcp_auth : bool; unix_auth : option bool }.

Definition start (s : RpcServer) : result listeners :=
  if negb (is_loopback (rs_bind_host s)) && negb (rs_allow_remote_bind s) then
    Err (Exn ValueError "refusing to bind the RPC control plane to non-loopback address")
  else if negb (rs_require_auth s) && negb (is_loopback (rs_bind_host s)) then
    Err (Exn ValueError "refusing to expose an unauthenticated RPC control plane off-loopback")
  else
    Ok (Listeners (rs_require_auth s)
          (if decide (rs_unix_socket s = "") then None
           else Some (rs_require_auth s && negb (rs_unix_socket_exempt s)))).

(** ** Authentication *)

Definition ok_doc : pyval := VDict [("ok", VBool true)].
Definition error_doc (msg : string) : pyval := VDict [("ok", VBool false); ("error", VStr msg)].

Definition challenge_doc (challenge : string) : pyval :=
  VDict [("memnode_auth", VStr "challenge"); ("version", VInt Config.RPC_AUTH_VERSION);
         ("challenge", VStr challenge)].

(** [except (ConnectionResetError, BrokenPipeError)] *)
Definition on_lost {S A} (h : M S A) (e : exn) : option (M S A) :=
  if decide (exn_cls e = ConnectionError) then Some h else None.

Section server.
Context (hmac_sha256 : bytes -> bytes -> bytes) (json msgpack : codec).

Definition _authenticate (token : string) (draw : bytes) (stalled : bool) : M conn bool :=
  let challenge := new_challenge draw in
  conn_write (write_rpc json (challenge_doc challenge));;;
  reply <- (if stalled then mret None
            else mtry (r <- conn_read (read_rpc json None);; mret (Some r))
                   (fun e => if decide (exn_cls e = IncompleteReadError \/ exn_cls e = ValueError)
                             then Some (mret None) else None));;
  match reply with
  | None => mret false
  | Some reply =>
      response <- mlift (vget "response" reply);;
      ok <- mlift (verify_response hmac_sha256 token challenge response);;
      if ok : bool then conn_write (write_rpc json ok_doc);;; mret true
      else
        mtry (conn_write (write_rpc json (error_doc "authentication failed"))) (on_lost (mret tt));;;
        mret false
  end.

(** ** One client

    [S] is the state of the node behind the dispatcher. *)

Context {S : Type} (dispatch : pyval -> bool -> M S pyval).

Definition on_conn {A} (m : M conn A) : M (conn * S) A := fun st =>
  let '(c, r) := m st.1 in ((c, st.2), r).
Definition on_node {A} (m : M S A) : M (conn * S) A := fun st =>
  let '(s, r) := m st.2 in ((st.1, s), r).

Definition close_client (st : conn * S) : conn * S := (conn_close st.1, st.2).

Definition codec_of (binary : bool) : codec := if binary then msgpack else json.

(** The answer to one request: every exception of the dispatcher becomes an
    answer, once its handler has read the request's ["op"] for the log. *)
Definition answer (binary : bool) (req : pyval) : M (conn * S) pyval :=
  mtry (on_node (dispatch req binary))
    (fun e => Some (mlift (vget "op" req);;; mret (error_doc (exn_msg e)))).

(** One turn of the loop; the answer is whether to go on. *)
Definition client_turn (binary : bool) (pending : option bytes) : M (conn * S) bool :=
  let c := codec_of binary in
  req <- mtry (r <- on_conn (conn_read (read_rpc c pending));; mret (Some r))
    (fun e => Some (
       (if decide (exn_cls e = ValueError)
        then mtry (on_conn (conn_write (write_rpc c (error_doc (exn_msg e))))) (on_lost (mret tt))
        else mret tt);;;
       mret None));;
  match req with
  | None => mret false
  | Some req =>
      resp <- answer binary req;;
      on_conn (conn_write (write_rpc c resp));;;
      mret true
  end.

Fixpoint client_loop (fuel : nat) (binary : bool) (pending : option bytes) : M (conn * S) unit :=
  match fuel with
  | O => mraise (lib_exn RuntimeError)
  | Datatypes.S fuel =>
      go <- client_turn binary pending;;
      if go : bool then client_loop fuel binary None else mret tt
  end.

(** [try: loop except lost: pass finally: writer.close()] *)
Definition client_session (fuel : nat) (binary : bool) (pending : option bytes) : M (conn * S) unit :=
  mfinally (mtry (client_loop fuel binary pending) (on_lost (mret tt))) close_client.

Definition gate_client (needs_auth : bool) (token : string) (draw : bytes) (stalled : bool)
    : M (conn * S) bool :=
  if needs_auth then
    mtry (ok <- on_conn (_authenticate token draw stalled);;
          if ok : bool then mret true else mmodify close_client;;; mret false)
      (on_lost (mmodify close_client;;; mret false))
  else mret true.

Definition _handle_client (fuel : nat) (needs_auth : bool) (token : string) (draw : bytes) (stalled : bool)
    : M (conn * S) unit :=
  allowed <- gate_client needs_auth token draw stalled;;
  if negb allowed then mret tt
  else
    prefix <- mtry (p <- on_conn (conn_read (readexactly Config.RPC_MAGIC_LEN));; mret (Some p))
      (fun e => if decide (exn_cls e = IncompleteReadError \/ exn_cls e = ConnectionError)
                then Some (mmodify close_client;;; mret None) else None);;
    match prefix with
    | None => mret tt
    | Some prefix =>
        if decide (prefix = Config.RPC_MSGPACK_MAGIC) then
          ready <- mtry (on_conn (conn_write (write_rpc msgpack
                           (VDict [("ok", VBool true); ("codec", VStr "msgpack")])));;; mret true)
                     (on_lost (mmodify close_client;;; mret false));;
          if ready : bool then client_session fuel true None else mret tt
        else client_session fuel false (Some prefix)
    end.
End server.
