(* ===== verification/RpcSpec.v ===== *)
(** * What the RPC server promises its clients

    No request is served before authentication; an authenticated client gets
    the answers to its requests, in order; reads are bounded and the session
    ends when the client does. *)
From S2P Require Import Prelude Config PyVal Protocol Channel Handshake RpcAuth RpcServer.

(** ** Frames *)

Section frames.
Context (c : codec).

Lemma len_prefix (n : Z) : len (be_bytes 4 n) = 4.
Proof. unfold len. by rewrite length_be_bytes. Qed.

Lemma unpack_rpc_length (raw : bytes) :
  len raw <= Config.MAX_RPC_MESSAGE_SIZE -> unpack_be (be_bytes 4 (len raw)) = len raw.
Proof.
  intros H. apply unpack_be_bytes. pose proof (len_nonneg raw). unfold Config.MAX_RPC_MESSAGE_SIZE in *.
  change (256 ^ Z.of_nat 4) with 4294967296. lia.
Qed.

Lemma read_body raw v rest rq :
  len raw <= Config.MAX_RPC_MESSAGE_SIZE -> c_dec c raw = Ok v ->
  read_rpc c (Some (be_bytes 4 (len raw))) (Reader (raw ++ rest) rq)
    = (Reader rest (rq ++ [len raw]), Ok v).
Proof.
  intros Hl Hd. unfold read_rpc. rewrite bind_ret. rewrite unpack_rpc_length by done.
  rewrite (proj2 (Z.ltb_ge _ _)) by lia. rewrite (bind_ok _ _ _ _ _ (readexactly_app _ _ _)). by rewrite Hd.
Qed.

Lemma read_rpc_frame raw v rest rq :
  len raw <= Config.MAX_RPC_MESSAGE_SIZE -> c_dec c raw = Ok v ->
  read_rpc c None (Reader (frame raw ++ rest) rq) = (Reader rest (rq ++ [4; len raw]), Ok v).
Proof.
  intros Hl Hd. unfold frame. rewrite <-(assoc_L app). unfold read_rpc.
  pose proof (readexactly_app (be_bytes 4 (len raw)) (raw ++ rest) rq) as H4. rewrite len_prefix in H4.
  rewrite (bind_ok _ _ _ _ _ H4). rewrite unpack_rpc_length by done.
  rewrite (proj2 (Z.ltb_ge _ _)) by lia. rewrite (bind_ok _ _ _ _ _ (readexactly_app _ _ _)), Hd.
  by rewrite <-(assoc_L app).
Qed.

(** At the end of the stream nothing is read. *)
Lemma read_rpc_end rq :
  read_rpc c None (Reader [] rq) = (Reader [] (rq ++ [4]), Err (lib_exn IncompleteReadError)).
Proof. done. Qed.

Lemma readexactly_inv n r r' b :
  0 <= n -> readexactly n r = (r', Ok b) -> rd_buf r = b ++ rd_buf r' /\ len b = n.
Proof.
  intros Hn. unfold readexactly. destruct (Z.leb_spec n (len (rd_buf r))) as [Hle|]; [|done].
  intros [= <- <-]. cbn. rewrite take_drop. split; [done|]. unfold len in *. rewrite length_take. lia.
Qed.

(** A request that was read was framed on the wire. *)
Lemma read_rpc_inv r r' v :
  read_rpc c None r = (r', Ok v) ->
  exists raw, rd_buf r = frame raw ++ rd_buf r' /\ c_dec c raw = Ok v /\
    len raw <= Config.MAX_RPC_MESSAGE_SIZE.
Proof.
  unfold read_rpc. intros (r1 & lb & H4 & H)%bind_ok_inv. apply readexactly_inv in H4 as [Hr1 Hlb]; [|lia].
  destruct (Z.ltb_spec Config.MAX_RPC_MESSAGE_SIZE (unpack_be lb)) as [|Hle]; [done|].
  apply bind_ok_inv in H as (r2 & raw & Hraw & Hd). apply lift_inv in Hd as [-> Hd].
  apply readexactly_inv in Hraw as [Hr2 Hlen]; [|apply unpack_be_nonneg]. exists raw.
  split_and!; [|done|lia]. unfold frame. rewrite Hlen, Hr1, Hr2, (assoc_L app). f_equal. f_equal.
  pose proof (be_bytes_unpack lb) as Hb. unfold len in Hlb. replace (length lb) with 4%nat in Hb by lia. done.
Qed.

Lemma write_rpc_ok v raw out cl :
  c_enc c v = Ok raw -> len raw < 2 ^ 32 ->
  write_rpc c v (Writer out false cl) = (Writer (out ++ frame raw) false cl, Ok tt).
Proof.
  intros He Hl. unfold write_rpc. rewrite He. mrun. unfold pack_be. pose proof (len_nonneg raw).
  change (256 ^ Z.of_nat 4) with (2 ^ 32). rewrite (proj2 (Z.leb_le _ _)), (proj2 (Z.ltb_lt _ _)) by lia.
  cbn [andb]. mrun. done.
Qed.
End frames.

(** The codec preamble is not the length of any request the server accepts. *)
Lemma prefix_not_magic (raw : bytes) :
  len raw <= Config.MAX_RPC_MESSAGE_SIZE -> be_bytes 4 (len raw) <> Config.RPC_MSGPACK_MAGIC.
Proof.
  intros Hl Heq. apply (f_equal unpack_be) in Heq. rewrite unpack_rpc_length in Heq by done.
  pose proof Config.magic_exceeds_limits as Hm. unfold unpack_be in Heq. lia.
Qed.

Section spec.
Context (hmac_sha256 : bytes -> bytes -> bytes) (json msgpack : codec).
Context {S : Type} (dispatch : pyval -> bool -> M S pyval).

Abbreviation auth := (_authenticate hmac_sha256 json).
Abbreviation gate := (gate_client hmac_sha256 json (S := S)).
Abbreviation handle_client := (_handle_client hmac_sha256 json msgpack dispatch).

(** ** Who gets in *)

Lemma on_conn_keeps {A} (m : M conn A) s : preserves (fun st : conn * S => st.2 = s) (on_conn m).
Proof. intros [c s0] Hs. unfold state_after, on_conn. cbn in *. by destruct (m c). Qed.

Lemma gate_keeps needs token draw stalled s :
  preserves (fun st => st.2 = s) (gate needs token draw stalled).
Proof.
  unfold gate_client, on_lost. pres; try apply on_conn_keeps; try by apply preserves_modify.
  case_decide; simplify_eq. pres. by apply preserves_modify.
Qed.

Lemma conn_read_inv {A} (m : M reader A) c c' a :
  conn_read m c = (c', Ok a) -> exists r, m (cn_reader c) = (r, Ok a) /\ c' = Conn r (cn_writer c).
Proof.
  unfold conn_read. destruct (m (cn_reader c)) as [r [x|e]]; intros [= <- <-]. by exists r.
Qed.

Lemma conn_write_reader {A} (m : M writer A) c : cn_reader (state_after (conn_write m) c) = cn_reader c.
Proof. unfold state_after, conn_write. by destruct (m (cn_writer c)). Qed.

(** The connection of a client that passed began with the right answer. *)
Lemma authenticate_inv token draw stalled c c' :
  auth token draw stalled c = (c', Ok true) ->
  exists raw reply resp rest,
    rd_buf (cn_reader c) = frame raw ++ rest /\ c_dec json raw = Ok reply /\
    vget "response" reply = Ok (VStr resp) /\
    compute_response hmac_sha256 token (new_challenge draw) = Ok resp.
Proof.
  unfold _authenticate. intros (c1 & [] & Hw & H)%bind_ok_inv.
  pose proof (conn_write_reader (write_rpc json (challenge_doc (new_challenge draw))) c) as Hr1.
  unfold state_after in Hr1. rewrite Hw in Hr1. cbn in Hr1.
  apply bind_ok_inv in H as (c2 & o & Hread & H). destruct o as [reply|]; [|done].
  destruct stalled; [done|]. unfold mtry in Hread.
  destruct ((r <- conn_read (read_rpc json None);; mret (Some r)) c1) as [c3 [o|e]] eqn:Hm.
  2:{ case_decide; simplify_eq. }
  injection Hread as -> ->. apply bind_ok_inv in Hm as (c4 & v & Hm & Hv). injection Hv as -> ->.
  apply conn_read_inv in Hm as (r & Hm & ->). apply read_rpc_inv in Hm as (raw & Hbuf & Hdec & _).
  apply bind_ok_inv in H as (c5 & response & Hresp & H). apply lift_inv in Hresp as [-> Hresp].
  apply bind_ok_inv in H as (c6 & ok & Hok & H). apply lift_inv in Hok as [-> Hok].
  destruct ok.
  - apply verify_only in Hok as (s & -> & Hs). exists raw, reply, s, (rd_buf r). rewrite <-Hr1. done.
  - apply bind_ok_inv in H as (? & ? & _ & H). done.
Qed.

(** C19: where authentication is required, nothing a client sends changes the
    node unless its first message, framed and decodable, carries the answer
    that the token gives to the challenge drawn for this connection. *)
Theorem auth_gate fuel token draw stalled c s st' res :
  handle_client fuel true token draw stalled (c, s) = (st', res) -> st'.2 <> s ->
  exists raw reply resp rest,
    rd_buf (cn_reader c) = frame raw ++ rest /\ c_dec json raw = Ok reply /\
    vget "response" reply = Ok (VStr resp) /\
    compute_response hmac_sha256 token (new_challenge draw) = Ok resp.
Proof.
  intros H Hne. unfold _handle_client in H.
  pose proof (gate_keeps true token draw stalled s (c, s) eq_refl) as Hkeep. unfold state_after in Hkeep.
  destruct (gate true token draw stalled (c, s)) as [st1 [ok|e]] eqn:Hg; cbn in Hkeep.
  2:{ rewrite (bind_err _ _ _ _ _ Hg) in H. by injection H as <- _. }
  rewrite (bind_ok _ _ _ _ _ Hg) in H. destruct ok; cbn [negb] in H.
  2:{ by injection H as <- _. }
  unfold gate_client, mtry, on_lost in Hg.
  destruct ((ok <- on_conn (auth token draw stalled);;
    if ok : bool then mret true else mmodify close_client;;; mret false) (c, s)) as [st2 [b|e]] eqn:Hm.
  2:{ case_decide; simplify_eq. }
  injection Hg as -> ->. apply bind_ok_inv in Hm as (st3 & b & Ha & Hb). destruct b; [|done].
  unfold on_conn in Ha. cbn in Ha. destruct (auth token draw stalled c) as [c3 r3] eqn:Hc.
  injection Ha as _ ->. by apply (authenticate_inv token draw stalled c c3).
Qed.

(** ** A session *)

(** The answers of the node to a list of requests, one after the other. *)
Fixpoint serve_all (binary : bool) (reqs : list pyval) (s : S) : S * list pyval :=
  match reqs with
  | [] => (s, [])
  | q :: reqs =>
      let '(s1, r) := dispatch q binary s in
      let resp := match r with Ok v => v | Err e => error_doc (exn_msg e) end in
      let '(s2, resps) := serve_all binary reqs s1 in
      (s2, resp :: resps)
  end.

(** [raw] is a request on the wire: a dictionary, of an acceptable size. *)
Record request_of (c : codec) (q : pyval) (raw : bytes) : Prop := {
  rq_dec : c_dec c raw = Ok q;
  rq_len : len raw <= Config.MAX_RPC_MESSAGE_SIZE;
  rq_dict : exists d, q = VDict d
}.

(** [raw] is a document the codec writes in one frame. *)
Definition written_as (c : codec) (v : pyval) (raw : bytes) : Prop :=
  c_enc c v = Ok raw /\ len raw < 2 ^ 32.

Lemma on_conn_run {A} (m : M conn A) c c' r (s : S) : m c = (c', r) -> on_conn m (c, s) = ((c', s), r).
Proof. intros H. unfold on_conn. cbn. by rewrite H. Qed.

Lemma conn_read_run {A} (m : M reader A) r r' w res :
  m r = (r', res) -> conn_read m (Conn r w) = (Conn r' w, res).
Proof. intros H. unfold conn_read. cbn. by rewrite H. Qed.

Lemma conn_write_run {A} (m : M writer A) r w w' res :
  m w = (w', res) -> conn_write m (Conn r w) = (Conn r w', res).
Proof. intros H. unfold conn_write. cbn. by rewrite H. Qed.

Lemma try_ok {T A} (m : M T A) h t t' a : m t = (t', Ok a) -> mtry m h t = (t', Ok a).
Proof. intros H. unfold mtry. by rewrite H. Qed.

Lemma write_doc c v raw r out (s : S) :
  written_as c v raw ->
  on_conn (conn_write (write_rpc c v)) (Conn r (Writer out false false), s)
    = ((Conn r (Writer (out ++ frame raw) false false), s), Ok tt).
Proof. intros [He Hl]. by apply on_conn_run, conn_write_run, write_rpc_ok. Qed.

Lemma answer_run binary q c (s s1 : S) r :
  dispatch q binary s = (s1, r) -> (exists d, q = VDict d) ->
  answer dispatch binary q (c, s)
    = ((c, s1), Ok (match r with Ok v => v | Err e => error_doc (exn_msg e) end)).
Proof.
  intros Hd [d ->]. unfold answer, mtry, on_node. cbn [fst snd]. rewrite Hd. by destruct r.
Qed.

Abbreviation cdc := (codec_of json msgpack).
Abbreviation turn := (client_turn json msgpack dispatch).
Abbreviation loop := (client_loop json msgpack dispatch).

Lemma turn_run binary pending q rbuf rbuf' w s s1 r raw :
  read_rpc (cdc binary) pending rbuf = (rbuf', Ok q) -> (exists d, q = VDict d) ->
  dispatch q binary s = (s1, r) ->
  written_as (cdc binary) (match r with Ok v => v | Err e => error_doc (exn_msg e) end) raw ->
  turn binary pending (Conn rbuf (Writer w false false), s)
    = ((Conn rbuf' (Writer (w ++ frame raw) false false), s1), Ok true).
Proof.
  intros Hread Hq Hd Hw. unfold client_turn.
  erewrite bind_ok by (apply try_ok; erewrite bind_ok by (by apply on_conn_run, conn_read_run); reflexivity).
  cbn beta iota. rewrite (bind_ok _ _ _ _ _ (answer_run _ _ _ _ _ _ Hd Hq)).
  by rewrite (bind_ok _ _ _ _ _ (write_doc _ _ _ _ _ _ Hw)).
Qed.

(** The loop at the end of the stream. *)
Lemma turn_end binary w (s : S) rq :
  turn binary None (Conn (Reader [] rq) w, s) = ((Conn (Reader [] (rq ++ [4])) w, s), Ok false).
Proof. done. Qed.

Definition frames (raws : list bytes) : bytes := concat (frame <$> raws).

Lemma frames_cons raw raws : frames (raw :: raws) = be_bytes 4 (len raw) ++ (raw ++ frames raws).
Proof. unfold frames, frame. cbn [fmap list_fmap concat]. by rewrite <-(assoc_L app). Qed.

(** Requests of a session after its first length prefix. *)
Lemma loop_serves binary reqs : forall raws outs fuel rq w s,
  Forall2 (request_of (cdc binary)) reqs raws ->
  Forall2 (written_as (cdc binary)) (serve_all binary reqs s).2 outs ->
  (length reqs < fuel)%nat ->
  exists rq', loop fuel binary None (Conn (Reader (frames raws) rq) (Writer w false false), s)
    = ((Conn (Reader [] rq') (Writer (w ++ frames outs) false false), (serve_all binary reqs s).1), Ok tt).
Proof.
  induction reqs as [|q reqs IH]; intros raws outs fuel rq w s Hreqs Houts Hfuel.
  - apply Forall2_nil_inv_l in Hreqs as ->. cbn in Houts. apply Forall2_nil_inv_l in Houts as ->.
    destruct fuel as [|fuel]; [lia|]. exists (rq ++ [4]). cbn [client_loop].
    rewrite (bind_ok _ _ _ _ _ (turn_end _ _ _ _)). cbn. by rewrite app_nil_r.
  - apply Forall2_cons_inv_l in Hreqs as (raw & raws' & [Hdec Hlen Hd] & Hrest & ->). cbn [serve_all] in *.
    destruct (dispatch q binary s) as [s1 r] eqn:Hdisp.
    destruct (serve_all binary reqs s1) as [s2 resps] eqn:Hall. cbn [fst snd] in *.
    apply Forall2_cons_inv_l in Houts as (out & outs' & Hout & Houts & ->).
    destruct fuel as [|fuel]; [cbn in Hfuel; lia|]. cbn [client_loop].
    unfold frames at 1. cbn [fmap list_fmap concat].
    rewrite (bind_ok _ _ _ _ _ (turn_run binary None q _ _ w s s1 r out
      (read_rpc_frame _ raw q _ rq Hlen Hdec) Hd Hdisp Hout)).
    destruct (IH raws' outs' fuel (rq ++ [4; len raw]) (w ++ frame out) s1) as [rq' Hloop];
      [done|by rewrite Hall|cbn in Hfuel; lia|].
    exists rq'. rewrite Hall in Hloop. cbn [fst] in Hloop. unfold frames in Hloop at 1. rewrite Hloop.
    unfold frames. cbn [fmap list_fmap concat]. by rewrite <-(assoc_L app).
Qed.

(** The same when the first length prefix was already taken for the preamble. *)
Lemma loop_serves_pending q reqs raw raws outs fuel rq w s :
  Forall2 (request_of json) (q :: reqs) (raw :: raws) ->
  Forall2 (written_as json) (serve_all false (q :: reqs) s).2 outs ->
  (length (q :: reqs) < fuel)%nat ->
  exists rq', loop fuel false (Some (be_bytes 4 (len raw)))
      (Conn (Reader (raw ++ frames raws) rq) (Writer w false false), s)
    = ((Conn (Reader [] rq') (Writer (w ++ frames outs) false false), (serve_all false (q :: reqs) s).1), Ok tt).
Proof.
  intros [[Hdec Hlen Hd] Hrest]%Forall2_cons_1 Houts Hfuel. cbn [serve_all] in *.
  destruct (dispatch q false s) as [s1 r] eqn:Hdisp.
  destruct (serve_all false reqs s1) as [s2 resps] eqn:Hall. cbn [fst snd] in *.
  apply Forall2_cons_inv_l in Houts as (out & outs' & Hout & Houts & ->).
  destruct fuel as [|fuel]; [cbn in Hfuel; lia|]. cbn [client_loop].
  rewrite (bind_ok _ _ _ _ _ (turn_run false _ q _ _ w s s1 r out
    (read_body _ raw q _ rq Hlen Hdec) Hd Hdisp Hout)).
  destruct (loop_serves false reqs raws outs' fuel (rq ++ [len raw]) (w ++ frame out) s1) as [rq' Hloop];
    [done|by rewrite Hall|cbn in Hfuel; lia|].
  exists rq'. rewrite Hloop, Hall. unfold frames. cbn [fmap list_fmap concat fst]. by rewrite <-(assoc_L app).
Qed.

Lemma authenticate_run token draw resp auth_raw ch_raw ok_raw rest rq w :
  compute_response hmac_sha256 token (new_challenge draw) = Ok resp ->
  request_of json (VDict [("response", VStr resp)]) auth_raw ->
  written_as json (challenge_doc (new_challenge draw)) ch_raw -> written_as json ok_doc ok_raw ->
  auth token draw false (Conn (Reader (frame auth_raw ++ rest) rq) (Writer w false false))
    = (Conn (Reader rest (rq ++ [4; len auth_raw])) (Writer ((w ++ frame ch_raw) ++ frame ok_raw) false false),
       Ok true).
Proof.
  intros Hc [Hdec Hlen _] [Hch Hchl] [Hok Hokl]. unfold _authenticate. cbv zeta.
  erewrite bind_ok by (by apply conn_write_run, write_rpc_ok).
  erewrite bind_ok
    by (apply try_ok; erewrite bind_ok by (by apply conn_read_run, read_rpc_frame); reflexivity).
  cbn beta iota. change (vget "response" (VDict [("response", VStr resp)])) with (Ok (VStr resp)). mrun.
  destruct (verify_own hmac_sha256 token draw) as (s & Hs & Hv). rewrite Hc in Hs. injection Hs as <-.
  rewrite Hv. mrun. by erewrite bind_ok by (by apply conn_write_run, write_rpc_ok).
Qed.

Lemma gate_run token draw c c' s :
  auth token draw false c = (c', Ok true) -> gate true token draw false (c, s) = ((c', s), Ok true).
Proof.
  intros H. unfold gate_client. apply try_ok. by rewrite (bind_ok _ _ _ _ _ (on_conn_run _ _ _ _ s H)).
Qed.

Lemma session_run fuel binary pending c c' s s' :
  loop fuel binary pending (c, s) = ((c', s'), Ok tt) ->
  client_session json msgpack dispatch fuel binary pending (c, s) = ((conn_close c', s'), Ok tt).
Proof. intros H. unfold client_session, mfinally. by rewrite (try_ok _ _ _ _ _ H). Qed.

Definition ack_doc : pyval := VDict [("ok", VBool true); ("codec", VStr "msgpack")].

(** The first four bytes a client sends after the gate. *)
Abbreviation first_four :=
  (mtry (p <- on_conn (S := S) (conn_read (readexactly Config.RPC_MAGIC_LEN));; mret (Some p))
     (fun e => if decide (exn_cls e = IncompleteReadError \/ exn_cls e = ConnectionError)
               then Some (mmodify close_client;;; mret None) else None)).

Lemma preamble_read rest rq w (s : S) :
  first_four (Conn (Reader (Config.RPC_MSGPACK_MAGIC ++ rest) rq) w, s)
    = ((Conn (Reader rest (rq ++ [4])) w, s), Ok (Some Config.RPC_MSGPACK_MAGIC)).
Proof.
  apply try_ok. erewrite bind_ok; [reflexivity|].
  apply on_conn_run, conn_read_run, (readexactly_app Config.RPC_MSGPACK_MAGIC).
Qed.

Lemma prefix_read (n : Z) rest rq w (s : S) :
  first_four (Conn (Reader (be_bytes 4 n ++ rest) rq) w, s)
    = ((Conn (Reader rest (rq ++ [4])) w, s), Ok (Some (be_bytes 4 n))).
Proof.
  pose proof (readexactly_app (be_bytes 4 n) rest rq) as H4. rewrite len_prefix in H4.
  apply try_ok. erewrite bind_ok; [reflexivity|]. by apply on_conn_run, conn_read_run.
Qed.

(** The same with or without authentication. *)
Lemma handle_client_serves needs binary reqs raws outs token draw resp auth_raw ch_raw ok_raw ack_raw fuel rq s :
  (needs = true ->
     compute_response hmac_sha256 token (new_challenge draw) = Ok resp /\
     request_of json (VDict [("response", VStr resp)]) auth_raw /\
     written_as json (challenge_doc (new_challenge draw)) ch_raw /\ written_as json ok_doc ok_raw) ->
  written_as msgpack ack_doc ack_raw ->
  Forall2 (request_of (cdc binary)) reqs raws ->
  Forall2 (written_as (cdc binary)) (serve_all binary reqs s).2 outs ->
  (length reqs < fuel)%nat ->
  exists rq', handle_client fuel needs token draw false
      (Conn (Reader ((if needs then frame auth_raw else [])
                     ++ (if binary then Config.RPC_MSGPACK_MAGIC else []) ++ frames raws) rq)
         (Writer [] false false), s)
    = ((Conn (Reader [] rq')
          (Writer ((if needs then frame ch_raw ++ frame ok_raw else [])
                   ++ (if binary then frame ack_raw else []) ++ frames outs)
             false true), (serve_all binary reqs s).1), Ok tt).
Proof.
  intros Hauth Hack Hreqs Houts Hfuel. unfold _handle_client.
  set (w0 := if needs then frame ch_raw ++ frame ok_raw else []).
  assert (exists rq0, gate needs token draw false
      (Conn (Reader ((if needs then frame auth_raw else [])
                     ++ (if binary then Config.RPC_MSGPACK_MAGIC else []) ++ frames raws) rq)
         (Writer [] false false), s)
    = ((Conn (Reader ((if binary then Config.RPC_MSGPACK_MAGIC else []) ++ frames raws) rq0)
         (Writer w0 false false), s), Ok true)) as [rq0 Hg].
  { destruct needs; [|by exists rq]. destruct (Hauth eq_refl) as (Hc & Ha & Hch & Hok).
    eexists. unfold w0. apply gate_run. rewrite (authenticate_run _ _ resp _ ch_raw ok_raw) by done. done. }
  rewrite (bind_ok _ _ _ _ _ Hg). clear Hg. cbn [negb]. destruct binary.
  - rewrite (bind_ok _ _ _ _ _ (preamble_read _ _ _ _)). rewrite decide_True by done.
    erewrite bind_ok by (apply try_ok; erewrite bind_ok by (by apply write_doc); reflexivity).
    cbn beta iota.
    destruct (loop_serves true reqs raws outs fuel (rq0 ++ [4]) (w0 ++ frame ack_raw) s) as [rq' Hl]; [done..|].
    exists rq'. rewrite (session_run _ _ _ _ _ _ _ Hl). unfold conn_close.
    cbn [cn_reader cn_writer wr_out wr_lost]. by rewrite <-!(assoc_L app).
  - rewrite !app_nil_l. destruct reqs as [|q reqs].
    + apply Forall2_nil_inv_l in Hreqs as ->. cbn in Houts. apply Forall2_nil_inv_l in Houts as ->.
      eexists. unfold conn_close. cbn. by rewrite app_nil_r.
    + apply Forall2_cons_inv_l in Hreqs as (raw & raws' & Hq & Hrest & ->).
      rewrite frames_cons. rewrite (bind_ok _ _ _ _ _ (prefix_read _ _ _ _ _)).
      rewrite decide_False by (apply prefix_not_magic, Hq).
      destruct (loop_serves_pending q reqs raw raws' outs fuel (rq0 ++ [4]) w0 s) as [rq' Hl];
        [by constructor|done|done|].
      exists rq'. by rewrite (session_run _ _ _ _ _ _ _ Hl).
Qed.

(** C20: a session from its first byte to its last, in either codec: a client
    that answers the challenge and sends requests gets the challenge, the
    acceptance (and in the binary codec the acknowledgement of its preamble),
    then one answer per request in order: what the dispatcher returned, or the
    error it raised; the node ends in the state the requests led to and the
    connection is closed when the client is done. *)
Theorem session_serves binary reqs raws outs token draw resp auth_raw ch_raw ok_raw ack_raw fuel rq s :
  compute_response hmac_sha256 token (new_challenge draw) = Ok resp ->
  request_of json (VDict [("response", VStr resp)]) auth_raw ->
  written_as json (challenge_doc (new_challenge draw)) ch_raw -> written_as json ok_doc ok_raw ->
  written_as msgpack ack_doc ack_raw ->
  Forall2 (request_of (cdc binary)) reqs raws ->
  Forall2 (written_as (cdc binary)) (serve_all binary reqs s).2 outs ->
  (length reqs < fuel)%nat ->
  exists rq', handle_client fuel true token draw false
      (Conn (Reader (frame auth_raw ++ (if binary then Config.RPC_MSGPACK_MAGIC else []) ++ frames raws) rq)
         (Writer [] false false), s)
    = ((Conn (Reader [] rq')
          (Writer (frame ch_raw ++ frame ok_raw ++ (if binary then frame ack_raw else []) ++ frames outs)
             false true), (serve_all binary reqs s).1), Ok tt).
Proof.
  intros Hc Hauth Hch Hok Hack Hreqs Houts Hfuel. cbn [app].
  destruct (handle_client_serves true binary reqs raws outs token draw resp auth_raw ch_raw ok_raw ack_raw
    fuel rq s) as [rq' H]; [done..|]. exists rq'. by rewrite H, <-(assoc_L app).
Qed.

(** ** The session ends with the client *)

Context (json_total : forall v, c_enc json v <> Err (lib_exn RuntimeError)).
Context (msgpack_total : forall v, c_enc msgpack v <> Err (lib_exn RuntimeError)).

Abbreviation fuelless := (fun e : exn => e <> lib_exn RuntimeError).

Lemma cdc_total binary v : c_enc (cdc binary) v <> Err (lib_exn RuntimeError).
Proof. by destruct binary. Qed.

Lemma write_rpc_err binary v w w' e : write_rpc (cdc binary) v w = (w', Err e) -> fuelless e.
Proof.
  unfold write_rpc, mbind_m, mlift, pack_be, write_and_drain. intros H.
  pose proof (cdc_total binary v) as Ht. intros ->. repeat case_match; simplify_eq; done.
Qed.

Lemma on_conn_err {A} (m : M conn A) (st st' : conn * S) e :
  on_conn m st = (st', Err e) -> exists c, m st.1 = (c, Err e) /\ st' = (c, st.2).
Proof. unfold on_conn. destruct (m st.1) as [c [a|e']]; intros [= <- <-]. by exists c. Qed.

Lemma write_err binary v st st' e :
  on_conn (S := S) (conn_write (write_rpc (cdc binary) v)) st = (st', Err e) -> fuelless e.
Proof.
  intros (c & H & _)%on_conn_err. unfold conn_write in H.
  destruct (write_rpc _ _ _) as [w [[]|e']] eqn:Hw; simplify_eq. by apply write_rpc_err in Hw.
Qed.

Lemma answer_err binary q st st' e : answer dispatch binary q st = (st', Err e) -> fuelless e.
Proof.
  unfold answer, mtry, on_node. destruct (dispatch q binary st.2) as [s [v|e']]; [done|].
  unfold mbind_m, mlift. by destruct q; cbn; intros; simplify_eq.
Qed.

(** The two ways a read ends, as a turn sees them. *)
Definition read_result (binary : bool) (pending : option bytes) : M (conn * S) (option pyval) :=
  mtry (r <- on_conn (conn_read (read_rpc (cdc binary) pending));; mret (Some r))
    (fun e => Some (
       (if decide (exn_cls e = ValueError)
        then mtry (on_conn (conn_write (write_rpc (cdc binary) (error_doc (exn_msg e))))) (on_lost (mret tt))
        else mret tt);;;
       mret None)).

Lemma read_result_err binary pending st st' e : read_result binary pending st = (st', Err e) -> fuelless e.
Proof.
  unfold read_result, mtry at 1.
  destruct ((r <- on_conn (conn_read (read_rpc (cdc binary) pending));; mret (Some r)) st) as [st1 [o|e1]]; [done|].
  unfold mbind_m.
  case_decide; [|done]. unfold mtry.
  destruct (on_conn _ st1) as [st2 [[]|e2]] eqn:Hw; [done|]. unfold on_lost. case_decide; [done|].
  intros [= _ <-]. by apply write_err in Hw.
Qed.

Lemma turn_err binary pending st st' e : turn binary pending st = (st', Err e) -> fuelless e.
Proof.
  change (turn binary pending) with (req <- read_result binary pending;;
    match req with
    | None => mret false
    | Some req => resp <- answer dispatch binary req;;
        on_conn (conn_write (write_rpc (cdc binary) resp));;; mret true
    end).
  unfold mbind_m at 1. destruct (read_result _ _ st) as [st1 [[q|]|e1]] eqn:Hr; [|done|].
  2:{ intros [= _ <-]. by apply read_result_err in Hr. }
  unfold mbind_m at 1. destruct (answer _ _ _ st1) as [st2 [v|e2]] eqn:Ha.
  2:{ intros [= _ <-]. by apply answer_err in Ha. }
  unfold mbind_m. destruct (on_conn _ st2) as [st3 [[]|e3]] eqn:Hw; [done|].
  intros [= _ <-]. by apply write_err in Hw.
Qed.

(** What is left to read. *)
Definition unread (st : conn * S) : nat := length (rd_buf (cn_reader st.1)).

Lemma read_rpc_shrinks c pending r r' v :
  read_rpc c pending r = (r', Ok v) ->
  (length (rd_buf r') + match pending with None => 4 | Some _ => 0 end <= length (rd_buf r))%nat.
Proof.
  unfold read_rpc. intros (r1 & lb & H1 & H)%bind_ok_inv.
  destruct (Z.ltb_spec Config.MAX_RPC_MESSAGE_SIZE (unpack_be lb)); [done|].
  apply bind_ok_inv in H as (r2 & raw & H2 & [-> _]%lift_inv).
  apply readexactly_inv in H2 as [Hr2 _]; [|apply unpack_be_nonneg].
  destruct pending as [b|]; [injection H1 as <- <-|apply readexactly_inv in H1 as [Hr1 Hl]; [|lia]].
  - rewrite Hr2, length_app. lia.
  - rewrite Hr1, Hr2, !length_app. unfold len in Hl. lia.
Qed.

Lemma keeps_unread {A} (m : M writer A) (st : conn * S) :
  unread (state_after (on_conn (conn_write m)) st) = unread st.
Proof.
  unfold state_after, on_conn, conn_write, unread. destruct st as [c s]; cbn. by destruct (m (cn_writer c)).
Qed.

Lemma answer_unread binary q st : unread (state_after (answer dispatch binary q) st) = unread st.
Proof.
  unfold state_after, answer, mtry, on_node. destruct (dispatch q binary st.2) as [s [v|e]]; [done|].
  unfold mbind_m, mlift. by destruct (vget "op" q).
Qed.

Lemma turn_shrinks binary pending st st' :
  turn binary pending st = (st', Ok true) ->
  (unread st' + match pending with None => 4 | Some _ => 0 end <= unread st)%nat.
Proof.
  intros (st1 & o & Hr & H)%bind_ok_inv. destruct o as [q|]; [|done].
  apply bind_ok_inv in H as (st2 & v & Ha & H). apply bind_ok_inv in H as (st3 & [] & Hw & H).
  injection H as <-. unfold mtry in Hr.
  destruct ((r <- on_conn (conn_read (read_rpc (cdc binary) pending));; mret (Some r)) st) as [st4 [o|e]] eqn:Hm.
  2:{ apply bind_ok_inv in Hr as (? & ? & _ & Hr). done. }
  injection Hr as -> ->. apply bind_ok_inv in Hm as (st5 & v' & Hm & Hv). injection Hv as -> ->.
  unfold on_conn in Hm. destruct (conn_read _ st.1) as [c r] eqn:Hc. injection Hm as <- ->.
  apply conn_read_inv in Hc as (r & Hc & ->). apply read_rpc_shrinks in Hc.
  pose proof (answer_unread binary q (Conn r (cn_writer st.1), st.2)) as E1. unfold state_after in E1.
  rewrite Ha in E1. cbn [fst] in E1. pose proof (keeps_unread (write_rpc (cdc binary) v) st2) as E2.
  unfold state_after in E2. rewrite Hw in E2. cbn [fst] in E2. rewrite E2, E1. unfold unread at 1. done.
Qed.

Lemma loop_ends fuel : forall binary pending st st' e,
  (unread st + match pending with None => 0 | Some _ => 1 end < fuel)%nat ->
  loop fuel binary pending st = (st', Err e) -> fuelless e.
Proof.
  induction fuel as [|fuel IH]; intros binary pending st st' e Hf; [lia|]. cbn [client_loop].
  unfold mbind_m. destruct (turn binary pending st) as [st1 [[]|e1]] eqn:Ht.
  - apply turn_shrinks in Ht. apply IH. destruct pending; lia.
  - done.
  - intros [= _ <-]. by apply turn_err in Ht.
Qed.

(** The request loop ends: it takes at most one turn more than there are
    bytes to read (the fuel is never what ends it), and the connection is
    closed whichever way it ends. *)
Theorem client_session_ends fuel binary pending st st' res :
  (unread st + match pending with None => 0 | Some _ => 1 end < fuel)%nat ->
  client_session json msgpack dispatch fuel binary pending st = (st', res) ->
  res <> Err (lib_exn RuntimeError) /\ wr_closed (cn_writer st'.1) = true.
Proof.
  intros Hf. unfold client_session, mfinally, mtry.
  destruct (loop fuel binary pending st) as [st1 [[]|e]] eqn:Hl.
  - by intros [= <- <-].
  - apply loop_ends in Hl; [|done]. unfold on_lost. case_decide; intros [= <- <-]; [done|].
    split; [congruence|done].
Qed.
End spec.

Section more.
Context (hmac_sha256 : bytes -> bytes -> bytes) (json msgpack : codec).
Context {S : Type} (dispatch : pyval -> bool -> M S pyval).

Abbreviation loop := (client_loop json msgpack dispatch).
Abbreviation handle_client := (_handle_client hmac_sha256 json msgpack dispatch).

(** ** Bounded reads *)

Definition bounded_reads (r : reader) : Prop :=
  Forall (fun n => 0 <= n <= Config.MAX_RPC_MESSAGE_SIZE) (rd_requests r).

Definition conn_bounded (st : conn * S) : Prop := bounded_reads (cn_reader st.1).

Lemma readexactly_bounded n :
  0 <= n <= Config.MAX_RPC_MESSAGE_SIZE -> preserves bounded_reads (readexactly n).
Proof.
  intros Hn r Hr. unfold state_after, readexactly, bounded_reads.
  destruct (n <=? len (rd_buf r)); cbn; apply Forall_app_2; auto.
Qed.

Lemma read_rpc_bounded c pending : preserves bounded_reads (read_rpc c pending).
Proof.
  unfold read_rpc. apply preserves_bind.
  - destruct pending; [apply preserves_ret|by apply readexactly_bounded].
  - intros lb. destruct (Z.ltb_spec Config.MAX_RPC_MESSAGE_SIZE (unpack_be lb)); pres.
    apply readexactly_bounded. pose proof (unpack_be_nonneg lb). lia.
Qed.

Lemma read_bounded {A} (m : M reader A) :
  preserves bounded_reads m -> preserves conn_bounded (on_conn (conn_read m)).
Proof.
  intros Hm [c s] Hc. specialize (Hm _ Hc). unfold state_after, on_conn, conn_read, conn_bounded in *. cbn in *.
  by destruct (m (cn_reader c)).
Qed.

Lemma write_bounded {A} (m : M writer A) : preserves conn_bounded (on_conn (conn_write m)).
Proof.
  intros [c s] Hc. unfold state_after, on_conn, conn_write, conn_bounded in *. cbn in *.
  by destruct (m (cn_writer c)).
Qed.

Lemma close_bounded : preserves conn_bounded (mmodify close_client).
Proof. by apply preserves_modify. Qed.

Lemma authenticate_bounded token draw stalled :
  preserves conn_bounded (on_conn (_authenticate hmac_sha256 json token draw stalled)).
Proof.
  assert (preserves (fun c => bounded_reads (cn_reader c)) (_authenticate hmac_sha256 json token draw stalled)) as H.
  { assert (forall A (m : M writer A), preserves (fun c => bounded_reads (cn_reader c)) (conn_write m)) as Hw
      by (intros A m c Hc; unfold state_after, conn_write; by destruct (m (cn_writer c))).
    assert (preserves (fun c => bounded_reads (cn_reader c)) (conn_read (read_rpc json None))) as Hr.
    { intros c Hc. pose proof (read_rpc_bounded json None _ Hc) as H. unfold state_after, conn_read in *.
      by destruct (read_rpc json None (cn_reader c)). }
    unfold _authenticate, on_lost. pres; try apply Hw; try apply Hr.
    - case_decide; simplify_eq. pres.
    - destruct a0; pres; try apply Hw. case_decide; simplify_eq. pres. }
  intros [c s] Hc. specialize (H c Hc). unfold state_after, on_conn, conn_bounded in *. cbn.
  by destruct (_authenticate _ _ _ _ _ c).
Qed.

Lemma turn_bounded binary pending : preserves conn_bounded (client_turn json msgpack dispatch binary pending).
Proof.
  unfold client_turn, answer, on_lost. pres.
  - apply read_bounded, read_rpc_bounded.
  - simplify_eq. pres; [apply write_bounded|]. case_decide; simplify_eq. pres.
  - destruct a as [q|]; pres; [|simplify_eq; pres|apply write_bounded].
    intros [c s] Hc. unfold state_after, on_node, conn_bounded in *. cbn in *. by destruct (dispatch q binary s).
Qed.

Lemma session_bounded fuel binary pending :
  preserves conn_bounded (client_session json msgpack dispatch fuel binary pending).
Proof.
  assert (preserves conn_bounded (loop fuel binary pending)) as Hl.
  { revert pending. induction fuel as [|fuel IH]; intros pending; cbn [client_loop]; pres; [apply turn_bounded|].
    apply IH. }
  intros st Hst. specialize (Hl st Hst). unfold state_after, client_session, mfinally, mtry, on_lost in *.
  destruct (loop fuel binary pending st) as [st1 [[]|e]]; [done|]. by case_decide.
Qed.

(** Whatever bytes a client sends, before or after authentication and in
    either codec, the server never asks the stream for a buffer above
    [MAX_RPC_MESSAGE_SIZE]. *)
Theorem rpc_reads_bounded fuel needs token draw stalled c s :
  rd_requests (cn_reader c) = [] ->
  Forall (fun n => 0 <= n <= Config.MAX_RPC_MESSAGE_SIZE)
    (rd_requests (cn_reader (state_after (handle_client fuel needs token draw stalled) (c, s)).1)).
Proof.
  intros Hc. assert (preserves conn_bounded (handle_client fuel needs token draw stalled)) as H.
  { unfold _handle_client, gate_client, on_lost. pres;
      repeat match goal with
      | H : (if decide _ then Some _ else None) = Some _ |- _ => case_decide; simplify_eq
      | |- preserves _ (match ?a with Some _ => _ | None => _ end) => destruct a
      | |- preserves _ (if decide ?P then _ else _) => case_decide
      | _ => progress pres
      end;
      first [apply authenticate_bounded | apply close_bounded | apply write_bounded | apply session_bounded
            | by apply read_bounded, readexactly_bounded]. }
  apply (H (c, s)). unfold conn_bounded, bounded_reads. cbn. rewrite Hc. constructor.
Qed.

(** ** A request that is not a dictionary *)

Lemma answer_non_dict binary q c s e :
  (forall d, q <> VDict d) -> dispatch q binary s = (s, Err e) ->
  answer dispatch binary q (c, s) = ((c, s), Err (lib_exn AttributeError)).
Proof.
  intros Hq He. unfold answer, mtry, on_node. cbn [fst snd]. rewrite He.
  destruct q as [| | | | | | |d]; try done. by destruct (Hq d).
Qed.

(** A request that decodes to something else than a dictionary ends the
    connection without an answer: the handler that should report the
    dispatcher's exception asks the request for its ["op"] and raises again. *)
Theorem non_dict_request_drops_client fuel binary q raw rest rq w s e :
  (0 < fuel)%nat -> (forall d, q <> VDict d) ->
  c_dec (codec_of json msgpack binary) raw = Ok q -> len raw <= Config.MAX_RPC_MESSAGE_SIZE ->
  dispatch q binary s = (s, Err e) ->
  client_session json msgpack dispatch fuel binary None
      (Conn (Reader (frame raw ++ rest) rq) (Writer w false false), s)
    = ((Conn (Reader rest (rq ++ [4; len raw])) (Writer w false true), s), Err (lib_exn AttributeError)).
Proof.
  intros Hf Hq Hd Hl He. destruct fuel as [|fuel]; [lia|].
  unfold client_session, mfinally, mtry. cbn [client_loop]. unfold client_turn. rewrite bind_assoc.
  erewrite bind_ok by (apply try_ok; erewrite bind_ok by (by apply on_conn_run, conn_read_run, read_rpc_frame);
    reflexivity).
  cbn beta iota. rewrite bind_assoc. by rewrite (bind_err _ _ _ _ _ (answer_non_dict _ _ _ _ _ Hq He)).
Qed.
End more.

(** ** Where the server listens *)

(** The control plane is never open to other machines without
    authentication: if [start] opens listeners, then the address is a loopback
    one, or the operator allowed a remote bind and TCP clients must
    authenticate. *)
Theorem control_plane_guarded host token require sock exempt allow l :
  start (RpcServer_init host token require sock exempt allow) = Ok l ->
  is_loopback host = true \/ (allow = true /\ tcp_auth l = true).
Proof.
  unfold start, RpcServer_init. cbn.
  destruct (is_loopback host); [by left|]. destruct allow; cbn; [|done].
  destruct (require && negb (bool_decide (default "" token = ""))); cbn; [|done].
  intros [= <-]. by right.
Qed.

(** ** Witnesses: a codec for the documents exchanged, and a node that counts
    its requests *)

Definition hmac0 (_ challenge : bytes) : bytes := challenge.
Definition draw0 : bytes := [Byte.x07].
Definition ping : pyval := VDict [("op", VStr "ping")].
Definition answer0 : pyval := VDict [("response", VStr "3037")].

Definition rpc_docs : list pyval :=
  [challenge_doc (new_challenge draw0); answer0; ok_doc; ack_doc; ping; VList []].
Definition json0 : codec := table_codec rpc_docs.

Definition count (q : pyval) (_ : bool) : M nat pyval := fun s =>
  match q with VDict _ => (S s, Ok ok_doc) | _ => (s, Err (lib_exn AttributeError)) end.

Definition raw (i : Z) : bytes := be_bytes 2 i.

Definition client0 : conn :=
  Conn (Reader (frame (raw 1) ++ frames [raw 4; raw 4]) []) (Writer [] false false).

Lemma auth_gate_witness :
  exists r reply resp rest,
    rd_buf (cn_reader client0) = frame r ++ rest /\ c_dec json0 r = Ok reply /\
    vget "response" reply = Ok (VStr resp) /\ compute_response hmac0 "secret" (new_challenge draw0) = Ok resp.
Proof.
  apply (auth_gate hmac0 json0 json0 count 5 "secret" draw0 false client0 0%nat
    (state_after (_handle_client hmac0 json0 json0 count 5 true "secret" draw0 false) (client0, 0%nat))
    (outcome (_handle_client hmac0 json0 json0 count 5 true "secret" draw0 false) (client0, 0%nat))).
  - by vm_compute.
  - by vm_compute.
Defined.

Lemma session_serves_witness :
  exists rq', _handle_client hmac0 json0 json0 count 5 true "secret" draw0 false (client0, 0%nat)
    = ((Conn (Reader [] rq') (Writer (frame (raw 0) ++ frame (raw 2) ++ frames [raw 2; raw 2]) false true),
        2%nat), Ok tt).
Proof.
  apply (session_serves hmac0 json0 json0 count false [ping; ping] [raw 4; raw 4] [raw 2; raw 2]
    "secret" draw0 "3037" (raw 1) (raw 0) (raw 2) (raw 3) 5 [] 0%nat);
    repeat (split || constructor || reflexivity || (vm_compute; congruence) || (eexists; reflexivity)).
Defined.

Lemma client_session_ends_witness :
  let st := (Conn (Reader (frames [raw 4; raw 4]) []) (Writer [] false false), 0%nat) in
  let run := client_session json0 json0 count 20 false None st in
  run.2 <> Err (lib_exn RuntimeError) /\ wr_closed (cn_writer run.1.1) = true.
Proof.
  intros st run. apply (client_session_ends json0 json0 count) with (fuel := 20%nat) (binary := false)
    (pending := None) (st := st).
  - intros v. unfold json0, table_codec. cbn [c_enc]. by destruct (list_find _ rpc_docs) as [[]|].
  - intros v. unfold json0, table_codec. cbn [c_enc]. by destruct (list_find _ rpc_docs) as [[]|].
  - vm_compute. lia.
  - apply surjective_pairing.
Defined.

Lemma rpc_reads_bounded_witness :
  Forall (fun n => 0 <= n <= Config.MAX_RPC_MESSAGE_SIZE)
    (rd_requests (cn_reader (state_after
       (_handle_client hmac0 json0 json0 count 5 true "secret" draw0 false) (client0, 0%nat)).1)).
Proof. apply (rpc_reads_bounded hmac0 json0 json0 count 5 true "secret" draw0 false client0 0%nat). reflexivity. Defined.

Lemma non_dict_request_drops_client_witness :
  client_session json0 json0 count 1 false None
      (Conn (Reader (frame (raw 5) ++ []) []) (Writer [] false false), 0%nat)
    = ((Conn (Reader [] [4; len (raw 5)]) (Writer [] false true), 0%nat), Err (lib_exn AttributeError)).
Proof.
  apply (non_dict_request_drops_client json0 json0 count 1 false (VList []) (raw 5) [] [] [] 0%nat
    (lib_exn AttributeError)); [lia|done|by vm_compute|by vm_compute|reflexivity].
Defined.

Lemma control_plane_guarded_witness :
  is_loopback "10.0.0.4" = true \/
  (true = true /\ tcp_auth (Listeners true (Some false)) = true).
Proof.
  apply (control_plane_guarded "10.0.0.4" (Some "secret") true "/tmp/memnode.sock" true true). by vm_compute.
Defined.
