(* ===== verification/RpcClientSpec.v ===== *)
(** * The command-line client and the RPC server together

    A call of the client against the server, both ends run on the bytes the
    other one wrote; what the client makes of servers it does not fit. *)
From S2P Require Import Prelude Config PyVal Protocol Channel Handshake RpcAuth RpcClient RpcServer RpcSpec.

(** ** Frames *)

Lemma client_read c raw v rest rq :
  len raw <= Config.MAX_RPC_MESSAGE_SIZE -> c_dec c raw = Ok v ->
  _read_frame c (Reader (frame raw ++ rest) rq) = (Reader rest (rq ++ [4; len raw]), Ok v).
Proof.
  intros Hl Hd. unfold frame. rewrite <-(assoc_L app). unfold _read_frame.
  pose proof (readexactly_app (be_bytes 4 (len raw)) (raw ++ rest) rq) as H4. rewrite len_prefix in H4.
  rewrite (bind_ok _ _ _ _ _ H4). rewrite unpack_rpc_length by done.
  rewrite (proj2 (Z.ltb_ge _ _)) by lia. rewrite (bind_ok _ _ _ _ _ (readexactly_app _ _ _)), Hd.
  by rewrite <-(assoc_L app).
Qed.

(** [raw] is [v] on the wire: encoded and decoded by this codec, within the
    limit of a message. *)
Record wire (c : codec) (v : pyval) (raw : bytes) : Prop := {
  wi_enc : c_enc c v = Ok raw;
  wi_dec : c_dec c raw = Ok v;
  wi_len : len raw <= Config.MAX_RPC_MESSAGE_SIZE
}.

Lemma wire_written c v raw : wire c v raw -> written_as c v raw.
Proof. intros [He _ Hl]. split; [done|]. unfold Config.MAX_RPC_MESSAGE_SIZE in Hl. lia. Qed.

Lemma wire_request c d raw : wire c (VDict d) raw -> request_of c (VDict d) raw.
Proof. intros [_ Hd Hl]. split; [done|done|by eexists]. Qed.

Lemma server_sends c v raw r out :
  wire c v raw ->
  conn_write (write_rpc c v) (Conn r (Writer out false false))
    = (Conn r (Writer (out ++ frame raw) false false), Ok tt).
Proof. intros Hw. apply conn_write_run. by apply write_rpc_ok; apply (wire_written _ _ _ Hw). Qed.

Lemma conn_sends c v raw r out :
  wire c v raw ->
  conn_write (_write_frame c v) (Conn r (Writer out false false))
    = (Conn r (Writer (out ++ frame raw) false false), Ok tt).
Proof. apply server_sends. Qed.

Lemma conn_receives c v raw rest rq w :
  wire c v raw ->
  conn_read (_read_frame c) (Conn (Reader (frame raw ++ rest) rq) w)
    = (Conn (Reader rest (rq ++ [4; len raw])) w, Ok v).
Proof. intros [_ Hd Hl]. by apply conn_read_run, client_read. Qed.

Section call.
Context (hmac_sha256 : bytes -> bytes -> bytes) (json msgpack : codec) (py_str : pyval -> string).
Context {S : Type} (dispatch : pyval -> bool -> M S pyval).

Abbreviation call := (_call hmac_sha256 json msgpack py_str).
Abbreviation authenticate := (RpcClient._authenticate hmac_sha256 json py_str).
Abbreviation serve := (_handle_client hmac_sha256 json msgpack dispatch).

(** ** Authentication *)

Lemma authenticate_client token challenge resp ch_raw auth_raw ok_raw rest rq :
  compute_response hmac_sha256 token challenge = Ok resp ->
  wire json (challenge_doc challenge) ch_raw -> wire json (VDict [("response", VStr resp)]) auth_raw ->
  wire json ok_doc ok_raw ->
  exists rq', authenticate (Some token) Arrived
      (Conn (Reader (frame ch_raw ++ frame ok_raw ++ rest) rq) (Writer [] false false))
    = (Conn (Reader rest rq') (Writer (frame auth_raw) false false), Ok tt).
Proof.
  intros Hc Hch Hau Hok. eexists. unfold RpcClient._authenticate.
  rewrite (bind_ok _ _ _ _ _ (conn_receives _ _ _ _ _ _ Hch)).
  change (vget "memnode_auth" (challenge_doc challenge)) with (Ok (VStr "challenge")). mrun.
  rewrite bool_decide_eq_true_2 by done. cbn [negb].
  change (vindex "challenge" (challenge_doc challenge)) with (Ok (VStr challenge)). mrun.
  cbn [response_to]. rewrite Hc. mrun. rewrite (bind_ok _ _ _ _ _ (conn_sends _ _ _ _ _ Hau)).
  rewrite (bind_ok _ _ _ _ _ (conn_receives _ _ _ _ _ _ Hok)). cbn [app]. done.
Qed.

(** A client and a server that agree: the client holds the server's token and
    waits for its challenge, or the server wants none and the client sees that
    (it has no token, or no challenge comes). *)
Definition agreed (needs : bool) (server_token : string) (token : option string) (p : probe) : Prop :=
  if needs then token = Some server_token /\ p = Arrived else token = None \/ p = Late false.

(** What a client of each codec does with a request, and with the answer. *)
Definition outgoing (binary : bool) (req : pydict) : result pydict :=
  if binary then _to_binary_request req else Ok req.
Definition incoming (binary : bool) (v : pyval) : result pyval :=
  if binary then _normalise_response v else Ok v.

(** The exchange after authentication, from the client's side. *)
Lemma call_run needs token stoken p binary req q w resp challenge ch_raw auth_raw ok_raw ack_raw q_raw v v_raw :
  agreed needs stoken token p ->
  (needs = true -> compute_response hmac_sha256 stoken challenge = Ok resp /\
     wire json (challenge_doc challenge) ch_raw /\ wire json (VDict [("response", VStr resp)]) auth_raw /\
     wire json ok_doc ok_raw) ->
  wire msgpack ack_doc ack_raw ->
  outgoing binary req = Ok q -> wire (codec_of json msgpack binary) (VDict q) q_raw ->
  wire (codec_of json msgpack binary) v v_raw -> incoming binary v = Ok w ->
  exists rq, call p token binary req
      (Conn (Reader ((if needs then frame ch_raw ++ frame ok_raw else [])
                     ++ (if binary then frame ack_raw else []) ++ frames [v_raw]) [])
        (Writer [] false false))
    = (Conn (Reader [] rq)
        (Writer ((if needs then frame auth_raw else [])
                 ++ (if binary then Config.RPC_MSGPACK_MAGIC else []) ++ frames [q_raw]) false true), Ok w).
Proof.
  intros Hag Hauth Hack Hout Hq Hv Hin. set (o0 := if needs then frame auth_raw else []).
  unfold frames. cbn [fmap list_fmap concat].
  assert (forall rest, exists rq, authenticate token p
      (Conn (Reader ((if needs then frame ch_raw ++ frame ok_raw else []) ++ rest) []) (Writer [] false false))
    = (Conn (Reader rest rq) (Writer o0 false false), Ok tt)) as Ha.
  { intros rest. unfold agreed in Hag. destruct needs.
    - destruct Hag as [-> ->]. destruct (Hauth eq_refl) as (Hc & Hch & Hau & Hok).
      rewrite <-(assoc_L app). by apply (authenticate_client stoken challenge resp).
    - exists []. destruct Hag as [->| ->]; [done|]. by destruct token. }
  unfold _call. destruct (Ha ((if binary then frame ack_raw else []) ++ frame v_raw ++ [])) as [rq0 H0].
  rewrite (bind_ok _ _ _ _ _ H0). destruct binary; cbn [outgoing incoming codec_of] in *.
  - erewrite bind_ok.
    2:{ erewrite bind_ok by (apply conn_write_run; reflexivity).
        rewrite (bind_ok _ _ _ _ _ (conn_receives _ _ _ _ _ _ Hack)).
        change (vget "ok" ack_doc) with (Ok (VBool true)). mrun. cbn [truthy]. rewrite Hout. mrun.
        rewrite (bind_ok _ _ _ _ _ (conn_sends _ _ _ _ _ Hq)).
        rewrite (bind_ok _ _ _ _ _ (conn_receives _ _ _ _ _ _ Hv)). by rewrite Hin. }
    mrun. eexists. unfold conn_close, mret. cbn. by rewrite <-!(assoc_L app), app_nil_r.
  - injection Hout as ->. injection Hin as ->. erewrite bind_ok.
    2:{ rewrite (bind_ok _ _ _ _ _ (conn_sends _ _ _ _ _ Hq)). by apply conn_receives. }
    mrun. eexists. unfold conn_close, mret. cbn. by rewrite app_nil_r.
Qed.

(** C23: a call, from both ends.  When client and server agree on authentication
    there are two byte streams, the one the client writes and the one the
    server writes, such that each end, run on the other's stream, writes its
    own: the server's dispatcher has run exactly the client's request, in
    either codec, the client returns the dispatcher's answer (the error it
    raised included), and both ends have closed the connection. *)
Theorem call_gets_answer needs token stoken draw p binary req q w resp ch_raw auth_raw ok_raw ack_raw q_raw
    v_raw fuel (s s1 : S) r :
  agreed needs stoken token p ->
  (needs = true -> compute_response hmac_sha256 stoken (new_challenge draw) = Ok resp /\
     wire json (challenge_doc (new_challenge draw)) ch_raw /\
     wire json (VDict [("response", VStr resp)]) auth_raw /\ wire json ok_doc ok_raw) ->
  wire msgpack ack_doc ack_raw ->
  outgoing binary req = Ok q -> wire (codec_of json msgpack binary) (VDict q) q_raw ->
  dispatch (VDict q) binary s = (s1, r) ->
  let v := match r with Ok v => v | Err e => error_doc (exn_msg e) end in
  wire (codec_of json msgpack binary) v v_raw -> incoming binary v = Ok w -> (1 < fuel)%nat ->
  exists sent received rq rq',
    call p token binary req (Conn (Reader received []) (Writer [] false false))
      = (Conn (Reader [] rq) (Writer sent false true), Ok w) /\
    serve fuel needs stoken draw false (Conn (Reader sent []) (Writer [] false false), s)
      = ((Conn (Reader [] rq') (Writer received false true), s1), Ok tt).
Proof.
  intros Hag Hauth Hack Hout Hq Hd v Hv Hin Hfuel.
  destruct (call_run needs token stoken p binary req q w resp (new_challenge draw) ch_raw auth_raw ok_raw
    ack_raw q_raw v v_raw) as [rq Hcall]; [done..|].
  destruct (handle_client_serves hmac_sha256 json msgpack dispatch needs binary [VDict q] [q_raw] [v_raw] stoken
    draw resp auth_raw ch_raw ok_raw ack_raw fuel [] s) as [rq' Hserve].
  - intros Hn. destruct (Hauth Hn) as (Hc & Hch & Hau & Hok).
    split_and!; [done|by apply wire_request|by apply wire_written..].
  - by apply wire_written.
  - constructor; [by apply wire_request|constructor].
  - cbn [serve_all]. rewrite Hd. constructor; [by apply wire_written|constructor].
  - done.
  - cbn [serve_all] in Hserve. rewrite Hd in Hserve. by eexists _, _, _, _.
Qed.

(** ** Servers that refuse *)

Lemma gate_refuses stoken draw reply v reply_raw ch_raw err_raw (s : S) :
  vget "response" reply = Ok v -> verify_response hmac_sha256 stoken (new_challenge draw) v = Ok false ->
  c_dec json reply_raw = Ok reply -> len reply_raw <= Config.MAX_RPC_MESSAGE_SIZE ->
  wire json (challenge_doc (new_challenge draw)) ch_raw ->
  wire json (error_doc "authentication failed") err_raw ->
  gate_client hmac_sha256 json true stoken draw false
      (Conn (Reader (frame reply_raw) []) (Writer [] false false), s)
    = ((Conn (Reader [] [4; len reply_raw]) (Writer (frame ch_raw ++ frame err_raw) false true), s), Ok false).
Proof.
  intros Hr Hv Hd Hl Hch Herr. unfold gate_client. apply try_ok.
  set (c1 := Conn (Reader [] [4; len reply_raw]) (Writer (frame ch_raw ++ frame err_raw) false false)).
  rewrite (bind_ok _ _ _ (c1, s) false); [done|]. apply on_conn_run.
  unfold RpcServer._authenticate. cbv zeta.
  rewrite (bind_ok _ _ _ _ _ (server_sends _ _ _ _ _ Hch)).
  erewrite bind_ok.
  2:{ apply try_ok. rewrite <-(app_nil_r (frame reply_raw)).
      erewrite bind_ok by (by apply conn_read_run, read_rpc_frame). reflexivity. }
  cbn beta iota. rewrite Hr. mrun. rewrite Hv. mrun.
  by rewrite (bind_ok _ _ _ _ _ (try_ok _ _ _ _ _ (server_sends _ _ _ _ _ Herr))).
Qed.

Lemma refused_client fuel stoken draw c c' (s : S) :
  gate_client hmac_sha256 json true stoken draw false (c, s) = ((c', s), Ok false) ->
  serve fuel true stoken draw false (c, s) = ((c', s), Ok tt).
Proof. intros H. unfold _handle_client. by rewrite (bind_ok _ _ _ _ _ H). Qed.

(** A client with another token: it raises [PermissionError] without having
    sent its request, the server closes the connection, and the node is as it
    was. *)
Theorem wrong_token_refused token stoken draw resp ch_raw auth_raw err_raw fuel binary req (s : S) :
  compute_response hmac_sha256 token (new_challenge draw) = Ok resp ->
  compute_response hmac_sha256 stoken (new_challenge draw) <> Ok resp ->
  wire json (challenge_doc (new_challenge draw)) ch_raw ->
  wire json (VDict [("response", VStr resp)]) auth_raw ->
  wire json (error_doc "authentication failed") err_raw ->
  exists received rq rq' msg,
    call Arrived (Some token) binary req (Conn (Reader received []) (Writer [] false false))
      = (Conn (Reader [] rq) (Writer (frame auth_raw) false false), Err (Exn PermissionError msg)) /\
    serve fuel true stoken draw false (Conn (Reader (frame auth_raw) []) (Writer [] false false), s)
      = ((Conn (Reader [] rq') (Writer received false true), s), Ok tt).
Proof.
  intros Hc Hne Hch Hau Herr. eexists (frame ch_raw ++ frame err_raw), _, _, _. split.
  - unfold _call. erewrite bind_err; [reflexivity|]. unfold RpcClient._authenticate.
    rewrite (bind_ok _ _ _ _ _ (conn_receives _ _ _ _ _ _ Hch)).
    change (vget "memnode_auth" (challenge_doc (new_challenge draw))) with (Ok (VStr "challenge")). mrun.
    rewrite bool_decide_eq_true_2 by done. cbn [negb].
    change (vindex "challenge" (challenge_doc (new_challenge draw))) with (Ok (VStr (new_challenge draw))). mrun.
    cbn [response_to]. rewrite Hc. mrun. rewrite (bind_ok _ _ _ _ _ (conn_sends _ _ _ _ _ Hau)).
    rewrite <-(app_nil_r (frame err_raw)).
    rewrite (bind_ok _ _ _ _ _ (conn_receives _ _ _ _ _ _ Herr)). reflexivity.
  - apply refused_client.
    apply (gate_refuses _ _ (VDict [("response", VStr resp)]) (VStr resp)); try done; [|apply Hau..].
    destruct (verify_own hmac_sha256 stoken draw) as (e & He & _). unfold verify_response. rewrite He. cbn.
    assert (is_ascii resp = true) as ->.
    { revert Hc. unfold compute_response. destruct (is_ascii _); [|done]. intros [= <-]. apply bytes_hex_ascii. }
    rewrite bool_decide_eq_false_2; [done|]. intros ->. by rewrite He in Hne.
Qed.

(** A client without a token in the JSON codec, against a server that wants
    one: the client takes the server's challenge for the answer to its request
    and returns it; the request itself is read as an attempt to authenticate
    and refused.  No error reaches the caller. *)
Theorem tokenless_client_gets_challenge stoken draw p req req_raw ch_raw err_raw fuel (s : S) :
  dget "response" req = None -> wire json (VDict req) req_raw ->
  wire json (challenge_doc (new_challenge draw)) ch_raw ->
  wire json (error_doc "authentication failed") err_raw ->
  exists received rq rq',
    call p None false req (Conn (Reader received []) (Writer [] false false))
      = (Conn (Reader (frame err_raw) rq) (Writer (frame req_raw) false true),
         Ok (challenge_doc (new_challenge draw))) /\
    serve fuel true stoken draw false (Conn (Reader (frame req_raw) []) (Writer [] false false), s)
      = ((Conn (Reader [] rq') (Writer received false true), s), Ok tt).
Proof.
  intros Hr Hq Hch Herr. eexists (frame ch_raw ++ frame err_raw), _, _. split.
  - unfold _call, RpcClient._authenticate. rewrite bind_ret. erewrite bind_ok.
    2:{ rewrite (bind_ok _ _ _ _ _ (conn_sends _ _ _ _ _ Hq)). by apply conn_receives. }
    mrun. reflexivity.
  - apply refused_client. apply (gate_refuses _ _ (VDict req) VNone); try done; [by cbn; rewrite Hr|apply Hq..].
Qed.

(** The server writes answers of any size the client will not read: past the
    limit that holds for requests the client raises, in either codec. *)
Theorem oversized_answer_unreadable binary v raw out rest rq :
  c_enc (codec_of json msgpack binary) v = Ok raw -> Config.MAX_RPC_MESSAGE_SIZE < len raw < 2 ^ 32 ->
  write_rpc (codec_of json msgpack binary) v (Writer out false false)
    = (Writer (out ++ frame raw) false false, Ok tt) /\
  exists msg, outcome (_read_frame (codec_of json msgpack binary)) (Reader (frame raw ++ rest) rq)
    = Err (Exn ValueError msg).
Proof.
  intros He Hl. split; [apply write_rpc_ok; [done|lia]|]. eexists. unfold outcome, frame, _read_frame.
  rewrite <-(assoc_L app).
  pose proof (readexactly_app (be_bytes 4 (len raw)) (raw ++ rest) rq) as H4. rewrite len_prefix in H4.
  rewrite (bind_ok _ _ _ _ _ H4). pose proof (len_nonneg raw).
  rewrite unpack_be_bytes by (change (256 ^ Z.of_nat 4) with (2 ^ 32); lia). cbv zeta.
  rewrite (proj2 (Z.ltb_lt _ _)) by lia. reflexivity.
Qed.
End call.

(** ** Witnesses: a codec for the documents of one call *)

Definition hmac_xor (token challenge : bytes) : bytes := token ++ challenge.

Definition hex_ping : pydict := [("op", VStr "ping"); ("data_hex", VStr "0a")].
Definition bin_ping : pydict := [("op", VStr "ping"); ("data", VBytes [Byte.x0a])].
Definition data_doc : pyval := VDict [("ok", VBool true); ("data", VBytes [Byte.x0b])].
Definition auth_doc (token : string) : pyval :=
  VDict [("response", VStr (bytes_hex (hmac_xor (bytes_of_string token) (bytes_of_string "07"))))].

Definition call_codec : codec := table_codec
  [challenge_doc (new_challenge draw0); auth_doc "s"; ok_doc; ack_doc; VDict hex_ping; VDict bin_ping;
   data_doc; auth_doc "t"; error_doc "authentication failed"].

Definition text_of (v : pyval) : string := match v with VStr s => s | _ => "" end.

Definition give (_ : pyval) (_ : bool) : M nat pyval := fun s => (Datatypes.S s, Ok data_doc).

Lemma call_wire v i : c_enc call_codec v = Ok (raw i) -> 0 <= i < 9 ->
  c_dec call_codec (raw i) = Ok v -> wire call_codec v (raw i).
Proof. intros He Hi Hd. split; [done|done|]. by vm_compute. Qed.

Lemma call_gets_answer_witness :
  exists sent received rq rq',
    _call hmac_xor call_codec call_codec text_of Arrived (Some "s") true hex_ping
        (Conn (Reader received []) (Writer [] false false))
      = (Conn (Reader [] rq) (Writer sent false true),
         Ok (VDict [("ok", VBool true); ("data_hex", VStr "0b")])) /\
    _handle_client hmac_xor call_codec call_codec give 5 true "s" draw0 false
        (Conn (Reader sent []) (Writer [] false false), O)
      = ((Conn (Reader [] rq') (Writer received false true), 1%nat), Ok tt).
Proof.
  apply (call_gets_answer hmac_xor call_codec call_codec text_of give true (Some "s") "s" draw0 Arrived true
    hex_ping bin_ping (VDict [("ok", VBool true); ("data_hex", VStr "0b")])
    (bytes_hex (hmac_xor (bytes_of_string "s") (bytes_of_string "07")))
    (raw 0) (raw 1) (raw 2) (raw 3) (raw 5) (raw 6) 5 O 1%nat (Ok data_doc)).
  - by split.
  - intros _. split; [by vm_compute|]. split_and!; apply call_wire; (lia || by vm_compute).
  - apply call_wire; (lia || by vm_compute).
  - by vm_compute.
  - apply call_wire; (lia || by vm_compute).
  - reflexivity.
  - apply call_wire; (lia || by vm_compute).
  - by vm_compute.
  - lia.
Defined.

Lemma wrong_token_refused_witness :
  exists received rq rq' msg,
    _call hmac_xor call_codec call_codec text_of Arrived (Some "t") true hex_ping
        (Conn (Reader received []) (Writer [] false false))
      = (Conn (Reader [] rq) (Writer (frame (raw 7)) false false), Err (Exn PermissionError msg)) /\
    _handle_client hmac_xor call_codec call_codec give 5 true "s" draw0 false
        (Conn (Reader (frame (raw 7)) []) (Writer [] false false), O)
      = ((Conn (Reader [] rq') (Writer received false true), O), Ok tt).
Proof.
  apply (wrong_token_refused hmac_xor call_codec call_codec text_of give "t" "s" draw0
    (bytes_hex (hmac_xor (bytes_of_string "t") (bytes_of_string "07"))) (raw 0) (raw 7) (raw 8));
    first [apply call_wire; (lia || by vm_compute) | by vm_compute].
Defined.

Lemma tokenless_client_gets_challenge_witness :
  exists received rq rq',
    _call hmac_xor call_codec call_codec text_of Arrived None false hex_ping
        (Conn (Reader received []) (Writer [] false false))
      = (Conn (Reader (frame (raw 8)) rq) (Writer (frame (raw 4)) false true),
         Ok (challenge_doc (new_challenge draw0))) /\
    _handle_client hmac_xor call_codec call_codec give 5 true "s" draw0 false
        (Conn (Reader (frame (raw 4)) []) (Writer [] false false), O)
      = ((Conn (Reader [] rq') (Writer received false true), O), Ok tt).
Proof.
  apply (tokenless_client_gets_challenge hmac_xor call_codec call_codec text_of give "s" draw0 Arrived hex_ping
    (raw 4) (raw 0) (raw 8)); first [apply call_wire; (lia || by vm_compute) | by vm_compute].
Defined.

(** A codec that writes nine megabytes. *)
Definition verbose : codec := Codec
  (fun _ => Ok (replicate (Z.to_nat (9 * 1024 * 1024)) Byte.x20)) (fun _ => Err (lib_exn ValueError)).

Lemma oversized_answer_unreadable_witness :
  let blob := replicate (Z.to_nat (9 * 1024 * 1024)) Byte.x20 in
  exists msg, outcome (_read_frame verbose) (Reader (frame blob ++ []) []) = Err (Exn ValueError msg).
Proof.
  intros blob. assert (len blob = 9 * 1024 * 1024) as Hl
    by (unfold blob, len; rewrite length_replicate; apply Z2Nat.id; lia).
  apply (oversized_answer_unreadable verbose verbose false data_doc blob [] [] []).
  - reflexivity.
  - rewrite Hl. unfold Config.MAX_RPC_MESSAGE_SIZE. lia.
Defined.
