(* ===== verification/RpcDispatch.v ===== *)
(** * The RPC dispatcher ([RpcServer._dispatch] of [memnode/rpc.py])

    Every operation of the control plane on a node: its block store and
    transfers (a [Replicator]) and its peers (a [PeerManager]).  Operations
    that wait for another node are the interface [Remote]: what the
    replication layer and [connect_to] answer once the wait is over.  The QR
    renderer is an optional package and a parameter. *)
From Stdlib Require Import Strings.Ascii.
From S2P Require Import Prelude Config PyVal Protocol Blocks StoreInterface RateLimit Mux Trust.
From S2P Require Import Peers Replication RpcServer.

(** ** Requests *)

Definition request_payload (req : pyval) : result (option bytes) :=
  let? value := vget "data" req in
  match value with
  | VBytes b => Ok (Some b)
  | _ =>
      let? hex_value := vget "data_hex" req in
      match hex_value with
      | VStr s => let? b := bytes_fromhex s in Ok (Some b)
      | _ => Ok None
      end
  end.

Definition _payload_response (data : bytes) (binary : bool) : pyval :=
  if binary then VDict [("ok", VBool true); ("data", VBytes data)]
  else VDict [("ok", VBool true); ("data_hex", VStr (bytes_hex data))].

Definition stats_doc (s : Stats) : pyval :=
  VDict [("used_bytes", VInt (used_bytes s)); ("max_bytes", VInt (max_bytes s));
         ("free_bytes", VInt (free_bytes s)); ("block_count", VInt (block_count s));
         ("stripes", VInt (stripes s))].

(** The first eight characters of a key. *)
Definition short (key : string) : pyval := VStr (String.substring 0 8 key).

(** [for full in peers: if full == prefix or full.startswith(prefix)] *)
Fixpoint find_peer (py_str : pyval -> string) (prefix : pyval) (keys : list string) : result string :=
  match keys with
  | [] => Err (Exn KeyError ("no connected peer matching '" +:+ py_str prefix +:+ "'"))
  | full :: keys =>
      match prefix with
      | VStr p => if String.prefix p full then Ok full else find_peer py_str prefix keys
      | _ => Err (lib_exn TypeError)
      end
  end.

(** ** The node *)

(** [nd_world] is what lies behind the connections: what the operations below
    act on besides this node. *)
Record Node (B W : Type) := mkNode { nd_rep : Replicator B; nd_pm : PeerManager; nd_world : W }.
Arguments mkNode {B W}.
Arguments nd_rep {B W}.
Arguments nd_pm {B W}.
Arguments nd_world {B W}.

(** [store_remote], [load_remote], [load_remote_by_key_anywhere],
    [free_remote] and [connect_to]. *)
Class Remote (N : Type) := {
  ro_store : string -> bytes -> Durability -> pyval -> M N pyval;
  ro_load : string -> pyval -> pyval -> M N (option bytes);
  ro_load_anywhere : pyval -> M N (option bytes);
  ro_free : string -> pyval -> M N bool;
  ro_connect : pyval -> pyval -> M N string
}.

Section dispatch.
Context {B W : Type} `{!BlockStore B} `{!Remote (Node B W)}.
Context (py_str other_key : pyval -> string) (qrcode : option (string -> result string)).

Abbreviation MN := (M (Node B W)).

Definition on_rep {A} (m : M (Replicator B) A) : MN A := fun n =>
  let '(r, res) := m (nd_rep n) in (mkNode r (nd_pm n) (nd_world n), res).
Definition on_pm {A} (m : M PeerManager A) : MN A := fun n =>
  let '(p, res) := m (nd_pm n) in (mkNode (nd_rep n) p (nd_world n), res).

Definition _resolve_peer (prefix : pyval) : MN string := fun n =>
  (n, find_peer py_str prefix (peers (nd_pm n)).*1).

(** [except classes as e: return error(e)] *)
Definition or_error (cs : list exn_class) (msg : exn -> string) (m : MN pyval) : MN pyval :=
  mtry m (fun e => if decide (exn_cls e ∈ cs) then Some (mret (error_doc (msg e))) else None).

(** The store that did not fit here: placed on the peer with the largest
    advertised quota. *)
Definition store_elsewhere (req : pyval) (data : bytes) (d : Durability) (key : pyval) (local_err : exn)
    : MN pyval :=
  allow <- mlift (vget_default "allow_remote" (VBool true) req);;
  n <- mget;;
  peer <- (if truthy allow then mlift (best_peer_for_store (len data) (nd_pm n)) else mret None);;
  match peer with
  | Some peer =>
      or_error [OutOfMemory; RemoteOperationFailed]
        (fun e => "local: " +:+ exn_msg local_err +:+ "; remote: " +:+ exn_msg e)
        (block_id <- ro_store peer data d key;;
         mret (VDict [("ok", VBool true); ("block_id", block_id); ("location", VStr "remote");
                      ("peer", short peer)]))
  | None => mret (error_doc (exn_msg local_err))
  end.

Definition op_store (req : pyval) : MN pyval :=
  data <- mlift (request_payload req);;
  match data with
  | None => mret (error_doc "store requires 'data' (bytes) or 'data_hex' (hex)")
  | Some data =>
      dv <- mlift (vget_default "durability" (VStr "pinned") req);;
      d <- mlift (Durability_of dv);;
      key <- mlift (vget "key" req);;
      mtry
        (block_id <- on_rep (store_value other_key data d key);;
         mret (VDict [("ok", VBool true); ("block_id", VInt block_id); ("location", VStr "local")]))
        (fun e =>
           if decide (exn_cls e = BlockTooLarge) then Some (mret (error_doc (exn_msg e)))
           else if decide (exn_cls e = OutOfMemory) then Some (store_elsewhere req data d key e)
           else None)
  end.

Definition found (binary : bool) (data : option bytes) : pyval :=
  match data with
  | None => error_doc "not found"
  | Some data => _payload_response data binary
  end.

Definition op_load (req : pyval) (binary : bool) : MN pyval :=
  by_id <- mlift (vmem "block_id" req);;
  data <-
    (if by_id : bool then
       id <- mlift (vindex "block_id" req);; on_rep (load_value id)
     else
       key <- mlift (vindex "key" req);;
       data <- on_rep (load_key_value other_key key);;
       allow <- mlift (vget_default "allow_remote" (VBool true) req);;
       match data with
       | Some data => mret (Some data)
       | None => if truthy allow then ro_load_anywhere key else mret None
       end);;
  mret (found binary data).

Definition op_free (req : pyval) : MN pyval :=
  id <- mlift (vindex "block_id" req);;
  freed <- on_rep (free_value id);;
  mret (VDict [("ok", VBool freed)]).

Definition op_remote_store (req : pyval) : MN pyval :=
  data <- mlift (request_payload req);;
  match data with
  | None => mret (error_doc "remote_store requires 'data' or 'data_hex'")
  | Some data =>
      dv <- mlift (vget_default "durability" (VStr "cache") req);;
      d <- mlift (Durability_of dv);;
      prefix <- mlift (vindex "peer" req);;
      pubkey <- _resolve_peer prefix;;
      or_error [OutOfMemory; RemoteOperationFailed] exn_msg
        (key <- mlift (vget "key" req);;
         block_id <- ro_store pubkey data d key;;
         mret (VDict [("ok", VBool true); ("block_id", block_id); ("peer", short pubkey)]))
  end.

Definition op_remote_load (req : pyval) (binary : bool) : MN pyval :=
  prefix <- mlift (vindex "peer" req);;
  pubkey <- _resolve_peer prefix;;
  or_error [RemoteOperationFailed] exn_msg
    (id <- mlift (vget "block_id" req);;
     key <- mlift (vget "key" req);;
     data <- ro_load pubkey id key;;
     mret (found binary data)).

Definition op_remote_free (req : pyval) : MN pyval :=
  prefix <- mlift (vindex "peer" req);;
  pubkey <- _resolve_peer prefix;;
  or_error [RemoteOperationFailed] exn_msg
    (id <- mlift (vindex "block_id" req);;
     freed <- ro_free pubkey id;;
     mret (VDict [("ok", VBool freed)])).

Definition op_verify_peer (req : pyval) : MN pyval :=
  prefix <- mlift (vindex "peer" req);;
  pubkey <- _resolve_peer prefix;;
  method <- mlift (vget_default "method" (VStr "sas") req);;
  ok <- on_pm (verify_peer pubkey method);;
  mret (VDict [("ok", VBool ok); ("peer", short pubkey)]).

(** [_peers.pop(pubkey, None)] for whatever the request gives: only text can
    be the key of an entry. *)
Definition op_revoke_peer (req : pyval) : MN pyval :=
  given <- mlift (vget "pubkey" req);;
  pubkey <- (if truthy given then mret given
             else prefix <- mlift (vindex "peer" req);; full <- _resolve_peer prefix;; mret (VStr full));;
  match pubkey with
  | VStr key => ok <- on_pm (on_trust (revoke key));; mret (VDict [("ok", VBool ok)])
  | v => if hashable v then mret (VDict [("ok", VBool false)]) else mraise (lib_exn TypeError)
  end.

Definition qr_fields (uri : string) : pydict :=
  match render_qr_ascii qrcode uri with
  | Some qr => [("qr", VStr qr)]
  | None => [("qr", VNone); ("qr_error", VStr "install the optional 'qrcode' package for ASCII QR output")]
  end.

Definition op_pair (req : pyval) : MN pyval :=
  prefix <- mlift (vindex "peer" req);;
  pubkey <- _resolve_peer prefix;;
  n <- mget;;
  match dget pubkey (peers (nd_pm n)) with
  | None => mret (error_doc "peer not connected")
  | Some info =>
      uri <- mlift (pairing_uri (pubkey_hex info) (p_sas info) (p_name info));;
      qr <- mlift (vget "qr" req);;
      mret (VDict ([("ok", VBool true); ("peer", short pubkey); ("sas", VStr (p_sas info));
                    ("uri", VStr uri); ("verified", VBool (p_verified info))]
                   ++ (if truthy qr then qr_fields uri else [])))
  end.

Definition _dispatch (req : pyval) (binary : bool) : MN pyval :=
  op <- mlift (vget "op" req);;
  let op_is (s : string) := bool_decide (op = VStr s) in
  if op_is "store" then op_store req
  else if op_is "load" then op_load req binary
  else if op_is "free" then op_free req
  else if op_is "stats" then
    n <- mget;; mret (VDict [("ok", VBool true); ("stats", stats_doc (bs_stats (rc_blocks (nd_rep n))))])
  else if op_is "peers" then
    n <- mget;; mret (VDict [("ok", VBool true); ("peers", VList (list_peers (nd_pm n)))])
  else if op_is "connect" then
    host <- mlift (vindex "host" req);;
    port <- mlift (vindex "port" req);;
    pubkey <- ro_connect host port;;
    mret (VDict [("ok", VBool true); ("pubkey", VStr pubkey)])
  else if op_is "remote_store" then op_remote_store req
  else if op_is "remote_load" then op_remote_load req binary
  else if op_is "remote_free" then op_remote_free req
  else if op_is "trusted" then
    n <- mget;;
    mret (VDict [("ok", VBool true);
                 ("trusted", VDict ((fun kv => (kv.1, VDict kv.2)) <$> all (trust_store (nd_pm n))))])
  else if op_is "verify_peer" then op_verify_peer req
  else if op_is "revoke_peer" then op_revoke_peer req
  else if op_is "pair" then op_pair req
  else mret (error_doc ("unknown op: " +:+ py_str op)).
End dispatch.
