(* ===== verification/RpcDispatchSpec.v ===== *)
(** * What the RPC operations promise

    Stored data comes back; a store that overflows goes to a peer with the
    largest quota; what a peer prefix means. *)
From S2P Require Import Prelude Config PyVal Protocol Blocks BlocksFacts BlocksSpec StoreInterface.
From S2P Require Import RateLimit Mux Trust Peers Replication ReplicationFacts ReplicationSpec.
From S2P Require Import RpcServer RpcDispatch.

Section spec.
Context {B W : Type} `{!BlockStore B} (I : B -> Prop) `{!BlockStoreLaws B I} `{!Remote (Node B W)}.
Context (py_str other_key : pyval -> string) (qrcode : option (string -> result string)).

Abbreviation dispatch := (_dispatch py_str other_key qrcode (B := B) (W := W)).

(** ** Dispatching *)

Lemma on_rep_run {A} (m : M (Replicator B) A) (n : Node B W) r res :
  m (nd_rep n) = (r, res) -> on_rep m n = (mkNode r (nd_pm n) (nd_world n), res).
Proof. intros H. unfold on_rep. by rewrite H. Qed.

Lemma dispatch_store req binary n :
  vget "op" req = Ok (VStr "store") -> dispatch req binary n = op_store other_key req n.
Proof. intros Ho. unfold _dispatch. rewrite Ho. mrun. done. Qed.

Lemma dispatch_load req binary n :
  vget "op" req = Ok (VStr "load") -> dispatch req binary n = op_load other_key req binary n.
Proof. intros Ho. unfold _dispatch. rewrite Ho. mrun. done. Qed.

Lemma dispatch_verify req binary n :
  vget "op" req = Ok (VStr "verify_peer") -> dispatch req binary n = op_verify_peer py_str req n.
Proof. intros Ho. unfold _dispatch. rewrite Ho. mrun. done. Qed.

(** A request that is not a dictionary raises, and changes nothing. *)
Lemma dispatch_non_dict q binary n :
  (forall d, q <> VDict d) -> dispatch q binary n = (n, Err (lib_exn AttributeError)).
Proof. intros Hq. unfold _dispatch. destruct q as [| | | | | | |d]; try done. by destruct (Hq d). Qed.

(** ** Storing and loading *)

(** The payload field of either codec, and the requests a client makes. *)
Definition payload_field (binary : bool) (data : bytes) : string * pyval :=
  if binary then ("data", VBytes data) else ("data_hex", VStr (bytes_hex data)).

Definition store_request (binary : bool) (data : bytes) (d : Durability) (key : string) : pyval :=
  VDict [("op", VStr "store"); ("durability", VStr (Durability_value d)); ("key", VStr key);
         payload_field binary data].

Definition load_request (field : string) (v : pyval) : pyval := VDict [("op", VStr "load"); (field, v)].

Lemma store_request_payload binary data d key :
  request_payload (store_request binary data d key) = Ok (Some data).
Proof.
  destruct binary; [done|]. unfold request_payload.
  change (vget "data" (store_request false data d key)) with (Ok VNone). cbn [result_bind].
  change (vget "data_hex" (store_request false data d key)) with (Ok (VStr (bytes_hex data))).
  cbn [result_bind]. by rewrite fromhex_hex.
Qed.

Lemma store_request_run binary data d key n b id :
  bs_store data d (Some key) (rc_blocks (nd_rep n)) = (b, Ok id) ->
  dispatch (store_request binary data d key) binary n
    = (mkNode (with_blocks b (nd_rep n)) (nd_pm n) (nd_world n),
       Ok (VDict [("ok", VBool true); ("block_id", VInt id); ("location", VStr "local")])).
Proof.
  intros Hs. rewrite dispatch_store by by destruct binary. unfold op_store.
  rewrite store_request_payload. mrun.
  assert (vget_default "durability" (VStr "pinned") (store_request binary data d key)
          = Ok (VStr (Durability_value d))) as -> by by destruct binary.
  mrun. assert (Durability_of (VStr (Durability_value d)) = Ok d) as -> by by destruct d.
  mrun. assert (vget "key" (store_request binary data d key) = Ok (VStr key)) as -> by by destruct binary.
  mrun. unfold mtry. erewrite bind_ok; [reflexivity|]. apply on_rep_run.
  change (store_value other_key data d (VStr key)) with (on_blocks (bs_store data d (Some key))).
  by apply on_blocks_run.
Qed.

(** Loads of a block the store holds. *)
Lemma load_id_run binary id data n :
  outcome (bs_load id) (rc_blocks (nd_rep n)) = Ok (Some data) ->
  exists n', dispatch (load_request "block_id" (VInt id)) binary n = (n', Ok (_payload_response data binary)).
Proof.
  intros Hid. rewrite dispatch_load by done. unfold op_load.
  change (vmem "block_id" (load_request "block_id" (VInt id))) with (Ok true). mrun.
  change (vindex "block_id" (load_request "block_id" (VInt id))) with (Ok (VInt id)). rewrite bind_assoc. mrun.
  unfold load_value. cbn [as_int]. unfold outcome in Hid.
  destruct (bs_load id (rc_blocks (nd_rep n))) as [b' r] eqn:Hl. cbn in Hid. subst r.
  erewrite bind_ok by (by apply on_rep_run, on_blocks_run). by eexists.
Qed.

Lemma load_key_run binary key data n :
  outcome (bs_load_by_key key) (rc_blocks (nd_rep n)) = Ok (Some data) ->
  exists n', dispatch (load_request "key" (VStr key)) binary n = (n', Ok (_payload_response data binary)).
Proof.
  intros Hkey. rewrite dispatch_load by done. unfold op_load.
  change (vmem "block_id" (load_request "key" (VStr key))) with (Ok false). mrun.
  change (vindex "key" (load_request "key" (VStr key))) with (Ok (VStr key)). rewrite bind_assoc. mrun.
  unfold load_key_value. cbn [hashable key_arg]. unfold outcome in Hkey.
  destruct (bs_load_by_key key (rc_blocks (nd_rep n))) as [b' r] eqn:Hl. cbn in Hkey. subst r. rewrite bind_assoc.
  erewrite bind_ok by (by apply on_rep_run, on_blocks_run). by eexists.
Qed.

(** What a client stores it loads again, by the id in the answer and by its
    key, byte for byte, in the codec it speaks: raw bytes, or hexadecimal text
    both ways. *)
Theorem rpc_store_then_load binary data d key n b id :
  I (rc_blocks (nd_rep n)) -> bs_store data d (Some key) (rc_blocks (nd_rep n)) = (b, Ok id) ->
  exists n1,
    dispatch (store_request binary data d key) binary n
      = (n1, Ok (VDict [("ok", VBool true); ("block_id", VInt id); ("location", VStr "local")])) /\
    outcome (dispatch (load_request "block_id" (VInt id)) binary) n1 = Ok (_payload_response data binary) /\
    outcome (dispatch (load_request "key" (VStr key)) binary) n1 = Ok (_payload_response data binary).
Proof.
  intros HI Hs. eexists. split; [by apply store_request_run|].
  apply bs_store_ok in Hs as (HI' & Hid & Hkey); [|done]. specialize (Hkey key eq_refl). unfold outcome. split.
  - edestruct load_id_run as [n' ->]; [apply Hid|done].
  - edestruct load_key_run as [n' ->]; [apply Hkey|done].
Qed.

(** ** Overflow *)

Lemma or_error_inv cs msg (m : M (Node B W) pyval) n n' resp :
  or_error cs msg m n = (n', Ok resp) ->
  m n = (n', Ok resp) \/ exists e, resp = error_doc (msg e).
Proof.
  unfold or_error, mtry. destruct (m n) as [n1 [v|e]]; [by left|].
  case_decide; [|done]. intros [= <- <-]. right. by exists e.
Qed.

Lemma store_elsewhere_inv req data d key err n n' resp :
  store_elsewhere req data d key err n = (n', Ok resp) -> vget "location" resp = Ok (VStr "remote") ->
  exists p id, best_peer_for_store (len data) (nd_pm n) = Ok (Some p) /\
    ro_store p data d key n = (n', Ok id) /\ vget "block_id" resp = Ok id.
Proof.
  unfold store_elsewhere. intros (n1 & allow & [-> _]%lift_inv & H)%bind_ok_inv Hl. rewrite bind_get in H.
  apply bind_ok_inv in H as (n2 & o & Ho & H).
  destruct (truthy allow); [apply lift_inv in Ho as [-> Ho]|injection Ho as <- <-].
  - destruct o as [p|]; [|by injection H as <- <-].
    apply or_error_inv in H as [H|[e ->]]; [|done].
    apply bind_ok_inv in H as (n3 & id & Hst & H). injection H as <- <-. by exists p, id.
  - by injection H as <- <-.
Qed.

(** A store answered from elsewhere was refused here for lack of memory,
    and went to a connected peer with room for it whose advertised quota no
    other such peer exceeds; the id in the answer is the one that peer gave. *)
Theorem overflow_goes_to_best_peer req binary n n' resp :
  dispatch req binary n = (n', Ok resp) -> vget "op" req = Ok (VStr "store") ->
  vget "location" resp = Ok (VStr "remote") ->
  exists data d key r e p id i q,
    request_payload req = Ok (Some data) /\
    store_value other_key data d key (nd_rep n) = (r, Err e) /\ exn_cls e = OutOfMemory /\
    (p, i) ∈ peers (nd_pm n) /\ fits (len data) i q /\
    (forall p' i' q', (p', i') ∈ peers (nd_pm n) -> fits (len data) i' q' -> num_le q' q) /\
    ro_store p data d key (mkNode r (nd_pm n) (nd_world n)) = (n', Ok id) /\ vget "block_id" resp = Ok id.
Proof.
  intros H Ho Hl. rewrite dispatch_store in H by done. unfold op_store in H.
  apply bind_ok_inv in H as (n1 & data & [-> Hdata]%lift_inv & H). destruct data as [data|].
  2:{ injection H as <- <-. done. }
  apply bind_ok_inv in H as (n2 & dv & [-> _]%lift_inv & H).
  apply bind_ok_inv in H as (n3 & d & [-> _]%lift_inv & H).
  apply bind_ok_inv in H as (n4 & key & [-> _]%lift_inv & H).
  destruct (store_value other_key data d key (nd_rep n)) as [r [id|e]] eqn:Hs; unfold mtry in H.
  - erewrite bind_ok in H by (by apply on_rep_run). injection H as <- <-. done.
  - erewrite bind_err in H by (by apply on_rep_run).
    case_decide; [by injection H as <- <-|]. case_decide as Hoom; [|done].
    apply store_elsewhere_inv in H as (p & id & Hb & Hst & Hid); [|done]. cbn [nd_pm] in Hb.
    apply best_peer_spec in Hb as (i & q & Hin & Hf & Hmax). by exists data, d, key, r, e, p, id, i, q.
Qed.

(** ** Peers by prefix *)

Lemma find_peer_first p k keys : String.prefix p k = true -> find_peer py_str (VStr p) (k :: keys) = Ok k.
Proof. intros Hp. cbn [find_peer]. by rewrite Hp. Qed.

Lemma mark_verified_verifies key method s :
  is_trusted key s = true -> is_verified key (state_after (mark_verified key method) s) = true.
Proof.
  unfold is_trusted, dmem, state_after, mark_verified, verified_entry. destruct (dget key (ts_peers s)) as [e|]; [|done].
  intros _. change (fst ((_save;;; mret true) ?x)) with (state_after (_save;;; mret true) x).
  unfold is_verified. rewrite save_then_peers. cbn [ts_peers]. rewrite dget_dset_eq. cbn [default from_option id].
  rewrite flag_dset_ne by done. unfold flag. by rewrite dget_dset_eq.
Qed.

Lemma verify_peer_trust key method p :
  trust_store (state_after (verify_peer key method) p) = state_after (mark_verified key method) (trust_store p).
Proof.
  unfold state_after, verify_peer, mbind_m at 1, on_trust.
  destruct (mark_verified key method (trust_store p)) as [t [ok|e]]; [|done]. rewrite bind_get.
  destruct (dget key (peers (with_trust t p))); [|done]. by destruct ok.
Qed.

(** A peer prefix names the first connected peer it fits, however many it
    fits: an operator who confirms a peer by a prefix that two peers share (the
    empty one included) marks whichever of them connected first as verified. *)
Theorem ambiguous_prefix_verifies_first prefix k i rest binary n :
  peers (nd_pm n) = (k, i) :: rest -> String.prefix prefix k = true ->
  is_trusted k (trust_store (nd_pm n)) = true ->
  is_verified k (trust_store (nd_pm (state_after
    (dispatch (VDict [("op", VStr "verify_peer"); ("peer", VStr prefix)]) binary) n))) = true.
Proof.
  intros Hp Hk Ht. unfold state_after. rewrite dispatch_verify by done. unfold op_verify_peer.
  set (req := VDict _). change (vindex "peer" req) with (Ok (VStr prefix)). mrun.
  assert (_resolve_peer py_str (VStr prefix) n = (n, Ok k)) as Hr
    by (unfold _resolve_peer; rewrite Hp; cbn [fmap list_fmap fst]; by rewrite find_peer_first).
  rewrite (bind_ok _ _ _ _ _ Hr). change (vget_default "method" (VStr "sas") req) with (Ok (VStr "sas")). mrun.
  pose proof (mark_verified_verifies k (VStr "sas") _ Ht) as Hm. rewrite <-verify_peer_trust in Hm.
  unfold state_after in Hm. unfold mbind_m, on_pm.
  by destruct (verify_peer k (VStr "sas") (nd_pm n)) as [p1 [ok|e]].
Qed.
End spec.

(** ** Witnesses *)

#[local] Existing Instance demo_store.
#[local] Existing Instance demo_laws.

(** Another node that always takes the block. *)
#[local] Instance eager_remote : Remote (Node managed unit) := {
  ro_store _ _ _ _ := mret (VInt 7);
  ro_load _ _ _ := mret None;
  ro_load_anywhere _ := mret None;
  ro_free _ _ := mret false;
  ro_connect _ _ := mret ""
}.

Definition demo_host : Node managed unit := mkNode (demo_node "b") three_peers tt.

Lemma rpc_store_then_load_witness :
  exists n1,
    _dispatch str_of str_of None (store_request false (BlocksSpec.payload 5) CACHE "k") false demo_host
      = (n1, Ok (VDict [("ok", VBool true); ("block_id", VInt 4); ("location", VStr "local")])) /\
    outcome (_dispatch str_of str_of None (load_request "block_id" (VInt 4)) false) n1
      = Ok (_payload_response (BlocksSpec.payload 5) false) /\
    outcome (_dispatch str_of str_of None (load_request "key" (VStr "k")) false) n1
      = Ok (_payload_response (BlocksSpec.payload 5) false).
Proof.
  destruct (bs_store (BlocksSpec.payload 5) CACHE (Some "k") (rc_blocks (nd_rep demo_host))) as [b res] eqn:Hs.
  assert (res = Ok 4) as -> by (vm_compute in Hs; congruence).
  apply (rpc_store_then_load (managed_inv hash0) str_of str_of None false (BlocksSpec.payload 5) CACHE "k"
    demo_host b 4); [apply demo_Inv|exact Hs].
Defined.

(** Seven bytes of sixteen are pinned: ten more do not fit. *)
Definition big_request : pyval := store_request true (BlocksSpec.payload 10) PINNED "big".

Definition overflow_run : Node managed unit * result pyval :=
  _dispatch str_of str_of None big_request true demo_host.

Lemma overflow_goes_to_best_peer_witness :
  exists p i q, (p, i) ∈ peers three_peers /\ fits 10 i q /\
    (forall p' i' q', (p', i') ∈ peers three_peers -> fits 10 i' q' -> num_le q' q).
Proof.
  destruct (overflow_goes_to_best_peer str_of str_of None big_request true demo_host
    overflow_run.1 (VDict [("ok", VBool true); ("block_id", VInt 7); ("location", VStr "remote");
                     ("peer", VStr "b")]))
    as (data & d & key & r & e & p & id & i & q & Hd & _ & _ & Hin & Hf & Hmax & _);
    [vm_compute; reflexivity|reflexivity|reflexivity|].
  assert (data = BlocksSpec.payload 10) as -> by (vm_compute in Hd; vm_compute; congruence).
  exists p, i, q. split_and!; [exact Hin|apply Hf..|exact Hmax].
Defined.

Definition twins : PeerManager :=
  _register "ab01" (VStr "desktop") "x" 1 (VInt 0) "" (_register "ab00" (VStr "laptop") "x" 2 (VInt 0) ""
    (with_trust (state_after (trust noon "ab00" (VStr "laptop") false "tofu" None) (Store [] NoFile)) (pm0 false))).

Lemma ambiguous_prefix_verifies_first_witness :
  String.prefix "ab" "ab01" = true /\
  is_verified "ab00" (trust_store (nd_pm (state_after
    (_dispatch str_of str_of None (VDict [("op", VStr "verify_peer"); ("peer", VStr "ab")]) false)
    (mkNode (demo_node "b") twins tt)))) = true.
Proof.
  split; [reflexivity|].
  apply (ambiguous_prefix_verifies_first str_of str_of None "ab" "ab00"
    (Peer "ab00" (VStr "laptop") "x" 2 (VInt 0) "" false)
    [("ab01", Peer "ab01" (VStr "desktop") "x" 1 (VInt 0) "" false)]); vm_compute; reflexivity.
Defined.
