(* ===== verification/NodeStore.v ===== *)
(** * A node over a block manager

    The requests of [rpc.RpcServer._dispatch] that only touch the node's own
    store, when that store is a [BlockManager] with room to spare: each one
    changes the blocks as the reference of [Stripes] does, and nothing else of
    the node. *)
From S2P Require Import Prelude Config PyVal Protocol Blocks BlocksFacts BlocksSpec Stripes BenchBlocks.
From S2P Require Import StoreInterface RateLimit Mux Trust Peers Replication ReplicationFacts ReplicationSpec.
From S2P Require Import RpcServer RpcSpec RpcDispatch RpcDispatchSpec.

(** The answer to a store that went well. *)
Definition stored_doc (id : Z) : pyval :=
  VDict [("ok", VBool true); ("block_id", VInt id); ("location", VStr "local")].

Section node.
Context (py_hash : string -> Z) (env : nat -> rng * Z) (env_ok : forall n, RngOk (env n).1).
#[local] Instance node_blocks : BlockStore managed := managed_store py_hash env.
Context {W : Type} `{!Remote (Node managed W)} (py_str other_key : pyval -> string)
        (qrcode : option (string -> result string)).
Abbreviation dispatch := (_dispatch py_str other_key qrcode (B := managed) (W := W)).
Abbreviation node := (Node managed W).

Definition manager_of (n : node) : BlockManager := mg_blocks (rc_blocks (nd_rep n)).

(** The blocks of the node. *)
Abbreviation blocks_of n := (a_blocks (abs (manager_of n))).

(** The node with another manager, one reading of the clock later. *)
Definition with_manager (bm : BlockManager) (n : node) : node :=
  mkNode (with_blocks (Managed bm (S (mg_tick (rc_blocks (nd_rep n))))) (nd_rep n)) (nd_pm n) (nd_world n).

(** Everything of the node but its manager. *)
Definition apart (n n' : node) : Prop :=
  exists bm t, n' = mkNode (with_blocks (Managed bm t) (nd_rep n)) (nd_pm n) (nd_world n).

#[global] Instance apart_refl : Reflexive apart.
Proof. intros [r p w]. exists (mg_blocks (rc_blocks r)), (mg_tick (rc_blocks r)). by destruct r as [[]]. Qed.
#[global] Instance apart_trans : Transitive apart.
Proof. intros n1 n2 n3 (b1 & t1 & ->) (b2 & t2 & ->). by exists b2, t2. Qed.

Lemma with_manager_apart bm n : apart n (with_manager bm n).
Proof. by eexists _, _. Qed.

(** The number of stripes is fixed. *)
Lemma store_stripes r now data d key bm bm' id :
  RngOk r -> Inv py_hash bm -> a_used (a_blocks (abs bm)) + len data <= bm_max bm -> len data <= Config.MAX_BLOCK_SIZE ->
  store py_hash r now data d key bm = (bm', Ok id) -> bm_stripe_count bm' = bm_stripe_count bm.
Proof.
  intros Hr HI Hfit Hlen Hs. rewrite (abs_used py_hash) in Hfit by done.
  destruct (store_spec py_hash r bm now data d key Hr HI Hlen) as (bm1 & vs & _ & _ & Hno & Hcase).
  destruct (Hno Hfit) as [_ ->]. destruct Hcase as [(_ & bm2 & Hs2 & _ & Hst)|(? & _)]; [|lia].
  rewrite Hs in Hs2. injection Hs2 as <- _. apply (sd_count _ _ _ _ Hst).
Qed.

Lemma free_stripes id bm bm' b :
  Inv py_hash bm -> free py_hash id true bm = (bm', Ok b) -> bm_stripe_count bm' = bm_stripe_count bm.
Proof.
  intros [HI _] Hf. destruct (free_spec py_hash 0 bm id true HI) as (bm2 & Hf2 & _ & (_ & Hc & _) & _).
  rewrite Hf in Hf2. by injection Hf2 as <- _.
Qed.

Lemma store_dispatch req binary data kv key n :
  vget "op" req = Ok (VStr "store") -> request_payload req = Ok (Some data) ->
  vget_default "durability" (VStr "pinned") req = Ok (VStr "pinned") -> vget "key" req = Ok kv ->
  store_value other_key data PINNED kv = on_blocks (B := managed) (bs_store data PINNED key) ->
  Inv py_hash (manager_of n) -> len data <= Config.MAX_BLOCK_SIZE ->
  a_used (blocks_of n) + len data <= bm_max (manager_of n) ->
  exists bm now, dispatch req binary n = (with_manager bm n, Ok (stored_doc (bm_next_id (manager_of n)))) /\
    Inv py_hash bm /\ abs bm = (ref_exec (OpStore rng_id now data PINNED key) (abs (manager_of n))).1 /\
    bm_stripe_count bm = bm_stripe_count (manager_of n).
Proof.
  intros Hop Hdata Hd Hkv Hkey HI Hlen Hfit. set (e := env (mg_tick (rc_blocks (nd_rep n)))).
  assert (RngOk e.1) as He by apply env_ok.
  destruct (store_as_ref py_hash e.1 e.2 data PINNED key (manager_of n) _ HI eq_refl Hfit Hlen)
    as (bm' & Hs & HI' & Ha).
  exists bm', e.2. split; [|split; [done|split; [done|by eapply store_stripes]]]. rewrite (dispatch_store py_str other_key qrcode) by done. unfold op_store.
  rewrite Hdata. mrun. rewrite Hd. mrun. change (Durability_of (VStr "pinned")) with (Ok PINNED). mrun.
  rewrite Hkv. mrun. rewrite Hkey. unfold mtry. erewrite bind_ok; [reflexivity|].
  apply on_rep_run, on_blocks_run. by apply ticking_run.
Qed.

(** A free of an id. *)
Lemma free_dispatch id binary n :
  Inv py_hash (manager_of n) ->
  exists bm, dispatch (VDict [("op", VStr "free"); ("block_id", VInt id)]) binary n
      = (with_manager bm n, Ok (VDict [("ok", VBool (bool_decide (is_Some (blocks_of n !! id))))])) /\
    Inv py_hash bm /\ abs bm = (ref_exec (OpFree id) (abs (manager_of n))).1 /\
    bm_stripe_count bm = bm_stripe_count (manager_of n).
Proof.
  intros HI. destruct (free_as_ref py_hash id (manager_of n) _ HI eq_refl) as (bm & Hf & HI' & Ha).
  exists bm. split; [|split; [done|split; [done|by eapply free_stripes]]]. unfold _dispatch.
  change (vget "op" (VDict [("op", VStr "free"); ("block_id", VInt id)])) with (Ok (VStr "free")). mrun. cbv zeta.
  do 2 (rewrite bool_decide_eq_false_2 by done). rewrite bool_decide_eq_true_2 by done. unfold op_free.
  change (vindex "block_id" (VDict [("op", VStr "free"); ("block_id", VInt id)])) with (Ok (VInt id)). mrun.
  erewrite bind_ok; [reflexivity|]. change (free_value (B := managed) (VInt id)) with (on_blocks (B := managed) (bs_free id)).
  apply on_rep_run, on_blocks_run. by apply ticking_run.
Qed.

Lemma stats_dispatch binary n :
  dispatch (VDict [("op", VStr "stats")]) binary n
    = (n, Ok (VDict [("ok", VBool true); ("stats", stats_doc (bs_stats (rc_blocks (nd_rep n))))])).
Proof. done. Qed.
End node.
