(* ===== verification/RpcAnswers.v ===== *)
(** * The answers of the control plane: their type, and the two codecs

    Every answer is a dictionary with a boolean ["ok"] and fields of fixed
    types; and the binary codec with the client's translations around it gives
    a client exactly the answer that the JSON codec gives. *)
From S2P Require Import Prelude Config PyVal Protocol Handshake Blocks StoreInterface RateLimit Mux Trust.
From S2P Require Import Peers Replication ReplicationSpec RpcClient RpcServer RpcDispatch RpcDispatchSpec.

(** ** The type of an answer *)

Definition is_str (v : pyval) : bool := match v with VStr _ => true | _ => false end.
Definition is_dict (v : pyval) : bool := match v with VDict _ => true | _ => false end.
Definition is_list (v : pyval) : bool := match v with VList _ => true | _ => false end.
Definition is_bool (v : pyval) : bool := match v with VBool _ => true | _ => false end.
Definition is_bytes (v : pyval) : bool := match v with VBytes _ => true | _ => false end.
Definition is_hex (v : pyval) : bool :=
  match v with VStr s => match bytes_fromhex s with Ok _ => true | Err _ => false end | _ => false end.

(** The fields of an answer that succeeded ([ok]) or did not, in the binary
    codec or the other.  The id of a block on another node is whatever that
    node put in its reply. *)
Definition field_typed (binary ok : bool) (f : string * pyval) : bool :=
  let '(k, v) := f in
  if decide (k = "ok") then bool_decide (v = VBool ok)
  else if decide (k = "error") then negb ok && is_str v
  else if decide (k = "data") then binary && ok && is_bytes v
  else if decide (k = "data_hex") then negb binary && ok && is_hex v
  else if decide (k = "location") then ok && (bool_decide (v = VStr "local") || bool_decide (v = VStr "remote"))
  else if decide (k = "qr") then is_str v || is_none v
  else if decide (k = "verified") then is_bool v
  else if decide (k ∈ ["stats"; "trusted"]) then is_dict v
  else if decide (k = "peers") then is_list v
  else if decide (k = "block_id") then ok
  else bool_decide (k ∈ ["peer"; "pubkey"; "sas"; "uri"; "qr_error"]) && is_str v.

Definition answer_typed (binary : bool) (v : pyval) : bool :=
  match v with
  | VDict d =>
      match dget "ok" d with
      | Some (VBool ok) => forallb (field_typed binary ok) d
      | _ => false
      end
  | _ => false
  end.

Section answers.
Context {B W : Type} `{!BlockStore B} `{!Remote (Node B W)}.
Context (py_str other_key : pyval -> string) (qrcode : option (string -> result string)).

Abbreviation dispatch := (_dispatch py_str other_key qrcode (B := B) (W := W)).
Abbreviation typed binary := (fun v => answer_typed binary v = true).

Lemma error_typed binary msg : answer_typed binary (error_doc msg) = true.
Proof. by destruct binary. Qed.

Lemma found_typed binary data : answer_typed binary (found binary data) = true.
Proof.
  destruct data as [data|]; [|apply error_typed]. destruct binary; [done|].
  unfold found, _payload_response, answer_typed. cbn [dget decide]. cbn -[bytes_fromhex bytes_hex].
  by rewrite fromhex_hex.
Qed.

Lemma store_typed binary req : returns (typed binary) (op_store other_key req (B := B) (W := W)).
Proof.
  unfold op_store, store_elsewhere, or_error. rets; try apply error_typed; by destruct binary.
Qed.

Lemma load_typed binary req : returns (typed binary) (op_load other_key req binary (B := B) (W := W)).
Proof. unfold op_load. apply returns_bind. intros a. apply returns_bind. rets. apply found_typed. Qed.

Lemma remote_store_typed binary req : returns (typed binary) (op_remote_store py_str req (B := B) (W := W)).
Proof. unfold op_remote_store, or_error. rets; try apply error_typed; by destruct binary. Qed.

Lemma remote_load_typed binary req : returns (typed binary) (op_remote_load py_str req binary (B := B) (W := W)).
Proof. unfold op_remote_load, or_error. rets; try apply error_typed; apply found_typed. Qed.

(** Whatever the booleans in an answer. *)
Ltac bools :=
  repeat match goal with b : bool |- _ => destruct b end;
  repeat match goal with |- context [match ?x with _ => _ end] =>
    lazymatch x with context [match _ with _ => _ end] => fail | _ => destruct x end end; try done.

Lemma remote_free_typed binary req : returns (typed binary) (op_remote_free py_str req (B := B) (W := W)).
Proof. unfold op_remote_free, or_error. rets; try apply error_typed; bools. Qed.

Lemma free_typed binary req : returns (typed binary) (op_free req (B := B) (W := W)).
Proof. unfold op_free. rets; bools. Qed.

Lemma verify_typed binary req : returns (typed binary) (op_verify_peer py_str req (B := B) (W := W)).
Proof. unfold op_verify_peer. rets; bools. Qed.

Lemma revoke_typed binary req : returns (typed binary) (op_revoke_peer py_str req (B := B) (W := W)).
Proof. unfold op_revoke_peer. rets; bools. Qed.

Lemma pair_typed binary req : returns (typed binary) (op_pair py_str qrcode req (B := B) (W := W)).
Proof.
  unfold op_pair, qr_fields. rets; try apply error_typed.
  bools.
Qed.

Lemma dispatch_typed binary req : returns (typed binary) (dispatch req binary).
Proof.
  unfold _dispatch. apply returns_bind. intros op. cbv zeta.
  repeat match goal with |- returns _ (if bool_decide ?P then _ else _) => destruct (bool_decide P) end.
  all: first [apply store_typed | apply load_typed | apply free_typed | apply remote_store_typed
    | apply remote_load_typed | apply remote_free_typed | apply verify_typed | apply revoke_typed
    | apply pair_typed | rets; first [apply error_typed | by destruct binary]].
Qed.

(** C26: every request that is a dictionary is answered, whatever its operation
    and its fields, by a dictionary whose ["ok"] is a boolean and whose fields
    are those of the protocol, with their types: the payload as bytes in the
    binary codec and as hexadecimal text in the other, and only in an answer
    that succeeded; an error message, always text, only in one that did not. *)
Theorem answers_well_typed d binary (c : conn) (n : Node B W) :
  exists c' n' v, answer dispatch binary (VDict d) (c, n) = ((c', n'), Ok v) /\ answer_typed binary v = true.
Proof.
  unfold answer, mtry, on_node. cbn [fst snd].
  destruct (dispatch (VDict d) binary n) as [n' [v|e]] eqn:Hd.
  - exists c, n', v. split; [done|]. by apply (dispatch_typed binary (VDict d) n n').
  - exists c, n', (error_doc (exn_msg e)). split; [done|]. apply error_typed.
Qed.

(** ** The two codecs *)

(** An answer of the JSON codec is left as it is. *)
Lemma normalise_plain v : answer_typed false v = true -> _normalise_response v = Ok v.
Proof.
  unfold answer_typed. destruct v as [| | | | | | |d]; try done.
  destruct (dget "ok" d) as [[|ok| | | | | |]|]; try done. intros Hall.
  unfold _normalise_response. cbn [vget result_bind].
  destruct (dget "data" d) as [v|] eqn:Hv; [|done]. apply dget_Some_elem in Hv.
  rewrite forallb_forall in Hall. apply list_elem_of_In, Hall in Hv. by cbn in Hv.
Qed.

Lemma normalise_found data : _normalise_response (found true data) = Ok (found false data).
Proof. by destruct data. Qed.

(** The same request in the two codecs. *)
Section translated.
Context (d q : pydict) (Hnodata : dget "data" d = None) (Hq : _to_binary_request d = Ok q).

Lemma translated_field k : k <> "data" -> k <> "data_hex" -> dget k q = dget k d.
Proof.
  intros H1 H2. unfold _to_binary_request in Hq. destruct (dget "data_hex" d) as [v|]; [|by simplify_eq].
  destruct v as [| | | |s| | |]; try done. destruct (bytes_fromhex s) as [b|]; [|done]. cbn in Hq. simplify_eq.
  rewrite dget_dset_ne, dget_ddel_ne by done. done.
Qed.

Lemma translated_payload : request_payload (VDict q) = request_payload (VDict d).
Proof.
  unfold _to_binary_request in Hq. destruct (dget "data_hex" d) as [v|] eqn:Hh; [|by simplify_eq].
  destruct v as [| | | |s| | |]; try done. destruct (bytes_fromhex s) as [b|] eqn:Hb; [|done].
  cbn in Hq. simplify_eq. unfold request_payload. cbn [vget result_bind].
  rewrite dget_dset_eq, Hnodata, Hh. cbn. by rewrite Hb.
Qed.

Lemma vget_translated k : k <> "data" -> k <> "data_hex" -> vget k (VDict q) = vget k (VDict d).
Proof. intros. cbn. by rewrite translated_field. Qed.
Lemma vget_default_translated k x :
  k <> "data" -> k <> "data_hex" -> vget_default k x (VDict q) = vget_default k x (VDict d).
Proof. intros. cbn. by rewrite translated_field. Qed.
Lemma vindex_translated k : k <> "data" -> k <> "data_hex" -> vindex k (VDict q) = vindex k (VDict d).
Proof. intros. cbn. by rewrite translated_field. Qed.
Lemma vmem_translated k : k <> "data" -> k <> "data_hex" -> vmem k (VDict q) = vmem k (VDict d).
Proof. intros. cbn. unfold dmem. by rewrite translated_field. Qed.

Ltac translate := rewrite ?translated_payload, ?vget_translated, ?vget_default_translated,
  ?vindex_translated, ?vmem_translated by done.

(** What a client of each codec sees. *)
Definition same_answer (x y : Node B W * result pyval) : Prop :=
  x.1 = y.1 /\
  match x.2, y.2 with
  | Ok v, Ok w => _normalise_response v = Ok w
  | Err e, Err e' => e = e'
  | _, _ => False
  end.

Lemma same_plain (m : M (Node B W) pyval) n : returns (typed false) m -> same_answer (m n) (m n).
Proof.
  intros Hm. split; [done|]. destruct (m n) as [n' [v|e]] eqn:E; [|done]. by apply normalise_plain, (Hm n n').
Qed.

Lemma same_bind {A} (m : M (Node B W) A) f g n :
  (forall a n', same_answer (f a n') (g a n')) -> same_answer (mbind_m m f n) (mbind_m m g n).
Proof. intros H. unfold mbind_m. destruct (m n) as [n' [a|e]]; [apply H|done]. Qed.

Lemma same_found data n : same_answer (mret (found true data) n) (mret (found false data) n).
Proof. split; [done|]. apply normalise_found. Qed.

Lemma same_or_error cs msg (m m' : M (Node B W) pyval) n :
  same_answer (m n) (m' n) -> same_answer (or_error cs msg m n) (or_error cs msg m' n).
Proof.
  unfold or_error, mtry, same_answer. destruct (m n) as [n1 [v|e]], (m' n) as [n2 [w|e']]; cbn; try naive_solver.
  intros [-> ->]. by case_decide.
Qed.

Lemma load_same n :
  same_answer (op_load other_key (VDict q) true n) (op_load other_key (VDict d) false n).
Proof.
  unfold op_load. translate. apply same_bind. intros by_id n1. apply same_bind. intros data n2. apply same_found.
Qed.

Lemma remote_load_same n :
  same_answer (op_remote_load py_str (VDict q) true n) (op_remote_load py_str (VDict d) false n).
Proof.
  unfold op_remote_load. translate. apply same_bind. intros prefix n1. apply same_bind. intros pubkey n2.
  apply same_or_error. do 3 (apply same_bind; intros ? ?). apply same_found.
Qed.

Lemma store_same : op_store other_key (VDict q) = op_store other_key (VDict d) (B := B) (W := W).
Proof. unfold op_store, store_elsewhere. by translate. Qed.

Lemma free_same : op_free (VDict q) = op_free (VDict d) (B := B) (W := W).
Proof. unfold op_free. by translate. Qed.

Lemma remote_store_same : op_remote_store py_str (VDict q) = op_remote_store py_str (VDict d) (B := B) (W := W).
Proof. unfold op_remote_store. by translate. Qed.

Lemma remote_free_same : op_remote_free py_str (VDict q) = op_remote_free py_str (VDict d) (B := B) (W := W).
Proof. unfold op_remote_free. by translate. Qed.

Lemma verify_same : op_verify_peer py_str (VDict q) = op_verify_peer py_str (VDict d) (B := B) (W := W).
Proof. unfold op_verify_peer. by translate. Qed.

Lemma revoke_same : op_revoke_peer py_str (VDict q) = op_revoke_peer py_str (VDict d) (B := B) (W := W).
Proof. unfold op_revoke_peer. by translate. Qed.

Lemma pair_same :
  op_pair py_str qrcode (VDict q) = op_pair py_str qrcode (VDict d) (B := B) (W := W).
Proof. unfold op_pair. by translate. Qed.

Lemma dispatch_same n : same_answer (dispatch (VDict q) true n) (dispatch (VDict d) false n).
Proof.
  unfold _dispatch. translate. apply same_bind. intros op n1. cbv zeta.
  rewrite store_same, free_same, remote_store_same, remote_free_same, verify_same, revoke_same, pair_same.
  translate.
  repeat match goal with |- same_answer ((if bool_decide ?P then _ else _) _) _ => destruct (bool_decide P) end.
  all: first [apply load_same | apply remote_load_same | apply same_plain].
  all: first [apply store_typed | apply free_typed | apply remote_store_typed
    | apply remote_free_typed | apply verify_typed | apply revoke_typed
    | apply pair_typed | rets; first [apply error_typed | done]].
Qed.

(** One request of the client to its node, without the connection. *)
Definition node_call (binary : bool) (req : pydict) : M (Node B W) pyval :=
  q <- mlift (if binary then _to_binary_request req else Ok req);;
  v <- mtry (dispatch (VDict q) binary) (fun e => Some (mret (error_doc (exn_msg e))));;
  mlift (if binary then _normalise_response v else Ok v).

Lemma node_call_codec n : node_call true d n = node_call false d n.
Proof.
  unfold node_call. rewrite Hq. mrun. destruct (dispatch_same n) as [Hn Hv]. unfold mbind_m, mtry, mlift, mret.
  destruct (dispatch (VDict q) true n) as [n1 [v|e]], (dispatch (VDict d) false n) as [n2 [w|e']];
    cbn in Hn, Hv; try done; subst n2; [by rewrite Hv|]. by subst e'.
Qed.

(** C24: the two codecs agree on what the dispatcher does.  For every request
    without a ["data"] field whose payload, if it has one, is valid hexadecimal
    text (the client raises on any other, where the server answers JSON with an
    error): the request as the client turns it for the binary codec leaves the
    node in the same state as the request itself in JSON, and the binary answer,
    presented as the client presents it, is the JSON answer, whatever the
    operation, errors included.  Framing and its size limits are outside: JSON
    doubles the size of a payload. *)
Theorem binary_codec_equivalent (c : conn) (n : Node B W) :
  let '(st, vb) := answer dispatch true (VDict q) (c, n) in
  let '(st', vj) := answer dispatch false (VDict d) (c, n) in
  st = st' /\ (let? v := vb in _normalise_response v) = vj.
Proof.
  destruct (dispatch_same n) as [Hn Hv]. unfold answer, mtry, on_node. cbn [fst snd].
  destruct (dispatch (VDict q) true n) as [n1 [v|e]], (dispatch (VDict d) false n) as [n2 [w|e']];
    cbn in Hn, Hv; try done; simplify_eq; [done|].
  split; [done|]. cbn [mbind_m mlift vget result_bind mret]. by apply normalise_plain, error_typed.
Qed.
End translated.
End answers.

(** ** Witness: ten bytes that overflow to a peer, in both codecs *)

#[local] Existing Instance demo_store.
#[local] Existing Instance eager_remote.

Definition hex_request : pydict :=
  [("op", VStr "store"); ("data_hex", VStr (bytes_hex (BlocksSpec.payload 10))); ("durability", VStr "pinned");
   ("key", VStr "k")].

Lemma binary_codec_equivalent_witness :
  let q := [("op", VStr "store"); ("durability", VStr "pinned"); ("key", VStr "k");
            ("data", VBytes (BlocksSpec.payload 10))] in
  let c := Conn (Reader [] []) (Writer [] false false) in
  let dispatch := _dispatch str_of str_of None in
  let '(st, vb) := answer dispatch true (VDict q) (c, demo_host) in
  let '(st', vj) := answer dispatch false (VDict hex_request) (c, demo_host) in
  st = st' /\ (let? v := vb in _normalise_response v) = vj.
Proof.
  intros q. apply (binary_codec_equivalent str_of str_of None hex_request q); vm_compute; reflexivity.
Defined.
