(* ===== verification/CliSpec.v ===== *)
(** * What the command-line client promises its user *)
From S2P Require Import Prelude Config PyVal Protocol Channel RpcAuth Utf8 Blocks BlocksFacts BlocksSpec StoreInterface.
From S2P Require Import RateLimit Mux Trust Peers Replication ReplicationSpec RpcClient Cli RpcServer RpcDispatch.
From S2P Require Import RpcDispatchSpec RpcAnswers.
From Stdlib Require Import Ascii.

(** ** The token *)

(** The daemon and the client share the token: whatever the token file held
    when the daemon started, the client without options finds in it the token
    the daemon uses. *)
Theorem client_finds_daemon_token home files fresh file f token :
  fresh <> [] -> load_or_create_token fresh file = (Some f, token) ->
  files (default_token_path home) = Ok (Some (tf_text f)) ->
  _resolve_token home files None None = Ok (Some token).
Proof.
  intros Hf Hl Hfile. unfold _resolve_token. rewrite Hfile.
  assert (strip_by is_blank (tf_text f) = token /\ token <> "") as [-> Hne].
  { revert Hl. unfold load_or_create_token. destruct file as [f0|].
    - case_decide; intros [= <- <-]; [|done]. cbn [tf_text]. rewrite bytes_hex_strip.
      split; [done|by apply bytes_hex_nonempty].
    - intros [= <- <-]. cbn [tf_text]. rewrite bytes_hex_strip. split; [done|by apply bytes_hex_nonempty]. }
  by rewrite decide_False.
Qed.

(** ** Exit codes *)

Section exit.
Context {S : Type} (py_str : pyval -> string) (dumps : pyval -> result string).
Context (home : string) (files : string -> result (option string)).
Context (rpc : string -> Z -> option string -> bool -> pydict -> M S pyval).

Abbreviation run_op := (run_op (S := S) py_str).
Abbreviation run := (_run (S := S) py_str dumps home files rpc).

(** A command that ends without an answer made no request. *)
Lemma no_answer_no_request call c st st' : run_op call c st = (st', Ok None) -> st'.2 = st.2.
Proof.
  destruct c; cbn [Cli.run_op]; cbv zeta; intros H; try case_decide.
  all: repeat (apply bind_ok_inv in H as (? & ? & ? & H)); try discriminate.
  all: injection H as ->; match goal with H : print_err _ _ = _ |- _ => injection H as <- _ end; done.
Qed.

(** What the exit code says: 2, and no request was sent; or an answer was
    received and is the last thing printed, with 0 when its ["ok"] holds and 1
    when it does not. *)
Theorem exit_code_meaning args st st' code :
  run args st = (st', Ok code) ->
  (code = 2 /\ st'.2 = st.2) \/
  exists resp line out ok,
    co_out st'.1 = out ++ [line] /\ dumps resp = Ok line /\ vget "ok" resp = Ok ok /\
    code = (if truthy ok then 0 else 1).
Proof.
  unfold _run. intros (s1 & token & [-> _]%lift_inv & H)%bind_ok_inv. cbv zeta in H.
  apply bind_ok_inv in H as (s2 & [resp|] & Hop & H).
  - right. unfold finish in H. apply bind_ok_inv in H as (s3 & line & [-> Hd]%lift_inv & H).
    apply bind_ok_inv in H as (s4 & [] & Hp & H). injection Hp as <-.
    apply bind_ok_inv in H as (s5 & ok & [-> Hok]%lift_inv & H). injection H as <- <-.
    by exists resp, line, (co_out s2.1), ok.
  - left. apply no_answer_no_request in Hop. injection H as <- <-. done.
Qed.
End exit.

(** ** Storing and loading text *)

Section text.
Context {B W : Type} `{!BlockStore B} (I : B -> Prop) `{!BlockStoreLaws B I} `{!Remote (Node B W)}.
Context (py_str other_key : pyval -> string) (qrcode : option (string -> result string)).
Context (dumps : pyval -> result string) (home : string) (files : string -> result (option string)).

(** The world of the client: a node that it can reach. *)
Definition node_rpc (host : string) (port : Z) (token : option string) (binary : bool) (req : pydict) : M (Node B W) pyval :=
  node_call py_str other_key qrcode binary req.

Abbreviation cli := (Cli.main (S := Node B W) py_str dumps home files node_rpc).
Abbreviation dispatch := (_dispatch py_str other_key qrcode (B := B) (W := W)).

Lemma node_call_run (binary : bool) req q n n' v w :
  (if binary then _to_binary_request req else Ok req) = Ok q ->
  dispatch (VDict q) binary n = (n', Ok v) ->
  (if binary then _normalise_response v else Ok v) = Ok w ->
  node_call py_str other_key qrcode binary req n = (n', Ok w).
Proof.
  intros Hq Hd Hw. unfold node_call. rewrite Hq. mrun. unfold mbind_m, mtry. rewrite Hd. unfold mlift. by rewrite Hw.
Qed.

(** A request translated into the binary codec gives the same answer. *)
Lemma either_codec binary req q n n' w :
  dget "data" req = None -> _to_binary_request req = Ok q ->
  node_call py_str other_key qrcode true req n = (n', Ok w) ->
  node_call py_str other_key qrcode binary req n = (n', Ok w).
Proof. intros Hn Hq H. destruct binary; [done|]. by rewrite <-(node_call_codec _ _ _ req q). Qed.

Lemma in_world_run {S A} (m : M S A) con (s s' : S) r : m s = (s', r) -> in_world m (con, s) = ((con, s'), r).
Proof. intros H. unfold in_world. cbn. by rewrite H. Qed.

Lemma main_run args token con n con' n' resp line ok :
  _resolve_token home files (a_token args) (a_token_file args) = Ok token ->
  run_op py_str (node_rpc (a_host args) (a_port args) token (negb (a_json args))) (a_op args) (con, n)
    = ((con', n'), Ok (Some resp)) ->
  dumps resp = Ok line -> vget "ok" resp = Ok (VBool ok) ->
  cli args (con, n) = ((Console (co_out con' ++ [line]) (co_err con'), n'), Ok (if ok then 0 else 1)).
Proof.
  intros Ht Hop Hd Hok. unfold Cli.main, mtry, _run. rewrite Ht. mrun. cbv zeta. rewrite (bind_ok _ _ _ _ _ Hop).
  unfold finish. rewrite Hd. mrun. unfold print. mrun. rewrite Hok. mrun. done.
Qed.

Definition stored_doc (id : Z) : pyval :=
  VDict [("ok", VBool true); ("block_id", VInt id); ("location", VStr "local")].
Definition text_doc (text : string) : pyval :=
  VDict [("ok", VBool true); ("data_hex", VStr (bytes_hex (bytes_of_string text))); ("text", VStr text)].

Lemma translate_store data durability key :
  _to_binary_request [("op", VStr "store"); ("data_hex", VStr (bytes_hex data)); ("durability", VStr durability);
                      ("key", VStr key)]
    = Ok [("op", VStr "store"); ("durability", VStr durability); ("key", VStr key); ("data", VBytes data)].
Proof.
  unfold _to_binary_request. change (dget "data_hex" _) with (Some (VStr (bytes_hex data))). cbn iota.
  by rewrite fromhex_hex.
Qed.

Lemma store_call binary text d key n b id :
  key <> "" -> bs_store (bytes_of_string text) d (Some key) (rc_blocks (nd_rep n)) = (b, Ok id) ->
  exists req, store_req (Some text) None (Some key) (Durability_value d) = Ok req /\
    node_call py_str other_key qrcode binary req n
      = (mkNode (with_blocks b (nd_rep n)) (nd_pm n) (nd_world n), Ok (stored_doc id)).
Proof.
  intros Hk Hs. eexists. split; [reflexivity|]. unfold key_part, given. rewrite decide_False by done.
  cbn [app]. eapply either_codec; [done|apply translate_store|].
  eapply node_call_run; [apply translate_store| |].
  - by apply (store_request_run py_str other_key qrcode true).
  - done.
Qed.

Lemma load_call binary text key n :
  outcome (bs_load_by_key key) (rc_blocks (nd_rep n)) = Ok (Some (bytes_of_string text)) ->
  exists n', node_call py_str other_key qrcode binary [("op", VStr "load"); ("key", VStr key)] n
    = (n', Ok (VDict [("ok", VBool true); ("data_hex", VStr (bytes_hex (bytes_of_string text)))])).
Proof.
  intros Hl. edestruct (load_key_run py_str other_key qrcode true) as [n' Hn']; [exact Hl|].
  exists n'. eapply either_codec; [done|reflexivity|]. eapply node_call_run; [reflexivity|exact Hn'|done].
Qed.

Lemma with_text_run text :
  utf8_valid (bytes_of_string text) = true ->
  with_text true (VDict [("ok", VBool true); ("data_hex", VStr (bytes_hex (bytes_of_string text)))])
    = Ok (text_doc text).
Proof.
  intros Hu. unfold with_text, add_text. set (doc := VDict _).
  change (vget "ok" doc) with (Ok (VBool true)). cbn [result_bind truthy andb].
  change (vindex "data_hex" doc) with (Ok (VStr (bytes_hex (bytes_of_string text)))). cbn [result_bind doc].
  rewrite fromhex_hex. cbn [result_bind]. rewrite utf8_replace_valid by done.
  assert (String.string_of_list_byte (bytes_of_string text) = text) as ->
    by apply String.string_of_list_byte_of_string. done.
Qed.

(** C39: the user's view, in either codec: [store --text T --key K] on a node with
    room prints the answer and exits with 0, and [load --key K --as-text] then
    prints an answer whose text is [T], and exits with 0. *)
Theorem cli_store_then_load (legacy_json : bool) token text d key con (n : Node B W) b id line line' :
  I (rc_blocks (nd_rep n)) -> key <> "" -> utf8_valid (bytes_of_string text) = true ->
  bs_store (bytes_of_string text) d (Some key) (rc_blocks (nd_rep n)) = (b, Ok id) ->
  _resolve_token home files None None = Ok token ->
  dumps (stored_doc id) = Ok line -> dumps (text_doc text) = Ok line' ->
  let args op := Args "127.0.0.1" Config.RPC_TCP_PORT None None legacy_json op in
  exists n1 n2,
    cli (args (OpStore (Some text) None (Some key) (Durability_value d))) (con, n)
      = ((Console (co_out con ++ [line]) (co_err con), n1), Ok 0) /\
    cli (args (OpLoad (Some key) None true)) (con, n1)
      = ((Console (co_out con ++ [line']) (co_err con), n2), Ok 0).
Proof.
  intros HI Hk Hu Hs Ht Hl Hl' args.
  destruct (store_call (negb legacy_json) text d key n b id Hk Hs) as (req & Hreq & Hcall).
  apply bs_store_ok in Hs as (_ & _ & Hkey); [|done].
  destruct (load_call (negb legacy_json) text key (mkNode (with_blocks b (nd_rep n)) (nd_pm n) (nd_world n)))
    as [n2 Hload]; [by apply Hkey|].
  eexists _, n2. split.
  - eapply (main_run _ token con n con _ (stored_doc id) line true); [done| |done|done]. cbn [args a_op run_op].
    rewrite Hreq. mrun. by erewrite bind_ok by (by apply in_world_run).
  - eapply (main_run _ token con _ con _ (text_doc text) line' true); [done| |done|done]. cbn [args a_op run_op].
    assert (selector (Some key) None = [("key", VStr key)]) as ->
      by (unfold selector, given; by rewrite decide_False).
    rewrite decide_False by done.
    erewrite bind_ok by (by apply in_world_run). rewrite with_text_run by done. done.
Qed.
End text.

(** ** Witnesses *)

#[local] Existing Instance demo_store.
#[local] Existing Instance demo_laws.
#[local] Existing Instance eager_remote.

Definition token_dir (path : string) : result (option string) :=
  if decide (path = "/root/.memcloud/rpc_token") then Ok (Some ("7f" +:+ String.String "010"%char "")) else Ok None.

Lemma client_finds_daemon_token_witness :
  _resolve_token "/root" token_dir None None = Ok (Some "7f").
Proof.
  apply (client_finds_daemon_token "/root" token_dir [Byte.x01]
    (Some (TokenFile ("7f" +:+ String.String "010"%char "") mode_600))
    (TokenFile ("7f" +:+ String.String "010"%char "") mode_600) "7f"); [done|by vm_compute|by vm_compute].
Defined.

Definition show (v : pyval) : result string :=
  Ok (match v with VDict d => pretty (Z.of_nat (length d)) | _ => "" end).

Lemma exit_code_meaning_witness :
  let run := _run str_of show "/root" token_dir (node_rpc str_of str_of None) in
  let st := (Console [] [], demo_host) in
  let st' := state_after (run (default_args OpStats)) st in
  (0 = 2 /\ st'.2 = st.2) \/
  exists resp line out ok,
    co_out st'.1 = out ++ [line] /\ show resp = Ok line /\ vget "ok" resp = Ok ok /\
    0 = (if truthy ok then 0 else 1).
Proof.
  intros run st st'.
  apply (exit_code_meaning str_of show "/root" token_dir (node_rpc str_of str_of None)
    (default_args OpStats) st st' 0). by vm_compute.
Defined.

Lemma cli_store_then_load_witness :
  let args op := Args "127.0.0.1" Config.RPC_TCP_PORT None None true op in
  let cli := Cli.main str_of show "/root" token_dir (node_rpc str_of str_of None) in
  exists n1 n2,
    cli (args (OpStore (Some "hi") None (Some "k") "pinned")) (Console [] [], demo_host)
      = ((Console ["3"] [], n1), Ok 0) /\
    cli (args (OpLoad (Some "k") None true)) (Console [] [], n1)
      = ((Console ["3"] [], n2), Ok 0).
Proof.
  intros args cli.
  destruct (bs_store (bytes_of_string "hi") PINNED (Some "k") (rc_blocks (nd_rep demo_host))) as [b res] eqn:Hs.
  assert (res = Ok 4) as -> by (vm_compute in Hs; congruence).
  apply (cli_store_then_load (managed_inv hash0) str_of str_of None show "/root" token_dir true
    (Some "7f") "hi" PINNED "k" (Console [] []) demo_host b 4 "3" "3");
    [apply demo_Inv|done|by vm_compute|exact Hs|by vm_compute|reflexivity|reflexivity].
Defined.
