(* ===== verification/Cluster.v ===== *)
(** * Nodes that serve each other

    The operations of the control plane that wait for another node, run
    against that node: an instance of the interface [Remote] whose world is the
    other nodes of the network.  A request is sent, the peer handles its
    messages in order, its answers are handled here, and the request goes on
    with what its future holds: the schedule in which nothing else happens
    between these two nodes and no wait times out.  A connected peer that is
    not in the network never answers.

    [fresh] gives the request ids ([uuid4().hex]) and [clock] the times at
    which messages are handled; [me] is this node's public key. *)
From S2P Require Import Prelude Config PyVal Protocol Blocks StoreInterface RateLimit Mux Trust Peers.
From S2P Require Import Replication ReplicationFacts ReplicationSpec RpcServer RpcDispatch.

Record Net (B : Type) := mkNet { net_nodes : gmap string (Replicator B); net_tick : nat }.
Arguments mkNet {B}.
Arguments net_nodes {B}.
Arguments net_tick {B}.

Section cluster.
Context {B : Type} `{!BlockStore B}.
Context (py_str other_key : pyval -> string) (me : string) (fresh : nat -> string) (clock : nat -> Z).
Context (timeout : string).

Abbreviation node := (Node B (Net B)).
Abbreviation MR := (M (Replicator B)).

(** The messages queued for [p] between [s] and [s'] reach it, and its answers
    come back. *)
Definition exchange (p : string) (s s' : Replicator B) (net : Net B) : Replicator B * Net B :=
  let now := clock (net_tick net) in
  match net_nodes net !! p with
  | None => (s', net)
  | Some r =>
      let r' := handle_all py_str other_key now me (sent p s s') r in
      (handle_all py_str other_key now p (sent me r r') s',
       mkNet (<[p := r']> (net_nodes net)) (net_tick net))
  end.

(** A request to [p]: the part up to its wait, and the part after it. *)
Definition request {A} (p : string) (begin : string -> MR nat) (finish : string -> option fut -> MR A)
    : M node A := fun n =>
  let rid := fresh (net_tick (nd_world n)) in
  let world := mkNet (net_nodes (nd_world n)) (S (net_tick (nd_world n))) in
  match begin rid (nd_rep n) with
  | (s1, Err e) => (mkNode s1 (nd_pm n) world, Err e)
  | (s1, Ok f) =>
      let '(s2, world) := exchange p (nd_rep n) s1 world in
      let '(s3, res) := finish rid (rc_futures s2 !! f) s2 in
      (mkNode s3 (nd_pm n) world, res)
  end.

Definition store_remote (p : string) (data : bytes) (d : Durability) (key : pyval) : M node pyval :=
  request p (fun rid => store_remote_begin p rid data d key) (fun rid => store_remote_end py_str rid timeout).

(** From the reply on: the answer, or the bytes of the pull. *)
Definition load_remote_end (rid : string) (f : option fut) : MR (option bytes) :=
  mfinally
    (lr <- load_remote_reply py_str rid timeout f;;
     match lr with
     | LDone o => mret o
     | LPull c =>
         r <- mget;;
         data <- mlift (load_remote_pull timeout (rc_futures r !! c));;
         mret (Some data)
     end)
    (load_remote_cleanup rid).

Definition load_remote (p : string) (block_id key : pyval) : M node (option bytes) :=
  request p (fun rid => load_remote_begin p rid block_id key) load_remote_end.

Fixpoint load_from (key : pyval) (ps : list string) : M node (option bytes) :=
  match ps with
  | [] => mret None
  | p :: ps =>
      data <- mtry (load_remote p VNone key)
        (fun e => if decide (exn_cls e = RemoteOperationFailed) then Some (mret None) else None);;
      match data with
      | Some data => mret (Some data)
      | None => load_from key ps
      end
  end.

Definition load_remote_by_key_anywhere (key : pyval) : M node (option bytes) :=
  n <- mget;; load_from key (peers (nd_pm n)).*1.

Definition free_remote (p : string) (block_id : pyval) : M node bool :=
  request p (fun rid => free_remote_begin p rid block_id) (fun rid => free_remote_end rid timeout).

Context (connect_to : pyval -> pyval -> M node string).

Definition cluster_remote : Remote node := {|
  ro_store := store_remote;
  ro_load := load_remote;
  ro_load_anywhere := load_remote_by_key_anywhere;
  ro_free := free_remote;
  ro_connect := connect_to
|}.
End cluster.
