(* ===== verification/ClusterSpec.v ===== *)
(** * What a network of nodes promises

    Overflow end to end: a block that does not fit here is stored on a peer
    and read back from there. *)
From S2P Require Import Prelude Config PyVal Protocol Blocks BlocksFacts BlocksSpec StoreInterface.
From S2P Require Import RateLimit Mux Trust Peers Replication ReplicationFacts ReplicationSpec.
From S2P Require Import RpcServer RpcDispatch RpcDispatchSpec Cluster.

Section spec.
Context {B : Type} `{!BlockStore B} (I : B -> Prop) `{!BlockStoreLaws B I}.
Context (py_str other_key : pyval -> string) (py_str_str : forall x, py_str (VStr x) = x).
Context (me : string) (fresh : nat -> string) (fresh_nonempty : forall t, fresh t <> "") (clock : nat -> Z).
Context (timeout : string).

Abbreviation node := (Node B (Net B)).
Abbreviation store_remote := (store_remote py_str other_key me fresh clock timeout).
Abbreviation load_remote := (load_remote py_str other_key me fresh clock timeout).
Abbreviation load_from := (load_from py_str other_key me fresh clock timeout).

(** ** The network at rest *)

(** A node between requests. *)
Record idle (r : Replicator B) : Prop := {
  id_pending : rc_pending r = [];
  id_buffers : rc_buffers r = [];
  id_chunk : 0 < rc_chunk_size r;
  id_threshold : 0 <= rc_chunk_threshold r
}.

(** A peer that serves this node. *)
Record serving (r : Replicator B) : Prop := {
  se_idle : idle r;
  se_inv : I (rc_blocks r);
  se_connected : me ∈ rc_connected r
}.

(** Every registered peer is connected, in the network, and serving. *)
Record at_rest (n : node) : Prop := {
  ar_idle : idle (nd_rep n);
  ar_connected : forall p, p ∈ (peers (nd_pm n)).*1 -> p ∈ rc_connected (nd_rep n);
  ar_serving : forall p, p ∈ (peers (nd_pm n)).*1 ->
    exists r, net_nodes (nd_world n) !! p = Some r /\ serving r
}.

(** From [n] to [n'] the store of peer [p] became [b], and nothing else in the
    network changed. *)
Record moved (p : string) (b : B) (n n' : node) : Prop := {
  mv_rest : at_rest n';
  mv_pm : nd_pm n' = nd_pm n;
  mv_blocks : rc_blocks (nd_rep n') = rc_blocks (nd_rep n);
  mv_peer : exists r', net_nodes (nd_world n') !! p = Some r' /\ rc_blocks r' = b;
  mv_others : forall p', p' <> p -> net_nodes (nd_world n') !! p' = net_nodes (nd_world n) !! p'
}.

Lemma idle_base (r r' : Replicator B) :
  idle r -> same_base r r' -> rc_pending r' = [] -> rc_buffers r' = [] -> idle r'.
Proof. intros [] (_ & Hc & Ht) Hp Hb. split; [done|done|by rewrite Hc|by rewrite Ht]. Qed.

Lemma serving_base (r r' : Replicator B) :
  serving r -> same_base r r' -> rc_pending r' = [] -> rc_buffers r' = [] -> I (rc_blocks r') -> serving r'.
Proof.
  intros [Hi _ Hc] Hs Hp Hb HI. split; [by eapply idle_base|done|]. by rewrite (proj1 Hs).
Qed.

Lemma moved_intro (n : node) p r r' s t :
  at_rest n -> net_nodes (nd_world n) !! p = Some r -> serving r' ->
  idle s -> rc_connected s = rc_connected (nd_rep n) -> rc_blocks s = rc_blocks (nd_rep n) ->
  moved p (rc_blocks r') n (mkNode s (nd_pm n) (mkNet (<[p := r']> (net_nodes (nd_world n))) t)).
Proof.
  intros [Hi Hc Hs] Hr Hr' Hs' Hconn Hblk. split; cbn; [|done|done|by exists r'; rewrite lookup_insert_eq|].
  - split; cbn; [done|by intros p' Hp'; rewrite Hconn; apply Hc|].
    intros p' Hp'. destruct (decide (p' = p)) as [->|Hne].
    + exists r'. by rewrite lookup_insert_eq.
    + rewrite lookup_insert_ne by done. by apply Hs.
  - intros p' Hne. by rewrite lookup_insert_ne.
Qed.

(** ** A store on a peer *)

Lemma ready_serving now rid (r : Replicator B) : serving r -> ready I now me rid r.
Proof. intros [[Hp Hb _ _] HI Hc]. by split; rewrite ?Hp, ?Hb. Qed.

Lemma served_rest p rid data d key (r : Replicator B) b res :
  serving r -> bs_store data d key (rc_blocks r) = (b, res) ->
  serving (served p rid data d key r) /\ rc_blocks (served p rid data d key r) = b.
Proof.
  intros Hr Hst. assert (I b) as HI.
  { destruct res as [id|e]; [by apply bs_store_ok in Hst as [? _]; [|apply Hr]|].
    by apply bs_store_err in Hst as [? _]; [|apply Hr]. }
  unfold served. rewrite Hst. split; [|done]. by apply (serving_base r); [|split_and!|apply Hr|apply Hr|].
Qed.

Lemma store_end_state rid f (s : Replicator B) :
  state_after (store_remote_end py_str rid timeout f) s = pop_pending (VStr rid) s.
Proof.
  unfold state_after, store_remote_end. rewrite bind_modify. destruct f as [[|m| |]|]; try done.
  case_decide; [|done]. unfold mbind_m, mlift. by destruct (vget_default _ _ _).
Qed.

Lemma store_remote_run p data d key (n : node) r b res :
  at_rest n -> p ∈ (peers (nd_pm n)).*1 -> net_nodes (nd_world n) !! p = Some r ->
  len data <= Config.MAX_BLOCK_SIZE -> bs_store data d key (rc_blocks r) = (b, res) ->
  exists n', store_remote p data d (key_value key) n = (n', store_outcome res) /\ moved p b n n'.
Proof.
  intros Hrest Hp Hr Hlen Hst. set (s := nd_rep n). set (rid := fresh (net_tick (nd_world n))).
  destruct (ar_serving n Hrest p Hp) as (r0 & Hr0 & Hserve). rewrite Hr in Hr0. injection Hr0 as <-.
  destruct (ar_idle n Hrest) as [Hpend Hbuf Hchunk Hth].
  destruct (store_remote_begin_run p rid data d key s) as (sid & next & Hb);
    [by apply (ar_connected n Hrest)|done|].
  unfold Cluster.store_remote, request. fold s rid. rewrite Hb. unfold exchange. cbn [net_nodes net_tick].
  rewrite Hr. set (s1 := awaiting _ _ _ _ _ _). set (now := clock _).
  rewrite (sent_app p sid (store_messages rid data d key s)) by done.
  rewrite (handle_store_messages I) by first [done | apply fresh_nonempty | by apply ready_serving].
  destruct (served_fields me (VStr rid) data d key r b res Hst) as (_ & Hsent & _). rewrite Hsent.
  rewrite handle_all_cons, handle_all_nil.
  destruct (store_reply_fields rid res) as (T1 & T2 & T3 & T4).
  unfold state_after, s1. rewrite awaiting_reply by done. cbn [fst]. fold s1.
  set (s2 := resolved rid (rc_next_future s) (store_reply (VStr rid) res) s1).
  assert (rc_futures s2 !! rc_next_future s = Some (FReply (store_reply (VStr rid) res))) as ->
    by (unfold s2, s1; cbn [resolved with_futures rc_futures]; by rewrite lookup_insert_eq).
  pose proof (store_end_resolved py_str rid timeout res s2 py_str_str) as Hout. unfold outcome in Hout.
  destruct (store_remote_end py_str rid timeout (Some (FReply (store_reply (VStr rid) res))) s2)
    as [s3 out] eqn:Hend. cbn in Hout. subst out.
  assert (s3 = pop_pending (VStr rid) s2) as ->.
  { rewrite <-(store_end_state rid (Some (FReply (store_reply (VStr rid) res))) s2). unfold state_after.
    by rewrite Hend. }
  destruct (served_rest me (VStr rid) data d key r b res Hserve Hst) as [Hr1 Hblk].
  eexists. split; [reflexivity|]. rewrite <-Hblk. apply (moved_intro n p r); try done.
  apply (idle_base s); [apply (ar_idle n Hrest)|done| |done].
  change (rc_pending _) with (ddel (VStr rid) (ddel (VStr rid) (dset (VStr rid) (rc_next_future s) (rc_pending s)))).
  rewrite ddel_dset. unfold s. by rewrite Hpend.
Qed.

(** ** A load from a peer *)

Lemma load_reply_state rid f (s : Replicator B) :
  state_after (load_remote_reply py_str rid timeout f) s = s.
Proof.
  enough (preserves (fun x => x = s) (load_remote_reply py_str rid timeout f)) as H by by apply H.
  unfold load_remote_reply. destruct f as [[|m| |]|]; pres; try (case_match; pres).
  apply preserves_get. intros s0 ->. by destruct (dget _ _).
Qed.

Lemma load_end_run rid f (s : Replicator B) :
  load_remote_end py_str timeout rid (rc_futures s !! f) s
    = (load_remote_cleanup rid s, load_result py_str rid timeout f s).
Proof.
  pose proof (load_reply_state rid (rc_futures s !! f) s) as Hs. unfold state_after in Hs.
  unfold load_remote_end, load_result, mfinally, outcome, mbind_m.
  destruct (load_remote_reply py_str rid timeout (rc_futures s !! f) s) as [s' [[o|c]|e]]; cbn in *; subst s'; [done| |done].
  by destruct (load_remote_pull timeout (rc_futures s !! c)).
Qed.

Lemma load_remote_run p bid key (n : node) r b o :
  at_rest n -> p ∈ (peers (nd_pm n)).*1 -> net_nodes (nd_world n) !! p = Some r ->
  asked bid key (rc_blocks r) = (b, Ok o) ->
  exists n', load_remote p (id_value bid) (key_value key) n = (n', Ok o) /\ moved p b n n'.
Proof.
  intros Hrest Hp Hr Hask. set (s := nd_rep n). set (rid := fresh (net_tick (nd_world n))).
  destruct (ar_serving n Hrest p Hp) as (r0 & Hr0 & Hserve). rewrite Hr in Hr0. injection Hr0 as <-.
  destruct (ar_idle n Hrest) as [Hpend Hbuf Hchunk Hth].
  destruct (se_idle _ Hserve) as [Hpend' Hbuf' Hchunk' Hth'].
  assert (I b) as HIb.
  { destruct (asked_ok I bid key _ (se_inv _ Hserve)) as (b' & o' & Hask' & HI). by rewrite Hask in Hask'; simplify_eq. }
  unfold Cluster.load_remote, request. fold s rid.
  rewrite load_remote_begin_run by (by apply (ar_connected n Hrest)).
  unfold exchange. cbn [net_nodes net_tick]. rewrite Hr. set (s1 := awaiting _ _ _ _ _ _). set (now := clock _).
  rewrite (sent_app p None [request_message rid bid key]) by done.
  destruct (serve_request_run py_str other_key now me rid bid key r b o) as (r1 & Hh & Hb1 & Hbuf1 & Hp1 & Hbase & Hsent);
    [by apply Hserve|done|by rewrite Hpend'|done|].
  rewrite handle_all_cons, handle_all_nil. unfold state_after. rewrite Hh. cbn [fst]. rewrite Hsent.
  destruct (handle_load_messages py_str other_key now p rid timeout (rc_next_future s) o s1 r)
    as (Hl & (T1 & T2 & T3) & Hbase2 & Hblk2);
    [apply fresh_nonempty|done|done|apply dget_dset_eq|apply lookup_insert_eq|cbn; lia|
     change (rc_buffers s1) with (rc_buffers (nd_rep n)); by rewrite Hbuf|].
  rewrite load_end_run, Hl. eexists. split; [reflexivity|]. rewrite <-Hb1.
  apply (moved_intro n p r); [done|done| | |apply Hbase2|apply Hblk2].
  - apply (serving_base r); [done|done|by rewrite Hp1|by rewrite Hbuf1|by rewrite Hb1].
  - apply (idle_base s); [apply (ar_idle n Hrest)|apply Hbase2| |].
    + rewrite T1. cbn. rewrite ddel_dset. unfold s. by rewrite Hpend.
    + rewrite T2. cbn. unfold s. by rewrite Hbuf.
Qed.

(** Asking the peers in turn: those without the key change nothing that
    matters, the first with it answers. *)
Lemma load_from_run key data ps : forall p rest (n : node) r b,
  at_rest n -> (forall q, q ∈ ps ++ [p] -> q ∈ (peers (nd_pm n)).*1) -> NoDup (ps ++ [p]) ->
  net_nodes (nd_world n) !! p = Some r ->
  (forall q rq, q ∈ ps -> net_nodes (nd_world n) !! q = Some rq ->
     outcome (bs_load_by_key key) (rc_blocks rq) = Ok None) ->
  bs_load_by_key key (rc_blocks r) = (b, Ok (Some data)) ->
  exists n', load_from (VStr key) (ps ++ p :: rest) n = (n', Ok (Some data)).
Proof.
  induction ps as [|q ps IH]; intros p rest n r b Hrest Hin Hnd Hr Hmiss Hhit; cbn [app Cluster.load_from].
  - destruct (load_remote_run p None (Some key) n r b (Some data)) as (n' & Hl & _);
      [done|apply Hin; set_solver|done|done|]. exists n'.
    by erewrite bind_ok by (unfold mtry; change VNone with (id_value None); change (VStr key) with (key_value (Some key));
      rewrite Hl; reflexivity).
  - destruct (ar_serving n Hrest q) as (rq & Hrq & Hserve); [apply Hin; set_solver|].
    pose proof (Hmiss q rq ltac:(set_solver) Hrq) as Hnone. unfold outcome in Hnone.
    destruct (bs_load_by_key key (rc_blocks rq)) as [bq res] eqn:Hask. cbn in Hnone. subst res.
    destruct (load_remote_run q None (Some key) n rq bq None) as (n1 & Hl & Hmv);
      [done|apply Hin; set_solver|done|done|].
    apply NoDup_cons in Hnd as [Hq Hnd].
    erewrite bind_ok by (unfold mtry; change VNone with (id_value None); change (VStr key) with (key_value (Some key));
      rewrite Hl; reflexivity).
    cbn beta iota. apply (IH p rest n1 r b); [apply Hmv| |done| | |done].
    + intros q' Hq'. rewrite (mv_pm _ _ _ _ Hmv). apply Hin. set_solver.
    + rewrite (mv_others _ _ _ _ Hmv); [done|set_solver].
    + intros q' rq' Hq' Hrq'. rewrite (mv_others _ _ _ _ Hmv) in Hrq' by set_solver.
      apply (Hmiss q'); [set_solver|done].
Qed.

(** ** Overflow, end to end *)

Context (qrcode : option (string -> result string)) (connect_to : pyval -> pyval -> M node string).

#[local] Instance network : Remote node :=
  cluster_remote py_str other_key me fresh clock timeout connect_to.

Abbreviation dispatch := (_dispatch py_str other_key qrcode (B := B) (W := Net B)).

(** This node with another state of its own block store. *)
Definition with_own (b : B) (n : node) : node := mkNode (with_blocks b (nd_rep n)) (nd_pm n) (nd_world n).

Lemma rest_own b (n : node) : at_rest n -> at_rest (with_own b n).
Proof. intros [[] Hc Hs]. by split. Qed.

Lemma store_request_overflows binary data d key (n : node) b e :
  bs_store data d (Some key) (rc_blocks (nd_rep n)) = (b, Err e) -> exn_cls e = OutOfMemory ->
  dispatch (store_request binary data d key) binary n
    = store_elsewhere (store_request binary data d key) data d (VStr key) e (with_own b n).
Proof.
  intros Hs He. rewrite dispatch_store by by destruct binary. unfold op_store.
  rewrite store_request_payload. mrun.
  assert (vget_default "durability" (VStr "pinned") (store_request binary data d key)
          = Ok (VStr (Durability_value d))) as -> by by destruct binary.
  mrun. assert (Durability_of (VStr (Durability_value d)) = Ok d) as -> by by destruct d.
  mrun. assert (vget "key" (store_request binary data d key) = Ok (VStr key)) as -> by by destruct binary.
  mrun. unfold mtry at 1. erewrite bind_err.
  2:{ apply on_rep_run.
      change (store_value other_key data d (VStr key)) with (on_blocks (bs_store data d (Some key))).
      by apply on_blocks_run. }
  rewrite decide_False by congruence. by rewrite decide_True.
Qed.

(** The answer to a store that went to [p]. *)
Definition overflow_answer (p : string) (local_err : exn) (res : result Z) : pyval :=
  match res with
  | Ok id => VDict [("ok", VBool true); ("block_id", VInt id); ("location", VStr "remote"); ("peer", short p)]
  | Err e => error_doc ("local: " +:+ exn_msg local_err +:+ "; remote: " +:+ exn_msg e)
  end.

Lemma elsewhere_run binary data d key e p (n : node) r b' res :
  at_rest n -> len data <= Config.MAX_BLOCK_SIZE ->
  best_peer_for_store (len data) (nd_pm n) = Ok (Some p) -> p ∈ (peers (nd_pm n)).*1 ->
  net_nodes (nd_world n) !! p = Some r -> bs_store data d (Some key) (rc_blocks r) = (b', res) ->
  exists n', store_elsewhere (store_request binary data d key) data d (VStr key) e n
      = (n', Ok (overflow_answer p e res)) /\ moved p b' n n'.
Proof.
  intros Hrest Hlen Hbest Hp Hr Hst. unfold store_elsewhere.
  assert (vget_default "allow_remote" (VBool true) (store_request binary data d key) = Ok (VBool true)) as ->
    by by destruct binary.
  mrun. cbn [truthy]. rewrite Hbest. mrun.
  destruct (store_remote_run p data d (Some key) n r b' res) as (n' & Hrun & Hmv); [done..|]. exists n'.
  split; [|done]. unfold or_error, mtry. cbn [ro_store network cluster_remote]. unfold mbind_m.
  change (VStr key) with (key_value (Some key)). rewrite Hrun. destruct res as [id|e']; [done|].
  cbn [store_outcome exn_cls exn_msg]. rewrite decide_True by set_solver. done.
Qed.

Lemma load_misses_here binary key (n : node) b :
  bs_load_by_key key (rc_blocks (nd_rep n)) = (b, Ok None) ->
  dispatch (load_request "key" (VStr key)) binary n
    = (data <- load_from (VStr key) (peers (nd_pm n)).*1;; mret (found binary data)) (with_own b n).
Proof.
  intros Hl. rewrite dispatch_load by done. unfold op_load.
  change (vmem "block_id" (load_request "key" (VStr key))) with (Ok false). mrun.
  change (vindex "key" (load_request "key" (VStr key))) with (Ok (VStr key)). rewrite bind_assoc. mrun.
  unfold load_key_value. cbn [hashable key_arg]. rewrite bind_assoc.
  erewrite bind_ok by (by apply on_rep_run, on_blocks_run).
  change (vget_default "allow_remote" (VBool true) (load_request "key" (VStr key))) with (Ok (VBool true)).
  rewrite bind_assoc. mrun. done.
Qed.

(** A connected peer whose advertised quota is at least [size], and as large as
    any other's. *)
Definition largest_quota (size : Z) (p : string) (pm : PeerManager) : Prop :=
  exists i q, (p, i) ∈ peers pm /\ fits size i q /\
    forall p' i' q', (p', i') ∈ peers pm -> fits size i' q' -> num_le q' q.

(** C21: a store that does not fit here, over the whole path: the node picks a
    connected peer with the largest quota advertised at the handshake, which is
    at least the size of the block, and asks it over the peer protocol, whole or
    in chunks; that peer's block store gets exactly the bytes, durability and
    key of the client's request and its answer comes back, as a success that
    names the peer or as an error with both reasons.  When it succeeded, and
    neither this node nor another peer holds a block of that key, a load by key
    at this node finds the bytes on that peer. *)
Theorem overflow_end_to_end binary data d key (n : node) b e p r b' res :
  at_rest n -> NoDup (peers (nd_pm n)).*1 -> len data <= Config.MAX_BLOCK_SIZE ->
  bs_store data d (Some key) (rc_blocks (nd_rep n)) = (b, Err e) -> exn_cls e = OutOfMemory ->
  best_peer_for_store (len data) (nd_pm n) = Ok (Some p) -> net_nodes (nd_world n) !! p = Some r ->
  bs_store data d (Some key) (rc_blocks r) = (b', res) ->
  largest_quota (len data) p (nd_pm n) /\
  exists n1,
    dispatch (store_request binary data d key) binary n = (n1, Ok (overflow_answer p e res)) /\
    moved p b' (with_own b n) n1 /\
    (forall id, res = Ok id -> outcome (bs_load_by_key key) b = Ok None ->
     (forall q rq, q <> p -> net_nodes (nd_world n) !! q = Some rq ->
        outcome (bs_load_by_key key) (rc_blocks rq) = Ok None) ->
     outcome (dispatch (load_request "key" (VStr key)) binary) n1 = Ok (_payload_response data binary)).
Proof.
  intros Hrest Hnd Hlen Hs He Hbest Hr Hst. split; [by apply best_peer_spec in Hbest|].
  assert (p ∈ (peers (nd_pm n)).*1) as Hp.
  { apply best_peer_spec in Hbest as (i & q & Hin & _). by apply (list_elem_of_fmap_2 fst) in Hin. }
  destruct (elsewhere_run binary data d key e p (with_own b n) r b' res) as (n1 & Hrun & Hmv);
    [by apply rest_own|done..|].
  exists n1. split; [by rewrite (store_request_overflows _ _ _ _ _ b e)|]. split; [done|].
  intros id -> Hmiss Hothers. destruct Hmv as [Hrest1 Hpm Hblk (r1 & Hr1 & Hb1) Hoth]. cbn [with_own nd_pm nd_world] in *.
  apply bs_store_ok in Hst as (_ & _ & Hkey); [|by destruct (ar_serving n Hrest p Hp) as (r0 & Hr0 & Hs0);
    rewrite Hr in Hr0; injection Hr0 as <-; apply Hs0].
  specialize (Hkey key eq_refl). unfold outcome in *.
  destruct (bs_load_by_key key (rc_blocks (nd_rep n1))) as [b1 res1] eqn:Hl1.
  rewrite Hblk in Hl1. cbn in Hl1. rewrite Hl1 in Hmiss. cbn in Hmiss. subst res1.
  rewrite (load_misses_here _ _ _ b1) by (by rewrite Hblk).
  rewrite Hpm. apply list_elem_of_split in Hp as (ps & rest & Hps). rewrite Hps in Hnd |- *.
  destruct (bs_load_by_key key b') as [b2 res2] eqn:Hl2. cbn in Hkey. subst res2.
  destruct (load_from_run key data ps p rest (with_own b1 n1) r1 b2) as [n2 Hl];
    [by apply rest_own| | |done| |by rewrite Hb1|by rewrite (bind_ok _ _ _ _ _ Hl)].
  - intros q Hq. cbn. rewrite Hpm, Hps. set_solver.
  - apply NoDup_app in Hnd as (Hnd1 & Hdisj & Hnd2). apply NoDup_cons in Hnd2 as [Hp2 _].
    apply NoDup_app. split_and!; [done|set_solver|apply NoDup_singleton].
  - intros q rq Hq Hrq. apply NoDup_app in Hnd as (_ & Hdisj & _).
    assert (q <> p) as Hne by (intros ->; by apply (Hdisj p Hq), list_elem_of_here).
    apply (Hothers q rq Hne). cbn in Hrq. by rewrite Hoth in Hrq.
Qed.

(** C40: an overflowing store does not replace an older local block of the same
    key: the client is told that its block is stored, under that key, and the
    next load by key at this node returns the old bytes. *)
Theorem overflow_shadowed_by_old_block binary data old d key (n : node) b e p r b' id :
  at_rest n -> len data <= Config.MAX_BLOCK_SIZE ->
  bs_store data d (Some key) (rc_blocks (nd_rep n)) = (b, Err e) -> exn_cls e = OutOfMemory ->
  outcome (bs_load_by_key key) b = Ok (Some old) ->
  best_peer_for_store (len data) (nd_pm n) = Ok (Some p) -> net_nodes (nd_world n) !! p = Some r ->
  bs_store data d (Some key) (rc_blocks r) = (b', Ok id) ->
  exists n1,
    dispatch (store_request binary data d key) binary n = (n1, Ok (overflow_answer p e (Ok id))) /\
    outcome (dispatch (load_request "key" (VStr key)) binary) n1 = Ok (_payload_response old binary).
Proof.
  intros Hrest Hlen Hs He Hold Hbest Hr Hst.
  assert (p ∈ (peers (nd_pm n)).*1) as Hp.
  { apply best_peer_spec in Hbest as (i & q & Hin & _). by apply (list_elem_of_fmap_2 fst) in Hin. }
  destruct (elsewhere_run binary data d key e p (with_own b n) r b' (Ok id)) as (n1 & Hrun & Hmv);
    [by apply rest_own|done..|].
  exists n1. split; [by rewrite (store_request_overflows _ _ _ _ _ b e)|].
  destruct (load_key_run py_str other_key qrcode binary key old n1) as [n2 Hl].
  - rewrite (mv_blocks _ _ _ _ Hmv). done.
  - unfold outcome. by rewrite Hl.
Qed.
End spec.

(** ** Witnesses: a node of sixteen bytes, seven of them pinned, with three
    peers whose stores are empty *)

#[local] Existing Instance demo_store.
#[local] Existing Instance demo_laws.

Definition empty_peer : Replicator managed :=
  ReplicationCoordinator_init (Managed (new_manager 16 2) 0) {["me"]} 2 2.

Definition demo_net : Net managed := mkNet {["a" := empty_peer; "b" := empty_peer; "c" := empty_peer]} 0.

Definition demo_cluster : Node managed (Net managed) :=
  mkNode (ReplicationCoordinator_init (Managed demo_manager 0) {["a"; "b"; "c"]} 2 2) three_peers demo_net.

Definition no_dial (_ _ : pyval) : M (Node managed (Net managed)) string := mraise (lib_exn OSError).

Lemma demo_serving : serving (managed_inv hash0) "me" empty_peer.
Proof.
  split; [by split| |set_solver]. unfold managed_inv. cbn.
  apply (reachable_Inv hash0 16 2); [lia|]. by apply reach_init.
Qed.

Lemma demo_at_rest : at_rest (managed_inv hash0) "me" demo_cluster.
Proof.
  split; [by split| |].
  - intros p Hp. change (p ∈ ["a"; "b"; "c"]) in Hp. cbn. set_solver.
  - intros p Hp. change (p ∈ ["a"; "b"; "c"]) in Hp. exists empty_peer. split; [|apply demo_serving].
    repeat (apply elem_of_cons in Hp as [->|Hp]; [reflexivity|]). by apply not_elem_of_nil in Hp.
Qed.

Lemma demo_net_peer q rq : net_nodes demo_net !! q = Some rq -> rq = empty_peer.
Proof.
  cbn [net_nodes demo_net].
  rewrite !lookup_insert_Some, lookup_singleton_Some. naive_solver.
Qed.

Definition request_id (_ : nat) : string := "q".
Definition zero_clock (_ : nat) : Z := 0.

Lemma overflow_end_to_end_witness :
  let net := cluster_remote str_of str_of "me" request_id zero_clock "30" no_dial in
  let dispatch := @_dispatch managed (Net managed) demo_store net str_of str_of None in
  largest_quota 10 "b" (nd_pm demo_cluster) /\
  exists n1,
    dispatch (store_request true (BlocksSpec.payload 10) PINNED "big") true demo_cluster
      = (n1, Ok (VDict [("ok", VBool true); ("block_id", VInt 1); ("location", VStr "remote"); ("peer", VStr "b")]))
    /\ outcome (dispatch (load_request "key" (VStr "big")) true) n1
      = Ok (_payload_response (BlocksSpec.payload 10) true).
Proof.
  intros net dispatch.
  destruct (bs_store (BlocksSpec.payload 10) PINNED (Some "big") (rc_blocks (nd_rep demo_cluster))) as [b res] eqn:Hs.
  destruct res as [id|e]; [vm_compute in Hs; discriminate|].
  destruct (bs_store (BlocksSpec.payload 10) PINNED (Some "big") (rc_blocks empty_peer)) as [b' res'] eqn:Hs'.
  assert (res' = Ok 1) as -> by (vm_compute in Hs'; congruence).
  destruct (overflow_end_to_end (managed_inv hash0) str_of str_of ltac:(done) "me" request_id ltac:(done) zero_clock
    "30" None no_dial true (BlocksSpec.payload 10) PINNED "big" demo_cluster b e "b" empty_peer b' (Ok 1))
    as (H0 & n1 & H1 & _ & H2).
  - apply demo_at_rest.
  - apply (bool_decide_unpack _). by vm_compute.
  - by vm_compute.
  - exact Hs.
  - vm_compute in Hs. by injection Hs as _ <-.
  - by vm_compute.
  - reflexivity.
  - exact Hs'.
  - split; [exact H0|]. exists n1. split; [exact H1|]. apply (H2 1); [done| |].
    + replace b with (state_after (bs_store (BlocksSpec.payload 10) PINNED (Some "big"))
        (rc_blocks (nd_rep demo_cluster))) by (unfold state_after; by rewrite Hs). by vm_compute.
    + intros q rq _ Hq. apply demo_net_peer in Hq as ->. by vm_compute.
Defined.

Lemma overflow_shadowed_by_old_block_witness :
  let net := cluster_remote str_of str_of "me" request_id zero_clock "30" no_dial in
  let dispatch := @_dispatch managed (Net managed) demo_store net str_of str_of None in
  exists n1,
    dispatch (store_request true (BlocksSpec.payload 10) PINNED "a") true demo_cluster
      = (n1, Ok (VDict [("ok", VBool true); ("block_id", VInt 1); ("location", VStr "remote"); ("peer", VStr "b")]))
    /\ outcome (dispatch (load_request "key" (VStr "a")) true) n1
      = Ok (_payload_response (BlocksSpec.payload 3) true).
Proof.
  intros net dispatch.
  destruct (bs_store (BlocksSpec.payload 10) PINNED (Some "a") (rc_blocks (nd_rep demo_cluster))) as [b res] eqn:Hs.
  destruct res as [id|e]; [vm_compute in Hs; discriminate|].
  destruct (bs_store (BlocksSpec.payload 10) PINNED (Some "a") (rc_blocks empty_peer)) as [b' res'] eqn:Hs'.
  assert (res' = Ok 1) as -> by (vm_compute in Hs'; congruence).
  apply (overflow_shadowed_by_old_block (managed_inv hash0) str_of str_of ltac:(done) "me" request_id ltac:(done)
    zero_clock "30" None no_dial true (BlocksSpec.payload 10) (BlocksSpec.payload 3) PINNED "a"
    demo_cluster b e "b" empty_peer b' 1).
  - apply demo_at_rest.
  - by vm_compute.
  - exact Hs.
  - vm_compute in Hs. by injection Hs as _ <-.
  - replace b with (state_after (bs_store (BlocksSpec.payload 10) PINNED (Some "a"))
      (rc_blocks (nd_rep demo_cluster))) by (unfold state_after; by rewrite Hs). by vm_compute.
  - by vm_compute.
  - reflexivity.
  - exact Hs'.
Defined.
