(* ===== verification/ClusterLife.v ===== *)
(** * The life of a block on a chosen peer

    The operations of the control plane that name a peer, over the network:
    a block is stored there, read, and freed, and is gone. *)
From S2P Require Import Prelude Config PyVal Protocol Blocks BlocksFacts BlocksSpec StoreInterface.
From S2P Require Import RateLimit Mux Trust Peers Replication ReplicationFacts ReplicationSpec.
From S2P Require Import RpcServer RpcDispatch RpcDispatchSpec Cluster ClusterSpec.

Section life.
Context {B : Type} `{!BlockStore B} (I : B -> Prop) `{!BlockStoreLaws B I}.
Context (py_str other_key : pyval -> string) (py_str_str : forall x, py_str (VStr x) = x).
Context (me : string) (fresh : nat -> string) (fresh_nonempty : forall t, fresh t <> "") (clock : nat -> Z).
Context (timeout : string).
Context (qrcode : option (string -> result string)) (connect_to : pyval -> pyval -> M (Node B (Net B)) string).

#[local] Instance here : Remote (Node B (Net B)) :=
  cluster_remote py_str other_key me fresh clock timeout connect_to.

Abbreviation node := (Node B (Net B)).
Abbreviation at_rest := (at_rest I me).
Abbreviation moved := (moved I me).
Abbreviation dispatch := (_dispatch py_str other_key qrcode (B := B) (W := Net B)).

(** ** Freeing a block on a peer *)

Definition free_message (rid : string) (id : Z) : Message :=
  Msg FREE_BLOCK (VDict [("req_id", VStr rid); ("block_id", VInt id)]).

Definition freed_message (rid : string) (freed : bool) : Message :=
  Msg FREED (VDict [("req_id", VStr rid); ("freed", VBool freed)]).

Lemma free_begin_run dst rid id (s : Replicator B) :
  dst ∈ rc_connected s ->
  free_remote_begin dst rid (VInt id) s
    = (awaiting dst rid None (rc_next_stream s) [free_message rid id] s, Ok (rc_next_future s)).
Proof.
  intros Hc. unfold free_remote_begin, _register_pending, new_future. rewrite bind_assoc.
  unfold mbind_m at 1. rsimpl. rewrite bind_assoc, bind_modify, bind_ret. rsimpl.
  by erewrite bind_ok by (by apply send_to_ok).
Qed.

Lemma serve_free_run now rid id (r : Replicator B) b f :
  me ∈ rc_connected r -> dget (VStr rid) (rc_pending r) = None -> bs_free id (rc_blocks r) = (b, Ok f) ->
  handle_message py_str other_key now me (free_message rid id) r
    = (with_out (rc_out r ++ [(me, freed_message rid f, None)]) (with_blocks b r), Ok tt).
Proof.
  intros Hc Hp Hf. unfold handle_message. change (vget "req_id" _) with (Ok (VStr rid)). mrun.
  cbn [is_none free_message msg_type]. unfold require_hashable. cbn [hashable]. mrun. unfold dmem. rewrite Hp.
  cbn [negb andb]. unfold _serve_free_block. change (vget "req_id" _) with (Ok (VStr rid)).
  change (vget "block_id" _) with (Ok (VInt id)). mrun.
  erewrite bind_ok by (unfold mtry; change (free_value (VInt id)) with (on_blocks (bs_free id));
    rewrite (on_blocks_run _ _ _ _ Hf); reflexivity).
  exact (reply_run me FREED _ (with_blocks b r) Hc).
Qed.

Lemma free_remote_run p id (n : node) r b f :
  at_rest n -> p ∈ (peers (nd_pm n)).*1 -> net_nodes (nd_world n) !! p = Some r ->
  bs_free id (rc_blocks r) = (b, Ok f) -> I b ->
  exists n', free_remote py_str other_key me fresh clock timeout p (VInt id) n = (n', Ok f) /\ moved p b n n'.
Proof.
  intros Hrest Hp Hr Hf HIb. set (s := nd_rep n). set (rid := fresh (net_tick (nd_world n))).
  destruct (ar_serving _ _ n Hrest p Hp) as (r0 & Hr0 & Hserve). rewrite Hr in Hr0. injection Hr0 as <-.
  destruct (ar_idle _ _ n Hrest) as [Hpend Hbuf _ _]. destruct (se_idle _ _ _ Hserve) as [Hpend' Hbuf' _ _].
  unfold free_remote, request. fold s rid. rewrite free_begin_run by (by apply (ar_connected _ _ n Hrest)).
  unfold exchange. cbn [net_nodes net_tick]. rewrite Hr. set (s1 := awaiting _ _ _ _ _ _). set (now := clock _).
  rewrite (sent_app p None [free_message rid id]) by done. rewrite handle_all_cons, handle_all_nil. unfold state_after.
  rewrite (serve_free_run now rid id r b f) by (done || (by apply Hserve) || by rewrite Hpend'). cbn [fst].
  rewrite (sent_app me None [freed_message rid f]) by done. rewrite handle_all_cons, handle_all_nil.
  unfold state_after, s1. rewrite awaiting_reply by done. cbn [fst]. fold s1.
  set (s2 := resolved _ _ _ _).
  assert (rc_futures s2 !! rc_next_future s = Some (FReply (freed_message rid f))) as ->
    by (unfold s2, s1; cbn [resolved with_futures rc_futures]; by rewrite lookup_insert_eq).
  unfold free_remote_end. rewrite bind_modify.
  change (vget_default "freed" _ _) with (Ok (VBool f)). mrun. cbn [truthy].
  eexists. split; [reflexivity|].
  apply (moved_intro I me n p r (with_out (rc_out r ++ [(me, freed_message rid f, None)]) (with_blocks b r))); try done.
  - by apply (serving_base I me r); [|split_and!| | |].
  - apply (idle_base s); [apply (ar_idle _ _ n Hrest)|done| |done].
    change (rc_pending _) with (ddel (VStr rid) (ddel (VStr rid) (dset (VStr rid) (rc_next_future s) (rc_pending s)))).
    rewrite ddel_dset. unfold s. by rewrite Hpend.
Qed.

(** ** Naming a peer *)

Lemma find_peer_elem prefix keys p : find_peer py_str (VStr prefix) keys = Ok p -> p ∈ keys.
Proof.
  induction keys as [|k keys IH]; [done|]. cbn [find_peer].
  case_match; [intros [= ->]; by left|]. intros H'. right. by apply IH.
Qed.

Lemma resolve_run prefix (n : node) p :
  find_peer py_str (VStr prefix) (peers (nd_pm n)).*1 = Ok p -> _resolve_peer py_str (VStr prefix) n = (n, Ok p).
Proof. intros H. unfold _resolve_peer. by rewrite H. Qed.

Definition peer_request (op prefix : string) (fields : pydict) : pyval :=
  VDict ([("op", VStr op); ("peer", VStr prefix)] ++ fields).

Definition remote_store_request (binary : bool) (prefix : string) (data : bytes) (d : Durability) : pyval :=
  peer_request "remote_store" prefix [("durability", VStr (Durability_value d)); payload_field binary data].

Definition on_block (op prefix : string) (id : Z) : pyval := peer_request op prefix [("block_id", VInt id)].

Lemma remote_store_payload binary prefix data d :
  request_payload (remote_store_request binary prefix data d) = Ok (Some data).
Proof.
  destruct binary; [done|]. unfold request_payload.
  change (vget "data" (remote_store_request false prefix data d)) with (Ok VNone). cbn [result_bind].
  change (vget "data_hex" (remote_store_request false prefix data d)) with (Ok (VStr (bytes_hex data))).
  cbn [result_bind]. by rewrite fromhex_hex.
Qed.

(** Which operation serves which request. *)
Lemma serves_remote_store req binary (n : node) :
  vget "op" req = Ok (VStr "remote_store") -> dispatch req binary n = op_remote_store py_str req n.
Proof. intros Ho. unfold _dispatch. rewrite Ho. mrun. done. Qed.

Lemma serves_remote_load req binary (n : node) :
  vget "op" req = Ok (VStr "remote_load") -> dispatch req binary n = op_remote_load py_str req binary n.
Proof. intros Ho. unfold _dispatch. rewrite Ho. mrun. done. Qed.

Lemma serves_remote_free req binary (n : node) :
  vget "op" req = Ok (VStr "remote_free") -> dispatch req binary n = op_remote_free py_str req n.
Proof. intros Ho. unfold _dispatch. rewrite Ho. mrun. done. Qed.

Section peer.
Context (prefix p : string).

Lemma dispatch_remote_store binary data d (n : node) r b id :
  at_rest n -> find_peer py_str (VStr prefix) (peers (nd_pm n)).*1 = Ok p ->
  net_nodes (nd_world n) !! p = Some r -> len data <= Config.MAX_BLOCK_SIZE ->
  bs_store data d None (rc_blocks r) = (b, Ok id) ->
  exists n', dispatch (remote_store_request binary prefix data d) binary n
      = (n', Ok (VDict [("ok", VBool true); ("block_id", VInt id); ("peer", short p)])) /\ moved p b n n'.
Proof.
  intros Hrest Hfind Hr Hlen Hst. rewrite serves_remote_store by done.
  destruct (store_remote_run I py_str other_key py_str_str me fresh fresh_nonempty clock timeout p data d None n r b (Ok id))
    as (n' & Hrun & Hmv); [done|by eapply find_peer_elem|done..|]. exists n'. split; [|done].
  unfold op_remote_store. rewrite remote_store_payload. mrun.
  change (vget_default "durability" _ _) with (Ok (VStr (Durability_value d))). mrun.
  assert (Durability_of (VStr (Durability_value d)) = Ok d) as -> by by destruct d. mrun.
  change (vindex "peer" _) with (Ok (VStr prefix)). mrun. rewrite (bind_ok _ _ _ _ _ (resolve_run _ _ _ Hfind)).
  unfold or_error, mtry. assert (vget "key" (remote_store_request binary prefix data d) = Ok VNone) as ->
    by by destruct binary. mrun. cbn [ro_store here cluster_remote]. change VNone with (key_value None).
  by rewrite (bind_ok _ _ _ _ _ Hrun).
Qed.

Lemma dispatch_remote_load binary id (n : node) r b o :
  at_rest n -> find_peer py_str (VStr prefix) (peers (nd_pm n)).*1 = Ok p ->
  net_nodes (nd_world n) !! p = Some r -> bs_load id (rc_blocks r) = (b, Ok o) ->
  exists n', dispatch (on_block "remote_load" prefix id) binary n = (n', Ok (found binary o)) /\ moved p b n n'.
Proof.
  intros Hrest Hfind Hr Hl. rewrite serves_remote_load by done.
  destruct (load_remote_run I py_str other_key me fresh fresh_nonempty clock timeout p (Some id) None n r b o)
    as (n' & Hrun & Hmv); [done|by eapply find_peer_elem|done..|]. exists n'. split; [|done].
  unfold op_remote_load. change (vindex "peer" _) with (Ok (VStr prefix)). mrun.
  rewrite (bind_ok _ _ _ _ _ (resolve_run _ _ _ Hfind)). unfold or_error, mtry.
  change (vget "block_id" _) with (Ok (id_value (Some id))). change (vget "key" _) with (Ok (key_value None)). mrun.
  cbn [ro_load here cluster_remote]. by rewrite (bind_ok _ _ _ _ _ Hrun).
Qed.

Lemma dispatch_remote_free binary id (n : node) r b f :
  at_rest n -> find_peer py_str (VStr prefix) (peers (nd_pm n)).*1 = Ok p ->
  net_nodes (nd_world n) !! p = Some r -> bs_free id (rc_blocks r) = (b, Ok f) -> I b ->
  exists n', dispatch (on_block "remote_free" prefix id) binary n = (n', Ok (VDict [("ok", VBool f)])) /\ moved p b n n'.
Proof.
  intros Hrest Hfind Hr Hf HI. rewrite serves_remote_free by done.
  destruct (free_remote_run p id n r b f) as (n' & Hrun & Hmv); [done|by eapply find_peer_elem|done..|].
  exists n'. split; [|done]. unfold op_remote_free. change (vindex "peer" _) with (Ok (VStr prefix)). mrun.
  rewrite (bind_ok _ _ _ _ _ (resolve_run _ _ _ Hfind)). unfold or_error, mtry.
  change (vindex "block_id" _) with (Ok (VInt id)). mrun.
  cbn [ro_free here cluster_remote]. by rewrite (bind_ok _ _ _ _ _ Hrun).
Qed.

(** C22: a block stored on a chosen peer that has room: the answer names the peer
    and the block's id there; a load of that id from that peer gives the bytes,
    a free answers that there was a block, and then it is not found.  In either
    codec, over the whole path from this node's control plane. *)
Theorem remote_block_lifecycle binary data d (n : node) r b id :
  at_rest n -> find_peer py_str (VStr prefix) (peers (nd_pm n)).*1 = Ok p ->
  net_nodes (nd_world n) !! p = Some r -> len data <= Config.MAX_BLOCK_SIZE ->
  bs_store data d None (rc_blocks r) = (b, Ok id) ->
  exists n1 n2 n3,
    dispatch (remote_store_request binary prefix data d) binary n
      = (n1, Ok (VDict [("ok", VBool true); ("block_id", VInt id); ("peer", short p)])) /\
    dispatch (on_block "remote_load" prefix id) binary n1 = (n2, Ok (_payload_response data binary)) /\
    dispatch (on_block "remote_free" prefix id) binary n2 = (n3, Ok (VDict [("ok", VBool true)])) /\
    outcome (dispatch (on_block "remote_load" prefix id) binary) n3 = Ok (error_doc "not found").
Proof.
  intros Hrest Hfind Hr Hlen Hst.
  destruct (ar_serving _ _ n Hrest p) as (r0 & Hr0 & Hserve); [by eapply find_peer_elem|].
  rewrite Hr in Hr0. injection Hr0 as <-.
  destruct (bs_store_ok _ _ _ _ _ _ (se_inv _ _ _ Hserve) Hst) as (HI1 & Hload & _).
  destruct (dispatch_remote_store binary data d n r b id) as (n1 & H1 & Hmv1); [done..|].
  destruct (mv_peer _ _ _ _ _ _ Hmv1) as (r1 & Hr1 & Hb1).
  destruct (bs_load_ok id b HI1) as (b2 & o & Hl2 & HI2). pose proof (bs_load_keeps id id _ _ _ HI1 Hl2) as Hkeep.
  assert (o = Some data) as -> by (unfold outcome in Hload; rewrite Hl2 in Hload; by injection Hload).
  destruct (dispatch_remote_load binary id n1 r1 b2 (Some data)) as (n2 & H2 & Hmv2);
    [apply Hmv1|by rewrite (mv_pm _ _ _ _ _ _ Hmv1)|done|by rewrite Hb1|].
  destruct (mv_peer _ _ _ _ _ _ Hmv2) as (r2 & Hr2 & Hb2).
  destruct (bs_free_ok id b2 HI2) as (b3 & f & Hf & HI3 & Hgone & Hfreed).
  assert (f = true) as -> by (destruct Hfreed as [Hn|]; [rewrite Hkeep, Hload in Hn; discriminate|done]).
  destruct (dispatch_remote_free binary id n2 r2 b3 true) as (n3 & H3 & Hmv3);
    [apply Hmv2|by rewrite (mv_pm _ _ _ _ _ _ Hmv2), (mv_pm _ _ _ _ _ _ Hmv1)|done|by rewrite Hb2|done|].
  destruct (mv_peer _ _ _ _ _ _ Hmv3) as (r3 & Hr3 & Hb3).
  destruct (bs_load_ok id b3 HI3) as (b4 & o & Hl4 & _).
  assert (o = None) as -> by (unfold outcome in Hgone; rewrite Hl4 in Hgone; by injection Hgone).
  destruct (dispatch_remote_load binary id n3 r3 b4 None) as (n4 & H4 & _);
    [apply Hmv3|by rewrite (mv_pm _ _ _ _ _ _ Hmv3), (mv_pm _ _ _ _ _ _ Hmv2), (mv_pm _ _ _ _ _ _ Hmv1)|done|by rewrite Hb3|].
  exists n1, n2, n3. split_and!; [done..|]. unfold outcome. by rewrite H4.
Qed.
End peer.
End life.

(** ** Witness *)

#[local] Existing Instance demo_store.
#[local] Existing Instance demo_laws.

Lemma remote_block_lifecycle_witness :
  let net := cluster_remote str_of str_of "me" request_id zero_clock "30" no_dial in
  let dispatch := @_dispatch managed (Net managed) demo_store net str_of str_of None in
  exists n1 n2 n3,
    dispatch (remote_store_request false "b" (BlocksSpec.payload 10) PINNED) false demo_cluster
      = (n1, Ok (VDict [("ok", VBool true); ("block_id", VInt 1); ("peer", VStr "b")])) /\
    dispatch (on_block "remote_load" "b" 1) false n1 = (n2, Ok (_payload_response (BlocksSpec.payload 10) false)) /\
    dispatch (on_block "remote_free" "b" 1) false n2 = (n3, Ok (VDict [("ok", VBool true)])) /\
    outcome (dispatch (on_block "remote_load" "b" 1) false) n3 = Ok (error_doc "not found").
Proof.
  intros net dispatch.
  destruct (bs_store (BlocksSpec.payload 10) PINNED None (rc_blocks empty_peer)) as [b res] eqn:Hs.
  assert (res = Ok 1) as -> by (vm_compute in Hs; congruence).
  apply (remote_block_lifecycle (managed_inv hash0) str_of str_of ltac:(done) "me" request_id ltac:(done) zero_clock
    "30" None no_dial "b" "b" false (BlocksSpec.payload 10) PINNED demo_cluster empty_peer b 1).
  - apply demo_at_rest.
  - by vm_compute.
  - reflexivity.
  - by vm_compute.
  - exact Hs.
Defined.
