(* ===== verification/Daemon.v ===== *)
(** * The daemon ([memnode/main.py])

    The command line's settings and [run]: the construction of every component
    and what is opened, in order.  The host is the files the daemon reads and
    writes and the sockets it has open; what the operating system, the
    certificate files and mDNS answer is a record of outcomes; the identity key
    and the fresh token are random draws. *)
From S2P Require Import Prelude Config PyVal RpcAuth RateLimit Trust TlsMode Peers Blocks StoreInterface.
From S2P Require Import Replication RpcServer RpcClient.

(** ** Arguments *)

Record DaemonArgs := DArgs {
  d_name : string;
  d_ram_quota : Z;
  d_peer_port : Z;
  d_rpc_port : Z;
  d_rpc_socket : option string;
  d_no_mdns : bool;
  d_no_uvloop : bool;
  d_rpc_bind : string;
  d_allow_remote_rpc : bool;
  d_no_rpc_auth : bool;
  d_rpc_token_file : option string;
  d_handshake_timeout : Z;
  d_handshake_rate : Z;
  d_handshake_inflight_per_ip : Z;
  d_require_verification : bool;
  d_tls : TlsMode.args
}.

(** No option given. *)
Definition daemon_defaults : DaemonArgs :=
  DArgs "unnamed-node" Config.DEFAULT_RAM_QUOTA_BYTES Config.PEER_TCP_PORT Config.RPC_TCP_PORT None
    false false Config.RPC_BIND_HOST false false None Config.HANDSHAKE_TIMEOUT_SECONDS
    Config.HANDSHAKE_MAX_PER_IP_PER_WINDOW Config.HANDSHAKE_MAX_INFLIGHT_PER_IP false
    (TlsMode.Args None None None false []).

(** The socket [main] chooses when none is given. *)
Definition rpc_socket_of (windows : bool) (a : DaemonArgs) : string :=
  match d_rpc_socket a with
  | Some s => s
  | None => if windows then "" else "/tmp/memcloud-" +:+ pretty (d_rpc_port a) +:+ ".sock"
  end.

(** The event loop in use. *)
Definition _install_fast_event_loop (use_uvloop installed : bool) (set_policy : result unit) : string :=
  if negb use_uvloop then "asyncio"
  else if negb installed then "asyncio"
  else match set_policy with Ok _ => "uvloop" | Err _ => "asyncio" end.

(** [if args.no_uvloop: config.USE_UVLOOP = False] *)
Definition event_loop (a : DaemonArgs) (installed : bool) (set_policy : result unit) : string :=
  _install_fast_event_loop (Config.USE_UVLOOP && negb (d_no_uvloop a)) installed set_policy.

(** ** The host *)

Inductive listener :=
  | RpcTcp (host : string) (port : Z) (auth : bool)
  | RpcUnix (path : string) (auth : bool) (mode : option Z)   (* [None]: as the umask left it *)
  | PeerTcp (host : string) (port : Z) (tls : option SSLContext).

Record Host := mkHost {
  h_home : string;
  h_trust_file : file_state;
  h_token_files : gmap string token_file;
  h_listening : list listener;
  h_advertised : bool
}.

Definition with_token_files (m : gmap string token_file) (h : Host) : Host :=
  mkHost (h_home h) (h_trust_file h) m (h_listening h) (h_advertised h).
Definition with_trust_file (f : file_state) (h : Host) : Host :=
  mkHost (h_home h) f (h_token_files h) (h_listening h) (h_advertised h).
Definition listen (l : listener) (h : Host) : Host :=
  mkHost (h_home h) (h_trust_file h) (h_token_files h) (h_listening h ++ [l]) (h_advertised h).
Definition advertise (h : Host) : Host :=
  mkHost (h_home h) (h_trust_file h) (h_token_files h) (h_listening h) true.

(** What the outside answers: opening the RPC port, the unix socket
    (unsupported or refused: [false]), [os.chmod]
    on it (an [OSError], [false], is only logged) and the peer port;
    starting mDNS; loading certificate files. *)
Record outside := Outside {
  os_windows : bool;
  os_rpc_port : result unit;
  os_unix : bool;
  os_chmod : bool;
  os_mdns : result unit;
  os_peer_port : result unit;
  os_cert_chain : option string -> option string -> result unit;
  os_verify_locations : option string -> result unit
}.

Record Daemon := mkDaemon {
  dm_identity : bytes;
  dm_rep : Replicator managed;
  dm_pm : PeerManager;
  dm_tls : TlsSettings;
  dm_rpc : RpcServer
}.

Section run.
Context (os : outside) (identity fresh : bytes) (now : pyval).

(** [rpcauth.load_or_create_token(args.rpc_token_file)] *)
Definition daemon_token (a : DaemonArgs) : M Host string := fun h =>
  let path := default (default_token_path (h_home h)) (d_rpc_token_file a) in
  if decide (path = "") then (h, Err (lib_exn OSError))
  else
    match load_or_create_token fresh (h_token_files h !! path) with
    | (Some f, token) => (with_token_files (<[path := f]> (h_token_files h)) h, Ok token)
    | (None, token) => (h, Ok token)
    end.

(** [TrustStore()] *)
Definition open_trust_store : M Host TrustStore := fun h =>
  match _load now (h_trust_file h) with
  | Ok t => (with_trust_file (ts_file t) h, Ok t)
  | Err e => (h, Err e)
  end.

(** [rpc_server.start()] *)
Definition start_rpc (port : Z) (s : RpcServer) : M Host unit :=
  l <- mlift (start s);;
  mlift (os_rpc_port os);;;
  mmodify (listen (RpcTcp (rs_bind_host s) port (tcp_auth l)));;;
  match unix_auth l with
  | Some auth =>
      if os_unix os then
        mmodify (listen (RpcUnix (rs_unix_socket s) auth (if os_chmod os then Some mode_600 else None)))
      else mret tt
  | None => mret tt
  end.

(** [try: await discovery.start() except Exception: log] *)
Definition start_discovery (a : DaemonArgs) : M Host unit :=
  if d_no_mdns a then mret tt
  else mtry (mlift (os_mdns os);;; mmodify advertise) (fun _ => Some (mret tt)).

(** [PeerManager.server_ssl_context] *)
Definition server_ssl_context (t : TlsSettings) : result (option SSLContext) :=
  build_server_context (os_cert_chain os) (os_verify_locations os) t.

Definition _peer_listener (host : string) (port : Z) (t : TlsSettings) : M Host unit :=
  ctx <- mlift (server_ssl_context t);;
  mlift (os_peer_port os);;;
  mmodify (listen (PeerTcp host port ctx)).

(** [run], up to where it serves for ever. *)
Definition run (a : DaemonArgs) : M Host Daemon :=
  blocks <- mlift (BlockManager_init (d_ram_quota a) Config.BLOCK_STRIPE_COUNT);;
  let tls_settings := settings_of (d_tls a) in
  mlift (validate tls_settings);;;
  trust_store <- open_trust_store;;
  let peer_manager := PM (d_require_verification a) trust_store []
    (HandshakeGuard_init (d_handshake_rate a) Config.HANDSHAKE_RATE_WINDOW_SECONDS
       (d_handshake_inflight_per_ip a) Config.HANDSHAKE_MAX_INFLIGHT_TOTAL
       Config.HANDSHAKE_GUARD_MAX_TRACKED_IPS) ∅ ∅ in
  let replication := ReplicationCoordinator_init (Managed blocks 0) ∅
    Config.PEER_CHUNK_SIZE Config.PEER_CHUNK_THRESHOLD in
  auth_token <- (if d_no_rpc_auth a then mret None else token <- daemon_token a;; mret (Some token));;
  let rpc_server := RpcServer_init (d_rpc_bind a) auth_token (negb (d_no_rpc_auth a))
    (rpc_socket_of (os_windows os) a) Config.RPC_AUTH_UNIX_SOCKET_EXEMPT (d_allow_remote_rpc a) in
  start_rpc (d_rpc_port a) rpc_server;;;
  start_discovery a;;;
  _peer_listener "0.0.0.0" (d_peer_port a) tls_settings;;;
  mret (mkDaemon identity replication peer_manager tls_settings rpc_server).
End run.

