(* ===== verification/DaemonSpec.v ===== *)
(** * What the daemon promises when it starts *)
From S2P Require Import Prelude Config PyVal RpcAuth RateLimit Trust TlsMode Peers Blocks StoreInterface.
From S2P Require Import Replication RpcServer RpcClient Daemon.

Section spec.
Context (os : outside) (identity fresh : bytes) (now : pyval) (fresh_nonempty : fresh <> []).

Abbreviation run := (Daemon.run os identity fresh now).

(** ** The token *)

Lemma token_not_empty file : (load_or_create_token fresh file).2 <> "".
Proof.
  unfold load_or_create_token. destruct file as [f|]; [case_decide|]; cbn; try done; by apply bytes_hex_nonempty.
Qed.

Lemma daemon_token_returns a : returns (fun t => t <> "") (daemon_token fresh a).
Proof.
  intros h h' t. unfold daemon_token. case_decide; [done|].
  pose proof (token_not_empty (h_token_files h !! default (default_token_path (h_home h)) (d_rpc_token_file a))) as Ht.
  destruct (load_or_create_token _ _) as [[f|] token]; intros [= _ <-]; done.
Qed.

(** What [run] gives the RPC server: no token exactly when it was told so. *)
Definition token_given (a : DaemonArgs) (o : option string) : Prop :=
  if d_no_rpc_auth a then o = None else exists t, o = Some t /\ t <> "".

Lemma auth_token_returns a :
  returns (token_given a)
    (if d_no_rpc_auth a then mret None else token <- daemon_token fresh a;; mret (Some token)).
Proof.
  unfold token_given. destruct (d_no_rpc_auth a); [by apply returns_ret|].
  intros h h' o (h1 & t & Ht & H)%bind_ok_inv. injection H as _ <-. exists t. split; [done|].
  by apply (daemon_token_returns a h h1).
Qed.

(** ** What is opened *)

Abbreviation server a token := (RpcServer_init (d_rpc_bind a) token (negb (d_no_rpc_auth a))
  (rpc_socket_of (os_windows os) a) Config.RPC_AUTH_UNIX_SOCKET_EXEMPT (d_allow_remote_rpc a)).

Lemma server_auth a token : token_given a token -> rs_require_auth (server a token) = negb (d_no_rpc_auth a).
Proof.
  unfold token_given, RpcServer_init. cbn. destruct (d_no_rpc_auth a); [done|].
  intros (t & -> & Ht). cbn. by rewrite bool_decide_eq_false_2.
Qed.

Lemma token_keeps_listening a L :
  preserves (fun h => h_listening h = L)
    (if d_no_rpc_auth a then mret None else token <- daemon_token fresh a;; mret (Some token)).
Proof.
  destruct (d_no_rpc_auth a); [apply preserves_ret|]. apply preserves_bind; [|intros t; apply preserves_ret].
  intros h0 H0. unfold state_after, daemon_token. case_decide; [done|].
  by destruct (load_or_create_token _ _) as [[f|] t].
Qed.

(** A listener the daemon may have. *)
Definition guarded (a : DaemonArgs) (l : listener) : Prop :=
  match l with
  | RpcTcp host port auth =>
      host = d_rpc_bind a /\ auth = negb (d_no_rpc_auth a) /\
      (is_loopback host = true \/ (d_allow_remote_rpc a = true /\ auth = true))
  | RpcUnix path auth mode =>
      path = rpc_socket_of (os_windows os) a /\ auth = false /\ (os_chmod os = true -> mode = Some mode_600)
  | PeerTcp _ port tls => port = d_peer_port a /\ (is_Some tls <-> tls_enabled (settings_of (d_tls a)) = true)
  end.

Definition opened_ok (a : DaemonArgs) (h : Host) : Prop := Forall (guarded a) (h_listening h).

Lemma listen_ok a l : guarded a l -> preserves (opened_ok a) (mmodify (listen l)).
Proof. intros Hl. apply preserves_modify. intros h Hh. unfold opened_ok. cbn. by apply Forall_app_2; [|constructor]. Qed.

Lemma start_checks a token l :
  token_given a token -> start (server a token) = Ok l ->
  tcp_auth l = negb (d_no_rpc_auth a) /\
  (is_loopback (d_rpc_bind a) = true \/ (d_allow_remote_rpc a = true /\ tcp_auth l = true)) /\
  (forall auth, unix_auth l = Some auth -> auth = false).
Proof.
  intros Ht. unfold start. rewrite (server_auth a token Ht). cbn.
  destruct (is_loopback (d_rpc_bind a)), (d_allow_remote_rpc a), (d_no_rpc_auth a); cbn; try done; intros [= <-];
    cbn; (split; [done|]; split; [naive_solver|]; case_decide; naive_solver).
Qed.

Lemma start_rpc_ok a token :
  token_given a token -> preserves (opened_ok a) (start_rpc os (d_rpc_port a) (server a token)).
Proof.
  intros Ht. unfold start_rpc. apply (preserves_bind_returns _ (fun l => start (server a token) = Ok l)).
  - apply preserves_lift.
  - by intros h h' l [_ H]%lift_inv.
  - intros l Hl. destruct (start_checks a token l Ht Hl) as (Ha & Hg & Hu).
    apply preserves_bind; [apply preserves_lift|intros _]. apply preserves_bind; [by apply listen_ok|intros _].
    destruct (unix_auth l) as [auth|]; [|apply preserves_ret].
    destruct (os_unix os); [|apply preserves_ret]. apply listen_ok. cbn. 
    rewrite (Hu auth) by done. split_and!; [done|done|by intros ->].
Qed.

Lemma context_tls a ctx :
  build_server_context (os_cert_chain os) (os_verify_locations os) (settings_of (d_tls a)) = Ok ctx ->
  is_Some ctx <-> tls_enabled (settings_of (d_tls a)) = true.
Proof.
  unfold build_server_context. destruct (tls_enabled (settings_of (d_tls a))); cbn [negb].
  2:{ intros [= <-]. split; [by intros []|done]. }
  destruct (validate _); [|done]. destruct (os_cert_chain os _ _); [|done]. cbn [result_bind].
  destruct (require_client_cert _); [destruct (os_verify_locations os _); [|done]|]; intros [= <-]; done.
Qed.

Lemma peer_listener_ok a :
  preserves (opened_ok a) (_peer_listener os "0.0.0.0" (d_peer_port a) (settings_of (d_tls a))).
Proof.
  unfold _peer_listener. eapply preserves_bind_returns.
  - apply preserves_lift.
  - intros h h' ctx [_ H]%lift_inv. exact (context_tls a ctx H).
  - intros ctx Hctx. apply preserves_bind; [apply preserves_lift|intros _]. by apply listen_ok.
Qed.

(** C25: whatever the options, the host and the outcome, what the daemon has open
    is guarded.  Over TCP the control plane listens on the address it was given,
    which passes the program's test for loopback ([is_loopback]) unless the
    operator allowed another and clients authenticate; there authentication is
    on exactly unless it was switched off, and never lost for want of a token.
    On the unix socket clients never authenticate: the socket's mode is set to
    0600, if the system allows it.  The peer port runs under TLS exactly when a
    certificate and a key were given. *)
Theorem daemon_guarded a h :
  h_listening h = [] -> opened_ok a (state_after (run a) h).
Proof.
  intros Hh. enough (preserves (opened_ok a) (run a)) as Hp by (apply Hp; unfold opened_ok; by rewrite Hh).
  unfold Daemon.run. cbv zeta.
  apply preserves_bind; [apply preserves_lift|intros bm]. apply preserves_bind; [apply preserves_lift|intros _].
  apply preserves_bind; [|intros ts].
  { intros h0 H0. unfold state_after, open_trust_store. by destruct (_load now (h_trust_file h0)). }
  apply (preserves_bind_returns _ (token_given a)); [|apply auth_token_returns|intros token Ht].
  { intros h0 H0. unfold opened_ok. by rewrite (token_keeps_listening a (h_listening h0) h0 eq_refl). }
  apply preserves_bind; [by apply start_rpc_ok|intros _]. apply preserves_bind; [|intros _].
  { unfold start_discovery. pres; [by apply preserves_modify|]. simplify_eq. pres. }
  apply preserves_bind; [apply peer_listener_ok|intros _]. apply preserves_ret.
Qed.

(** ** The client's token *)

(** The files of the host, as the command-line client reads them. *)
Definition files_of (h : Host) (path : string) : result (option string) :=
  Ok (tf_text <$> (h_token_files h !! path)).

Lemma loaded_token file f token :
  load_or_create_token fresh file = (Some f, token) -> strip_by is_blank (tf_text f) = token /\ token <> "".
Proof.
  intros Hl. pose proof (token_not_empty file) as Hne. rewrite Hl in Hne. split; [|done].
  revert Hl. unfold load_or_create_token. destruct file as [f0|]; [case_decide|]; intros [= <- <-]; [|done|].
  all: apply bytes_hex_strip.
Qed.

(** The parts of [run] after the token leave the token files alone. *)
Lemma after_token {A B} (m : M Host A) (k : B) (T : gmap string token_file) home :
  preserves (fun h => h_token_files h = T /\ h_home h = home) m ->
  preserves (fun h => h_token_files h = T /\ h_home h = home) (m;;; mret k).
Proof. intros Hm. apply preserves_bind; [done|]. intros. apply preserves_ret. Qed.

Lemma start_keeps_files a s T home :
  preserves (fun h => h_token_files h = T /\ h_home h = home)
    (start_rpc os (d_rpc_port a) s;;; start_discovery os a;;;
     _peer_listener os "0.0.0.0" (d_peer_port a) (settings_of (d_tls a))).
Proof.
  unfold start_rpc, start_discovery, _peer_listener. pres; try (by apply preserves_modify); simplify_eq; pres.
  destruct (unix_auth _) as [x|]; [|apply preserves_ret]. destruct (os_unix os); [|apply preserves_ret].
  by apply preserves_modify.
Qed.

(** A daemon that runs with authentication, and the client started on the same
    host with no options: the token the client finds is the one the server
    checks against. *)
Theorem daemon_and_client_share_token a h h' d :
  run a h = (h', Ok d) -> d_no_rpc_auth a = false -> d_rpc_token_file a = None ->
  rs_require_auth (dm_rpc d) = true /\
  _resolve_token (h_home h') (files_of h') None None = Ok (Some (rs_auth_token (dm_rpc d))).
Proof.
  unfold Daemon.run. cbv zeta. intros (h1 & bm & [-> _]%lift_inv & H)%bind_ok_inv Hauth Hfile.
  apply bind_ok_inv in H as (h2 & [] & [-> _]%lift_inv & H).
  apply bind_ok_inv in H as (h3 & ts & Hts & H). rewrite Hauth in H.
  apply bind_ok_inv in H as (h4 & o & Ho & H). apply bind_ok_inv in Ho as (h5 & token & Htok & Ho).
  injection Ho as -> <-. unfold daemon_token in Htok. rewrite Hfile in Htok. cbn [default from_option] in Htok.
  set (path := default_token_path (h_home h3)) in *. case_decide; [done|].
  destruct (load_or_create_token fresh (h_token_files h3 !! path)) as [[f|] t] eqn:Hl.
  2:{ exfalso. revert Hl. unfold load_or_create_token. destruct (h_token_files h3 !! path); [case_decide|]; done. }
  injection Htok as <- ->. apply loaded_token in Hl as [Hstrip Hne].
  set (s := RpcServer_init _ _ _ _ _ _) in H.
  pose proof (start_keeps_files a s (<[path := f]> (h_token_files h3)) (h_home h3)
    (with_token_files (<[path := f]> (h_token_files h3)) h3) (conj eq_refl eq_refl)) as Hkeep.
  unfold state_after in Hkeep. apply bind_ok_inv in H as (h6 & [] & H6 & H).
  apply bind_ok_inv in H as (h7 & [] & H7 & H). apply bind_ok_inv in H as (h8 & [] & H8 & H). injection H as -> <-.
  rewrite (bind_ok _ _ _ _ _ H6), (bind_ok _ _ _ _ _ H7), H8 in Hkeep. cbn [fst] in Hkeep.
  destruct Hkeep as [HT Hhome]. cbn [dm_rpc s RpcServer_init rs_require_auth rs_auth_token default from_option id].
  split; [cbn; by rewrite bool_decide_eq_false_2|].
  assert (h_token_files h' !! path = Some f) as Hin by (rewrite HT; apply lookup_insert_eq).
  assert (files_of h' path = Ok (Some (tf_text f))) as Hf by (unfold files_of; by rewrite Hin).
  unfold _resolve_token. rewrite Hhome. fold path. cbv zeta beta iota. rewrite Hf, Hstrip. by rewrite decide_False.
Qed.

(** ** Options that are refused *)

(** Off the loopback interface, without [--allow-remote-rpc] or without
    authentication: the daemon stops with an error and has opened nothing. *)
Theorem unsafe_bind_opens_nothing a h :
  is_loopback (d_rpc_bind a) = false -> d_allow_remote_rpc a = false \/ d_no_rpc_auth a = true ->
  h_listening (state_after (run a) h) = h_listening h /\ exists e, outcome (run a) h = Err e.
Proof.
  intros Hlo Hun. unfold state_after, outcome. destruct (run a h) as [h' res] eqn:E. cbn [fst snd]. revert E.
  unfold Daemon.run. cbv zeta.
  unfold mbind_m at 1, mlift at 1. destruct (BlockManager_init _ _) as [bm|e]; [|by intros [= <- <-]; split; [|eexists]].
  unfold mbind_m at 1, mlift at 1. destruct (validate _) as [[]|e]; [|by intros [= <- <-]; split; [|eexists]].
  unfold mbind_m at 1, open_trust_store.
  destruct (_load now (h_trust_file h)) as [ts|e]; [|by intros [= <- <-]; split; [|eexists]].
  unfold mbind_m at 1. destruct ((if d_no_rpc_auth a then mret None else _) _) as [h1 r1] eqn:Ho.
  pose proof (token_keeps_listening a (h_listening h) (with_trust_file (ts_file ts) h) eq_refl) as Hh1.
  unfold state_after in Hh1. rewrite Ho in Hh1. cbn [fst] in Hh1.
  destruct r1 as [o|e]; [|by intros [= <- <-]; split; [|eexists]].
  assert (token_given a o) as Ht by (eapply auth_token_returns, Ho).
  unfold mbind_m at 1, start_rpc. unfold mbind_m at 1, mlift at 1.
  destruct (start (server a o)) as [l|e] eqn:Hs; [|by intros [= <- <-]; split; [|eexists]].
  exfalso. destruct (start_checks a o l Ht Hs) as (Ha & [Hg|[Hg1 Hg2]] & _); [congruence|].
  destruct Hun as [Hx|Hx]; [congruence|]. rewrite Ha, Hx in Hg2. done.
Qed.
End spec.

(** ** A daemon started with no options *)

Section defaults.
Context (os : outside) (Hw : os_windows os = false) (Hu : os_unix os = true) (Hc : os_chmod os = true) (Hr : os_rpc_port os = Ok tt)
  (Hp : os_peer_port os = Ok tt).

Lemma default_rpc_starts token h :
  token <> "" ->
  start_rpc os 7070 (RpcServer_init "127.0.0.1" (Some token) true (rpc_socket_of false daemon_defaults) true false) h
    = (listen (RpcUnix "/tmp/memcloud-7070.sock" false (Some mode_600)) (listen (RpcTcp "127.0.0.1" 7070 true) h), Ok tt).
Proof.
  intros Ht. unfold start_rpc.
  assert (start (RpcServer_init "127.0.0.1" (Some token) true (rpc_socket_of false daemon_defaults) true false)
    = Ok (Listeners true (Some false))) as ->
    by (unfold start, RpcServer_init; cbn [default from_option id rs_require_auth rs_bind_host]; by rewrite bool_decide_eq_false_2).
  mrun. rewrite Hr. mrun. cbn [unix_auth]. by rewrite Hu, Hc.
Qed.

Lemma discovery_never_fails a h :
  exists h', start_discovery os a h = (h', Ok tt) /\ h_listening h' = h_listening h.
Proof.
  unfold start_discovery. destruct (d_no_mdns a); [by exists h|]. unfold mtry, mbind_m, mlift.
  destruct (os_mdns os) as [[]|e]; [|by exists h]. by exists (advertise h).
Qed.

(** It opens the authenticated control plane on the loopback interface, the
    unix socket named after its port, and the peer port without TLS, whether
    mDNS starts or not.  Its identity is the fresh draw, whatever earlier runs
    left on the host. *)
Theorem default_daemon_starts identity fresh now h ts :
  fresh <> [] -> h_listening h = [] -> _load now (h_trust_file h) = Ok ts ->
  exists h' d, run os identity fresh now daemon_defaults h = (h', Ok d) /\
    h_listening h' = [RpcTcp "127.0.0.1" 7070 true; RpcUnix "/tmp/memcloud-7070.sock" false (Some mode_600);
                      PeerTcp "0.0.0.0" 8080 None] /\
    rs_require_auth (dm_rpc d) = true /\ dm_identity d = identity.
Proof.
  intros Hf Hh Hl. unfold run. cbv zeta.
  destruct (BlockManager_init (d_ram_quota daemon_defaults) Config.BLOCK_STRIPE_COUNT) as [bm|e] eqn:Hbm;
    [|by vm_compute in Hbm].
  mrun. change (validate (settings_of (d_tls daemon_defaults))) with (Ok (A := unit) tt). mrun.
  erewrite bind_ok by (unfold open_trust_store; rewrite Hl; reflexivity).
  cbn [d_no_rpc_auth daemon_defaults].
  set (h1 := with_trust_file (ts_file ts) h).
  assert (exists h2 token, daemon_token fresh daemon_defaults h1 = (h2, Ok token)) as (h2 & token & Htok).
  { unfold daemon_token. rewrite decide_False by (cbn; unfold default_token_path; by destruct (h_home h)).
    destruct (load_or_create_token _ _) as [[f|] t]; by eexists _, _. }
  pose proof (daemon_token_returns fresh Hf daemon_defaults h1 h2 token Htok) as Ht.
  pose proof (token_keeps_listening fresh daemon_defaults (h_listening h) h1 eq_refl) as Hh2.
  unfold state_after in Hh2. cbn [d_no_rpc_auth daemon_defaults] in Hh2.
  rewrite (bind_ok _ _ _ _ _ Htok) in Hh2. cbn in Hh2.
  erewrite bind_ok by (rewrite (bind_ok _ _ _ _ _ Htok); reflexivity).
  cbn [negb d_rpc_bind d_rpc_port d_allow_remote_rpc d_peer_port daemon_defaults]. rewrite Hw.
  change Config.RPC_BIND_HOST with "127.0.0.1". change Config.RPC_TCP_PORT with 7070.
  change Config.RPC_AUTH_UNIX_SOCKET_EXEMPT with true. fold daemon_defaults.
  rewrite (bind_ok _ _ _ _ _ (default_rpc_starts token h2 Ht)).
  match goal with |- context [(start_discovery os ?a;;; _) ?h0] =>
    destruct (discovery_never_fails a h0) as (h3 & H3 & Hh3); rewrite (bind_ok _ _ _ _ _ H3) end.
  unfold _peer_listener, server_ssl_context. rewrite !bind_assoc.
  change (build_server_context _ _ _) with (Ok (A := option SSLContext) None). mrun. rewrite !bind_assoc, Hp. mrun.
  eexists _, _. split; [reflexivity|]. split_and!; [|cbn; by rewrite bool_decide_eq_false_2|done].
  cbn. rewrite Hh3. cbn. by rewrite Hh2, Hh.
Qed.
End defaults.

(** ** Witnesses *)

Definition quiet_os : outside :=
  Outside false (Ok tt) true true (Err (lib_exn OSError)) (Ok tt) (fun _ _ => Ok tt) (fun _ => Ok tt).
Definition blank_host : Host := mkHost "/root" NoFile ∅ [] false.

Definition lan_args (allow no_auth : bool) : DaemonArgs :=
  DArgs "n" 1024 8080 7070 None true true "10.0.0.4" allow no_auth None 1 2 3 false
    (TlsMode.Args (Some "c") (Some "k") (Some "ca") false []).

Lemma daemon_guarded_witness :
  opened_ok quiet_os (lan_args true false) (state_after (run quiet_os [] [Byte.x01] noon (lan_args true false)) blank_host)
  /\ h_listening (state_after (run quiet_os [] [Byte.x01] noon (lan_args true false)) blank_host)
     = [RpcTcp "10.0.0.4" 7070 true; RpcUnix "/tmp/memcloud-7070.sock" false (Some mode_600);
        PeerTcp "0.0.0.0" 8080 (Some (Ssl true true (Some "c", Some "k") true (Some "ca") false))].
Proof. split; [apply (daemon_guarded quiet_os [] [Byte.x01] noon); done|by vm_compute]. Defined.

Lemma daemon_and_client_share_token_witness :
  let run := run quiet_os [] [Byte.x7f] noon daemon_defaults blank_host in
  exists d, run.2 = Ok d /\ rs_require_auth (dm_rpc d) = true /\
    _resolve_token (h_home run.1) (files_of run.1) None None = Ok (Some (rs_auth_token (dm_rpc d))).
Proof.
  intros run. destruct (run.2) as [d|e] eqn:E; [|by vm_compute in E]. exists d. split; [done|].
  apply (daemon_and_client_share_token quiet_os [] [Byte.x7f] noon ltac:(done) daemon_defaults blank_host run.1 d).
  - unfold run in *. rewrite <-E. apply surjective_pairing.
  - done.
  - done.
Defined.

Lemma unsafe_bind_opens_nothing_witness :
  h_listening (state_after (run quiet_os [] [Byte.x01] noon (lan_args true true)) blank_host) = [] /\
  exists e, outcome (run quiet_os [] [Byte.x01] noon (lan_args true true)) blank_host = Err e.
Proof.
  apply (unsafe_bind_opens_nothing quiet_os [] [Byte.x01] noon ltac:(done) (lan_args true true) blank_host);
    [by vm_compute|by right].
Defined.

Lemma default_daemon_starts_witness :
  exists h' d, run quiet_os [Byte.x05] [Byte.x01] noon daemon_defaults blank_host = (h', Ok d) /\
    h_listening h' = [RpcTcp "127.0.0.1" 7070 true; RpcUnix "/tmp/memcloud-7070.sock" false (Some mode_600);
                      PeerTcp "0.0.0.0" 8080 None] /\
    rs_require_auth (dm_rpc d) = true /\ dm_identity d = [Byte.x05].
Proof. by apply (default_daemon_starts quiet_os eq_refl eq_refl eq_refl eq_refl eq_refl [Byte.x05] [Byte.x01] noon blank_host (Store [] NoFile)). Defined.
