(* ===== verification/Discovery.v ===== *)
(** * mDNS discovery ([memnode/discovery.py])

    What is advertised, and the reaction to what is found.  zeroconf and the
    network are parameters: the addresses the host would use, the outcome of
    registering a service, the answer to a service query, and [connect_to] of
    the peer manager, a computation in a world [S]. *)
From S2P Require Import Prelude Config PyVal.

(** The address of the interface that routes outside, else the one of the host
    name. *)
Definition _detect_lan_ip (routed by_name : result string) : result string :=
  match routed with
  | Ok ip => Ok ip
  | Err e => if decide (exn_cls e = OSError) then by_name else Err e
  end.

Record ServiceInfo := Service {
  sv_type : string;
  sv_name : string;
  sv_addresses : list bytes;
  sv_port : Z;
  sv_properties : list (string * string)
}.

Record Discovery := Disc {
  ds_node_id : string;
  ds_node_name : string;
  ds_port : Z;
  ds_azc : bool;                        (* zeroconf is open *)
  ds_registered : option ServiceInfo;
  ds_browser : bool
}.

Definition Discovery_init (node_id name : string) (port : Z) : Discovery :=
  Disc node_id name port false None false.

Definition service_of (d : Discovery) (address : bytes) : ServiceInfo :=
  Service Config.MDNS_SERVICE_TYPE (ds_node_id d +:+ "." +:+ Config.MDNS_SERVICE_TYPE) [address] (ds_port d)
    [("name", ds_node_name d); ("id", ds_node_id d)].

Section network.
Context (routed by_name : result string) (inet_aton : string -> result bytes).
Context (open_zeroconf register browse : result unit).

Definition start : M Discovery unit :=
  mlift open_zeroconf;;;
  mmodify (fun d => Disc (ds_node_id d) (ds_node_name d) (ds_port d) true (ds_registered d) (ds_browser d));;;
  local_ip <- mlift (_detect_lan_ip routed by_name);;
  address <- mlift (inet_aton local_ip);;
  mlift register;;;
  mmodify (fun d => Disc (ds_node_id d) (ds_node_name d) (ds_port d) (ds_azc d)
                      (Some (service_of d address)) (ds_browser d));;;
  mlift browse;;;
  mmodify (fun d => Disc (ds_node_id d) (ds_node_name d) (ds_port d) (ds_azc d) (ds_registered d) true).

(** The browser is cancelled, then zeroconf closed, each if it was started. *)
Definition stop (cancel close : result unit) : M Discovery unit :=
  d <- mget;;
  (if ds_browser d then mlift cancel else mret tt);;;
  if ds_azc d then mlift close else mret tt.
End network.

(** ** What is found *)

Inductive ServiceStateChange := Added | Removed | Updated.

#[global] Instance ServiceStateChange_eq_dec : EqDecision ServiceStateChange.
Proof. solve_decision. Defined.

Section found.
Context {S : Type} (connect_to : string -> Z -> M S string).

(** [query] is the answer to the service query: none in time, or addresses and
    a port; asking may fail. *)
Definition _maybe_connect (d : Discovery) (name : string) (change : ServiceStateChange)
    (query : result (option (list string * Z))) : M S unit :=
  if negb (bool_decide (change = Added)) then mret tt
  else if String.prefix (ds_node_id d) name then mret tt
  else
    mtry
      (info <- mlift query;;
       match info with
       | Some (host :: _, port) => connect_to host port;;; mret tt
       | _ => mret tt
       end)
      (fun _ => Some (mret tt)).

(** ** Properties *)

Lemma prefix_app (p s : string) : String.prefix p (p +:+ s) = true.
Proof.
  induction p as [|c p IH]; [by destruct s|].
  change (String.prefix (String.String c p) (String.String c (p +:+ s)) = true).
  unfold String.prefix; fold String.prefix. destruct (Ascii.ascii_dec c c); [exact IH|done].
Qed.

(** A service event never brings the daemon down, whatever the query answers
    and however the connection attempt ends; a peer is dialled only when a
    service appeared whose name does not carry this node's id, and then at the
    first address of the answer. *)
Theorem discovery_dials_safely d name change query (s : S) :
  outcome (_maybe_connect d name change query) s = Ok tt /\
  (state_after (_maybe_connect d name change query) s <> s ->
   change = Added /\ String.prefix (ds_node_id d) name = false /\
   exists host rest port, query = Ok (Some (host :: rest, port)) /\
     state_after (_maybe_connect d name change query) s = state_after (connect_to host port) s).
Proof.
  unfold state_after, outcome, _maybe_connect. case_bool_decide as Hc; cbn [negb]; [|done].
  destruct (String.prefix (ds_node_id d) name) eqn:Hp; [done|]. unfold mtry, mbind_m, mlift.
  destruct query as [[[[|host rest] port]|]|e]; try done.
  destruct (connect_to host port s) as [s' [k|e]] eqn:Hk; cbn; (split; [done|]; intros _; split_and!; try done);
    exists host, rest, port; by rewrite Hk.
Qed.
End found.

(** A node never dials itself: the name under which [start] registers it is one
    that [_maybe_connect] ignores. *)
Theorem own_service_ignored {S} (connect_to : string -> Z -> M S string) routed by_name inet_aton
    open_zeroconf register browse d d' info change query (s : S) :
  start routed by_name inet_aton open_zeroconf register browse d = (d', Ok tt) ->
  ds_registered d' = Some info ->
  _maybe_connect connect_to d' (sv_name info) change query s = (s, Ok tt).
Proof.
  unfold start. intros (d1 & [] & [-> _]%lift_inv & H)%bind_ok_inv. rewrite bind_modify in H.
  apply bind_ok_inv in H as (d2 & ip & [-> _]%lift_inv & H). apply bind_ok_inv in H as (d3 & addr & [-> _]%lift_inv & H).
  apply bind_ok_inv in H as (d4 & [] & [-> _]%lift_inv & H). rewrite bind_modify in H.
  apply bind_ok_inv in H as (d5 & [] & [-> _]%lift_inv & H). injection H as <-. intros [= <-].
  unfold _maybe_connect. case_bool_decide; [|done].
  cbn [negb ds_node_id sv_name service_of]. by rewrite prefix_app.
Qed.

Definition dial0 (host : string) (port : Z) : M (list string) string := fun s =>
  (s ++ [host], Err (lib_exn TimeoutError)).

Lemma own_service_ignored_witness :
  let d := Discovery_init "id1" "laptop" 8080 in
  let run := start (Err (lib_exn OSError)) (Ok "127.0.1.1") (fun _ => Ok []) (Ok tt) (Ok tt) (Ok tt) d in
  _maybe_connect dial0 run.1 "id1._memcloud._tcp.local." Added (Ok (Some (["10.0.0.2"], 8080))) [] = ([], Ok tt).
Proof.
  intros d run.
  apply (own_service_ignored dial0 (Err (lib_exn OSError)) (Ok "127.0.1.1") (fun _ => Ok []) (Ok tt) (Ok tt) (Ok tt)
    d run.1 (Service "_memcloud._tcp.local." "id1._memcloud._tcp.local." [[]] 8080
      [("name", "laptop"); ("id", "id1")])); by vm_compute.
Defined.

Lemma discovery_dials_safely_witness :
  let d := Discovery_init "id1" "laptop" 8080 in
  outcome (_maybe_connect dial0 d "id2.x" Added (Ok (Some (["10.0.0.2"; "fe80::1"], 8080)))) [] = Ok tt /\
  exists host rest port, Ok (Some (["10.0.0.2"; "fe80::1"], 8080)) = Ok (Some (host :: rest, port)) /\
    state_after (_maybe_connect dial0 d "id2.x" Added (Ok (Some (["10.0.0.2"; "fe80::1"], 8080)))) []
      = state_after (dial0 host port) [].
Proof.
  intros d.
  destruct (discovery_dials_safely dial0 d "id2.x" Added (Ok (Some (["10.0.0.2"; "fe80::1"], 8080))) []) as [H1 H2].
  split; [exact H1|]. apply H2. by vm_compute.
Defined.
