(* ===== verification/Demo.v ===== *)
(** * The demo client ([demo/demo_client.py])

    Uploading a file in pieces and releasing it again, over any RPC call, and
    the call itself.  A manifest is the JSON document in its file.  The
    progress bars and the text printed are left out. *)
From S2P Require Import Prelude Config PyVal Protocol Handshake.

Definition SAFE_CHUNK_BYTES : Z := Z.min Config.MAX_BLOCK_SIZE (Config.MAX_RPC_MESSAGE_SIZE / 2 - 4096).
Definition DEFAULT_CHUNK_BYTES : Z := Z.min SAFE_CHUNK_BYTES (3 * 1024 * 1024).

(** ** The call *)

(** A blocking socket: the segments still to arrive, none of them empty; [recv]
    takes what is there, up to [n] bytes, and nothing once the peer has closed. *)
Definition recv (n : Z) (segments : list bytes) : list bytes * bytes :=
  match segments with
  | [] => ([], [])
  | seg :: segments =>
      if len seg <=? n then (segments, seg)
      else (drop (Z.to_nat n) seg :: segments, take (Z.to_nat n) seg)
  end.

(** [while len(buf) < n: chunk = s.recv(n - len(buf)) ...] *)
Fixpoint recv_loop (fuel : nat) (n : Z) (buf : bytes) : M (list bytes) bytes :=
  if n <=? len buf then mret buf
  else
    match fuel with
    | O => mraise (lib_exn RuntimeError)
    | S fuel => fun segments =>
        let '(segments, chunk) := recv (n - len buf) segments in
        if decide (chunk = []) then (segments, Err (Exn ConnectionError "connection closed mid-message"))
        else recv_loop fuel n (buf ++ chunk) segments
    end.

Definition _recv_exact (n : Z) : M (list bytes) bytes := fun segments =>
  recv_loop (S (length segments)) n [] segments.

Section call.
Context (json : codec).

(** One request on a fresh connection: what was sent, and the segments of the
    answer. *)
Definition _call (req : pydict) : M (bytes * list bytes) pyval :=
  raw <- mlift (c_enc json (VDict req));;
  prefix <- mlift (pack_be 4 (len raw));;
  mmodify (fun st => (st.1 ++ prefix ++ raw, st.2));;;
  body <- (fun st =>
    let '(segs, r) :=
      (len_bytes <- _recv_exact 4;; _recv_exact (unpack_be len_bytes)) st.2 in
    ((st.1, segs), r));;
  mlift (c_dec json body).
End call.

(** ** Uploading *)

(** A file with its content, or as much random data as was asked for. *)
Inductive source :=
  | File (base : string) (content : bytes)
  | Synthetic (mb : Z) (draw : bytes).

Definition total_size (s : source) : Z :=
  match s with File _ content => len content | Synthetic mb _ => mb * 1024 * 1024 end.

Definition content_of (s : source) : bytes :=
  match s with File _ content => content | Synthetic _ draw => draw end.

(** [read(n)]: a file read with a negative size gives all that is left. *)
Definition read (s : source) (n : Z) (rest : bytes) : bytes * bytes :=
  match s with
  | File _ _ => if n <? 0 then ([], rest) else (drop (Z.to_nat n) rest, take (Z.to_nat n) rest)
  | Synthetic _ _ => if n <? 0 then (rest, []) else (drop (Z.to_nat n) rest, take (Z.to_nat n) rest)
  end.

Definition chunk_bytes (chunk_kb : option Z) : Z :=
  Z.min (match chunk_kb with
         | Some kb => if kb =? 0 then DEFAULT_CHUNK_BYTES else kb * 1024
         | None => DEFAULT_CHUNK_BYTES
         end) SAFE_CHUNK_BYTES.

Definition store_piece (data : bytes) : pydict :=
  [("op", VStr "store"); ("data_hex", VStr (bytes_hex data)); ("durability", VStr "pinned")].

(** What the manifest keeps of an answer. *)
Definition chunk_entry (resp : pyval) : result pyval :=
  let? location := vget_default "location" (VStr "local") resp in
  let? peer := vget "peer" resp in
  let? block_id := vindex "block_id" resp in
  Ok (VDict [("block_id", block_id); ("location", location); ("peer", peer)]).

Definition manifest_doc (name : string) (sent idx : Z) (chunks : list pyval) : pyval :=
  VDict [("name", VStr name); ("total_bytes", VInt sent); ("chunk_count", VInt idx); ("chunks", VList chunks)].

Record demo (S : Type) := mkDemo { dw_world : S; dw_manifests : gmap string pyval }.
Arguments mkDemo {S}.
Arguments dw_world {S}.
Arguments dw_manifests {S}.

Section commands.
Context {S : Type} (call : pydict -> M S pyval).

Definition on_world {A} (m : M S A) : M (demo S) A := fun d =>
  let '(s, r) := m (dw_world d) in (mkDemo s (dw_manifests d), r).

(** The loop of [cmd_upload]; [None] is [sys.exit(1)]. *)
Fixpoint upload_loop (fuel : nat) (src : source) (n : Z) (rest : bytes) (sent idx : Z) (chunks : list pyval)
    : M S (option (Z * Z * list pyval)) :=
  if total_size src <=? sent then mret (Some (sent, idx, chunks))
  else
    match fuel with
    | O => mraise (lib_exn RuntimeError)
    | Datatypes.S fuel =>
        let '(rest, data) := read src n rest in
        if decide (data = []) then mret (Some (sent, idx, chunks))
        else
          resp <- call (store_piece data);;
          ok <- mlift (vget "ok" resp);;
          if truthy ok then
            entry <- mlift (chunk_entry resp);;
            upload_loop fuel src n rest (sent + len data) (idx + 1) (chunks ++ [entry])
          else mret None
    end.

(** [_show_stats]: one more request, whose fields are read. *)
Definition _show_stats : M S unit :=
  resp <- call [("op", VStr "stats")];;
  ok <- mlift (vget "ok" resp);;
  if truthy ok then
    s <- mlift (vindex "stats" resp);;
    mlift (vindex "used_bytes" s);;;
    mlift (vindex "max_bytes" s);;;
    mlift (vindex "block_count" s);;;
    mlift (vindex "free_bytes" s);;;
    mret tt
  else mret tt.

Definition upload_name (name : option string) (src : source) : string :=
  match name with
  | Some s => if decide (s = "") then match src with File b _ => b | _ => "synthetic-payload" end else s
  | None => match src with File b _ => b | _ => "synthetic-payload" end
  end.

(** The exit code. *)
Definition cmd_upload (name : option string) (chunk_kb : option Z) (src : source) : M (demo S) Z :=
  let content := content_of src in
  done <- on_world (upload_loop (Datatypes.S (length content)) src (chunk_bytes chunk_kb) content 0 0 []);;
  match done with
  | None => mret 1
  | Some (sent, idx, chunks) =>
      let name := upload_name name src in
      mmodify (fun d => mkDemo (dw_world d) (<[name := manifest_doc name sent idx chunks]> (dw_manifests d)));;;
      on_world _show_stats;;;
      mret 0
  end.

(** ** Releasing *)

Definition free_request (c : pyval) : result pydict :=
  let? location := vindex "location" c in
  if decide (location = VStr "remote") then
    let? peer := vindex "peer" c in
    let? block_id := vindex "block_id" c in
    Ok [("op", VStr "remote_free"); ("peer", peer); ("block_id", block_id)]
  else
    let? block_id := vindex "block_id" c in
    Ok [("op", VStr "free"); ("block_id", block_id)].

(** How many were not freed. *)
Fixpoint free_chunks (chunks : list pyval) (failures : Z) : M S Z :=
  match chunks with
  | [] => mret failures
  | c :: chunks =>
      req <- mlift (free_request c);;
      resp <- call req;;
      ok <- mlift (vget "ok" resp);;
      free_chunks chunks (if truthy ok then failures else failures + 1)
  end.

(** Iterating over a list; anything else that is not empty has no items with
    fields. *)
Definition as_items (v : pyval) : result (list pyval) :=
  match v with
  | VList l => Ok l
  | VDict [] | VStr "" | VBytes [] => Ok []
  | _ => Err (lib_exn TypeError)
  end.

Definition cmd_cleanup (name : string) : M (demo S) unit :=
  d <- mget;;
  match dw_manifests d !! name with
  | None => mret tt
  | Some manifest =>
      v <- mlift (vindex "chunks" manifest);;
      chunks <- mlift (as_items v);;
      mlift (vindex "total_bytes" manifest);;;
      failures <- on_world (free_chunks chunks 0);;
      (if failures =? 0
       then mmodify (fun d => mkDemo (dw_world d) (delete name (dw_manifests d)))
       else mret tt);;;
      on_world _show_stats
  end.

(** [cmd_connect] and [cmd_peers]: one request each. *)
Definition cmd_connect (peer_host : string) (peer_port : Z) : M S pyval :=
  resp <- call [("op", VStr "connect"); ("host", VStr peer_host); ("port", VInt peer_port)];;
  ok <- mlift (vget "ok" resp);;
  if truthy ok then mlift (vindex "pubkey" resp) else mlift (vget "error" resp).

Definition cmd_peers : M S (list pyval) :=
  resp <- call [("op", VStr "peers")];;
  ok <- mlift (vget "ok" resp);;
  if truthy ok then v <- mlift (vindex "peers" resp);; mlift (as_items v) else mret [].
End commands.
