(* ===== verification/DemoSpec.v ===== *)
(** * What the demo client promises *)
From S2P Require Import Prelude Config PyVal Protocol Handshake RpcAuth RpcServer RpcSpec Demo.

(** ** Receiving *)

Abbreviation segmented segs := (Forall (fun seg : bytes => seg <> []) segs).

Lemma len_pos (b : bytes) : b <> [] -> 0 < len b.
Proof. destruct b; [done|]. rewrite len_cons. pose proof (len_nonneg b0). lia. Qed.

(** What [recv] takes comes off the front of the stream. *)
Lemma recv_front n segs segs' chunk :
  0 < n -> segmented segs -> recv n segs = (segs', chunk) ->
  concat segs = chunk ++ concat segs' /\ len chunk <= n /\ segmented segs' /\
  (chunk = [] -> segs = []) /\ (length segs' < length segs \/ len chunk = n \/ segs = [])%nat.
Proof.
  intros Hn Hs. unfold recv.
  destruct segs as [|seg segs]; [intros [= <- <-]; rewrite len_nil; split_and!; first [done | lia | by auto]|].
  apply Forall_cons in Hs as [Hne Hs]. pose proof (len_pos seg Hne) as Hpos.
  destruct (Z.leb_spec (len seg) n) as [Hle|Hgt]; intros [= <- <-].
  - split_and!; [done|done|done|done|left; cbn; lia].
  - unfold len in Hgt.
    assert (len (take (Z.to_nat n) seg) = n) as Hlen by (unfold len; rewrite length_take; lia).
    split_and!; [cbn; by rewrite (assoc_L app), take_drop|lia| | |by right; left].
    + constructor; [|done]. intros H0%(f_equal length). rewrite length_drop in H0. cbn in H0. lia.
    + intros H0. rewrite H0, len_nil in Hlen. lia.
Qed.

Definition mid_message : exn := Exn ConnectionError "connection closed mid-message".

Lemma recv_loop_segments fuel : forall n buf segs,
  segmented segs -> len buf <= n -> (length segs < fuel)%nat ->
  if n - len buf <=? len (concat segs)
  then exists segs', recv_loop fuel n buf segs = (segs', Ok (buf ++ take (Z.to_nat (n - len buf)) (concat segs))) /\
       concat segs' = drop (Z.to_nat (n - len buf)) (concat segs) /\ segmented segs'
  else exists segs', recv_loop fuel n buf segs = (segs', Err mid_message).
Proof.
  induction fuel as [|fuel IH]; intros n buf segs Hs Hbuf Hfuel; [lia|]. cbn [recv_loop].
  pose proof (len_nonneg (concat segs)) as Hnn. destruct (Z.leb_spec n (len buf)) as [Hle|Hgt].
  - replace (n - len buf) with 0 by lia. rewrite (proj2 (Z.leb_le _ _)) by lia. exists segs.
    change (Z.to_nat 0) with 0%nat. rewrite take_0, drop_0, app_nil_r. done.
  - destruct (recv (n - len buf) segs) as [segs' chunk] eqn:Hr.
    destruct (recv_front (n - len buf) segs segs' chunk ltac:(lia) Hs Hr) as (Hcat & Hlen & Hs' & Hnil & Hprog).
    case_decide as Hc.
    { rewrite (Hnil Hc). cbn [concat]. rewrite len_nil, (proj2 (Z.leb_gt _ _)) by lia. by exists segs'. }
    pose proof (len_pos chunk Hc) as Hpos. rewrite Hcat, len_app. pose proof (len_nonneg (concat segs')).
    assert (len (buf ++ chunk) = len buf + len chunk) as Hb' by apply len_app.
    destruct Hprog as [Hshort|[Hfull|Hsegs]].
    + specialize (IH n (buf ++ chunk) segs' Hs' ltac:(lia) ltac:(lia)). rewrite Hb' in IH.
      replace (n - (len buf + len chunk)) with (n - len buf - len chunk) in IH by lia.
      destruct (Z.leb_spec (n - len buf - len chunk) (len (concat segs'))) as [Hle'|Hgt'].
      * rewrite (proj2 (Z.leb_le _ _)) by lia. destruct IH as (segs2 & -> & Hd & Hs2). exists segs2.
        assert (Z.to_nat (n - len buf) = length chunk + Z.to_nat (n - len buf - len chunk))%nat as ->
          by (unfold len in *; lia).
        rewrite take_app_add, drop_app_add. by rewrite (assoc_L app).
      * rewrite (proj2 (Z.leb_gt _ _)) by lia. exact IH.
    + rewrite (proj2 (Z.leb_le _ _)) by lia. exists segs'.
      assert (Z.to_nat (n - len buf) = length chunk) as -> by (unfold len in *; lia).
      rewrite take_app_length, drop_app_length. split; [|done].
      destruct fuel; cbn [recv_loop]; by rewrite (proj2 (Z.leb_le _ _)) by lia.
    + subst segs. cbn in Hr. by injection Hr as <- <-.
Qed.

(** The receive loop does what the reference [readexactly] does on the whole
    stream, however the stream is cut into segments: the same bytes and the
    same rest, and an error exactly when the stream is too short. *)
Theorem recv_exact_is_readexactly n segs :
  segmented segs -> 0 <= n ->
  match readexactly n (Reader (concat segs) []) with
  | (r, Ok b) => exists segs', _recv_exact n segs = (segs', Ok b) /\ concat segs' = rd_buf r /\ segmented segs'
  | (_, Err _) => exists segs', _recv_exact n segs = (segs', Err mid_message)
  end.
Proof.
  intros Hs Hn. unfold readexactly. cbn [rd_buf rd_requests]. unfold _recv_exact.
  pose proof (recv_loop_segments (S (length segs)) n [] segs Hs Hn ltac:(lia)) as H.
  rewrite len_nil, Z.sub_0_r in H. by destruct (n <=? len (concat segs)).
Qed.

Lemma recv_exact_app (b rest : bytes) segs :
  segmented segs -> concat segs = b ++ rest ->
  exists segs', _recv_exact (len b) segs = (segs', Ok b) /\ concat segs' = rest /\ segmented segs'.
Proof.
  intros Hs Hcat. pose proof (len_nonneg b). pose proof (len_nonneg rest).
  pose proof (recv_loop_segments (S (length segs)) (len b) [] segs Hs ltac:(rewrite len_nil; lia) ltac:(lia)) as H1.
  rewrite len_nil, Z.sub_0_r, Hcat, len_app in H1. rewrite (proj2 (Z.leb_le _ _)) in H1 by lia.
  assert (Z.to_nat (len b) = length b) as Hb by (unfold len; lia).
  rewrite Hb, take_app_length, drop_app_length in H1. exact H1.
Qed.

(** ** Uploading *)

Section upload.
Context {S : Type} (call : pydict -> M S pyval).

(** The reference: one store per piece, in order, until one is refused. *)
Fixpoint store_all (ps : list bytes) (chunks : list pyval) : M S (option (list pyval)) :=
  match ps with
  | [] => mret (Some chunks)
  | p :: ps =>
      resp <- call (store_piece p);;
      ok <- mlift (vget "ok" resp);;
      if truthy ok then
        entry <- mlift (chunk_entry resp);;
        store_all ps (chunks ++ [entry])
      else mret None
  end.

Lemma read_positive src n rest :
  0 < n -> read src n rest = (drop (Z.to_nat n) rest, take (Z.to_nat n) rest).
Proof. intros Hn. unfold read. by destruct src; rewrite (proj2 (Z.ltb_ge _ _)) by lia. Qed.

Lemma bind_ext {A B} (m : M S A) (f g : A -> M S B) s :
  (forall a s', f a s' = g a s') -> mbind_m m f s = mbind_m m g s.
Proof. intros H. unfold mbind_m. destruct (m s) as [s' [a|e]]; [apply H|done]. Qed.

Lemma upload_loop_pieces src n fuel : forall rest sent idx chunks s,
  0 < n -> sent + len rest = total_size src -> (length rest <= fuel)%nat ->
  upload_loop call fuel src n rest sent idx chunks s
    = (o <- store_all (pieces_fuel fuel (Z.to_nat n) rest) chunks;;
       mret ((fun cs => (sent + len rest, idx + len cs - len chunks, cs)) <$> o)) s.
Proof.
  induction fuel as [|fuel IH]; intros rest sent idx chunks s Hn Hsum Hfuel.
  { destruct rest; [|cbn in Hfuel; lia]. rewrite len_nil in *. cbn [upload_loop pieces_fuel store_all].
    rewrite (proj2 (Z.leb_le _ _)) by lia. unfold mret, mbind_m. cbn. by repeat f_equal; lia. }
  cbn [upload_loop]. destruct rest as [|x rest].
  { rewrite len_nil in *. rewrite (proj2 (Z.leb_le _ _)) by lia. unfold mret, mbind_m. cbn.
    by repeat f_equal; lia. }
  pose proof (len_nonneg rest). rewrite len_cons in Hsum. rewrite (proj2 (Z.leb_gt _ _)) by lia.
  rewrite read_positive by done. cbn [pieces_fuel store_all].
  set (data := take (Z.to_nat n) (x :: rest)). set (rest' := drop (Z.to_nat n) (x :: rest)).
  assert (data <> []) as Hd by (unfold data; intros H0%(f_equal length); rewrite length_take in H0; cbn in H0; lia).
  assert (len data + len rest' = len (x :: rest)) as Hsplit
    by (unfold data, rest'; rewrite <-len_app, take_drop; done).
  rewrite decide_False by done. rewrite bind_assoc. apply bind_ext. intros resp s1.
  rewrite bind_assoc. apply bind_ext. intros ok s2. destruct (truthy ok); [|done].
  rewrite bind_assoc. apply bind_ext. intros entry s3. rewrite IH; [|done|rewrite len_cons in Hsplit; lia|].
  - apply bind_ext. intros o s4. unfold mret. do 2 f_equal. destruct o as [cs|]; [|done].
    cbn [fmap option_fmap option_map].
    do 2 f_equal. rewrite (len_app chunks), len_cons, len_nil. rewrite <-Hsplit. f_equal; lia.
  - unfold rest'. rewrite length_drop. cbn in *. lia.
Qed.

Lemma upload_loop_all src n s :
  0 < n -> len (content_of src) = total_size src ->
  upload_loop call (Datatypes.S (length (content_of src))) src n (content_of src) 0 0 [] s
    = (o <- store_all (pieces (Z.to_nat n) (content_of src)) [];;
       mret ((fun cs => (len (content_of src), len cs, cs)) <$> o)) s.
Proof.
  intros Hn Ht. rewrite upload_loop_pieces by (done || lia). rewrite pieces_fuel_more by lia.
  apply bind_ext. intros o s'. unfold mret. do 2 f_equal. destruct o as [cs|]; [|done].
  cbn [fmap option_fmap option_map].
  replace (0 + len cs - len (A := pyval) []) with (len cs) by (unfold len; cbn [length]; lia).
  done.
Qed.
End upload.

(** ** The requests that are made *)

Section requests.
Context {S : Type} (call : pydict -> M S pyval).

(** The same call, with a record of the requests. *)
Definition logged (req : pydict) : M (list pydict * S) pyval := fun st =>
  let '(s, r) := call req st.2 in ((st.1 ++ [req], s), r).

Lemma logged_inv req st st' v : logged req st = (st', Ok v) -> st'.1 = st.1 ++ [req].
Proof. unfold logged. destruct (call req st.2) as [s r]. by intros [= <- _]. Qed.

Lemma store_all_log ps : forall chunks st st' cs,
  store_all logged ps chunks st = (st', Ok (Some cs)) ->
  st'.1 = st.1 ++ (store_piece <$> ps) /\ length cs = (length chunks + length ps)%nat.
Proof.
  induction ps as [|p ps IH]; intros chunks st st' cs; cbn [store_all].
  - intros [= <- <-]. cbn. rewrite app_nil_r. split; [done|lia].
  - intros (s1 & resp & H1%logged_inv & H)%bind_ok_inv.
    apply bind_ok_inv in H as (s2 & ok & [-> _]%lift_inv & H). destruct (truthy ok); [|done].
    apply bind_ok_inv in H as (s3 & entry & [-> _]%lift_inv & H). apply IH in H as [-> ->].
    rewrite H1, <-(assoc_L app), length_app. cbn. split; [done|lia].
Qed.

Definition stats_request : pydict := [("op", VStr "stats")].

Lemma show_stats_log st st' : _show_stats logged st = (st', Ok tt) -> st'.1 = st.1 ++ [stats_request].
Proof.
  unfold _show_stats. fold stats_request. intros (s1 & resp & H1%logged_inv & H)%bind_ok_inv. rewrite <-H1.
  apply bind_ok_inv in H as (s2 & ok & [-> _]%lift_inv & H). destruct (truthy ok); [|by injection H as <-].
  repeat (apply bind_ok_inv in H as (? & ? & [-> _]%lift_inv & H)). by injection H as <-.
Qed.

Lemma on_world_inv {T A} (m : M T A) d d' r :
  on_world m d = (d', r) -> m (dw_world d) = (dw_world d', r) /\ dw_manifests d' = dw_manifests d.
Proof. unfold on_world. destruct (m (dw_world d)). by intros [= <- <-]. Qed.

(** An upload that ends with exit code 0 has sent the whole file: one store
    request per piece, in order, the pieces put together being the content and
    each of one to [SAFE_CHUNK_BYTES] bytes; and the manifest has one entry per
    piece and the size of the file. *)
Theorem upload_sends_file name chunk_kb src log s ms d' :
  0 < chunk_bytes chunk_kb -> len (content_of src) = total_size src ->
  cmd_upload logged name chunk_kb src (mkDemo (log, s) ms) = (d', Ok 0) ->
  exists ps entries,
    (dw_world d').1 = log ++ (store_piece <$> ps) ++ [stats_request] /\
    concat ps = content_of src /\ Forall (fun p : bytes => 0 < len p <= SAFE_CHUNK_BYTES) ps /\
    length entries = length ps /\
    dw_manifests d' !! upload_name name src
      = Some (manifest_doc (upload_name name src) (len (content_of src)) (len entries) entries).
Proof.
  intros Hn Ht. unfold cmd_upload. cbv zeta. intros (d1 & o & H1 & H)%bind_ok_inv.
  destruct o as [[[sent idx] chunks]|]; [|done]. apply on_world_inv in H1 as [H1 Hm1]. cbn [dw_world] in H1.
  rewrite upload_loop_all in H1 by done. apply bind_ok_inv in H1 as (w & o & Hall & Ho).
  destruct o as [cs|]; [|done]. injection Ho as Hw Hsent Hidx Hcs. subst w sent idx chunks.
  apply store_all_log in Hall as [Hlog Hlen]. cbn in Hlen, Hlog.
  rewrite bind_modify in H. apply bind_ok_inv in H as (d2 & [] & H2 & H). injection H as <-.
  apply on_world_inv in H2 as [H2 Hm2]. cbn [dw_world dw_manifests] in H2, Hm2. apply show_stats_log in H2.
  exists (pieces (Z.to_nat (chunk_bytes chunk_kb)) (content_of src)), cs. split_and!.
  - by rewrite H2, Hlog, <-(assoc_L app).
  - apply pieces_concat. lia.
  - eapply Forall_impl; [apply pieces_fuel_bound|]. cbn. intros p [Hp|Hp]; [|lia].
    unfold len, chunk_bytes in *. lia.
  - done.
  - rewrite Hm2. apply lookup_insert_eq.
Qed.

Lemma free_chunks_log chunks : forall k st st' f,
  free_chunks logged chunks k st = (st', Ok f) ->
  exists reqs, Forall2 (fun c q => free_request c = Ok q) chunks reqs /\ st'.1 = st.1 ++ reqs /\ k <= f.
Proof.
  induction chunks as [|c chunks IH]; intros k st st' f; cbn [free_chunks].
  - intros [= <- <-]. exists []. rewrite app_nil_r. split_and!; [constructor|done|lia].
  - intros (s1 & req & [-> Hreq]%lift_inv & H)%bind_ok_inv.
    apply bind_ok_inv in H as (s2 & resp & H2%logged_inv & H).
    apply bind_ok_inv in H as (s3 & ok & [-> _]%lift_inv & H).
    apply IH in H as (reqs & HF & Hlog & Hk). exists (req :: reqs). split_and!; [by constructor| |].
    + by rewrite Hlog, H2, <-(assoc_L app).
    + by destruct (truthy ok); lia.
Qed.

(** A clean-up asks for every chunk of the manifest to be freed, each on the
    node that holds it, exactly once and in order; the manifest is dropped only
    then, and kept when some chunk was not freed. *)
Theorem cleanup_frees_every_chunk name sent idx chunks d d' :
  dw_manifests d !! name = Some (manifest_doc name sent idx chunks) ->
  cmd_cleanup logged name d = (d', Ok tt) ->
  exists reqs, Forall2 (fun c q => free_request c = Ok q) chunks reqs /\
    (dw_world d').1 = (dw_world d).1 ++ reqs ++ [stats_request] /\
    (dw_manifests d' = delete name (dw_manifests d) \/ dw_manifests d' = dw_manifests d).
Proof.
  intros Hm. unfold cmd_cleanup. rewrite bind_get, Hm.
  change (vindex "chunks" (manifest_doc name sent idx chunks)) with (Ok (VList chunks)). mrun. cbn [as_items]. mrun.
  change (vindex "total_bytes" (manifest_doc name sent idx chunks)) with (Ok (VInt sent)). mrun.
  intros (d1 & f & [H1 Hm1]%on_world_inv & H)%bind_ok_inv. apply free_chunks_log in H1 as (reqs & HF & Hlog & _).
  exists reqs. split; [done|]. apply bind_ok_inv in H as (d2 & [] & H2 & H).
  apply on_world_inv in H as [H Hm3]. apply show_stats_log in H. rewrite Hm3.
  destruct (f =? 0); injection H2 as <-; cbn [dw_world dw_manifests] in *.
  all: rewrite H, Hlog, <-(assoc_L app), Hm1; auto.
Qed.
End requests.

Section failures.
Context {S : Type} (call : pydict -> M S pyval).

(** An upload that a refused piece ends leaves no manifest: the pieces stored
    before it, all pinned, are out of reach of the clean-up, which finds
    nothing and does nothing. *)
Theorem failed_upload_leaves_orphans name chunk_kb src (d d' : demo S) :
  cmd_upload call name chunk_kb src d = (d', Ok 1) -> dw_manifests d !! upload_name name src = None ->
  cmd_cleanup call (upload_name name src) d' = (d', Ok tt).
Proof.
  unfold cmd_upload. cbv zeta. intros (d1 & o & [_ H1]%on_world_inv & H)%bind_ok_inv Hm.
  destruct o as [[[sent idx] chunks]|].
  - rewrite bind_modify in H. by apply bind_ok_inv in H as (d2 & [] & _ & H).
  - injection H as <-. unfold cmd_cleanup. by rewrite bind_get, H1, Hm.
Qed.

End failures.

(** ** The call itself *)

Section wire.
Context (json : codec).

(** The answer is whatever the first frame holds, of any size. *)
Lemma call_reads_frame req raw reply v segs rest out :
  c_enc json (VDict req) = Ok raw -> len raw < 2 ^ 32 ->
  segmented segs -> concat segs = frame reply ++ rest -> len reply < 2 ^ 32 -> c_dec json reply = Ok v ->
  exists segs', _call json req (out, segs) = ((out ++ frame raw, segs'), Ok v) /\ concat segs' = rest.
Proof.
  intros He Hl Hs Hcat Hr Hd. unfold _call. rewrite He. mrun. unfold pack_be. pose proof (len_nonneg raw).
  pose proof (len_nonneg reply). rewrite (proj2 (Z.leb_le _ _)) by lia.
  rewrite (proj2 (Z.ltb_lt (len raw) (256 ^ Z.of_nat 4))) by (change (256 ^ Z.of_nat 4) with (2 ^ 32); lia).
  cbn [andb]. mrun. cbn [fst snd]. unfold frame in Hcat. rewrite <-(assoc_L app) in Hcat.
  destruct (recv_exact_app _ _ segs Hs Hcat) as (segs1 & R4 & Hcat1 & Hs1). rewrite len_prefix in R4.
  destruct (recv_exact_app _ _ segs1 Hs1 Hcat1) as (segs2 & R & Hcat2 & _). exists segs2.
  erewrite bind_ok.
  2:{ cbn [fst snd]. rewrite (bind_ok _ _ _ _ _ R4).
      rewrite unpack_be_bytes by (change (256 ^ Z.of_nat 4) with (2 ^ 32); lia). rewrite R. reflexivity. }
  by rewrite Hd.
Qed.

(** The demo client does not authenticate.  Against a daemon with its default
    settings it takes the server's challenge, the first frame it is sent, for
    the answer to its request; an upload ends there with exit code 1 and
    nothing stored. *)
Theorem demo_client_not_authenticated req raw challenge ch_raw segs rest out name chunk_kb src ms :
  c_enc json (VDict req) = Ok raw -> len raw < 2 ^ 32 ->
  segmented segs -> concat segs = frame ch_raw ++ rest ->
  written_as json (challenge_doc challenge) ch_raw -> c_dec json ch_raw = Ok (challenge_doc challenge) ->
  0 < chunk_bytes chunk_kb -> content_of src <> [] -> len (content_of src) = total_size src ->
  outcome (_call json req) (out, segs) = Ok (challenge_doc challenge) /\
  cmd_upload (fun _ => mret (challenge_doc challenge)) name chunk_kb src (mkDemo out ms) = (mkDemo out ms, Ok 1).
Proof.
  intros He Hl Hs Hcat [_ Hch] Hd Hn Hne Ht. split.
  - destruct (call_reads_frame req raw ch_raw (challenge_doc challenge) segs rest out) as (segs' & Hc & _); [done..|].
    unfold outcome. by rewrite Hc.
  - unfold cmd_upload, mbind_m, on_world. cbn [dw_world]. rewrite upload_loop_all by done.
    unfold pieces. destruct (content_of src) as [|x c]; [done|]. cbn [length pieces_fuel store_all].
    rewrite bind_assoc, bind_ret, bind_assoc.
    change (vget "ok" (challenge_doc challenge)) with (Ok VNone). mrun. cbn [truthy]. by mrun.
Qed.
End wire.

(** ** Chunk sizes *)

(** The cap does not hold for a negative [--chunk-kb]: a file is then read
    whole in one piece. *)
Theorem negative_chunk_reads_all kb base content :
  kb < 0 -> content <> [] ->
  chunk_bytes (Some kb) < 0 /\ read (File base content) (chunk_bytes (Some kb)) content = ([], content).
Proof.
  intros Hk Hne. assert (chunk_bytes (Some kb) < 0) as H.
  { unfold chunk_bytes. rewrite (proj2 (Z.eqb_neq _ _)) by lia. lia. }
  split; [done|]. unfold read. by rewrite (proj2 (Z.ltb_lt _ _)).
Qed.

(** ** Witnesses *)

(** A node that takes two pieces and refuses the third; blocks are numbered. *)
Definition two_slots (req : pydict) : M Z pyval := fun s =>
  match dget "op" req with
  | Some (VStr "store") =>
      if s <? 2 then (s + 1, Ok (VDict [("ok", VBool true); ("block_id", VInt s); ("location", VStr "local")]))
      else (s, Ok (error_doc "full"))
  | Some (VStr "stats") =>
      (s, Ok (VDict [("ok", VBool true); ("stats", VDict [("used_bytes", VInt s); ("max_bytes", VInt 2);
         ("block_count", VInt s); ("free_bytes", VInt (2 - s))])]))
  | _ => (s - 1, Ok (VDict [("ok", VBool true)]))
  end.

Definition small_file (n : nat) : source := File "f" (replicate n Byte.x2a).

Lemma recv_exact_is_readexactly_witness :
  match readexactly 3 (Reader (concat [[Byte.x01; Byte.x02]; [Byte.x03; Byte.x04]]) []) with
  | (r, Ok b) => exists segs', _recv_exact 3 [[Byte.x01; Byte.x02]; [Byte.x03; Byte.x04]] = (segs', Ok b) /\
      concat segs' = rd_buf r /\ segmented segs'
  | (_, Err _) => False
  end.
Proof.
  apply (recv_exact_is_readexactly 3 [[Byte.x01; Byte.x02]; [Byte.x03; Byte.x04]]); [by repeat constructor|lia].
Defined.

Lemma upload_sends_file_witness :
  let run := cmd_upload (logged two_slots) None (Some 1) (small_file 1500) (mkDemo ([], 0) ∅) in
  exists ps entries,
    (dw_world run.1).1 = [] ++ (store_piece <$> ps) ++ [stats_request] /\
    concat ps = replicate 1500 Byte.x2a /\ Forall (fun p : bytes => 0 < len p <= SAFE_CHUNK_BYTES) ps /\
    length entries = length ps /\
    dw_manifests run.1 !! "f" = Some (manifest_doc "f" 1500 (len entries) entries).
Proof.
  intros run. apply (upload_sends_file two_slots None (Some 1) (small_file 1500) [] 0 ∅ run.1).
  - by vm_compute.
  - reflexivity.
  - unfold run. by vm_compute.
Defined.

Lemma cleanup_frees_every_chunk_witness :
  let up := (cmd_upload (logged two_slots) None (Some 1) (small_file 1500) (mkDemo ([], 0) ∅)).1 in
  let run := cmd_cleanup (logged two_slots) "f" up in
  exists chunks reqs, length chunks = 2%nat /\ Forall2 (fun c q => free_request c = Ok q) chunks reqs /\
    (dw_world run.1).1 = (dw_world up).1 ++ reqs ++ [stats_request].
Proof.
  intros up run.
  set (chunks := [VDict [("block_id", VInt 0); ("location", VStr "local"); ("peer", VNone)];
                  VDict [("block_id", VInt 1); ("location", VStr "local"); ("peer", VNone)]]).
  destruct (cleanup_frees_every_chunk two_slots "f" 1500 2 chunks up run.1) as (reqs & HF & Hlog & _).
  - unfold up. by vm_compute.
  - unfold run, up. by vm_compute.
  - exists chunks, reqs. split; [reflexivity|]. split; [exact HF|exact Hlog].
Defined.

Lemma failed_upload_leaves_orphans_witness :
  let up := (cmd_upload two_slots None (Some 1) (small_file 3000) (mkDemo 0 ∅)).1 in
  dw_world up = 2 /\ cmd_cleanup two_slots "f" up = (up, Ok tt).
Proof.
  intros up. split; [by vm_compute|].
  apply (failed_upload_leaves_orphans two_slots None (Some 1) (small_file 3000) (mkDemo 0 ∅)); [|done].
  unfold up. by vm_compute.
Defined.

Lemma demo_client_not_authenticated_witness :
  let json := table_codec [challenge_doc "07"; VDict stats_request] in
  outcome (_call json stats_request) ([], [[Byte.x00; Byte.x00]; [Byte.x00; Byte.x02; Byte.x00]; [Byte.x00]])
    = Ok (challenge_doc "07") /\
  cmd_upload (fun _ => mret (challenge_doc "07")) None None (small_file 9) (mkDemo ([] : bytes) ∅)
    = (mkDemo [] ∅, Ok 1).
Proof.
  intros json.
  apply (demo_client_not_authenticated json stats_request (raw 1) "07" (raw 0)
    [[Byte.x00; Byte.x00]; [Byte.x00; Byte.x02; Byte.x00]; [Byte.x00]] []); try by vm_compute.
  by repeat constructor.
Defined.

Lemma negative_chunk_reads_all_witness :
  chunk_bytes (Some (-1)) < 0 /\
  read (small_file 3) (chunk_bytes (Some (-1))) (replicate 3 Byte.x2a) = ([], replicate 3 Byte.x2a).
Proof. by apply (negative_chunk_reads_all (-1) "f" (replicate 3 Byte.x2a)). Defined.
