(* ===== verification/DemoMain.v ===== *)
(** * The demo program ([main] of [demo/demo_client.py])

    The commands that [Demo] leaves out, the sub-commands with the defaults of
    their parsers, and the program that runs one of them.  The progress bar is
    left out; the sizes it prints are not. *)
From S2P Require Import Prelude Config PyVal RpcServer RpcSpec Demo DemoSpec.

(** ** Sizes

    [n /= 1024] divides by a power of two, so for sizes under [2 ^ 53] every
    quotient is exact and [.1f] rounds the true value, half to even. *)

Definition round_half_even (a b : Z) : Z :=
  let q := a / b in
  match Z.compare (2 * (a mod b)) b with
  | Lt => q
  | Gt => q + 1
  | Eq => if Z.even q then q else q + 1
  end.

(** [f"{v:.1f}"] of the quotient [a / b]. *)
Definition one_decimal (a b : Z) : string :=
  let t := round_half_even (10 * a) b in
  pretty (t / 10) +:+ "." +:+ pretty (t mod 10).

(** The loop over the units; the size is [n / scale]. *)
Fixpoint fmt_units (units : list string) (n scale : Z) : string :=
  match units with
  | [] => one_decimal n scale +:+ "TB"
  | unit :: units =>
      if n <? 1024 * scale then one_decimal n scale +:+ unit else fmt_units units n (scale * 1024)
  end.

Definition _fmt_bytes (n : Z) : string := fmt_units ["B"; "KB"; "MB"; "GB"] n 1.

(** ** Arguments *)

(** The pauses in milliseconds. *)
Inductive subcommand :=
  | Upload (file : option string) (synthetic_mb : option Z) (name : option string)
           (chunk_kb : option Z) (pace_ms : Z)
  | Cleanup (name : string)
  | Stats
  | Watch (interval_ms : Z)
  | Connect (peer_host : string) (peer_port : Z)
  | ShowPeers.

Record Namespace := Args { a_host : string; a_port : Z; a_cmd : subcommand }.

(** The options of each parser left at their defaults. *)
Definition default_args (c : subcommand) : Namespace := Args "127.0.0.1" Config.RPC_TCP_PORT c.
Definition default_upload (file : option string) (synthetic_mb : option Z) : subcommand :=
  Upload file synthetic_mb None None 50.
Definition default_watch : subcommand := Watch 500.
Definition default_connect (peer_host : string) : subcommand := Connect peer_host Config.PEER_TCP_PORT.

(** What the parser lets through: exactly one of [--file] and [--synthetic-mb]. *)
Definition parsed (c : subcommand) : bool :=
  match c with
  | Upload (Some _) None _ _ _ | Upload None (Some _) _ _ _ => true
  | Upload _ _ _ _ _ => false
  | _ => true
  end.

(** [Path(p).name]: the last component that is neither empty nor a dot. *)
Fixpoint components (cs : list Ascii.ascii) (cur : string) : list string :=
  match cs with
  | [] => [cur]
  | c :: cs =>
      if decide (c = Ascii.ascii_of_nat 47) then cur :: components cs "" else components cs (cur +:+ String c "")
  end.

Definition path_name (p : string) : string :=
  default "" (last (filter (fun s => s <> "" /\ s <> ".") (components (String.list_ascii_of_string p) ""))).

Section main.
Context {S : Type}.
(** A call to the node at an address; the files there are; the random source. *)
Context (rpc : string -> Z -> pydict -> M S pyval).
Context (files : string -> result bytes) (urandom : Z -> bytes).

(** The first lines of [cmd_upload]: an empty [--file] counts as none. *)
Definition upload_source (file : option string) (synthetic_mb : option Z) : result source :=
  let generated :=
    match synthetic_mb with
    | Some mb => Ok (Synthetic mb (urandom (mb * 1024 * 1024)))
    | None => Err (lib_exn TypeError)
    end in
  match file with
  | Some f =>
      if decide (f = "") then generated
      else let? content := files f in Ok (File (path_name f) content)
  | None => generated
  end.

Definition cmd_stats (call : pydict -> M S pyval) : M S unit := _show_stats call.

(** One turn of the loop of [cmd_watch]. *)
Definition watch_turn (call : pydict -> M S pyval) : M S unit :=
  resp <- call [("op", VStr "stats")];;
  ok <- mlift (vget "ok" resp);;
  if truthy ok then
    s <- mlift (vindex "stats" resp);;
    mlift (vindex "used_bytes" s);;;
    mlift (vindex "max_bytes" s);;;
    mret tt
  else mret tt.

(** The loop runs until the interrupt, which comes in the [sleep] after so many
    turns. *)
Fixpoint cmd_watch (turns : nat) (call : pydict -> M S pyval) : M S unit :=
  match turns with
  | O => mret tt
  | Datatypes.S turns => watch_turn call;;; cmd_watch turns call
  end.

(** The exit code of [args.func(args)]. *)
Definition func (interrupt : nat) (c : subcommand) (call : pydict -> M S pyval) : M (demo S) Z :=
  match c with
  | Upload file synthetic_mb name chunk_kb _ =>
      src <- mlift (upload_source file synthetic_mb);; cmd_upload call name chunk_kb src
  | Cleanup name => cmd_cleanup call name;;; mret 0
  | Stats => on_world (cmd_stats call);;; mret 0
  | Watch _ => on_world (cmd_watch interrupt call);;; mret 0
  | Connect host port => on_world (cmd_connect call host port);;; mret 0
  | ShowPeers => on_world (cmd_peers call);;; mret 0
  end.

Definition main (interrupt : nat) (args : Namespace) : M (demo S) Z :=
  mtry (func interrupt (a_cmd args) (rpc (a_host args) (a_port args))) (fun e =>
    if decide (exn_cls e = ConnectionRefusedError) then Some (mret 1) else None).
End main.

Example path_names :
  path_name <$> ["a.bin"; "/tmp/x/a.bin"; "dir/"; "dir/."; "/"; ".."] = ["a.bin"; "a.bin"; "dir"; "dir"; ""; ".."].
Proof. reflexivity. Qed.

Example sizes :
  _fmt_bytes <$> [0; 1023; 1024; 1536; 1048575; 3 * 2 ^ 20; 2 ^ 43]
    = ["0.0B"; "1023.0B"; "1.0KB"; "1.5KB"; "1024.0KB"; "3.0MB"; "8.0TB"].
Proof. reflexivity. Qed.
