(* ===== verification/DemoMainSpec.v ===== *)
(** * What the demo program promises *)
From S2P Require Import Prelude Config PyVal Protocol Blocks BlocksFacts BlocksSpec Stripes BenchBlocks.
From S2P Require Import StoreInterface RateLimit Mux Trust Peers Replication RpcServer RpcSpec RpcDispatch.
From S2P Require Import ReplicationFacts ReplicationSpec RpcDispatchSpec NodeStore Demo DemoSpec DemoMain.

(** ** Sizes *)

Lemma round_half_even_close a b :
  0 < b -> 2 * Z.abs (a - round_half_even a b * b) <= b.
Proof.
  intros Hb. unfold round_half_even. pose proof (Z.div_mod a b ltac:(lia)). pose proof (Z.mod_pos_bound a b Hb).
  set (q := a / b) in *. set (m := a mod b) in *.
  destruct (Z.compare_spec (2 * m) b); [destruct (Z.even q)|..]; lia.
Qed.

(** A size is shown in tenths of a unit, to the nearest tenth; below a terabyte
    in the unit that keeps the figure under 1024, up to the rounding. *)
Theorem fmt_bytes_close n :
  0 <= n ->
  exists unit scale tenths,
    (unit, scale) ∈ [("B", 1); ("KB", 2 ^ 10); ("MB", 2 ^ 20); ("GB", 2 ^ 30); ("TB", 2 ^ 40)] /\
    _fmt_bytes n = (pretty (tenths / 10) +:+ "." +:+ pretty (tenths mod 10)) +:+ unit /\
    2 * Z.abs (10 * n - tenths * scale) <= scale /\ (tenths <= 10240 \/ unit = "TB").
Proof.
  intros Hn.
  assert (forall unit scale, 0 < scale -> n < 1024 * scale \/ unit = "TB" ->
    2 * Z.abs (10 * n - round_half_even (10 * n) scale * scale) <= scale /\
    (round_half_even (10 * n) scale <= 10240 \/ unit = "TB")) as Hr.
  { intros unit scale Hs Hlt. pose proof (round_half_even_close (10 * n) scale Hs) as H. split; [done|].
    destruct Hlt as [Hlt|]; [left; nia|by right]. }
  unfold _fmt_bytes. cbn [fmt_units]. unfold one_decimal.
  repeat match goal with |- context [if n <? ?b then _ else _] => destruct (Z.ltb_spec n b) end;
    eexists _, _, _;
    (split; [|split; [reflexivity|apply Hr; [lia|first [left; lia|by right]]]]); rewrite !elem_of_cons; auto 10.
Qed.

(** ** Watching *)

Section watch.
Context {S : Type} (call : pydict -> M S pyval).

(** The watch command asks for the statistics once per turn and does nothing
    else: its requests are that many, and no manifest changes. *)
Theorem watch_only_asks files urandom host port interval turns log s ms d' code :
  main (fun _ _ => logged call) files urandom turns (Args host port (Watch interval)) (mkDemo (log, s) ms)
    = (d', Ok code) -> code = 0 ->
  (dw_world d').1 = log ++ replicate turns stats_request /\ dw_manifests d' = ms.
Proof.
  intros Hrun ->. unfold main, mtry in Hrun. cbn [a_cmd func a_host a_port] in Hrun.
  destruct ((on_world (cmd_watch turns (logged call));;; mret 0) (mkDemo (log, s) ms)) as [d1 [c|e]] eqn:Hw.
  2:{ destruct (decide _); [by injection Hrun|done]. }
  injection Hrun as <- ->. apply bind_ok_inv in Hw as (d2 & [] & [Hw Hm]%on_world_inv & Hret).
  injection Hret as <-. rewrite Hm. split; [|done]. cbn [dw_world] in Hw. clear Hm.
  enough (forall st st', cmd_watch turns (logged call) st = (st', Ok tt) ->
    st'.1 = st.1 ++ replicate turns stats_request) as H by by apply (H (log, s)).
  clear. induction turns as [|turns IH]; intros st st'; cbn [cmd_watch].
  - intros [= <-]. by rewrite app_nil_r.
  - intros (st1 & [] & Ht & Hw)%bind_ok_inv. rewrite (IH _ _ Hw).
    assert (st1.1 = st.1 ++ [stats_request]) as ->.
    { unfold watch_turn in Ht. fold stats_request in Ht.
      apply bind_ok_inv in Ht as (s1 & resp & H1%logged_inv & Ht). rewrite <-H1.
      apply bind_ok_inv in Ht as (s2 & ok & [-> _]%lift_inv & Ht). destruct (truthy ok); [|by injection Ht as <-].
      apply bind_ok_inv in Ht as (s3 & v & [-> _]%lift_inv & Ht).
      do 2 (apply bind_ok_inv in Ht as (? & ? & [-> _]%lift_inv & Ht)). by injection Ht as <-. }
    by rewrite <-(assoc_L app).
Qed.
End watch.

(** ** A node that is not there *)

Section refused.
Context {S : Type} (e : exn) (Hrefused : exn_cls e = ConnectionRefusedError).
Context (files : string -> result bytes) (urandom : Z -> bytes) (interrupt : nat).

(** Nobody listens at any address. *)
Abbreviation nobody := (fun (_ : string) (_ : Z) (_ : pydict) => @mraise S pyval e).

(** The commands that get as far as a request: a file that can be read, a
    manifest with the entries an upload writes. *)
Definition asks (c : subcommand) (ms : gmap string pyval) : Prop :=
  match c with
  | Upload file mb _ _ _ => exists src, upload_source files urandom file mb = Ok src
  | Cleanup name => exists sent idx chunks, ms !! name = Some (manifest_doc name sent idx chunks) /\
      Forall (fun c => exists q, free_request c = Ok q) chunks
  | Watch _ => (0 < interrupt)%nat
  | _ => True
  end.

(** Without a daemon every command that asks something ends with exit code 1
    and not with a traceback, and the node there is not is not changed. *)
Theorem refused_exits_1 host port c (d : demo S) :
  asks c (dw_manifests d) ->
  exists ms, main nobody files urandom interrupt (Args host port c) d = (mkDemo (dw_world d) ms, Ok 1).
Proof.
  intros Hc. unfold main, mtry. cbn [a_cmd a_host a_port].
  enough (exists ms, func files urandom interrupt c (nobody host port) d = (mkDemo (dw_world d) ms, Err e))
    as [ms ->] by (rewrite decide_True by done; by exists ms).
  destruct c as [file mb name kb pace|name| |itv|peer_host peer_port|]; cbn [func].
  - destruct Hc as [src ->]. rewrite bind_lift_ok. unfold cmd_upload. cbv zeta.
    set (rest := content_of src). cbn [upload_loop].
    destruct (total_size src <=? 0); [by eexists|]. destruct (read src _ rest) as [rest' data].
    case_decide; by eexists.
  - destruct Hc as (sent & idx & chunks & Hm & Hq). unfold cmd_cleanup. rewrite bind_assoc, bind_get, Hm.
    change (vindex "chunks" (manifest_doc name sent idx chunks)) with (Ok (VList chunks)).
    change (vindex "total_bytes" (manifest_doc name sent idx chunks)) with (Ok (VInt sent)).
    destruct chunks as [|ch chunks]; [by eexists|]. apply Forall_cons in Hq as [[q Hq] _].
    eexists. rewrite bind_assoc. mrun. cbn [as_items]. rewrite bind_assoc. mrun. rewrite bind_assoc. mrun.
    unfold mbind_m at 1 2. unfold on_world. cbn [free_chunks]. by rewrite Hq.
  - by eexists.
  - cbn [asks] in Hc. revert Hc. generalize interrupt. intros [|k] Hk; [lia|]. by eexists.
  - by eexists.
  - by eexists.
Qed.
End refused.

(** ** Uploading and releasing on a node *)

Section round.
Context (py_hash : string -> Z) (env : nat -> rng * Z) (env_ok : forall n, RngOk (env n).1).
#[local] Instance round_blocks : BlockStore managed := managed_store py_hash env.
Context {W : Type} `{!Remote (Node managed W)} (py_str other_key : pyval -> string)
        (qrcode : option (string -> result string)).
Abbreviation node := (Node managed W).
Abbreviation blocks_of n := (a_blocks (abs (manager_of n))).

(** The node's answers to JSON requests. *)
Definition ask (req : pydict) : M node pyval :=
  _dispatch py_str other_key qrcode (B := managed) (W := W) (VDict req) false.

Definition free_req (id : Z) : pydict := [("op", VStr "free"); ("block_id", VInt id)].

(** Numbers whose text is short. *)
Definition small (z : Z) : Prop := Z.abs z < 2 ^ 200.
Definition small_stats (s : Blocks.Stats) : Prop :=
  Forall small [used_bytes s; max_bytes s; free_bytes s; block_count s; stripes s].

(** A call that brings the demo's requests to the node, and the answers back. *)
Record carries (call : pydict -> M node pyval) : Prop := {
  ca_store : forall data id n n', len data <= SAFE_CHUNK_BYTES -> small id ->
    ask (store_piece data) n = (n', Ok (stored_doc id)) -> call (store_piece data) n = (n', Ok (stored_doc id));
  ca_free : forall id n n', small id ->
    ask (free_req id) n = (n', Ok (VDict [("ok", VBool true)])) -> call (free_req id) n = (n', Ok (VDict [("ok", VBool true)]));
  ca_stats : forall n, small_stats (Blocks.stats (manager_of n)) -> call stats_request n = ask stats_request n
}.

Context (call : pydict -> M node pyval) (Hcall : carries call).

(** A node whose quota, number of stripes and next ids are machine numbers. *)
Record sized (more : Z) (n : node) : Prop := {
  sz_max : bm_max (manager_of n) < 2 ^ 64;
  sz_stripes : bm_stripe_count (manager_of n) < 2 ^ 64;
  sz_next : bm_next_id (manager_of n) + more < 2 ^ 64
}.

(** The manifest entry of a piece kept here. *)
Definition local_entry (id : Z) : pyval :=
  VDict [("block_id", VInt id); ("location", VStr "local"); ("peer", VNone)].

Lemma ask_piece data (n : node) :
  Inv py_hash (manager_of n) -> len data <= Config.MAX_BLOCK_SIZE ->
  a_used (blocks_of n) + len data <= bm_max (manager_of n) ->
  exists n' now, ask (store_piece data) n = (n', Ok (stored_doc (bm_next_id (manager_of n)))) /\
    Inv py_hash (manager_of n') /\ apart n n' /\
    abs (manager_of n') = mkAStore (bm_max (manager_of n)) (bm_next_id (manager_of n) + 1)
      (<[bm_next_id (manager_of n) := mkEntry data PINNED now None]> (blocks_of n)) /\
    bm_stripe_count (manager_of n') = bm_stripe_count (manager_of n).
Proof.
  intros HI Hlen Hfit.
  destruct (store_dispatch py_hash env env_ok py_str other_key qrcode (VDict (store_piece data)) false data VNone None n)
    as (bm & now & Hd & HI' & Ha & Hc); [done| |done..|].
  - unfold request_payload. change (vget "data" (VDict (store_piece data))) with (Ok VNone).
    change (vget "data_hex" (VDict (store_piece data))) with (Ok (VStr (bytes_hex data))).
    cbn [result_bind]. by rewrite fromhex_hex.
  - exists (with_manager bm n), now. split; [exact Hd|]. split; [done|]. split; [apply with_manager_apart|].
    split; [|done]. change (manager_of (with_manager bm n)) with bm. rewrite Ha. cbn [ref_exec].
    by rewrite (proj2 (Z.ltb_ge _ _) Hlen).
Qed.

Lemma fresh_id (n : node) id : Inv py_hash (manager_of n) -> bm_next_id (manager_of n) <= id -> blocks_of n !! id = None.
Proof.
  intros [HS _] Hid. rewrite (abs_lookup _ _ _ _ HS). destruct (lookup_block _ id) as [e|] eqn:He; [|done].
  pose proof (lookup_block_bounds _ _ _ _ _ HS He). lia.
Qed.

(** Every piece becomes the next block. *)
Lemma store_all_node ps : forall chunks (n : node),
  Inv py_hash (manager_of n) -> Forall (fun p : bytes => len p <= SAFE_CHUNK_BYTES) ps ->
  a_used (blocks_of n) + len (concat ps) <= bm_max (manager_of n) -> sized (len ps) n ->
  exists n', store_all call ps chunks n
      = (n', Ok (Some (chunks ++ (local_entry <$> seqZ (bm_next_id (manager_of n)) (len ps))))) /\
    Inv py_hash (manager_of n') /\ apart n n' /\ sized 0 n' /\
    bm_next_id (manager_of n') = bm_next_id (manager_of n) + len ps /\
    (forall id, id < bm_next_id (manager_of n) -> blocks_of n' !! id = blocks_of n !! id) /\
    (forall k p, ps !! k = Some p ->
       exists now, blocks_of n' !! (bm_next_id (manager_of n) + Z.of_nat k) = Some (mkEntry p PINNED now None)).
Proof.
  induction ps as [|p ps IH]; intros chunks n HI Hlen Hfit Hsz.
  { exists n. rewrite len_nil in *. split_and!; try done; [cbn; by rewrite app_nil_r|lia]. }
  apply Forall_cons in Hlen as [Hp Hlen]. cbn [concat] in Hfit. rewrite len_app in Hfit.
  pose proof (len_nonneg (concat ps)). pose proof (len_nonneg ps). destruct Hsz as [Hmx Hst Hnx]. rewrite len_cons in Hnx.
  destruct (ask_piece p n HI) as (n1 & now & Hask & HI1 & Hap1 & Ha1 & Hc1);
    [unfold SAFE_CHUNK_BYTES in Hp; lia|lia|].
  set (id := bm_next_id (manager_of n)) in *.
  assert (small id) as Hsm by (unfold small; pose proof (si_next _ _ _ (proj1 HI)); fold id in H1; lia).
  apply (ca_store _ Hcall) in Hask; [|done|done].
  assert (bm_max (manager_of n1) = bm_max (manager_of n) /\ bm_next_id (manager_of n1) = id + 1 /\
    blocks_of n1 = <[id := mkEntry p PINNED now None]> (blocks_of n)) as (Hm1 & Hid1 & Hb1).
  { unfold abs in Ha1 |- *. cbn [a_blocks] in Ha1 |- *. split_and!; congruence. }
  assert (a_used (blocks_of n1) = a_used (blocks_of n) + len p) as Hu1.
  { rewrite Hb1. unfold a_used. rewrite msum_insert by (apply fresh_id; [done|lia]). unfold e_size. cbn [e_data]. lia. }
  destruct (IH (chunks ++ [local_entry id]) n1 HI1 Hlen ltac:(lia)) as (n2 & Hrest & HI2 & Hap2 & Hsz2 & Hid2 & Hold & Hnew);
    [split; lia|].
  exists n2. split; [|split; [done|split; [by trans n1|split; [done|]]]].
  - cbn [store_all]. rewrite (bind_ok _ _ _ _ _ Hask).
    change (vget "ok" (stored_doc id)) with (Ok (VBool true)). mrun. cbn [truthy].
    change (chunk_entry (stored_doc id)) with (Ok (local_entry id)). mrun. rewrite Hrest, Hid1.
    do 3 f_equal. rewrite <-(assoc_L app). f_equal. rewrite len_cons, (seqZ_cons id) by lia.
    cbn [fmap list_fmap app]. do 2 f_equal. f_equal; lia.
  - rewrite len_cons. split; [lia|]. rewrite Hid1 in Hold, Hnew. split.
    + intros i Hi. rewrite Hold by lia. rewrite Hb1, lookup_insert_ne by lia. done.
    + intros [|k] q Hq; cbn in Hq.
      * injection Hq as <-. exists now. rewrite Z.add_0_r, Hold by lia. by rewrite Hb1, lookup_insert_eq.
      * destruct (Hnew k q Hq) as [t Ht]. exists t.
        by replace (id + Z.of_nat (S k)) with (id + 1 + Z.of_nat k) by lia.
Qed.

(** Every entry is freed. *)
Lemma free_chunks_node ids : forall n : node,
  Inv py_hash (manager_of n) -> NoDup ids -> Forall (fun id => is_Some (blocks_of n !! id)) ids ->
  Forall small ids -> sized 0 n ->
  exists n', free_chunks call (local_entry <$> ids) 0 n = (n', Ok 0) /\
    Inv py_hash (manager_of n') /\ apart n n' /\ sized 0 n' /\
    (forall id, blocks_of n' !! id = if decide (id ∈ ids) then None else blocks_of n !! id).
Proof.
  induction ids as [|id ids IH]; intros n HI Hnd Hin Hsm Hsz.
  { exists n. split_and!; try done. }
  apply NoDup_cons in Hnd as [Hni Hnd]. apply Forall_cons in Hin as [Hid Hin]. apply Forall_cons in Hsm as [Hs Hsm].
  destruct (free_dispatch py_hash env py_str other_key qrcode id false n HI) as (bm & Hf & HI1 & Ha & Hc).
  rewrite bool_decide_eq_true_2 in Hf by done.
  set (n1 := with_manager bm n) in *. apply (ca_free _ Hcall) in Hf; [|done].
  assert (blocks_of n1 = delete id (blocks_of n) /\ bm_max (manager_of n1) = bm_max (manager_of n) /\
    bm_next_id (manager_of n1) = bm_next_id (manager_of n)) as (Hb1 & Hm1 & Hx1).
  { change (manager_of n1) with bm. rewrite Ha. cbn [ref_exec fst a_blocks]. unfold abs in Ha. cbn in Ha.
    injection Ha as -> -> _. done. }
  assert (sized 0 n1) as Hsz1.
  { destruct Hsz. split; [by rewrite Hm1|by change (manager_of n1) with bm; rewrite Hc|by rewrite Hx1]. }
  destruct (IH n1) as (n2 & Hrest & HI2 & Hap2 & Hsz2 & Hb2); [done|done| |done|done|].
  { rewrite Forall_forall in Hin |- *. intros x Hx. rewrite Hb1, lookup_delete_ne by (intros ->; done). by apply Hin. }
  exists n2. split; [|split; [done|split; [trans n1; [apply with_manager_apart|done]|split; [done|]]]].
  - cbn [free_chunks fmap list_fmap].
    change (free_request (local_entry id)) with (Ok (free_req id)). mrun.
    rewrite (bind_ok _ _ _ _ _ Hf). change (vget "ok" (VDict [("ok", VBool true)])) with (Ok (VBool true)). mrun. exact Hrest.
  - intros i. rewrite Hb2, Hb1. destruct (decide (i = id)) as [->|Hne].
    + rewrite (decide_True (P := id ∈ id :: ids)) by left. rewrite lookup_delete_eq. by case_decide.
    + rewrite lookup_delete_ne by done. apply decide_ext. rewrite elem_of_cons. naive_solver.
Qed.

(** The numbers of the statistics. *)
Lemma size_below (m : gmap Z Entry) b :
  0 <= b -> (forall id e, m !! id = Some e -> 1 <= id < b) -> Z.of_nat (size m) <= b.
Proof.
  intros Hb Hm. rewrite <-length_map_to_list, <-(length_fmap fst).
  assert (length (map_to_list m).*1 <= length (seqZ 0 b))%nat as Hle; [|rewrite length_seqZ in Hle; lia].
  apply submseteq_length, NoDup_submseteq; [apply NoDup_fst_map_to_list|].
  intros id ([? e] & -> & Hin%elem_of_map_to_list)%list_elem_of_fmap. apply elem_of_seqZ. specialize (Hm _ _ Hin). cbn. lia.
Qed.

Lemma zsum_bound (l : list Z) b : Forall (fun x => 0 <= x <= b) l -> 0 <= zsum l <= len l * b.
Proof.
  induction 1 as [|x l Hx _ IH]; [done|]. rewrite len_cons, Z.mul_add_distr_r. change (zsum (x :: l)) with (x + zsum l). lia.
Qed.

Lemma stats_small (n : node) : Inv py_hash (manager_of n) -> sized 0 n -> small_stats (Blocks.stats (manager_of n)).
Proof.
  intros HI Hsz. pose proof (abs_used py_hash _ HI) as Hu. destruct HI as [HS _]. destruct Hsz as [Hm Hst Hn]. set (bm := manager_of n) in *.
  pose proof (si_count _ _ _ HS). pose proof (si_next _ _ _ HS). pose proof (si_quota _ _ _ HS) as Hq.
  pose proof (total_used_nonneg _ _ _ HS) as Htot. pose proof (si_reserved _ _ _ HS) as Hres.
  assert (0 <= zsum (map (fun s => Z.of_nat (size (st_blocks s))) (bm_stripes bm)) <= 2 ^ 64 * 2 ^ 64) as Hc.
  { assert (Forall (fun x => 0 <= x <= 2 ^ 64) (map (fun s => Z.of_nat (size (st_blocks s))) (bm_stripes bm))) as Hall.
    { apply Forall_fmap, Forall_lookup_2. intros i s Hs. cbn. split; [lia|]. transitivity (bm_next_id bm); [|lia].
      apply size_below; [lia|]. intros id e He. by destruct (so_home _ _ _ (si_stripes _ _ _ HS _ _ Hs) _ _ He) as (? & ? & ?). }
    apply zsum_bound in Hall. unfold len in Hall. rewrite length_map, (si_len _ _ _ HS) in Hall.
    split; [lia|]. etransitivity; [apply Hall|]. apply Z.mul_le_mono_nonneg_r; lia. }
  unfold small_stats, Blocks.stats, small. cbn [used_bytes max_bytes free_bytes block_count stripes].
  repeat (constructor; [lia|]). constructor.
Qed.

Lemma show_stats_node n : Inv py_hash (manager_of n) -> sized 0 n -> _show_stats call n = (n, Ok tt).
Proof.
  intros HI Hsz. pose proof (ca_stats _ Hcall n (stats_small n HI Hsz)) as Hs.
  unfold _show_stats. fold stats_request. unfold mbind_m at 1. rewrite Hs. done.
Qed.

(** The pieces of an upload are within the limits of a request. *)
Lemma piece_sizes kb content :
  0 < chunk_bytes kb ->
  Forall (fun p : bytes => len p <= SAFE_CHUNK_BYTES) (pieces (Z.to_nat (chunk_bytes kb)) content).
Proof.
  intros Hn. eapply Forall_impl; [apply pieces_fuel_bound|]. cbn. intros p [Hp|Hp]; [|lia].
  unfold chunk_bytes, len in *. lia.
Qed.

Lemma pieces_count (ps : list bytes) : Forall (fun p : bytes => p <> []) ps -> len ps <= len (concat ps).
Proof.
  induction 1 as [|p ps Hp _ IH]; [done|]. cbn [concat]. rewrite len_cons, len_app.
  destruct p as [|x p]; [done|]. rewrite len_cons. pose proof (len_nonneg p). lia.
Qed.

Lemma upload_node name kb src n ms :
  Inv py_hash (manager_of n) -> 0 < chunk_bytes kb -> len (content_of src) = total_size src ->
  a_used (blocks_of n) + len (content_of src) <= bm_max (manager_of n) -> sized (len (content_of src)) n ->
  let ps := pieces (Z.to_nat (chunk_bytes kb)) (content_of src) in
  let ids := seqZ (bm_next_id (manager_of n)) (len ps) in
  exists n', cmd_upload call name kb src (mkDemo n ms)
      = (mkDemo n' (<[upload_name name src := manifest_doc (upload_name name src) (len (content_of src))
           (len (local_entry <$> ids)) (local_entry <$> ids)]> ms), Ok 0) /\
    Inv py_hash (manager_of n') /\ apart n n' /\ sized 0 n' /\
    bm_next_id (manager_of n') = bm_next_id (manager_of n) + len ps /\
    (forall id, id < bm_next_id (manager_of n) -> blocks_of n' !! id = blocks_of n !! id) /\
    (forall k p, ps !! k = Some p ->
       exists now, blocks_of n' !! (bm_next_id (manager_of n) + Z.of_nat k) = Some (mkEntry p PINNED now None)).
Proof.
  intros HI Hn Ht Hfit Hsz ps ids.
  assert (concat ps = content_of src) as Hcat by (apply pieces_concat; lia).
  destruct (store_all_node ps [] n HI) as (n' & Hst & HI' & Hap' & Hsz' & Hrest).
  - by apply piece_sizes.
  - by rewrite Hcat.
  - destruct Hsz as [? ? Hx]. rewrite <-Hcat in Hx. split; [done|done|].
    pose proof (pieces_count ps (pieces_nonempty (Z.to_nat (chunk_bytes kb)) (content_of src) ltac:(lia))). lia.
  - exists n'. split; [|by split_and!; try apply Hrest]. unfold cmd_upload. cbv zeta.
    assert (on_world (upload_loop call (S (length (content_of src))) src (chunk_bytes kb) (content_of src) 0 0 [])
      (mkDemo n ms) = (mkDemo n' ms, Ok (Some (len (content_of src), len (local_entry <$> ids), local_entry <$> ids)))) as Hup.
    { unfold on_world. cbn [dw_world dw_manifests]. rewrite upload_loop_all by done. fold ps.
      by rewrite (bind_ok _ _ _ _ _ Hst). }
    rewrite (bind_ok _ _ _ _ _ Hup), bind_modify. unfold on_world. cbn [dw_world dw_manifests].
    unfold mbind_m. cbn [dw_world dw_manifests]. by rewrite show_stats_node.
Qed.

(** The demo over any call that carries its requests. *)
Lemma round_over_call files urandom interrupt host port file mb name kb pace src (n : node) ms :
  upload_source files urandom file mb = Ok src -> len (content_of src) = total_size src ->
  Inv py_hash (manager_of n) -> 0 < chunk_bytes kb ->
  a_used (blocks_of n) + len (content_of src) <= bm_max (manager_of n) -> sized (len (content_of src)) n ->
  let run c := main (fun _ _ => call) files urandom interrupt (Args host port c) in
  exists d1 d2 ps,
    run (Upload file mb name kb pace) (mkDemo n ms) = (d1, Ok 0) /\
    concat ps = content_of src /\
    (forall k p, ps !! k = Some p -> exists now,
       blocks_of (dw_world d1) !! (bm_next_id (manager_of n) + Z.of_nat k) = Some (mkEntry p PINNED now None)) /\
    blocks_of n ⊆ blocks_of (dw_world d1) /\
    run (Cleanup (upload_name name src)) d1 = (d2, Ok 0) /\
    blocks_of (dw_world d2) = blocks_of n /\ apart n (dw_world d2) /\
    dw_manifests d2 = delete (upload_name name src) ms.
Proof.
  intros Hsrc Ht HI Hn Hfit Hsz run.
  destruct (upload_node name kb src n ms HI Hn Ht Hfit Hsz) as (n1 & Hup & HI1 & Hap1 & Hsz1 & Hnext & Hold & Hnew).
  set (ps := pieces (Z.to_nat (chunk_bytes kb)) (content_of src)) in *.
  set (ids := seqZ (bm_next_id (manager_of n)) (len ps)) in *.
  destruct (free_chunks_node ids n1 HI1) as (n2 & Hfr & HI2 & Hap2 & Hsz2 & Hb2).
  - apply NoDup_seqZ.
  - apply Forall_forall. intros id [Hlo Hhi]%elem_of_seqZ.
    destruct (lookup_lt_is_Some_2 ps (Z.to_nat (id - bm_next_id (manager_of n)))) as [p Hp]; [unfold len in *; lia|].
    destruct (Hnew _ _ Hp) as [now Hk].
    replace (bm_next_id (manager_of n) + Z.of_nat (Z.to_nat (id - bm_next_id (manager_of n)))) with id in Hk by lia.
    by eexists.
  - apply Forall_forall. intros id [Hlo Hhi]%elem_of_seqZ. pose proof (si_next _ _ _ (proj1 HI)). pose proof (sz_next _ _ Hsz1).
    unfold small. lia.
  - done.
  - eexists (mkDemo n1 _), (mkDemo n2 (delete (upload_name name src) ms)), ps. split_and!.
    + unfold run, main, mtry. cbn [a_cmd a_host a_port func]. rewrite Hsrc, bind_lift_ok, Hup. reflexivity.
    + unfold ps. apply pieces_concat. lia.
    + exact Hnew.
    + apply map_subseteq_spec. intros id e He. cbn [dw_world]. rewrite Hold; [done|].
      destruct (Z.lt_ge_cases id (bm_next_id (manager_of n))) as [|Hge]; [done|]. by rewrite fresh_id in He.
    + unfold run, main, mtry. cbn [a_cmd a_host a_port func]. unfold cmd_cleanup. rewrite bind_assoc, bind_get.
      cbn [dw_manifests]. rewrite lookup_insert_eq.
      match goal with |- context [vindex "chunks" ?m] =>
        change (vindex "chunks" m) with (Ok (VList (local_entry <$> ids)));
        change (vindex "total_bytes" m) with (Ok (VInt (len (content_of src)))) end.
      rewrite bind_assoc. mrun. cbn [as_items]. rewrite bind_assoc. mrun. rewrite bind_assoc. mrun.
      rewrite bind_assoc. erewrite (bind_ok (on_world _)); [|unfold on_world; cbn [dw_world]; rewrite Hfr; reflexivity].
      cbn [dw_manifests dw_world Z.eqb]. rewrite bind_assoc, bind_modify. cbn [dw_manifests dw_world].
      unfold on_world, mbind_m. cbn [dw_world dw_manifests]. rewrite show_stats_node by done.
      cbn [dw_manifests]. by rewrite delete_insert_eq.
    + apply map_eq. intros id. cbn [dw_world]. rewrite Hb2. case_decide as Hid.
      * apply elem_of_seqZ in Hid. symmetry. apply fresh_id; [done|lia].
      * destruct (Z.lt_ge_cases id (bm_next_id (manager_of n))) as [|Hge]; [by apply Hold|].
        rewrite !fresh_id; [done|done|lia|done|]. rewrite Hnext.
        destruct (Z.lt_ge_cases id (bm_next_id (manager_of n) + len ps)); [|lia].
        destruct Hid. apply elem_of_seqZ. lia.
    + by trans n1.
    + done.
Qed.
End round.

(** ** Witnesses *)

#[local] Instance round_remote : Remote (Node managed unit) := {
  ro_store _ _ _ _ := mret (VInt 7);
  ro_load _ _ _ := mret None;
  ro_load_anywhere _ := mret None;
  ro_free _ _ := mret false;
  ro_connect _ _ := mret ""
}.

(** A node with three blocks and seven bytes to spare, and a file of five. *)
Definition round_node : Node managed unit := mkNode (demo_node "b") three_peers tt.
Definition one_file (path : string) : result bytes :=
  if decide (path = "/tmp/f.bin") then Ok (replicate 5 Byte.x2a) else Err (lib_exn OSError).

Lemma fmt_bytes_close_witness :
  exists unit scale tenths,
    (unit, scale) ∈ [("B", 1); ("KB", 2 ^ 10); ("MB", 2 ^ 20); ("GB", 2 ^ 30); ("TB", 2 ^ 40)] /\
    "1.5KB" = (pretty (tenths / 10) +:+ "." +:+ pretty (tenths mod 10)) +:+ unit /\
    2 * Z.abs (10 * 1536 - tenths * scale) <= scale /\ (tenths <= 10240 \/ unit = "TB").
Proof. apply (fmt_bytes_close 1536). lia. Defined.

Lemma watch_only_asks_witness :
  let run := main (fun _ _ => logged two_slots) one_file (fun _ => []) 3 (default_args default_watch)
               (mkDemo ([], 0) ∅) in
  (dw_world run.1).1 = replicate 3 stats_request /\ dw_manifests run.1 = ∅.
Proof.
  intros run. apply (watch_only_asks two_slots one_file (fun _ => []) "127.0.0.1" Config.RPC_TCP_PORT 500 3 [] 0 ∅ run.1 0);
    [|done]. unfold run. by vm_compute.
Defined.

Lemma refused_exits_1_witness :
  exists ms, main (fun _ _ _ => mraise (lib_exn ConnectionRefusedError)) one_file (fun _ => []) 0
    (default_args (default_upload (Some "/tmp/f.bin") None)) (mkDemo 0 ∅) = (mkDemo 0 ms, Ok 1).
Proof.
  apply (refused_exits_1 (lib_exn ConnectionRefusedError) eq_refl one_file (fun _ => []) 0 "127.0.0.1"
    Config.RPC_TCP_PORT (default_upload (Some "/tmp/f.bin") None) (mkDemo 0 ∅)).
  by exists (File "f.bin" (replicate 5 Byte.x2a)).
Defined.

