(* ===== verification/JsonUse.v ===== *)
(** * JSON at the program's interfaces

    The sizes of the requests and answers of the control plane in JSON, what
    that means for the limits of both ends. *)
From S2P Require Import Prelude Config PyVal Protocol Channel Handshake Utf8 Json JsonSpec.
From S2P Require Import RpcClient RpcServer RpcSpec RpcClientSpec RpcDispatch RpcDispatchSpec ReplicationSpec.
From S2P Require Import StoreInterface RpcAnswers Cli CliSpec Demo DemoSpec.
From Stdlib Require Import Ascii.

(** ** Hexadecimal text *)

Lemma escape_hexb d b : 0 <= d < 16 -> escape 0 0 (hexb d :: b) = hexb d :: escape 0 0 b.
Proof.
  intros Hd. cbn [escape]. rewrite (proj2 (Z.ltb_lt _ _)) by (by apply hexb_ascii).
  pose proof (sixteen (fun d => bool_decide (escape_char (Z_of_byte (hexb d)) = [hexb d])) d Hd eq_refl) as H.
  apply bool_decide_eq_true in H. by rewrite H.
Qed.

Lemma nibbles x : 0 <= Z_of_byte x / 16 < 16 /\ 0 <= Z_of_byte x mod 16 < 16.
Proof. pose proof (Z_of_byte_range x). Z.to_euclidean_division_equations. lia. Qed.

Lemma text_hex x data :
  text (bytes_hex (x :: data)) = hexb (Z_of_byte x / 16) :: hexb (Z_of_byte x mod 16) :: text (bytes_hex data).
Proof. done. Qed.

Lemma escape_hex data : escape 0 0 (text (bytes_hex data)) = text (bytes_hex data).
Proof.
  induction data as [|x data IH]; [done|]. destruct (nibbles x). by rewrite text_hex, !escape_hexb, IH.
Qed.

Lemma hex_valid data : utf8_valid (text (bytes_hex data)) = true.
Proof.
  apply ascii_valid. induction data as [|x data IH]; [constructor|]. destruct (nibbles x).
  rewrite text_hex. by repeat (constructor; [by apply hexb_ascii|]).
Qed.

Lemma len_hex data : len (text (bytes_hex data)) = 2 * len data.
Proof. induction data as [|x data IH]; [done|]. rewrite text_hex, !len_cons, IH. lia. Qed.

Lemma encode_hex data : encode_string (bytes_hex data) = [Byte.x22] ++ text (bytes_hex data) ++ [Byte.x22].
Proof. unfold encode_string. by rewrite escape_hex. Qed.

Section interfaces.
Context (float_repr : Z -> Z -> bytes) `{!FloatText float_repr} (float_of : bytes -> pyval).
Abbreviation json := (json_codec float_repr float_of).
Abbreviation json_doc := (json_doc float_repr float_of).

Lemma json_wire v raw :
  json_doc v = true -> c_enc json v = Ok raw -> len raw <= Config.MAX_RPC_MESSAGE_SIZE -> wire json v raw.
Proof. intros Hdoc He Hl. split; [done| |done]. by apply (codec_roundtrip (c := json)). Qed.

(** The length of a document that has hexadecimal text in it. *)
Ltac text_size :=
  repeat (rewrite len_app || rewrite len_cons); rewrite len_hex, ?len_nil;
  repeat match goal with |- context [len (encode_string ?s)] =>
    let n := eval vm_compute in (len (encode_string s)) in change (len (encode_string s)) with n end;
  lia.

(** ** The pieces of an upload *)

Lemma piece_text data :
  exists raw, c_enc json (VDict (store_piece data)) = Ok raw /\ len raw = 2 * len data + 55.
Proof.
  eexists. split; [cbn -[encode_string bytes_hex]; rewrite encode_hex; reflexivity|text_size].
Qed.

Lemma piece_doc data : json_doc (VDict (store_piece data)) = true.
Proof. cbn -[bytes_hex]. by rewrite hex_valid. Qed.

(** C37: every piece that an upload sends is within the limit, in JSON: run against
    a node whose RPC server runs without authentication, the demo client's frame
    reaches the dispatcher as exactly the store request of that piece, and the
    client gets the dispatcher's answer.  (With authentication on, as the daemon
    has it by default, the frame is taken for a failed authentication.) *)
Theorem piece_reaches_node {S} (hmac_sha256 : bytes -> bytes -> bytes) (msgpack : codec)
    (dispatch : pyval -> bool -> M S pyval) data token draw ack_raw v v_raw fuel (s s1 : S) :
  len data <= SAFE_CHUNK_BYTES -> written_as msgpack ack_doc ack_raw ->
  dispatch (VDict (store_piece data)) false s = (s1, Ok v) ->
  json_doc v = true -> c_enc json v = Ok v_raw -> len v_raw < 2 ^ 32 -> (1 < fuel)%nat ->
  exists raw rq,
    len raw <= Config.MAX_RPC_MESSAGE_SIZE /\
    _handle_client hmac_sha256 json msgpack dispatch fuel false token draw false
      (Conn (Reader (frame raw) []) (Writer [] false false), s)
      = ((Conn (Reader [] rq) (Writer (frame v_raw) false true), s1), Ok tt) /\
    exists segs, Demo._call json (store_piece data) ([], [frame v_raw]) = ((frame raw, segs), Ok v).
Proof.
  intros Hlen Hack Hd Hdoc Hv Hl Hfuel. destruct (piece_text data) as (raw & Hraw & Hsize).
  assert (len raw <= Config.MAX_RPC_MESSAGE_SIZE) as Hmax.
  { unfold SAFE_CHUNK_BYTES, Config.MAX_BLOCK_SIZE, Config.MAX_RPC_MESSAGE_SIZE in *.
    Z.to_euclidean_division_equations. lia. }
  assert (wire json (VDict (store_piece data)) raw) as Hwire by (by apply json_wire; [apply piece_doc|..]).
  destruct (handle_client_serves hmac_sha256 json msgpack dispatch false false [VDict (store_piece data)] [raw]
    [v_raw] token draw "" [] [] [] ack_raw fuel [] s) as [rq Hserve]; [done|done| | |done|].
  - constructor; [by apply wire_request|constructor].
  - cbn [serve_all]. rewrite Hd. constructor; [done|constructor].
  - exists raw, rq. split; [done|]. cbn [serve_all] in Hserve. rewrite Hd in Hserve. split.
    + unfold frames in Hserve. cbn in Hserve. by rewrite !app_nil_r in Hserve.
    + destruct (call_reads_frame json (store_piece data) raw v_raw v [frame v_raw] [] []) as (segs & Hc & _).
      * done.
      * unfold Config.MAX_RPC_MESSAGE_SIZE in Hmax. lia.
      * constructor; [|constructor]. by destruct v_raw.
      * cbn. by rewrite !app_nil_r.
      * done.
      * by apply (codec_roundtrip (c := json)).
      * by exists segs.
Qed.

(** ** The answer to a load *)

Lemma answer_text data :
  exists raw, c_enc json (_payload_response data false) = Ok raw /\ len raw = 2 * len data + 28.
Proof.
  eexists. split; [cbn -[encode_string bytes_hex]; rewrite encode_hex; reflexivity|text_size].
Qed.

Lemma answer_doc data : json_doc (_payload_response data false) = true.
Proof. cbn -[bytes_hex]. by rewrite hex_valid. Qed.

(** Loading a block in JSON works exactly up to half the limit of a message,
    less 14 bytes: the server sends the answer of a block of any size it
    stores, and the client raises when it is larger. *)
Theorem json_load_limit data out rest rq :
  len data <= Config.MAX_BLOCK_SIZE ->
  exists raw,
    write_rpc json (_payload_response data false) (Writer out false false)
      = (Writer (out ++ frame raw) false false, Ok tt) /\
    (len data <= Config.MAX_RPC_MESSAGE_SIZE / 2 - 14 ->
       outcome (_read_frame json) (Reader (frame raw ++ rest) rq) = Ok (_payload_response data false)) /\
    (Config.MAX_RPC_MESSAGE_SIZE / 2 - 14 < len data ->
       exists msg, outcome (_read_frame json) (Reader (frame raw ++ rest) rq) = Err (Exn ValueError msg)).
Proof.
  intros Hlen. destruct (answer_text data) as (raw & Hraw & Hsize). pose proof (len_nonneg data).
  unfold Config.MAX_BLOCK_SIZE in Hlen. change (Config.MAX_RPC_MESSAGE_SIZE / 2 - 14) with 4194290.
  exists raw. split; [apply write_rpc_ok; [done|lia]|]. split; intros Hl.
  - assert (wire json (_payload_response data false) raw) as [_ Hdec Hmax].
    { apply json_wire; [apply answer_doc|done|]. unfold Config.MAX_RPC_MESSAGE_SIZE. lia. }
    unfold outcome. by rewrite (client_read json raw _ rest rq Hmax Hdec).
  - apply (oversized_answer_unreadable json json false (_payload_response data false) raw [] rest rq Hraw).
    unfold Config.MAX_RPC_MESSAGE_SIZE. lia.
Qed.

(** ** What the command line prints *)

(** [json.dumps(resp, indent=2)] *)
Definition print_text (v : pyval) : result String.string :=
  let? b := dumps float_repr (Some 2%nat) v in Ok (str b).

(** The last thing a command prints is its answer as JSON: [loads] gives the
    answer back, and the exit code says whether its ["ok"] holds.  Only exit
    code 2 comes without an answer. *)
Theorem cli_output_is_json {S} py_str home files
    (rpc : String.string -> Z -> option String.string -> bool -> pydict -> M S pyval) args st st' code :
  _run py_str print_text home files rpc args st = (st', Ok code) -> code <> 2 ->
  exists resp line out ok,
    co_out st'.1 = out ++ [line] /\ (json_doc resp = true -> loads float_of (text line) = Ok resp) /\
    vget "ok" resp = Ok ok /\ code = (if truthy ok then 0 else 1).
Proof.
  intros Hrun Hcode. destruct (exit_code_meaning _ _ _ _ _ _ _ _ _ Hrun) as [[? _]|H]; [done|].
  destruct H as (resp & line & out & ok & Hout & Hline & Hok & Hc). exists resp, line, out, ok.
  split_and!; [done| |done|done]. intros Hdoc. unfold print_text in Hline.
  destruct (dumps _ _ resp) as [b|] eqn:Hb; [|done]. injection Hline as <-.
  unfold text, str, bytes_of_string. rewrite String.list_byte_of_string_of_list_byte.
  by eapply (loads_dumps float_repr float_of (Some 2%nat)).
Qed.

End interfaces.

(** ** Witnesses *)

#[local] Existing Instance demo_store.
#[local] Existing Instance eager_remote.

Definition count_dispatch (q : pyval) (binary : bool) : M nat pyval := fun n => (S n, Ok ok_doc).
Definition ack_codec : codec := table_codec [ack_doc].
Definition ok_raw : bytes := match dumps plain_repr None ok_doc with Ok b => b | Err _ => [] end.

Lemma piece_reaches_node_witness :
  let json := json_codec plain_repr plain_of in
  exists raw rq,
    len raw <= Config.MAX_RPC_MESSAGE_SIZE /\
    _handle_client (fun a b => a ++ b) json ack_codec count_dispatch 2 false "t" [] false
      (Conn (Reader (frame raw) []) (Writer [] false false), 0%nat)
      = ((Conn (Reader [] rq) (Writer (frame ok_raw) false true), 1%nat), Ok tt) /\
    exists segs, Demo._call json (store_piece [Byte.x0a; Byte.xff]) ([], [frame ok_raw]) = ((frame raw, segs), Ok ok_doc).
Proof.
  intros json.
  apply (piece_reaches_node plain_repr plain_of (fun a b => a ++ b) ack_codec count_dispatch [Byte.x0a; Byte.xff] "t" []
    (match c_enc ack_codec ack_doc with Ok b => b | Err _ => [] end) ok_doc ok_raw 2 0%nat 1%nat).
  - vm_compute. discriminate.
  - split; vm_compute; reflexivity.
  - reflexivity.
  - vm_compute. reflexivity.
  - vm_compute. reflexivity.
  - vm_compute. reflexivity.
  - lia.
Defined.

Lemma json_load_limit_witness :
  let json := json_codec plain_repr plain_of in
  exists raw,
    write_rpc json (_payload_response [Byte.x0a] false) (Writer [] false false)
      = (Writer ([] ++ frame raw) false false, Ok tt) /\
    outcome (_read_frame json) (Reader (frame raw ++ []) []) = Ok (_payload_response [Byte.x0a] false).
Proof.
  intros json. destruct (json_load_limit plain_repr plain_of [Byte.x0a] [] [] []) as (raw & Hw & Hr & _).
  { vm_compute. discriminate. }
  exists raw. split; [exact Hw|]. apply Hr. vm_compute. discriminate.
Defined.

Lemma cli_output_is_json_witness :
  let run := _run str_of (print_text plain_repr) "/root" token_dir (node_rpc str_of str_of None) in
  let st' := state_after (run (default_args OpStats)) (Console [] [], demo_host) in
  exists resp line out ok,
    co_out st'.1 = out ++ [line] /\ (json_doc plain_repr plain_of resp = true -> loads plain_of (text line) = Ok resp) /\
    vget "ok" resp = Ok ok /\ 0 = (if truthy ok then 0 else 1).
Proof.
  intros run st'.
  apply (cli_output_is_json plain_repr plain_of str_of "/root" token_dir (node_rpc str_of str_of None)
    (default_args OpStats) (Console [] [], demo_host) st' 0); [vm_compute; reflexivity|discriminate].
Defined.
