(* ===== verification/DemoRound.v ===== *)
(** * The demo against a node, over the socket

    The demo client's call, run byte for byte against the RPC server of a node
    whose authentication is off: the request's JSON text in a frame, the server's
    session, the frame of the answer in whatever segments the network makes of
    it, and the text decoded again.  Upload and clean-up are then the whole
    program on the whole node. *)
From S2P Require Import Prelude Config PyVal Protocol Channel Handshake Blocks BlocksFacts BlocksSpec Stripes BenchBlocks.
From S2P Require Import Utf8 Json JsonSpec StoreInterface RateLimit Mux Trust Peers Replication ReplicationSpec.
From S2P Require Import RpcServer RpcSpec RpcClientSpec RpcDispatch RpcDispatchSpec NodeStore.
From S2P Require Import Demo DemoSpec DemoMain DemoMainSpec JsonUse.
From Stdlib Require DecimalFacts.

(** ** The text of numbers *)

Lemma little_digits u :
  (Decimal.nb_digits (Decimal.Little.double u) <= S (Decimal.nb_digits u))%nat /\
  (Decimal.nb_digits (Decimal.Little.succ_double u) <= S (Decimal.nb_digits u))%nat.
Proof. induction u; cbn [Decimal.Little.double Decimal.Little.succ_double Decimal.nb_digits]; lia. Qed.

Lemma pos_digits p : (Decimal.nb_digits (Pos.to_uint p) <= Pos.size_nat p)%nat.
Proof.
  unfold Pos.to_uint. rewrite DecimalFacts.nb_digits_rev.
  induction p as [p IH|p IH|]; cbn [Pos.to_little_uint Pos.size_nat]; [..|done];
    destruct (little_digits (Pos.to_little_uint p)); lia.
Qed.

Lemma len_udigits u : len (udigits u) = Z.of_nat (Decimal.nb_digits u).
Proof. induction u; cbn [udigits Decimal.nb_digits]; rewrite ?len_cons, ?len_nil; lia. Qed.

Lemma int_text z : small z -> exists b, int_repr z = Ok b /\ len b <= 202.
Proof.
  assert (forall p, Zpos p < 2 ^ 200 -> len (udigits (Pos.to_uint p)) <= 201) as Hp.
  { intros p Hp. rewrite len_udigits. pose proof (pos_digits p).
    assert (p < 2 ^ 200)%positive as Hm by lia.
    apply Pos.size_nat_monotone in Hm. replace (Pos.size_nat (2 ^ 200)) with 201%nat in Hm by (by vm_compute). lia. }
  unfold small, int_repr, INT_MAX_STR_DIGITS. intros Hz. destruct z as [|p|p]; cbn [Z.to_int].
  - eexists. split; [reflexivity|]. by vm_compute.
  - specialize (Hp p Hz). rewrite (proj2 (Z.ltb_ge _ _)) by lia. eexists. split; [done|]. cbn [app]. lia.
  - specialize (Hp p Hz). rewrite (proj2 (Z.ltb_ge _ _)) by lia. eexists. split; [done|]. rewrite len_app, len_cons, len_nil. lia.
Qed.

(** ** The call over a socket *)

Section socket.
Context (float_repr : Z -> Z -> bytes) `{!FloatText float_repr} (float_of : bytes -> pyval).
Abbreviation json := (json_codec float_repr float_of).
Context {S : Type} (hmac_sha256 : bytes -> bytes -> bytes) (msgpack : codec) (dispatch : pyval -> bool -> M S pyval).
Context (token : string) (draw : bytes).
(** How the network cuts a stream into what [recv] finds. *)
Context (cut : bytes -> list bytes).

(** One call: the client sends, the server's session runs on what was sent (and
    then sees the client's end of the stream), the client reads the answer. *)
Definition socket_call (req : pydict) : M S pyval := fun s =>
  let sent := (fst (_call json req ([], []))).1 in
  let '((c, s'), _) := _handle_client hmac_sha256 json msgpack dispatch 2 false token draw false
                         (Conn (Reader sent []) (Writer [] false false), s) in
  (s', snd (_call json req ([], cut (wr_out (cn_writer c))))).

Context (cut_whole : forall b, concat (cut b) = b) (cut_some : forall b, Forall (fun seg : bytes => seg <> []) (cut b)).
Context (ack_raw : bytes) (Hack : written_as msgpack ack_doc ack_raw).

(** What is sent does not depend on the answer. *)
Lemma call_sends req raw :
  c_enc json (VDict req) = Ok raw -> len raw < 2 ^ 32 -> (fst (_call json req ([], []))).1 = frame raw.
Proof.
  intros He Hl. unfold _call. rewrite He. mrun. unfold pack_be. pose proof (len_nonneg raw).
  rewrite (proj2 (Z.leb_le _ _)) by lia.
  rewrite (proj2 (Z.ltb_lt (len raw) (256 ^ Z.of_nat 4))) by (change (256 ^ Z.of_nat 4) with (2 ^ 32); lia).
  cbn [andb]. mrun. cbn [fst snd]. done.
Qed.

Lemma socket_call_carries req raw v v_raw s s1 :
  wire json (VDict req) raw -> json_doc float_repr float_of v = true -> c_enc json v = Ok v_raw -> len v_raw < 2 ^ 32 ->
  dispatch (VDict req) false s = (s1, Ok v) -> socket_call req s = (s1, Ok v).
Proof.
  intros Hw Hdoc Hv Hl Hd. pose proof Hw as [Henc _ Hmax]. unfold Config.MAX_RPC_MESSAGE_SIZE in Hmax.
  unfold socket_call. rewrite (call_sends req raw Henc) by lia.
  destruct (handle_client_serves hmac_sha256 json msgpack dispatch false false [VDict req] [raw]
    [v_raw] token draw "" [] [] [] ack_raw 2 [] s) as [rq Hserve]; [done|done| | |cbn; lia|].
  - constructor; [by apply wire_request|constructor].
  - cbn [serve_all]. rewrite Hd. constructor; [done|constructor].
  - cbn [serve_all] in Hserve. rewrite Hd in Hserve. cbn [fst snd] in Hserve.
    assert (forall b, frames [b] = frame b) as Hone by (intros b; unfold frames; cbn [fmap list_fmap concat]; apply app_nil_r).
    rewrite !Hone in Hserve. cbn [app] in Hserve. cbn zeta. rewrite Hserve. cbn [cn_writer wr_out].
    destruct (call_reads_frame json req raw v_raw v (cut (frame v_raw)) [] []) as (segs & Hc & _);
      [done|lia|apply cut_some|by rewrite app_nil_r|done|by apply (codec_roundtrip (c := json))|].
    by rewrite Hc.
Qed.
End socket.

(** ** The demo's requests and answers in JSON *)

Section demo.
Context (float_repr : Z -> Z -> bytes) `{!FloatText float_repr} (float_of : bytes -> pyval).
Abbreviation json := (json_codec float_repr float_of).

(** A document and its text. *)
Definition texted (v : pyval) (bound : Z) : Prop :=
  json_doc float_repr float_of v = true /\ exists raw, c_enc json v = Ok raw /\ len raw <= bound.

Ltac number z := let b := fresh "b" in let H := fresh "Hb" in let L := fresh "Lb" in
  destruct (int_text z) as (b & H & L); [done|]; rewrite H.

Ltac sized_text :=
  cbn [bracket join separator newline app];
  repeat (rewrite len_app || rewrite len_cons); rewrite ?len_nil;
  repeat match goal with |- context [len (encode_string ?s)] =>
    let n := eval vm_compute in (len (encode_string s)) in change (len (encode_string s)) with n end;
  repeat match goal with |- context [len (text ?s)] =>
    let n := eval vm_compute in (len (text s)) in change (len (text s)) with n end;
  lia.

Lemma stored_texted id : small id -> texted (stored_doc id) 300.
Proof.
  intros Hs. split; [done|]. cbn -[encode_string int_repr]. number id. eexists. split; [reflexivity|]. sized_text.
Qed.

Lemma free_texted id : small id -> texted (VDict (free_req id)) 300.
Proof.
  intros Hs. split; [done|]. cbn -[encode_string int_repr]. number id. eexists. split; [reflexivity|]. sized_text.
Qed.

Lemma stats_texted s : small_stats s -> texted (VDict [("ok", VBool true); ("stats", stats_doc s)]) 1200.
Proof.
  unfold small_stats. rewrite !Forall_cons. intros (H1 & H2 & H3 & H4 & H5 & _). split; [done|].
  cbn -[encode_string int_repr]. number (used_bytes s). cbn [result_bind]. number (max_bytes s). cbn [result_bind].
  number (free_bytes s). cbn [result_bind]. number (block_count s). cbn [result_bind]. number (stripes s). cbn [result_bind].
  eexists. split; [reflexivity|]. sized_text.
Qed.

(** ** The round *)

Section round.
Context (py_hash : string -> Z) (env : nat -> rng * Z) (env_ok : forall n, RngOk (env n).1).
Context {W : Type} `{!Remote (Node managed W)} (py_str other_key : pyval -> string)
        (qrcode : option (string -> result string)).
Context (hmac_sha256 : bytes -> bytes -> bytes) (msgpack : codec) (token : string) (draw : bytes).
Context (cut : bytes -> list bytes) (ack_raw : bytes).
Abbreviation node := (Node managed W).
Abbreviation blocks_of n := (a_blocks (abs (manager_of n))).

(** A node's RPC server with authentication off. *)
Definition node_socket (req : pydict) : M node pyval :=
  socket_call float_repr float_of hmac_sha256 msgpack
    (@_dispatch managed W (managed_store py_hash env) _ py_str other_key qrcode) token draw cut req.

(** A network that loses nothing, and a msgpack that can write the server's
    acknowledgement. *)
Context (cut_whole : forall b, concat (cut b) = b) (cut_some : forall b, Forall (fun seg : bytes => seg <> []) (cut b)).
Context (Hack : written_as msgpack ack_doc ack_raw).

Lemma node_socket_carries : carries py_hash env py_str other_key qrcode node_socket.
Proof.
  assert (forall req v b n n', json_doc float_repr float_of (VDict req) = true ->
    (exists raw, c_enc json (VDict req) = Ok raw /\ len raw <= Config.MAX_RPC_MESSAGE_SIZE) -> texted v b -> b < 2 ^ 32 ->
    ask py_hash env py_str other_key qrcode req n = (n', Ok v) -> node_socket req n = (n', Ok v)) as Hall.
  { intros req v b n n' Hdr (raw & Hr & Hm) (Hdv & v_raw & Hv & Hl) Hb Hask.
    eapply (socket_call_carries _ _ _ _ _ _ _ _ cut_whole cut_some ack_raw Hack); [by apply json_wire|done|done|lia|exact Hask]. }
  split.
  - intros data id n n' Hlen Hs. apply (Hall _ _ 300); [apply piece_doc| |by apply stored_texted|done].
    destruct (piece_text float_repr float_of data) as (raw & Hraw & Hsize). exists raw. split; [done|]. rewrite Hsize.
    unfold SAFE_CHUNK_BYTES, Config.MAX_BLOCK_SIZE, Config.MAX_RPC_MESSAGE_SIZE in *.
    Z.to_euclidean_division_equations. lia.
  - intros id n n' Hs. destruct (free_texted id Hs) as (Hd & raw & Hraw & Hl).
    apply (Hall _ _ 300); [done| |split; [done|]|done].
    + exists raw. split; [done|]. unfold Config.MAX_RPC_MESSAGE_SIZE. lia.
    + eexists. split; [reflexivity|]. vm_compute. discriminate.
  - intros n Hs. pose (v := VDict [("ok", VBool true); ("stats", stats_doc (Blocks.stats (manager_of n)))]).
    assert (ask py_hash env py_str other_key qrcode stats_request n = (n, Ok v)) as Ha by done. rewrite Ha.
    apply (Hall _ v 1200); [done| |by apply stats_texted|done|done].
    eexists. split; [reflexivity|]. vm_compute. discriminate.
Qed.

End round.
End demo.

(** ** Witness *)

#[local] Existing Instance round_remote.

(** Three bytes at a time. *)
Definition by_three (b : bytes) : list bytes := pieces 3 b.

