(* ===== verification/BenchRpc.v ===== *)
(** * The RPC benchmarks ([bench/bench_rpc.py], [bench/bench_loop.py])

    The clients of the two benchmarks, byte for byte on their connection, and
    their runs against the server of [RpcServer] in front of a node: what is
    measured are stores and loads that succeed.  Time is not modelled. *)
From S2P Require Import Prelude Config PyVal Protocol Channel Handshake Blocks BlocksFacts BlocksSpec Stripes.
From S2P Require Import StoreInterface RateLimit Mux Trust Peers Replication ReplicationFacts ReplicationSpec.
From S2P Require Import RpcServer RpcSpec RpcDispatch RpcDispatchSpec RpcClientSpec BenchBlocks NodeStore.
From S2P Require Import Utf8 Json JsonSpec JsonUse.

(** ** Requests *)

(** [f"k{i}"] *)
Definition bench_key (i : Z) : string := "k" +:+ pretty i.

Definition bench_store (binary : bool) (data : bytes) (i : Z) : pyval :=
  VDict [("op", VStr "store"); payload_field binary data; ("key", VStr (bench_key i))].

Definition bench_load (i : Z) : pyval := VDict [("op", VStr "load"); ("key", VStr (bench_key i))].

(** ** The clients *)

Section clients.
Context (json msgpack : codec).

(** [writer.write(struct.pack(">I", len(raw)) + raw); await writer.drain()] *)
Definition send_raw (raw : bytes) : M conn unit :=
  prefix <- mlift (pack_be 4 (len raw));;
  conn_write (write_and_drain (prefix ++ raw)).

(** The length and the body of an answer; no limit is checked. *)
Definition recv_raw : M conn bytes :=
  len_bytes <- conn_read (readexactly 4);;
  conn_read (readexactly (unpack_be len_bytes)).

Definition _rt (raw : bytes) (binary : bool) : M conn pyval :=
  send_raw raw;;;
  body <- recv_raw;;
  mlift (c_dec (codec_of json msgpack binary) body).

(** [assert resp["ok"], resp] *)
Definition assert_ok (resp : pyval) : M conn unit :=
  v <- mlift (vindex "ok" resp);;
  if truthy v then mret tt else mraise (lib_exn AssertionError).

(** The two loops of [run_codec]; the first adds up [wire_bytes]. *)
Fixpoint store_loop (binary : bool) (payload : bytes) (i : Z) (n : nat) : M conn Z :=
  match n with
  | O => mret 0
  | S n =>
      req <- mlift (c_enc (codec_of json msgpack binary) (bench_store binary payload i));;
      resp <- _rt req binary;;
      assert_ok resp;;;
      total <- store_loop binary payload (i + 1) n;;
      mret (len req + total)
  end.

Fixpoint load_loop (binary : bool) (i : Z) (n : nat) : M conn unit :=
  match n with
  | O => mret tt
  | S n =>
      req <- mlift (c_enc (codec_of json msgpack binary) (bench_load i));;
      resp <- _rt req binary;;
      assert_ok resp;;;
      load_loop binary (i + 1) n
  end.

(** The preamble of a binary client: the magic, then the acknowledgement, which
    is read and not looked at. *)
Definition open_binary : M conn unit :=
  conn_write (write_and_drain Config.RPC_MSGPACK_MAGIC);;;
  _ <- recv_raw;;
  mret tt.

(** The result is the ["request_bytes"] of the report; [statistics.median]
    raises when nothing was measured. *)
Definition run_codec (binary : bool) (payload : bytes) (iterations : Z) : M conn Z :=
  (if binary then open_binary else mret tt);;;
  wire_bytes <- store_loop binary payload 0 (Z.to_nat iterations);;
  load_loop binary 0 (Z.to_nat iterations);;;
  mmodify conn_close;;;
  if iterations <=? 0 then mraise (lib_exn ValueError) else mret wire_bytes.

(** The client of [bench_loop.workload]: binary stores whose answers are read
    and not looked at. *)
Fixpoint workload_loop (payload : bytes) (i : Z) (n : nat) : M conn unit :=
  match n with
  | O => mret tt
  | S n =>
      raw <- mlift (c_enc msgpack (bench_store true payload i));;
      send_raw raw;;;
      _ <- recv_raw;;
      workload_loop payload (i + 1) n
  end.

Definition ITERATIONS : Z := 2000.

Definition workload (payload : bytes) : M conn unit :=
  open_binary;;;
  workload_loop payload 0 (Z.to_nat ITERATIONS);;;
  mmodify conn_close.
End clients.

(** ** The clients on their connection *)

Section client_facts.
Context (json msgpack : codec).
Abbreviation cdc := (codec_of json msgpack).

Lemma send_raw_run raw r out :
  len raw <= Config.MAX_RPC_MESSAGE_SIZE ->
  send_raw raw (Conn r (Writer out false false)) = (Conn r (Writer (out ++ frame raw) false false), Ok tt).
Proof.
  intros Hl. unfold send_raw, pack_be. pose proof (len_nonneg raw). unfold Config.MAX_RPC_MESSAGE_SIZE in Hl.
  change (256 ^ Z.of_nat 4) with 4294967296.
  rewrite (proj2 (Z.leb_le _ _)), (proj2 (Z.ltb_lt _ _)) by lia. cbn [andb]. by rewrite bind_lift_ok.
Qed.

Lemma recv_raw_run raw rest rq w :
  len raw < 2 ^ 32 ->
  recv_raw (Conn (Reader (frame raw ++ rest) rq) w) = (Conn (Reader rest (rq ++ [4; len raw])) w, Ok raw).
Proof.
  intros Hl. unfold recv_raw, frame. rewrite <-(assoc_L app). pose proof (len_nonneg raw).
  pose proof (readexactly_app (be_bytes 4 (len raw)) (raw ++ rest) rq) as H4. rewrite len_prefix in H4.
  rewrite (bind_ok _ _ _ _ _ (conn_read_run _ _ _ w _ H4)).
  rewrite unpack_be_bytes by (change (256 ^ Z.of_nat 4) with 4294967296; change (2 ^ 32) with 4294967296 in Hl; lia).
  rewrite (conn_read_run _ _ _ w _ (readexactly_app raw rest (rq ++ [4]))). by rewrite <-(assoc_L app).
Qed.

(** An answer that says it went well, on the wire. *)
Definition good (binary : bool) (v : pyval) (raw : bytes) : Prop :=
  c_dec (cdc binary) raw = Ok v /\ len raw < 2 ^ 32 /\ exists x, vindex "ok" v = Ok x /\ truthy x = true.

Lemma rt_run binary q req v raw rest rq out :
  wire (cdc binary) q req -> good binary v raw ->
  _rt json msgpack req binary (Conn (Reader (frame raw ++ rest) rq) (Writer out false false))
    = (Conn (Reader rest (rq ++ [4; len raw])) (Writer (out ++ frame req) false false), Ok v) /\
  forall c, assert_ok v c = (c, Ok tt).
Proof.
  intros [_ _ Hl] (Hd & Hr & x & Hx & Ht). unfold _rt, assert_ok. rewrite Hx. split; [|by intros c; mrun; rewrite Ht].
  rewrite (bind_ok _ _ _ _ _ (send_raw_run _ _ _ Hl)), (bind_ok _ _ _ _ _ (recv_raw_run _ _ _ _ Hr)), Hd. done.
Qed.

(** Requests [i .. i+n-1] of a phase and their wire forms. *)
Definition phase (f : Z -> pyval) (i : Z) (n : nat) : list pyval := (fun k => f (i + Z.of_nat k)) <$> seq 0 n.

Lemma phase_S f i n : phase f i (S n) = f i :: phase f (i + 1) n.
Proof.
  unfold phase. cbn [seq fmap list_fmap]. rewrite Z.add_0_r. f_equal.
  rewrite <-(fmap_S_seq 0 n), <-list_fmap_compose. apply list_fmap_ext. intros k x _. cbn. f_equal. lia.
Qed.

Lemma phase_requests c f i n raws :
  (forall i, exists d, f i = VDict d) -> Forall2 (wire c) (phase f i n) raws ->
  Forall2 (request_of c) (phase f i n) raws.
Proof.
  intros Hf. revert i raws. induction n as [|n IH]; intros i raws Hw.
  - apply Forall2_nil_inv_l in Hw as ->. constructor.
  - rewrite phase_S in *. apply Forall2_cons_inv_l in Hw as (raw & raws' & Hq & Hw & ->).
    constructor; [|by apply IH]. destruct (Hf i) as [d Hd]. rewrite Hd in *. by apply wire_request.
Qed.

Definition bytes_of (raws : list bytes) : Z := zsum (len <$> raws).

Lemma store_loop_run binary payload n : forall i raws vs outs rest rq out,
  Forall2 (wire (cdc binary)) (phase (bench_store binary payload) i n) raws ->
  Forall2 (good binary) vs outs -> length vs = n ->
  exists rq', store_loop json msgpack binary payload i n (Conn (Reader (frames outs ++ rest) rq) (Writer out false false))
    = (Conn (Reader rest rq') (Writer (out ++ frames raws) false false), Ok (bytes_of raws)).
Proof.
  induction n as [|n IH]; intros i raws vs outs rest rq out Hreq Hgood Hlen.
  - apply Forall2_nil_inv_l in Hreq as ->. destruct vs; [|done]. apply Forall2_nil_inv_l in Hgood as ->.
    exists rq. cbn. by rewrite app_nil_r.
  - rewrite phase_S in Hreq. apply Forall2_cons_inv_l in Hreq as (raw & raws' & Hq & Hreq & ->).
    destruct vs as [|v vs]; [done|]. apply Forall2_cons_inv_l in Hgood as (o & outs' & Hv & Hgood & ->).
    cbn [store_loop]. rewrite (wi_enc _ _ _ Hq), bind_lift_ok.
    change (frames (o :: outs')) with (frame o ++ frames outs'). rewrite <-(assoc_L app).
    destruct (rt_run binary _ raw v o (frames outs' ++ rest) rq out Hq Hv) as [Hrt Has].
    rewrite (bind_ok _ _ _ _ _ Hrt), (bind_ok _ _ _ _ _ (Has _)).
    destruct (IH (i + 1) raws' vs outs' rest (rq ++ [4; len o]) (out ++ frame raw) Hreq Hgood ltac:(cbn in Hlen; lia))
      as [rq' Hrun]. rewrite (bind_ok _ _ _ _ _ Hrun). exists rq'.
    change (frames (raw :: raws')) with (frame raw ++ frames raws'). rewrite (assoc_L app). done.
Qed.

Lemma load_loop_run binary n : forall i raws vs outs rest rq out,
  Forall2 (wire (cdc binary)) (phase bench_load i n) raws -> Forall2 (good binary) vs outs -> length vs = n ->
  exists rq', load_loop json msgpack binary i n (Conn (Reader (frames outs ++ rest) rq) (Writer out false false))
    = (Conn (Reader rest rq') (Writer (out ++ frames raws) false false), Ok tt).
Proof.
  induction n as [|n IH]; intros i raws vs outs rest rq out Hreq Hgood Hlen.
  - apply Forall2_nil_inv_l in Hreq as ->. destruct vs; [|done]. apply Forall2_nil_inv_l in Hgood as ->.
    exists rq. cbn. by rewrite app_nil_r.
  - rewrite phase_S in Hreq. apply Forall2_cons_inv_l in Hreq as (raw & raws' & Hq & Hreq & ->).
    destruct vs as [|v vs]; [done|]. apply Forall2_cons_inv_l in Hgood as (o & outs' & Hv & Hgood & ->).
    cbn [load_loop]. rewrite (wi_enc _ _ _ Hq), bind_lift_ok.
    change (frames (o :: outs')) with (frame o ++ frames outs'). rewrite <-(assoc_L app).
    destruct (rt_run binary _ raw v o (frames outs' ++ rest) rq out Hq Hv) as [Hrt Has].
    rewrite (bind_ok _ _ _ _ _ Hrt), (bind_ok _ _ _ _ _ (Has _)).
    destruct (IH (i + 1) raws' vs outs' rest (rq ++ [4; len o]) (out ++ frame raw) Hreq Hgood ltac:(cbn in Hlen; lia))
      as [rq' Hrun]. rewrite Hrun. exists rq'.
    change (frames (raw :: raws')) with (frame raw ++ frames raws'). rewrite (assoc_L app). done.
Qed.

Lemma open_binary_run ack rest rq :
  len ack < 2 ^ 32 ->
  exists rq', open_binary (Conn (Reader (frame ack ++ rest) rq) (Writer [] false false))
    = (Conn (Reader rest rq') (Writer Config.RPC_MSGPACK_MAGIC false false), Ok tt).
Proof.
  intros Hack. unfold open_binary. eexists. rewrite (bind_ok _ _ _ (Conn (Reader (frame ack ++ rest) rq)
      (Writer Config.RPC_MSGPACK_MAGIC false false)) tt) by done.
  by rewrite (bind_ok _ _ _ _ _ (recv_raw_run ack _ rq _ Hack)).
Qed.

(** The whole client, on the answers of the two phases. *)
Lemma run_codec_run binary payload n ack sraws lraws svs lvs souts louts rq :
  len ack < 2 ^ 32 -> 1 <= n ->
  Forall2 (wire (cdc binary)) (phase (bench_store binary payload) 0 (Z.to_nat n)) sraws ->
  Forall2 (wire (cdc binary)) (phase bench_load 0 (Z.to_nat n)) lraws ->
  Forall2 (good binary) svs souts -> Forall2 (good binary) lvs louts ->
  length svs = Z.to_nat n -> length lvs = Z.to_nat n ->
  exists rq', run_codec json msgpack binary payload n
      (Conn (Reader ((if binary then frame ack else []) ++ frames (souts ++ louts)) rq) (Writer [] false false))
    = (Conn (Reader [] rq') (Writer ((if binary then Config.RPC_MSGPACK_MAGIC else []) ++ frames (sraws ++ lraws))
         false true), Ok (bytes_of sraws)).
Proof.
  intros Hack Hn Hs Hl Hgs Hgl Hns Hnl.
  assert (forall a b : list bytes, frames (a ++ b) = frames a ++ frames b) as Happ
    by (intros a b; unfold frames; by rewrite fmap_app, concat_app).
  unfold run_codec. set (out0 := if binary then Config.RPC_MSGPACK_MAGIC else []).
  assert (exists rq0, (if binary then open_binary else mret tt)
      (Conn (Reader ((if binary then frame ack else []) ++ frames (souts ++ louts)) rq) (Writer [] false false))
    = (Conn (Reader (frames souts ++ frames louts ++ []) rq0) (Writer out0 false false), Ok tt)) as [rq0 H0].
  { rewrite Happ, !app_nil_r. destruct binary; [|by exists rq]. by apply open_binary_run. }
  rewrite (bind_ok _ _ _ _ _ H0).
  destruct (store_loop_run binary payload (Z.to_nat n) 0 sraws svs souts (frames louts ++ []) rq0 out0 Hs Hgs Hns)
    as [rq1 H1]. rewrite (bind_ok _ _ _ _ _ H1).
  destruct (load_loop_run binary (Z.to_nat n) 0 lraws lvs louts [] rq1 (out0 ++ frames sraws) Hl Hgl Hnl) as [rq2 H2].
  rewrite (bind_ok _ _ _ _ _ H2), bind_modify. rewrite (proj2 (Z.leb_gt _ _)) by lia.
  exists rq2. unfold conn_close, mret. cbn [cn_reader cn_writer wr_out wr_lost]. by rewrite Happ, (assoc_L app).
Qed.

Lemma workload_loop_run payload n : forall i raws outs rest rq out,
  Forall2 (wire msgpack) (phase (bench_store true payload) i n) raws ->
  Forall (fun o : bytes => len o < 2 ^ 32) outs -> length outs = n ->
  exists rq', workload_loop msgpack payload i n (Conn (Reader (frames outs ++ rest) rq) (Writer out false false))
    = (Conn (Reader rest rq') (Writer (out ++ frames raws) false false), Ok tt).
Proof.
  induction n as [|n IH]; intros i raws outs rest rq out Hreq Hout Hlen.
  - apply Forall2_nil_inv_l in Hreq as ->. destruct outs; [|done]. exists rq. cbn. by rewrite app_nil_r.
  - rewrite phase_S in Hreq. apply Forall2_cons_inv_l in Hreq as (raw & raws' & Hq & Hreq & ->).
    destruct outs as [|o outs]; [done|]. apply Forall_cons in Hout as [Ho Hout].
    cbn [workload_loop]. rewrite (wi_enc _ _ _ Hq), bind_lift_ok.
    rewrite (bind_ok _ _ _ _ _ (send_raw_run _ _ _ (wi_len _ _ _ Hq))).
    change (frames (o :: outs)) with (frame o ++ frames outs). rewrite <-(assoc_L app).
    rewrite (bind_ok _ _ _ _ _ (recv_raw_run _ _ _ _ Ho)).
    destruct (IH (i + 1) raws' outs rest (rq ++ [4; len o]) (out ++ frame raw) Hreq Hout ltac:(cbn in Hlen; lia))
      as [rq' Hrun]. rewrite Hrun. exists rq'.
    change (frames (raw :: raws')) with (frame raw ++ frames raws'). by rewrite (assoc_L app).
Qed.
End client_facts.

(** ** The node behind the server *)

Section node.
Context (py_hash : string -> Z) (env : nat -> rng * Z) (env_ok : forall n, RngOk (env n).1).
#[local] Instance bench_blocks : BlockStore managed := managed_store py_hash env.
Context {W : Type} `{!Remote (Node managed W)} (py_str other_key : pyval -> string)
        (qrcode : option (string -> result string)).
Abbreviation dispatch := (_dispatch py_str other_key qrcode (B := managed) (W := W)).

Lemma bench_store_payload binary data i : request_payload (bench_store binary data i) = Ok (Some data).
Proof.
  destruct binary; [done|]. unfold request_payload.
  change (vget "data" (bench_store false data i)) with (Ok VNone). cbn [result_bind].
  change (vget "data_hex" (bench_store false data i)) with (Ok (VStr (bytes_hex data))).
  cbn [result_bind]. by rewrite fromhex_hex.
Qed.

Lemma bench_store_dispatch binary data i n :
  Inv py_hash (manager_of n) -> len data <= Config.MAX_BLOCK_SIZE ->
  a_used (a_blocks (abs (manager_of n))) + len data <= bm_max (manager_of n) ->
  exists n' now, dispatch (bench_store binary data i) binary n = (n', Ok (stored_doc (bm_next_id (manager_of n)))) /\
    Inv py_hash (manager_of n') /\
    abs (manager_of n')
      = (ref_exec (OpStore rng_id now data PINNED (Some (bench_key i))) (abs (manager_of n))).1.
Proof.
  intros HI Hlen Hfit.
  destruct (store_dispatch py_hash env env_ok py_str other_key qrcode (bench_store binary data i) binary data
    (VStr (bench_key i)) (Some (bench_key i)) n) as (bm & now & Hd & HI' & Ha & _); [by destruct binary| |by destruct binary..|done|done|done|done|].
  - apply bench_store_payload.
  - by exists (with_manager bm n), now.
Qed.

(** Key [i] names a block with these bytes. *)
Definition keeps (data : bytes) (n : Node managed W) (i : Z) : Prop :=
  exists id e, a_blocks (abs (manager_of n)) !! id = Some e /\ e_key e = Some (bench_key i) /\ e_data e = data.

Lemma bench_load_dispatch binary data i n :
  Inv py_hash (manager_of n) -> keeps data n i ->
  exists n', dispatch (bench_load i) binary n = (n', Ok (_payload_response data binary)) /\
    Inv py_hash (manager_of n') /\ forall j d, keeps d n j -> keeps d n' j.
Proof.
  intros HI (id & e & He & Hk & Hd). pose proof HI as [HS HK]. rewrite (abs_lookup _ _ _ _ HS) in He.
  assert (lookup_key py_hash (manager_of n) (bench_key i) = Some id) as Hkey by (apply HK; by exists e).
  set (now := (env (mg_tick (rc_blocks (nd_rep n)))).2).
  destruct (load_spec py_hash (manager_of n) now id HI) as (bm' & Hl & HI' & _ & _ & Hb & _).
  rewrite He in Hl. cbn [fmap option_fmap option_map] in Hl. rewrite Hd in Hl.
  exists (mkNode (with_blocks (Managed bm' (S (mg_tick (rc_blocks (nd_rep n))))) (nd_rep n)) (nd_pm n) (nd_world n)).
  split; [|split; [done|]].
  - rewrite (dispatch_load py_str other_key qrcode) by done. unfold op_load.
    change (vmem "block_id" (bench_load i)) with (Ok false). mrun.
    change (vindex "key" (bench_load i)) with (Ok (VStr (bench_key i))). rewrite bind_assoc. mrun.
    unfold load_key_value. cbn [hashable key_arg]. rewrite bind_assoc.
    assert (on_rep (on_blocks (bs_load_by_key (bench_key i))) n
      = (mkNode (with_blocks (Managed bm' (S (mg_tick (rc_blocks (nd_rep n))))) (nd_rep n)) (nd_pm n) (nd_world n),
         Ok (Some data))) as Hr.
    { apply on_rep_run, on_blocks_run, ticking_run. rewrite load_by_key_spec by done.
      unfold manager_of in Hkey. by rewrite Hkey. }
    by rewrite (bind_ok _ _ _ _ _ Hr).
  - intros j d (id' & e' & He' & Hk' & Hd'). rewrite (abs_lookup _ _ _ _ HS) in He'.
    unfold keeps. cbn [manager_of nd_rep with_blocks rc_blocks mg_blocks].
    exists id'. destruct HI' as [HS' _]. setoid_rewrite (abs_lookup _ _ _ id' HS').
    rewrite Hb. destruct (decide (id' = id)) as [->|]; [|by exists e'].
    assert (e' = e) as -> by congruence. exists (touch now e). by rewrite He.
Qed.

Lemma bench_key_inj i j : bench_key i = bench_key j -> i = j.
Proof. unfold bench_key. intros H. apply (inj (String.append "k")) in H. by apply (inj pretty) in H. Qed.

(** A store adds its key and keeps the others. *)
Lemma store_keeps now data i n n' :
  Inv py_hash (manager_of n) -> len data <= Config.MAX_BLOCK_SIZE ->
  abs (manager_of n') = (ref_exec (OpStore rng_id now data PINNED (Some (bench_key i))) (abs (manager_of n))).1 ->
  keeps data n' i /\ forall j d, j <> i -> keeps d n j -> keeps d n' j.
Proof.
  intros HI Hlen Ha. cbn [ref_exec] in Ha. rewrite (proj2 (Z.ltb_ge _ _) Hlen) in Ha. cbn [fst] in Ha.
  unfold keeps. rewrite Ha. cbn [a_blocks]. split.
  - eexists _, _. by rewrite lookup_insert_eq.
  - intros j d Hne (id & e & He & Hk & Hd). exists id, e. split; [|done].
    assert (id <> a_next (abs (manager_of n))) as Hid.
    { destruct HI as [HS _]. rewrite (abs_lookup _ _ _ _ HS) in He.
      pose proof (lookup_block_bounds _ _ _ _ _ HS He) as Hb. cbn. lia. }
    rewrite lookup_insert_ne by congruence.
    change (Some (bench_key i) ≫= holder (a_blocks (abs (manager_of n))))
      with (holder (a_blocks (abs (manager_of n))) (bench_key i)).
    pose proof (holder_spec (a_blocks (abs (manager_of n))) (bench_key i)) as Hh.
    destruct (holder _ _) as [p|]; cbn [drop_opt]; [|done]. destruct Hh as (e' & He' & Hk').
    rewrite lookup_delete_ne; [done|]. intros ->. rewrite He in He'. injection He' as <-.
    rewrite Hk in Hk'. assert (bench_key j = bench_key i) as Hj%bench_key_inj by congruence. done.
Qed.

Abbreviation serve := (serve_all dispatch).

Lemma serve_all_app binary l1 l2 n :
  serve binary (l1 ++ l2) n
    = ((serve binary l2 (serve binary l1 n).1).1, (serve binary l1 n).2 ++ (serve binary l2 (serve binary l1 n).1).2).
Proof.
  revert n. induction l1 as [|q l1 IH]; intros n; cbn [app serve_all fst snd]; [by destruct (serve _ _ _)|].
  destruct (dispatch q binary n) as [n1 r]. rewrite IH. by destruct (serve binary l1 n1) as [n2 vs].
Qed.

Lemma serve_stores binary data k : forall i n,
  Inv py_hash (manager_of n) -> len data <= Config.MAX_BLOCK_SIZE ->
  a_used (a_blocks (abs (manager_of n))) + Z.of_nat k * len data <= bm_max (manager_of n) ->
  exists n' vs, serve binary (phase (bench_store binary data) i k) n = (n', vs) /\ length vs = k /\
    Forall (fun v => exists id, v = stored_doc id) vs /\ Inv py_hash (manager_of n') /\
    (forall j, i <= j < i + Z.of_nat k -> keeps data n' j) /\
    (forall j d, j < i -> keeps d n j -> keeps d n' j).
Proof.
  induction k as [|k IH]; intros i n HI Hlen Hfit.
  { exists n, []. split_and!; try done. intros j Hj. lia. }
  pose proof (len_nonneg data) as Hnn.
  destruct (bench_store_dispatch binary data i n HI Hlen ltac:(lia)) as (n1 & now & Hd & HI1 & Ha1).
  destruct (store_keeps now data i n n1 HI Hlen Ha1) as [Hk1 Hold].
  assert (forall id e, a_blocks (abs (manager_of n)) !! id = Some e -> id < a_next (abs (manager_of n))) as Hlt.
  { intros id e He. destruct HI as [HS _]. rewrite (abs_lookup _ _ _ _ HS) in He.
    pose proof (lookup_block_bounds _ _ _ _ _ HS He) as Hb. cbn. lia. }
  destruct (ref_exec_used (OpStore rng_id now data PINNED (Some (bench_key i))) _ Hlt) as [Hm Hu].
  rewrite <-Ha1 in Hm, Hu. cbn [op_bytes] in Hu.
  change (a_max (abs (manager_of n1))) with (bm_max (manager_of n1)) in Hm.
  change (a_max (abs (manager_of n))) with (bm_max (manager_of n)) in Hm.
  destruct (IH (i + 1) n1 HI1 Hlen ltac:(lia)) as (n2 & vs & Hs & Hl & Hv & HI2 & Hnew & Hkeep).
  exists n2, (stored_doc (bm_next_id (manager_of n)) :: vs). rewrite phase_S. cbn [serve_all]. rewrite Hd, Hs.
  split_and!; try done.
  - cbn. by rewrite Hl.
  - constructor; [by eexists|done].
  - intros j Hj. destruct (decide (j = i)) as [->|Hne]; [apply Hkeep; [lia|done]|apply Hnew; lia].
  - intros j d Hj Hkj. apply Hkeep; [lia|]. apply Hold; [lia|done].
Qed.

Lemma serve_loads binary data k : forall i n,
  Inv py_hash (manager_of n) -> (forall j, i <= j < i + Z.of_nat k -> keeps data n j) ->
  exists n', serve binary (phase bench_load i k) n = (n', replicate k (_payload_response data binary)).
Proof.
  induction k as [|k IH]; intros i n HI Hk; [by exists n|].
  destruct (bench_load_dispatch binary data i n HI (Hk i ltac:(lia))) as (n1 & Hd & HI1 & Hkeep).
  destruct (IH (i + 1) n1 HI1) as [n2 Hs]; [intros j Hj; apply Hkeep, Hk; lia|].
  exists n2. rewrite phase_S. cbn [serve_all replicate]. by rewrite Hd, Hs.
Qed.
(** ** Properties *)

(** [raw] carries [v] through a frame: encoded, decoded again, and a length that
    fits the prefix. *)
Definition carries (c : codec) (v : pyval) (raw : bytes) : Prop :=
  c_enc c v = Ok raw /\ c_dec c raw = Ok v /\ len raw < 2 ^ 32.

Context (hmac_sha256 : bytes -> bytes -> bytes) (json msgpack : codec).
Abbreviation cdc := (codec_of json msgpack).

(** The codec benchmark measures what it says, in either codec: against the
    server without authentication and a store with room for the payloads, all
    its assertions hold, every load answers with the payload that was stored,
    client and server exchange exactly each other's bytes to the end, and the
    reported count is the sum of the lengths of the store requests. *)
Theorem bench_codec_runs binary payload iterations token draw ack sraws lraws outs fuel n :
  1 <= iterations -> Inv py_hash (manager_of n) -> len payload <= Config.MAX_BLOCK_SIZE ->
  a_used (a_blocks (abs (manager_of n))) + iterations * len payload <= bm_max (manager_of n) ->
  written_as msgpack ack_doc ack ->
  let stores := phase (bench_store binary payload) 0 (Z.to_nat iterations) in
  let loads := phase bench_load 0 (Z.to_nat iterations) in
  Forall2 (wire (cdc binary)) stores sraws -> Forall2 (wire (cdc binary)) loads lraws ->
  Forall2 (carries (cdc binary)) (serve_all dispatch binary (stores ++ loads) n).2 outs ->
  (length (stores ++ loads) < fuel)%nat ->
  let up := (if binary then Config.RPC_MSGPACK_MAGIC else []) ++ frames (sraws ++ lraws) in
  let down := (if binary then frame ack else []) ++ frames outs in
  (exists rq, run_codec json msgpack binary payload iterations (Conn (Reader down []) (Writer [] false false))
     = (Conn (Reader [] rq) (Writer up false true), Ok (zsum (len <$> sraws)))) /\
  (exists rq n', _handle_client hmac_sha256 json msgpack dispatch fuel false token draw false
     (Conn (Reader up []) (Writer [] false false), n) = ((Conn (Reader [] rq) (Writer down false true), n'), Ok tt)) /\
  drop (Z.to_nat iterations) (serve_all dispatch binary (stores ++ loads) n).2
    = replicate (Z.to_nat iterations) (_payload_response payload binary).
Proof.
  intros Hit HI Hlen Hfit Hack stores loads Hs Hl Houts Hfuel up down.
  destruct (serve_stores binary payload (Z.to_nat iterations) 0 n HI Hlen)
    as (n1 & vs & Hserve1 & Hvl & Hv & HI1 & Hkeep & _); [rewrite Z2Nat.id by lia; done|].
  destruct (serve_loads binary payload (Z.to_nat iterations) 0 n1 HI1)
    as (n2 & Hserve2); [done|].
  fold stores in Hserve1. fold loads in Hserve2.
  assert (serve_all dispatch binary (stores ++ loads) n
    = (n2, vs ++ replicate (Z.to_nat iterations) (_payload_response payload binary))) as Hall.
  { rewrite serve_all_app, Hserve1. cbn [fst snd]. by rewrite Hserve2. }
  rewrite Hall in Houts |- *. cbn [snd] in Houts |- *.
  apply Forall2_app_inv_l in Houts as (souts & louts & Hso & Hlo & ->).
  assert (Forall2 (good json msgpack binary) vs souts) as Hgs.
  { revert Hv. clear -Hso. induction Hso as [|v raw l1 l2 (_ & Hd & Hr) _ IH]; intros Hv; [constructor|].
    apply Forall_cons in Hv as [[id ->] Hv]. constructor; [|by apply IH]. split_and!; [done|done|].
    by exists (VBool true). }
  assert (Forall2 (good json msgpack binary) (replicate (Z.to_nat iterations) (_payload_response payload binary))
    louts) as Hgl.
  { clear -Hlo. remember (replicate _ _) as l eqn:El. revert El. generalize (Z.to_nat iterations).
    induction Hlo as [|v raw l1 l2 (_ & Hd & Hr) _ IH]; intros k El; [constructor|].
    destruct k as [|k]; [done|]. injection El as -> El. constructor; [|by apply (IH k)].
    split_and!; [done|done|]. exists (VBool true). by destruct binary. }
  split; [|split].
  - destruct (run_codec_run json msgpack binary payload iterations ack sraws lraws vs
      (replicate (Z.to_nat iterations) (_payload_response payload binary)) souts louts [])
      as [rq Hrun]; [apply Hack|done|done|done|done|done|done|by rewrite length_replicate|].
    exists rq. exact Hrun.
  - destruct (handle_client_serves hmac_sha256 json msgpack dispatch false binary (stores ++ loads) (sraws ++ lraws)
      (souts ++ louts) token draw "" [] [] [] ack fuel [] n) as [rq Hh]; [done|done| | |done|].
    + apply Forall2_app; (eapply phase_requests; [|eassumption]); intros i; by eexists.
    + rewrite Hall. cbn [snd]. apply Forall2_app; (eapply Forall2_impl; [exact Hso || exact Hlo|]);
        intros v raw (He & _ & Hr); exact (conj He Hr).
    + exists rq, (serve_all dispatch binary (stores ++ loads) n).1. exact Hh.
  - rewrite drop_app_ge by lia. by rewrite Hvl, Nat.sub_diag, drop_0.
Qed.

(** The event-loop benchmark runs to its end against the server: two thousand
    binary stores, each answered, whatever the answers say. *)
Theorem bench_loop_runs payload token draw ack raws outs fuel n :
  written_as msgpack ack_doc ack ->
  let stores := phase (bench_store true payload) 0 (Z.to_nat ITERATIONS) in
  Forall2 (wire msgpack) stores raws ->
  Forall2 (written_as msgpack) (serve_all dispatch true stores n).2 outs ->
  (length stores < fuel)%nat ->
  let up := Config.RPC_MSGPACK_MAGIC ++ frames raws in
  let down := frame ack ++ frames outs in
  (exists rq, workload msgpack payload (Conn (Reader down []) (Writer [] false false))
     = (Conn (Reader [] rq) (Writer up false true), Ok tt)) /\
  (exists rq n', _handle_client hmac_sha256 json msgpack dispatch fuel false token draw false
     (Conn (Reader up []) (Writer [] false false), n) = ((Conn (Reader [] rq) (Writer down false true), n'), Ok tt)).
Proof.
  intros Hack stores Hreq Hout Hfuel up down. split.
  - unfold workload. destruct (open_binary_run ack (frames outs) [] (proj2 Hack)) as [rq1 H1].
    rewrite (bind_ok _ _ _ _ _ H1).
    destruct (workload_loop_run msgpack payload (Z.to_nat ITERATIONS) 0 raws outs [] rq1 Config.RPC_MSGPACK_MAGIC Hreq)
      as [rq2 H2].
    + clear -Hout. induction Hout as [|v o l1 l2 [_ Hl] _ IH]; constructor; done.
    + rewrite <-(Forall2_length _ _ _ Hout).
      assert (forall binary l n, length (serve_all dispatch binary l n).2 = length l) as Hlen.
      { intros binary l. induction l as [|q l IH]; intros n0; cbn [serve_all]; [done|].
        destruct (dispatch q binary n0) as [n1 r]. specialize (IH n1).
        destruct (serve_all dispatch binary l n1). cbn in *. by rewrite IH. }
      rewrite Hlen. unfold stores, phase. by rewrite length_fmap, length_seq.
    + rewrite app_nil_r in H2. rewrite (bind_ok _ _ _ _ _ H2). by exists rq2.
  - destruct (handle_client_serves hmac_sha256 json msgpack dispatch false true stores raws outs token draw
      "" [] [] [] ack fuel [] n) as [rq Hh]; [done|done| |done|done|].
    + eapply phase_requests; [|exact Hreq]. intros i. by eexists.
    + exists rq, (serve_all dispatch true stores n).1. exact Hh.
Qed.
End node.

(** ** The size of the requests in JSON *)

Section json_size.
Context (float_repr : Z -> Z -> bytes) (float_of : bytes -> pyval).
Abbreviation json := (json_codec float_repr float_of).

Lemma bench_store_text payload i :
  exists raw, c_enc json (bench_store false payload i) = Ok raw /\
    len raw = 2 * len payload + 40 + len (encode_string (bench_key i)).
Proof.
  eexists. split; [cbn -[encode_string bytes_hex bench_key]; rewrite encode_hex; reflexivity|].
  repeat (rewrite len_app || rewrite len_cons). rewrite len_hex, ?len_nil.
  set (k := len (encode_string (bench_key i))).
  repeat match goal with |- context [len (encode_string ?s)] =>
    let n := eval vm_compute in (len (encode_string s)) in change (len (encode_string s)) with n end.
  lia.
Qed.

(** The figure reported for the JSON codec: two characters for every payload
    byte, and the rest of the request. *)
Theorem json_request_bytes payload i n :
  exists raws, Forall2 (fun v raw => c_enc json v = Ok raw) (phase (bench_store false payload) i n) raws /\
    bytes_of raws = Z.of_nat n * (2 * len payload + 40)
      + zsum ((fun k => len (encode_string (bench_key (i + Z.of_nat k)))) <$> seq 0 n).
Proof.
  revert i. induction n as [|n IH]; intros i; [by exists []|].
  destruct (bench_store_text payload i) as (raw & He & Hl). destruct (IH (i + 1)) as (raws & Hr & Hb).
  exists (raw :: raws). rewrite phase_S. split; [by constructor|].
  unfold bytes_of in *. cbn [fmap list_fmap seq]. rewrite !zsum_cons, Hb, Hl, Z.add_0_r.
  replace ((fun k => len (encode_string (bench_key (i + Z.of_nat k)))) <$> seq 1 n)
    with ((fun k => len (encode_string (bench_key (i + 1 + Z.of_nat k)))) <$> seq 0 n); [lia|].
  rewrite <-(fmap_S_seq 0 n), <-list_fmap_compose. apply list_fmap_ext. intros k x _. unfold compose.
  by replace (i + Z.of_nat (S x)) with (i + 1 + Z.of_nat x) by lia.
Qed.
End json_size.

(** ** Witnesses *)

Definition bench_payload : bytes := [Byte.x07].

Definition bench_docs : list pyval :=
  phase (bench_store true bench_payload) 0 2 ++ phase bench_load 0 2 ++
  [ack_doc; stored_doc 4; stored_doc 5; _payload_response bench_payload true].

Definition bench_codec : codec := table_codec bench_docs.

#[local] Instance bench_remote : Remote (Node managed unit) := {
  ro_store _ _ _ _ := mret (VInt 7);
  ro_load _ _ _ := mret None;
  ro_load_anywhere _ := mret None;
  ro_free _ _ := mret false;
  ro_connect _ _ := mret ""
}.

Definition bench_host : Node managed unit := mkNode (demo_node "b") three_peers tt.
Definition bench_raw (i : Z) : bytes := be_bytes 2 i.

Lemma bench_wire v i :
  c_enc bench_codec v = Ok (bench_raw i) -> c_dec bench_codec (bench_raw i) = Ok v -> 0 <= i < 8 ->
  wire bench_codec v (bench_raw i).
Proof. intros H1 H2 Hi. split; [done|done|]. unfold bench_raw, len. rewrite length_be_bytes. by vm_compute. Qed.

Lemma bench_codec_runs_witness :
  exists rq, run_codec bench_codec bench_codec true bench_payload 2
      (Conn (Reader (frame (bench_raw 4) ++ frames [bench_raw 5; bench_raw 6; bench_raw 7; bench_raw 7]) [])
         (Writer [] false false))
    = (Conn (Reader [] rq) (Writer (Config.RPC_MSGPACK_MAGIC ++
         frames [bench_raw 0; bench_raw 1; bench_raw 2; bench_raw 3]) false true), Ok 4).
Proof.
  assert (forall i, wire bench_codec (default VNone (bench_docs !! Z.to_nat i)) (bench_raw i) \/ ~ 0 <= i < 8) as Hw.
  { intros i. destruct (decide (0 <= i < 8)) as [Hi|Hi]; [left|by right].
    assert (i = 0 \/ i = 1 \/ i = 2 \/ i = 3 \/ i = 4 \/ i = 5 \/ i = 6 \/ i = 7) as Hc by lia.
    destruct_or! Hc; subst i; (apply bench_wire; [by vm_compute|by vm_compute|lia]). }
  assert (forall i, 0 <= i < 8 -> wire bench_codec (default VNone (bench_docs !! Z.to_nat i)) (bench_raw i)) as Hwire
    by (intros i Hi; by destruct (Hw i)).
  assert (forall i, 0 <= i < 8 -> carries bench_codec (default VNone (bench_docs !! Z.to_nat i)) (bench_raw i)) as Hc.
  { intros i Hi. destruct (Hwire i Hi) as [H1 H2 _]. split_and!; [done|done|].
    unfold bench_raw, len. rewrite length_be_bytes. by vm_compute. }
  refine (proj1 (bench_codec_runs hash0 demo_env (fun _ => rng_id_ok) (fun v => "") (fun v => "") None (fun _ _ => [])
    bench_codec bench_codec true bench_payload 2 "" [] (bench_raw 4) [bench_raw 0; bench_raw 1]
    [bench_raw 2; bench_raw 3] [bench_raw 5; bench_raw 6; bench_raw 7; bench_raw 7] 5 bench_host _ _ _ _ _ _ _ _ _)).
  - lia.
  - apply demo_Inv.
  - by vm_compute.
  - by vm_compute.
  - split; [by vm_compute|by vm_compute].
  - constructor; [apply (Hwire 0); lia|constructor; [apply (Hwire 1); lia|constructor]].
  - constructor; [apply (Hwire 2); lia|constructor; [apply (Hwire 3); lia|constructor]].
  - match goal with |- Forall2 _ ?l _ => let l' := eval vm_compute in l in change l with l' end.
    constructor; [apply (Hc 5); lia|constructor; [apply (Hc 6); lia|constructor; [apply (Hc 7); lia|
      constructor; [apply (Hc 7); lia|constructor]]]].
  - vm_compute. lia.
Defined.
